(* ===== verification/_CoqProject ===== *)
-Q . S2P
Prelude.v
GoStd.v
Json.v
Model.v
GraphCodec.v
CodecSpec.v
Graph.v
GraphTheory.v
GraphSpec.v
World.v
WorldTheory.v
Repository.v
Queries.v
Lifecycle.v
RepositoryTheory.v
Invariants.v
QueriesTheory.v
RepositorySpec.v
Service.v
Assignments.v
ServiceSpec.v
DraftsSpec.v
Execute.v
ExecuteSpec.v
ExecuteWalk.v
Progress.v
Activities.v
ActivitiesSpec.v
System.v
PathMatch.v
Config.v
ConfigSpec.v
Database.v
Load.v
Logging.v
Defaults.v
Auth.v
Tls.v
Outbound.v
OutboundSpec.v
Locks.v
Events.v
Commands.v
Completion.v
Cleanup.v
Background.v
GrpcServer.v
HttpDto.v
AppError.v
Health.v
BuildInfo.v
HttpServer.v
HttpSpec.v
Middleware.v
Contexts.v
Tokens.v
MiddlewareSpec.v
HttpSystem.v
Router.v
GrpcInterceptors.v
GrpcStreams.v
GrpcSystem.v
Observed.v
Wiring.v
Shutdown.v
Mains.v
