(* ===== verification/Prelude.v ===== *)
(** * Verification of workflow-service

    The service (module workflow-service, Go) stores workflow definitions, starts
    instances of them as Temporal workflows, hands approval tasks to people, calls
    other services, and offers all that over gRPC and HTTP.  This development models
    the program under internal/ function by function and proves what makes it correct.

    ** The parts of the program and the files that model them

    The domain, internal/workflow:
    - [Model]: model.go - every struct as a record with the source's fields, the status
      and type constants, the sentinel errors with the wrapping of [errors.Is];
    - [Graph], [GraphTheory], [GraphSpec]: graph.go - [ValidateDefinition] and its
      helpers, and what acceptance means;
    - [GraphCodec], [CodecSpec]: the JSON form of nodes and edges, [encodeGraph] of
      service.go and [hydrateDefinition] of repository.go, and that one inverts the other;
    - [World], [Repository], [Queries]: repository.go over the tables of
      migrations/postgres - one definition per method, statement by statement.
      [World] has the tables, failing calls, transactions; [WorldTheory] its logic;
    - [Lifecycle], [RepositoryTheory], [Invariants], [QueriesTheory], [RepositorySpec]:
      the abstract store the repository refines, and what holds of every state of it;
    - [Service], [ServiceSpec], [DraftsSpec]: service.go - every operation, against the
      interfaces [Store], [AssignmentResolver] and [ServiceEnv];
    - [Cleanup]: cleanup.go - the retention of the task history; [Background]: the
      goroutines it and internal/app/workflow_eventbus.go start and stop.

    Around it:
    - [Assignments]: internal/workflowauth - roles and permissions of a caller;
    - [Execute], [ExecuteSpec]: internal/workflowruntime/workflow.go - the Temporal
      workflow, with the log of its commands; [ExecuteWalk]: the walks of a graph, a
      semantics without the interpreter's loop, which the workflow implements;
    - [Activities], [ActivitiesSpec]: activities.go - what a worker does for a command;
    - [System]: the workflow, its activities and the tables together; [Progress]: a logic
      of total correctness for the repository's transactions; [Completion]: the whole life
      of an instance, from the request that starts it to the row that says how it ended;
    - [Events]: internal/workflowevent - rows into the messages of the outbox;
    - [Commands]: commands.go - events into commands to Temporal;
    - [GrpcServer]: internal/transport/grpc/workflow_server.go; [GrpcInterceptors] and
      [GrpcStreams]: server.go - the chains in front of it; [GrpcSystem]: a call from
      the wire to the tables;
    - [HttpDto], [HttpServer], [HttpSpec]: internal/transport/http/workflow_handler.go;
      [AppError]: internal/apperror and response.go; [Middleware], [MiddlewareSpec]:
      middleware.go and server.go; [HttpSystem]: a request from the socket to the
      tables; [Router]: the routes of server.go and the profiler's guard; [Auth]:
      internal/auth, requestid and ratelimit; [Tokens]: internal/auth/jwt.go; [Contexts]:
      what internal/requestid and internal/environment keep in a context;
    - [Observed]: internal/observability/metrics.go and the middlewares and interceptors
      that log, count and recover; [Logging]: internal/logging, its levels and rotation;
      [BuildInfo]: internal/buildinfo and the version endpoint;
    - [Config], [ConfigSpec], [Load], [Defaults]: internal/config; [PathMatch]: the patterns of
      its route lists; [Database]: internal/database and internal/migration;
      [Outbound], [OutboundSpec]: internal/outbound and internal/grpcclient; [Tls]: the
      TLS configurations of all servers and clients; [Locks]: internal/cache;
      [Health]: internal/health and its endpoints; [Wiring]: internal/app, the
      assembly and the start of the service; [Shutdown]: its dependency graph, the hooks
      and the order in which they stop; [Mains]: cmd/.

    Below: this file (results, the state-and-error monad, tactics), [GoStd] (strings
    and regular expressions) and [Json] (encoding/json).

    ** How state and effects are modelled

    A Go function returning [(T, error)] is a [result]; a method that changes state is
    an [stE], whose state survives an error.  The database is a [DB] of finite maps, one
    per table, with the outbox as a list in the order of insertion.  The world adds the
    number of calls made so far; the environment says of each call whether it fails, so a
    theorem for every environment is one for every pattern of failures, and the clock
    and the identifiers may answer anything.  A transaction that does not commit restores
    its tables.  Calls run one after the other: a statement or a transaction is atomic,
    and interleavings of requests are sequences of calls ([RepositorySpec.run_step]).

    An interface of the source is a class ([Store], [RuntimeStore], [EventFactory],
    [Runtime], ...).  The service, the activities and the cleaner are proved against the
    classes, and the repository is their instance, which carries its refinement up to the
    requests of both transports.  Code outside src/ (Temporal, the gRPC and HTTP
    libraries, viper, the JWT library, the platform module, SQL drivers) is a class
    without laws unless a theorem names the one it needs, such as that identifiers are
    fresh or that [sort.Slice] returns a sorted permutation.

    ** What the theorems show

    - A graph is accepted exactly when it satisfies the conditions of [accepted], and an
      accepted graph can be walked: topological order, every node on a way from start to
      end, walks no longer than the graph (claims of [GraphSpec]).
    - The repository refines the abstract store under every failure; errors of
      transactional methods change nothing; finished instances, decided tasks and
      published revisions never change; the outbox holds exactly the events the tables
      call for; the tables fit together, and a task within the tenant of its instance; a task is claimed once; lists never leave their
      tenant and application, and their pages partition the matches ([RepositorySpec],
      [QueriesTheory]).
    - Every request to the service is gated by application access, makes at most one
      well-formed change to the tables, publishes only valid graphs, pins the revision of
      an instance, and changes a task only for its assignee ([ServiceSpec]).  A draft
      that is written and read back is the same graph, and every graph in the tables is
      valid ([DraftsSpec]).
    - A run of the workflow reports its outcome once and last, compensates in reverse
      order when it fails, never leaves a validated graph and acts once per node
      ([ExecuteSpec]); when Temporal is reliable it ends, exactly as a walk of the graph
      says ([ExecuteWalk]); retried activities do no harm
      ([ActivitiesSpec]); and with lost answers, retries and other requests in between,
      the result of a run is the status in the tables ([System]).  An instance that was
      started lives: its event makes Temporal run its workflow, a worker can do everything
      the run asks for, and the row of the instance then says how its graph was walked,
      whatever is requested afterwards ([Completion]).
    - The transports add and lose nothing: each method is one service request, errors
      map to the same distinctions, and both demand the same permissions ([GrpcServer],
      [HttpSpec], [GrpcInterceptors]); events reach the workflow of their instance
      unchanged ([Commands]); one HTTP request or gRPC call, through the whole chain,
      changes the tables by at most one repository call, made for a caller who passed
      every gate ([HttpSystem], [GrpcSystem]); an idempotent request is executed once
      ([MiddlewareSpec]); tokens live exactly as long as they say ([Tokens]); observers
      change no answer ([Observed]).
    - The platform: what [Validate] excludes, that loading always validates, how a
      service runs without any configuration, retries of
      the outbound clients, migrations confined to their schema, readiness in every
      schedule, exactly when an accepted configuration starts where everything it names
      is there, that stopping ends the
      background work and closes nothing under a part that still works ([Shutdown]), and
      that TLS fails closed ([Tls]); an identifier the service makes is one it accepts
      ([Contexts]), and the uptime it shows reads back as the time it has run ([BuildInfo]).

    ** Fuel

    Loops that are not structural carry fuel, and run out of it nowhere it matters:
    - the loop of [validateEdges] has one unit more than there are nodes, and takes a new
      node in every pass ([GraphTheory.visit_spec]);
    - [Execute] is bounded by the source itself, [len(nodes)+1] steps, which
      [Execute_validated_graph] shows to be enough;
    - the scanner of [Json] and the matcher of [PathMatch] recurse on shorter texts and
      get the length of the text as fuel;
    - the pages of roles and the rounds of [clean] take their fuel as an argument, with
      the number that is enough ([RoleIDs_complete], [clean_result]);
    - the clients' attempts are bounded by the configured number.

    ** Not modelled

    The spans and what exports them, what slog and lumberjack do with a record and a file,
    the profiler's and the swagger handlers, which change no answer; the text of SQL
    statements (read as their effect, with the constraints of the PostgreSQL schema; the
    MySQL and Kingbase variants and the speed of indexes are left out) and the collation
    of the database, a parameter; what a round of the outbox dispatcher does and how the
    idempotency keys travel and are kept, which is code of the platform module; the
    version and commit the linker sets, which are a parameter; and the generated API
    documentation. *)
From stdpp Require Export base option list gmap strings fin_maps.
From Stdlib Require Export ZArith Lia.

(** ** Results and the state-and-error monad *)

(** A Go function that returns [(T, error)]. *)
Inductive result (E A : Type) : Type :=
| Ok (a : A)
| Err (e : E).
Arguments Ok {E A} _.
Arguments Err {E A} _.

#[global] Instance result_eq_dec `{EqDecision E, EqDecision A} :
  EqDecision (result E A).
Proof. solve_decision. Defined.

#[global] Instance result_ret E : MRet (result E) := fun _ a => Ok a.
#[global] Instance result_bind E : MBind (result E) := fun _ _ f m =>
  match m with Ok a => f a | Err e => Err e end.

(** A Go method on a receiver with mutable state: the state survives an error. *)
Definition stE (S E A : Type) : Type := S -> result E A * S.

#[global] Instance stE_ret S E : MRet (stE S E) := fun _ a s => (Ok a, s).
#[global] Instance stE_bind S E : MBind (stE S E) := fun _ _ f m s =>
  match m s with
  | (Ok a, s') => f a s'
  | (Err e, s') => (Err e, s')
  end.

(** Return an error without touching the state. *)
Definition throw {S E A} (e : E) : stE S E A := fun s => (Err e, s).

(** [if err := c; err != nil { return err }] for a call without state. *)
Definition lift {S E A} (r : result E A) : stE S E A := fun s => (r, s).

(** [if cond { return err }]. *)
Definition reject_if {S E} (cond : bool) (e : E) : stE S E unit :=
  if cond then throw e else mret tt.

Lemma res_bind_Ok {E A B} (r : result E A) (k : A -> result E B) b :
  (r ≫= k) = Ok b -> exists a, r = Ok a /\ k a = Ok b.
Proof. destruct r as [a|e]; [by exists a|done]. Qed.

Definition is_ok {E A} (r : result E A) : bool :=
  match r with Ok _ => true | Err _ => false end.

Lemma is_ok_bind {E A B} (r : result E A) (k : A -> result E B) :
  is_ok r = true -> (forall a, is_ok (k a) = true) -> is_ok (r ≫= k) = true.
Proof. destruct r; [|done]. intros _ H. apply H. Qed.

(** ** Hint databases

    [gostd] rewrites the standard-library functions, [wf] carries the
    well-formedness invariants of the components. *)
Create Rewrite HintDb gostd.
Create HintDb wf.

(** ** Tactics *)

(** Split every [match] or [if] of a hypothesis, discarding impossible cases. *)
Ltac split_match_in H :=
  repeat match type of H with
  | context [match ?x with _ => _ end] =>
      let E := fresh "E" in destruct x eqn:E; simplify_eq H
  end.

(** Split the outermost scrutinees of the goal. *)
Ltac split_match :=
  repeat match goal with
  | |- context [match ?x with _ => _ end] =>
      let E := fresh "E" in destruct x eqn:E
  end.

(** Turn boolean hypotheses into propositions. *)
Ltac bool_to_prop :=
  repeat match goal with
  | H : _ && _ = true |- _ => apply andb_prop in H as [? ?]
  | H : _ || _ = false |- _ => apply orb_false_elim in H as [? ?]
  | H : negb _ = true |- _ => apply negb_true_iff in H
  | H : negb _ = false |- _ => apply negb_false_iff in H
  | H : bool_decide _ = true |- _ => apply bool_decide_eq_true_1 in H
  | H : bool_decide _ = false |- _ => apply bool_decide_eq_false_1 in H
  | H : String.eqb _ _ = true |- _ => apply String.eqb_eq in H
  | H : String.eqb _ _ = false |- _ => apply String.eqb_neq in H
  end.
