(* ===== verification/GoStd.v ===== *)
(** * The parts of the Go standard library the service relies on

    Strings are byte strings, as in Go.  [strings.TrimSpace] works on the UTF-8
    encodings of the code points [unicode.IsSpace] accepts; [regexp] is modelled
    by a syntax of regular expressions with a derivative matcher, proved
    equivalent to the usual language semantics. *)
From S2P Require Import Prelude.
From Stdlib Require Import Ascii String.
Local Open Scope N_scope.

(** ** Bytes and simple string functions *)

Definition in_range (lo hi : N) (c : ascii) : bool :=
  (lo <=? N_of_ascii c) && (N_of_ascii c <=? hi).

Definition is_lower : ascii -> bool := in_range 97 122.
Definition is_upper : ascii -> bool := in_range 65 90.
Definition is_digit : ascii -> bool := in_range 48 57.
Definition is_letter (c : ascii) : bool := is_lower c || is_upper c.

(** Membership of a byte in a literal set, as in [[_.-]]. *)
Fixpoint byte_in (set : string) (c : ascii) : bool :=
  match set with
  | EmptyString => false
  | String d set' => Ascii.eqb d c || byte_in set' c
  end.

Definition str_empty (s : string) : bool := String.eqb s "".

Lemma str_empty_false s : str_empty s = false <-> s <> EmptyString.
Proof. apply String.eqb_neq. Qed.

Fixpoint HasPrefix (s prefix : string) : bool :=
  match prefix, s with
  | EmptyString, _ => true
  | String _ _, EmptyString => false
  | String p prefix', String c s' => Ascii.eqb p c && HasPrefix s' prefix'
  end.

Lemma append_assoc (a b c : string) : (a +:+ b) +:+ c = a +:+ (b +:+ c).
Proof. induction a as [|x a IH]; [done|]. change (String x ((a +:+ b) +:+ c) = String x (a +:+ (b +:+ c))). by rewrite IH. Qed.
Lemma append_nil_r (a : string) : a +:+ "" = a.
Proof. induction a as [|x a IH]; [done|]. change (String x (a +:+ "") = String x a). by rewrite IH. Qed.

Lemma length_append (a b : string) : String.length (a +:+ b) = (String.length a + String.length b)%nat.
Proof. induction a as [|x a IH]; [done|]. change (S (String.length (a +:+ b)) = (S (String.length a) + String.length b)%nat). by rewrite IH. Qed.

Fixpoint str_rev_app (s acc : string) : string :=
  match s with
  | EmptyString => acc
  | String c s' => str_rev_app s' (String c acc)
  end.
Definition str_rev (s : string) : string := str_rev_app s "".

(** [strings.TrimSpace]: the encodings of [unicode.IsSpace], one to three bytes. *)
Definition ascii_space (c : ascii) : bool := in_range 9 13 c || in_range 32 32 c.

Definition space2 (a b : ascii) : bool :=
  in_range 194 194 a && (in_range 133 133 b || in_range 160 160 b).

Definition space3 (a b c : ascii) : bool :=
  (in_range 225 225 a && in_range 154 154 b && in_range 128 128 c)
  || (in_range 226 226 a && in_range 128 128 b
      && (in_range 128 138 c || in_range 168 169 c || in_range 175 175 c))
  || (in_range 226 226 a && in_range 129 129 b && in_range 159 159 c)
  || (in_range 227 227 a && in_range 128 128 b && in_range 128 128 c).

Fixpoint trim_left (s : string) : string :=
  match s with
  | String a s1 =>
      if ascii_space a then trim_left s1 else
      match s1 with
      | String b s2 =>
          if space2 a b then trim_left s2 else
          match s2 with
          | String c s3 => if space3 a b c then trim_left s3 else s
          | EmptyString => s
          end
      | EmptyString => s
      end
  | EmptyString => EmptyString
  end.

(** The same from the right, on the reversed string. *)
Fixpoint trim_left_rev (s : string) : string :=
  match s with
  | String c s1 =>
      if ascii_space c then trim_left_rev s1 else
      match s1 with
      | String b s2 =>
          if space2 b c then trim_left_rev s2 else
          match s2 with
          | String a s3 => if space3 a b c then trim_left_rev s3 else s
          | EmptyString => s
          end
      | EmptyString => s
      end
  | EmptyString => EmptyString
  end.

Definition TrimSpace (s : string) : string :=
  str_rev (trim_left_rev (str_rev (trim_left s))).

Definition blank (s : string) : bool := str_empty (TrimSpace s).

(** *** Trimming twice is trimming once *)

Lemma str_rev_app_spec s acc : str_rev_app s acc = str_rev s +:+ acc.
Proof.
  unfold str_rev. revert acc. induction s as [|c s IH]; intros acc; [done|]. cbn [str_rev_app].
  rewrite IH, (IH (String c "")), append_assoc. done.
Qed.
Lemma str_rev_cons c s : str_rev (String c s) = str_rev s +:+ String c "".
Proof. unfold str_rev at 1. cbn [str_rev_app]. apply str_rev_app_spec. Qed.
Lemma str_rev_append a b : str_rev (a +:+ b) = str_rev b +:+ str_rev a.
Proof.
  induction a as [|c a IH]; [by rewrite append_nil_r|]. change (String c a +:+ b) with (String c (a +:+ b)).
  by rewrite !str_rev_cons, IH, append_assoc.
Qed.
Lemma str_rev_involutive s : str_rev (str_rev s) = s.
Proof. induction s as [|c s IH]; [done|]. by rewrite str_rev_cons, str_rev_append, IH. Qed.

Section trim_runes.
Context (sp2 : ascii -> ascii -> bool) (sp3 : ascii -> ascii -> ascii -> bool).

Fixpoint trim_runes (s : string) : string :=
  match s with
  | String a s1 =>
      if ascii_space a then trim_runes s1 else
      match s1 with
      | String b s2 =>
          if sp2 a b then trim_runes s2 else
          match s2 with
          | String c s3 => if sp3 a b c then trim_runes s3 else s
          | EmptyString => s
          end
      | EmptyString => s
      end
  | EmptyString => EmptyString
  end.

(** A space begins here. *)
Definition space_head (s : string) : bool :=
  match s with
  | String a s1 => ascii_space a ||
      match s1 with
      | String b s2 => sp2 a b || match s2 with String c _ => sp3 a b c | EmptyString => false end
      | EmptyString => false
      end
  | EmptyString => false
  end.

Lemma trim_fixed s : space_head s = false -> trim_runes s = s.
Proof.
  destruct s as [|a s]; [done|]. cbn [space_head trim_runes]. destruct (ascii_space a); [done|].
  destruct s as [|b s]; [done|]. destruct (sp2 a b); [done|]. destruct s as [|c s]; [done|]. intros H. cbn in H. by rewrite H.
Qed.

Lemma trim_spec s : space_head (trim_runes s) = false /\ exists p, s = p +:+ trim_runes s.
Proof.
  remember (String.length s) as n eqn:Hn. revert s Hn. induction n as [n IH] using lt_wf_ind. intros s ->.
  destruct (space_head s) eqn:Hs; [|rewrite (trim_fixed s Hs); split; [done|by exists ""]].
  assert (Hstep : forall p s', s = p +:+ s' -> (String.length s' < String.length s)%nat -> trim_runes s = trim_runes s' ->
    space_head (trim_runes s) = false /\ exists p, s = p +:+ trim_runes s).
  { intros p s' Hp Hl Ht. rewrite Ht. destruct (IH _ Hl s' eq_refl) as [Hh [p' Hp']]. split; [done|].
    exists (p +:+ p'). rewrite append_assoc, <- Hp'. exact Hp. }
  destruct s as [|a s]; [done|]. cbn [space_head] in Hs. destruct (ascii_space a) eqn:Ha.
  { apply (Hstep (String a "") s); [done|cbn [String.length]; lia|]. cbn [trim_runes]. by rewrite Ha. }
  destruct s as [|b s]; [done|]. destruct (sp2 a b) eqn:H2.
  { apply (Hstep (String a (String b "")) s); [done|cbn [String.length]; lia|]. cbn [trim_runes]. by rewrite Ha, H2. }
  destruct s as [|c s]; [done|]. cbn in Hs.
  apply (Hstep (String a (String b (String c ""))) s); [done|cbn [String.length]; lia|]. cbn [trim_runes]. by rewrite Ha, H2, Hs.
Qed.

(** The beginning of a text where no space begins is such a text. *)
Lemma space_head_prefix t r : space_head (t +:+ r) = false -> space_head t = false.
Proof.
  destruct t as [|a t]; [done|]. change (String a t +:+ r) with (String a (t +:+ r)). cbn [space_head].
  intros [-> H]%orb_false_elim. destruct t as [|b t]; [done|]. change (String b t +:+ r) with (String b (t +:+ r)) in H.
  cbv iota in H. apply orb_false_elim in H as [-> H]. destruct t as [|c t]; [done|exact H].
Qed.
End trim_runes.

Lemma trim_left_trim s : trim_left s = trim_runes space2 space3 s.
Proof. reflexivity. Qed.
Lemma trim_left_rev_trim s : trim_left_rev s = trim_runes (fun c b => space2 b c) (fun c b a => space3 a b c) s.
Proof. reflexivity. Qed.

Lemma TrimSpace_idempotent s : TrimSpace (TrimSpace s) = TrimSpace s.
Proof.
  unfold TrimSpace at 2 3. rewrite trim_left_trim. set (u := trim_runes space2 space3 s).
  rewrite trim_left_rev_trim. set (q := trim_runes _ _ (str_rev u)).
  destruct (trim_spec space2 space3 s) as [Hu _]. fold u in Hu.
  destruct (trim_spec (fun c b => space2 b c) (fun c b a => space3 a b c) (str_rev u)) as [Hq [p Hp]]. fold q in Hq, Hp.
  assert (Ht : space_head space2 space3 (str_rev q) = false).
  { apply (space_head_prefix _ _ _ (str_rev p)). rewrite <- str_rev_append, <- Hp, str_rev_involutive. exact Hu. }
  unfold TrimSpace. rewrite trim_left_trim, (trim_fixed _ _ _ Ht), str_rev_involutive, trim_left_rev_trim, (trim_fixed _ _ _ Hq). done.
Qed.

Lemma blank_TrimSpace s : blank (TrimSpace s) = blank s.
Proof. unfold blank. by rewrite TrimSpace_idempotent. Qed.

(** ** Regular expressions *)

Inductive regexp : Type :=
| RNone
| REps
| RCls (p : ascii -> bool)
| RSeq (a b : regexp)
| RAlt (a b : regexp)
| RStar (a : regexp).

(** [r{0,n}] *)
Fixpoint RUpTo (n : nat) (r : regexp) : regexp :=
  match n with
  | O => REps
  | S n' => RAlt REps (RSeq r (RUpTo n' r))
  end.

(** [r{n}] *)
Fixpoint RTimes (n : nat) (r : regexp) : regexp :=
  match n with
  | O => REps
  | S n' => RSeq r (RTimes n' r)
  end.

(** The words a whole-string match [^r$] accepts. *)
Inductive matches : regexp -> string -> Prop :=
| m_eps : matches REps ""
| m_cls p c : p c = true -> matches (RCls p) (String c "")
| m_seq a b s t : matches a s -> matches b t -> matches (RSeq a b) (s ++ t)
| m_alt_l a b s : matches a s -> matches (RAlt a b) s
| m_alt_r a b s : matches b s -> matches (RAlt a b) s
| m_star_nil a : matches (RStar a) ""
| m_star_app a s t : matches a s -> matches (RStar a) t -> matches (RStar a) (s ++ t).

Fixpoint nullable (r : regexp) : bool :=
  match r with
  | RNone | RCls _ => false
  | REps | RStar _ => true
  | RSeq a b => nullable a && nullable b
  | RAlt a b => nullable a || nullable b
  end.

Definition mk_seq (a b : regexp) : regexp :=
  match a with RNone => RNone | REps => b | _ => RSeq a b end.
Definition mk_alt (a b : regexp) : regexp :=
  match a with RNone => b | _ => RAlt a b end.

Fixpoint deriv (c : ascii) (r : regexp) : regexp :=
  match r with
  | RNone | REps => RNone
  | RCls p => if p c then REps else RNone
  | RSeq a b =>
      if nullable a then mk_alt (mk_seq (deriv c a) b) (deriv c b)
      else mk_seq (deriv c a) b
  | RAlt a b => mk_alt (deriv c a) (deriv c b)
  | RStar a => mk_seq (deriv c a) (RStar a)
  end.

Fixpoint MatchString (r : regexp) (s : string) : bool :=
  match s with
  | EmptyString => nullable r
  | String c s' => MatchString (deriv c r) s'
  end.

(** *** The matcher decides the language *)

Local Hint Constructors matches : core.
#[local] Arguments String.append _ _ : simpl nomatch.

Lemma nullable_matches r : nullable r = true <-> matches r "".
Proof.
  split.
  - induction r; simpl; intros H; try discriminate; auto.
    + apply andb_prop in H as [??]. apply (m_seq _ _ "" ""); auto.
    + apply orb_prop in H as [?|?]; auto.
  - intros H. remember EmptyString as s eqn:E. induction H; simpl; auto.
    all: try discriminate.
    + destruct s; [|discriminate]. simpl in E. subst. by rewrite IHmatches1, IHmatches2.
    + by rewrite IHmatches.
    + rewrite IHmatches by done. apply orb_true_r.
Qed.

Lemma matches_mk_seq a b s : matches (mk_seq a b) s <-> matches (RSeq a b) s.
Proof.
  destruct a; simpl; try done; split; intros H.
  - inversion H.
  - inversion H; subst. match goal with H : matches RNone _ |- _ => inversion H end.
  - by apply (m_seq REps b "" s).
  - inversion H; subst. match goal with H : matches REps _ |- _ => inversion H end.
    by subst.
Qed.

Lemma matches_mk_alt a b s : matches (mk_alt a b) s <-> matches (RAlt a b) s.
Proof.
  destruct a; simpl; try done; split; intros H; auto.
  inversion H; subst; [|done].
  match goal with H : matches RNone _ |- _ => inversion H end.
Qed.

Lemma deriv_sound c r s : matches (deriv c r) s -> matches r (String c s).
Proof.
  revert s. induction r; simpl; intros s H.
  - inversion H.
  - inversion H.
  - destruct (p c) eqn:E; inversion H; subst; auto.
  - assert (Hseq : forall u, matches (mk_seq (deriv c r1) r2) u -> matches (RSeq r1 r2) (String c u)).
    { intros u Hu. apply matches_mk_seq in Hu. inversion Hu; subst.
      apply (m_seq r1 r2 (String c s0) t); auto. }
    destruct (nullable r1) eqn:E; [|auto].
    apply matches_mk_alt in H. inversion H; subst; auto.
    apply (m_seq r1 r2 "" (String c s)); auto. by apply nullable_matches.
  - apply matches_mk_alt in H. inversion H; subst; auto.
  - apply matches_mk_seq in H. inversion H; subst.
    apply (m_star_app r (String c s0) t); auto.
Qed.

Lemma deriv_complete c r s : matches r (String c s) -> matches (deriv c r) s.
Proof.
  intros H. remember (String c s) as w eqn:E. revert s E.
  induction H as [|p d Hp|a b u v Ha IHa Hb IHb|a b u Ha IHa|a b u Hb IHb|a|a u v Ha IHa Hb IHb];
    simpl; intros w E; try discriminate.
  - injection E as -> <-. rewrite Hp. auto.
  - destruct u as [|d u]; simpl in E.
    + subst v. apply nullable_matches in Ha. rewrite Ha.
      apply matches_mk_alt. auto.
    + injection E as -> <-.
      assert (matches (mk_seq (deriv c a) b) (u ++ v)) by (apply matches_mk_seq; auto).
      destruct (nullable a); [apply matches_mk_alt|]; auto.
  - apply matches_mk_alt. auto.
  - apply matches_mk_alt. auto.
  - destruct u as [|d u]; simpl in E; [auto|].
    injection E as -> <-. apply matches_mk_seq. auto.
Qed.

Theorem MatchString_correct r s : MatchString r s = true <-> matches r s.
Proof.
  revert r. induction s as [|c s IH]; intros r; simpl.
  - apply nullable_matches.
  - rewrite IH. split; [apply deriv_sound|apply deriv_complete].
Qed.

(** *** Words of character classes *)

Fixpoint str_forall (p : ascii -> bool) (s : string) : bool :=
  match s with
  | EmptyString => true
  | String c s' => p c && str_forall p s'
  end.

Lemma matches_cls_star p s : matches (RStar (RCls p)) s <-> str_forall p s = true.
Proof.
  rewrite <- MatchString_correct. induction s as [|c s IH]; simpl; [done|].
  destruct (p c); simpl; [apply IH|].
  assert (HN : forall t, MatchString RNone t = false) by (induction t; auto).
  rewrite HN. done.
Qed.

Lemma MatchString_none s : MatchString RNone s = false.
Proof. induction s; auto. Qed.

Lemma MatchString_upto n p s :
  MatchString (RUpTo n (RCls p)) s
  = (Nat.leb (String.length s) n && str_forall p s).
Proof.
  revert s. induction n as [|n IH]; intros [|c s]; simpl; auto.
  - apply MatchString_none.
  - destruct (p c); simpl; [apply IH|].
    rewrite MatchString_none. by destruct (Nat.leb _ _).
Qed.

#[export] Hint Rewrite MatchString_none MatchString_upto : gostd.

Example trim_1 : TrimSpace (" " ++ String "009" "a b" ++ String "010" "") = "a b"%string.
Proof. reflexivity. Qed.
