(* ===== verification/Json.v ===== *)
(** * encoding/json

    The syntax accepted by [json.Valid] and [json.Unmarshal] (the scanner of
    encoding/json, its nesting bound included), decoded to a tree, and the text
    [json.Marshal] writes for a tree.  Strings are decoded to UTF-8 as Go does:
    an escape is replaced by its code point, an invalid byte by U+FFFD. *)
From S2P Require Import Prelude GoStd.
From Stdlib Require Import Ascii String.
Local Open Scope N_scope.

#[local] Set Warnings "-register-all".

Inductive json : Type :=
| JNull
| JBool (b : bool)
| JNum (literal : string)
| JStr (s : string)
| JArr (l : list json)
| JObj (l : list (string * json)).

(** ** UTF-8 *)

Definition byte (n : N) : ascii := ascii_of_N n.
Definition cont : ascii -> bool := in_range 128 191.

(** [utf8.DecodeRuneInString]: the number of bytes of the valid encoding that
    starts here, 0 when the first byte starts none. *)
Definition rune2 (a b : ascii) : bool := in_range 194 223 a && cont b.
Definition rune3 (a b c : ascii) : bool :=
  ((in_range 224 224 a && in_range 160 191 b)
   || (in_range 237 237 a && in_range 128 159 b)
   || ((in_range 225 236 a || in_range 238 239 a) && cont b)) && cont c.
Definition rune4 (a b c d : ascii) : bool :=
  ((in_range 240 240 a && in_range 144 191 b)
   || (in_range 241 243 a && cont b)
   || (in_range 244 244 a && in_range 128 143 b)) && cont c && cont d.

(** [utf8.AppendRune] *)
Definition encode_rune (r : N) : string :=
  if r <? 128 then String (byte r) ""
  else if r <? 2048 then
    String (byte (192 + r / 64)) (String (byte (128 + r mod 64)) "")
  else if r <? 65536 then
    String (byte (224 + r / 4096))
      (String (byte (128 + (r / 64) mod 64)) (String (byte (128 + r mod 64)) ""))
  else
    String (byte (240 + r / 262144))
      (String (byte (128 + (r / 4096) mod 64))
        (String (byte (128 + (r / 64) mod 64)) (String (byte (128 + r mod 64)) ""))).

Definition replacement : string := encode_rune 65533.

(** ** Scanning strings *)

Definition hex_val (c : ascii) : option N :=
  if is_digit c then Some (N_of_ascii c - 48)
  else if in_range 97 102 c then Some (N_of_ascii c - 87)
  else if in_range 65 70 c then Some (N_of_ascii c - 55)
  else None.

Definition hex4 (a b c d : ascii) : option N :=
  match hex_val a, hex_val b, hex_val c, hex_val d with
  | Some x, Some y, Some z, Some w => Some (((x * 16 + y) * 16 + z) * 16 + w)
  | _, _, _, _ => None
  end.

(** [utf16.IsSurrogate] and [utf16.DecodeRune] *)
Definition is_surrogate (r : N) : bool := (55296 <=? r) && (r <? 57344).
Definition decode_surrogates (r1 r2 : N) : option N :=
  if (55296 <=? r1) && (r1 <? 56320) && (56320 <=? r2) && (r2 <? 57344)
  then Some ((r1 - 55296) * 1024 + (r2 - 56320) + 65536) else None.

Definition simple_escape (c : ascii) : option ascii :=
  if byte_in (String "034" "\/") c then Some c
  else if Ascii.eqb c "b" then Some (byte 8)
  else if Ascii.eqb c "f" then Some (byte 12)
  else if Ascii.eqb c "n" then Some (byte 10)
  else if Ascii.eqb c "r" then Some (byte 13)
  else if Ascii.eqb c "t" then Some (byte 9)
  else None.

Definition quote_char : ascii := "034".
Definition backslash : ascii := "092".

(** Put a decoded prefix in front of the rest of the string. *)
Definition cons_decoded (p : string) (r : option (string * string)) :
  option (string * string) :=
  match r with
  | Some (s, rest) => Some (p +:+ s, rest)
  | None => None
  end.

(** The characters after the opening quote, up to the closing one. *)
Fixpoint scan_string (s : string) : option (string * string) :=
  match s with
  | EmptyString => None
  | String c s1 =>
    if Ascii.eqb c quote_char then Some (EmptyString, s1)
    else if Ascii.eqb c backslash then
      match s1 with
      | EmptyString => None
      | String e s2 =>
        if Ascii.eqb e "u" then
          match s2 with
          | String a (String b (String d (String f s3))) =>
            match hex4 a b d f with
            | None => None
            | Some r =>
              if is_surrogate r then
                match s3 with
                | String x (String y (String a' (String b' (String d' (String f' s4))))) =>
                  match (if Ascii.eqb x backslash && Ascii.eqb y "u"
                         then hex4 a' b' d' f' else None) with
                  | Some r' =>
                    match decode_surrogates r r' with
                    | Some full => cons_decoded (encode_rune full) (scan_string s4)
                    | None => cons_decoded replacement (scan_string s3)
                    end
                  | None => cons_decoded replacement (scan_string s3)
                  end
                | _ => cons_decoded replacement (scan_string s3)
                end
              else cons_decoded (encode_rune r) (scan_string s3)
            end
          | _ => None
          end
        else
          match simple_escape e with
          | Some v => cons_decoded (String v "") (scan_string s2)
          | None => None
          end
      end
    else if N_of_ascii c <? 32 then None
    else if N_of_ascii c <? 128 then cons_decoded (String c "") (scan_string s1)
    else
      match s1 with
      | EmptyString => cons_decoded replacement (scan_string s1)
      | String c2 s2 =>
        if rune2 c c2 then cons_decoded (String c (String c2 "")) (scan_string s2)
        else
          match s2 with
          | EmptyString => cons_decoded replacement (scan_string s1)
          | String c3 s3 =>
            if rune3 c c2 c3
            then cons_decoded (String c (String c2 (String c3 ""))) (scan_string s3)
            else
              match s3 with
              | EmptyString => cons_decoded replacement (scan_string s1)
              | String c4 s4 =>
                if rune4 c c2 c3 c4
                then cons_decoded (String c (String c2 (String c3 (String c4 "")))) (scan_string s4)
                else cons_decoded replacement (scan_string s1)
              end
          end
      end
  end.

(** ** Scanning numbers *)

Fixpoint span_digits (s : string) : string * string :=
  match s with
  | String c s' =>
    if is_digit c then let '(ds, rest) := span_digits s' in (String c ds, rest)
    else (EmptyString, s)
  | EmptyString => (EmptyString, EmptyString)
  end.

Definition scan_int (s : string) : option (string * string) :=
  match s with
  | String c s' =>
    if Ascii.eqb c "0" then Some (String c "", s')
    else if is_digit c then let '(ds, rest) := span_digits s' in Some (String c ds, rest)
    else None
  | EmptyString => None
  end.

Definition scan_frac (s : string) : option (string * string) :=
  match s with
  | String c s' =>
    if Ascii.eqb c "." then
      let '(ds, rest) := span_digits s' in
      if str_empty ds then None else Some (String c ds, rest)
    else Some (EmptyString, s)
  | EmptyString => Some (EmptyString, EmptyString)
  end.

Definition scan_exp (s : string) : option (string * string) :=
  match s with
  | String c s' =>
    if byte_in "eE" c then
      let '(sign, s'') :=
        match s' with
        | String g t => if byte_in "+-" g then (String g "", t) else (EmptyString, s')
        | EmptyString => (EmptyString, s')
        end in
      let '(ds, rest) := span_digits s'' in
      if str_empty ds then None else Some (String c (sign +:+ ds), rest)
    else Some (EmptyString, s)
  | EmptyString => Some (EmptyString, EmptyString)
  end.

Definition scan_number (s : string) : option (string * string) :=
  let '(sign, s1) :=
    match s with
    | String c t => if Ascii.eqb c "-" then (String c "", t) else (EmptyString, s)
    | EmptyString => (EmptyString, s)
    end in
  i ← scan_int s1;
  f ← scan_frac i.2;
  e ← scan_exp f.2;
  Some (sign +:+ i.1 +:+ f.1 +:+ e.1, e.2).

(** ** Scanning values *)

Definition json_space (c : ascii) : bool :=
  byte_in (String "009" (String "010" (String "013" " "))) c.

Fixpoint skip_ws (s : string) : string :=
  match s with
  | String c s' => if json_space c then skip_ws s' else s
  | EmptyString => EmptyString
  end.

Fixpoint strip_prefix (p s : string) : option string :=
  match p, s with
  | EmptyString, _ => Some s
  | String a p', String b s' => if Ascii.eqb a b then strip_prefix p' s' else None
  | String _ _, EmptyString => None
  end.

(** [maxNestingDepth] *)
Definition max_depth : N := 10000.

(** One value, its leading white space included.  Every recursive call is on a
    shorter text, so a text of [n] bytes needs fuel [n + 1]. *)
Fixpoint scan_value (fuel : nat) (depth : N) (s : string) : option (json * string) :=
  match fuel with
  | O => None
  | S fuel =>
    match skip_ws s with
    | EmptyString => None
    | String c s1 =>
      if Ascii.eqb c quote_char then
        r ← scan_string s1; Some (JStr r.1, r.2)
      else if Ascii.eqb c "[" then
        if max_depth <=? depth then None else
        match skip_ws s1 with
        | String d s2 =>
          if Ascii.eqb d "]" then Some (JArr [], s2)
          else r ← scan_elements fuel (depth + 1) s1; Some (JArr r.1, r.2)
        | EmptyString => None
        end
      else if Ascii.eqb c "{" then
        if max_depth <=? depth then None else
        match skip_ws s1 with
        | String d s2 =>
          if Ascii.eqb d "}" then Some (JObj [], s2)
          else r ← scan_members fuel (depth + 1) s1; Some (JObj r.1, r.2)
        | EmptyString => None
        end
      else
        match strip_prefix "null" (String c s1),
              strip_prefix "true" (String c s1),
              strip_prefix "false" (String c s1) with
        | Some r, _, _ => Some (JNull, r)
        | _, Some r, _ => Some (JBool true, r)
        | _, _, Some r => Some (JBool false, r)
        | _, _, _ => r ← scan_number (String c s1); Some (JNum r.1, r.2)
        end
    end
  end
with scan_elements (fuel : nat) (depth : N) (s : string) : option (list json * string) :=
  match fuel with
  | O => None
  | S fuel =>
    v ← scan_value fuel depth s;
    match skip_ws v.2 with
    | String c s' =>
      if Ascii.eqb c "," then
        r ← scan_elements fuel depth s'; Some (v.1 :: r.1, r.2)
      else if Ascii.eqb c "]" then Some ([v.1], s')
      else None
    | EmptyString => None
    end
  end
with scan_members (fuel : nat) (depth : N) (s : string) :
  option (list (string * json) * string) :=
  match fuel with
  | O => None
  | S fuel =>
    match skip_ws s with
    | String q s1 =>
      if Ascii.eqb q quote_char then
        k ← scan_string s1;
        match skip_ws k.2 with
        | String colon s2 =>
          if Ascii.eqb colon ":" then
            v ← scan_value fuel depth s2;
            match skip_ws v.2 with
            | String c s' =>
              if Ascii.eqb c "," then
                r ← scan_members fuel depth s'; Some ((k.1, v.1) :: r.1, r.2)
              else if Ascii.eqb c "}" then Some ([(k.1, v.1)], s')
              else None
            | EmptyString => None
            end
          else None
        | EmptyString => None
        end
      else None
    | EmptyString => None
    end
  end.

(** A whole document. *)
Definition parse (s : string) : option json :=
  v ← scan_value (3 * S (String.length s)) 0 s;
  if str_empty (skip_ws v.2) then Some v.1 else None.

(** [json.Valid] *)
Definition Valid (s : string) : bool := bool_decide (is_Some (parse s)).

(** ** Decoding numbers into float64

    [json.Unmarshal] into [any] refuses a number whose magnitude rounds beyond
    the largest float64: at least 2^1024 - 2^970. *)
Definition digit_val (c : ascii) : N := N_of_ascii c - 48.

Fixpoint dec_val (acc : N) (s : string) : N :=
  match s with
  | EmptyString => acc
  | String c s' => dec_val (acc * 10 + digit_val c) s'
  end.

Definition float_limit : N := 2 ^ 1024 - 2 ^ 970.

(** The decimal digits before and after the point, and the exponent. *)
Definition number_parts (lit : string) : N * Z * Z :=
  let s := match strip_prefix "-" lit with Some t => t | None => lit end in
  let '(int, s1) := span_digits s in
  let '(frac, s2) :=
    match strip_prefix "." s1 with Some t => span_digits t | None => (EmptyString, s1) end in
  let exponent :=
    match s2 with
    | String _ (String g t) =>
        if Ascii.eqb g "-" then Z.opp (Z.of_N (dec_val 0 t))
        else if Ascii.eqb g "+" then Z.of_N (dec_val 0 t)
        else Z.of_N (dec_val 0 (String g t))
    | _ => 0%Z
    end in
  (dec_val (dec_val 0 int) frac,
   Z.of_nat (String.length int + String.length frac),
   (exponent - Z.of_nat (String.length frac))%Z).

(** [mantissa * 10^scale >= float_limit], without computing a power beyond need:
    a value below [10^308] or from [10^310] on is decided by its size. *)
Definition number_overflows (lit : string) : bool :=
  let '(mantissa, _, scale) := number_parts lit in
  if mantissa =? 0 then false else
  let magnitude := (Z.of_N (N.log2 mantissa) * 30103 / 100000 + 1 + scale)%Z in
  if (magnitude <? 300)%Z then false
  else if (320 <? magnitude)%Z then true
  else if (0 <=? scale)%Z then float_limit <=? mantissa * 10 ^ Z.to_N scale
  else float_limit * 10 ^ Z.to_N (- scale) <=? mantissa.

Fixpoint numbers_fit (v : json) : bool :=
  match v with
  | JNum lit => negb (number_overflows lit)
  | JArr l => forallb (fun x => numbers_fit x) l
  | JObj l => forallb (fun kv => numbers_fit kv.2) l
  | _ => true
  end.

(** [json.Unmarshal] into a [map[string]any]: [null] leaves the map nil and is
    no error; anything but an object or [null] is. *)
Definition unmarshal_map (s : string) : option (list (string * json)) :=
  match parse s with
  | Some (JObj members) => if numbers_fit (JObj members) then Some members else None
  | Some JNull => Some []
  | _ => None
  end.

(** ** json.Marshal *)

Definition hex_digit (n : N) : ascii :=
  if n <? 10 then byte (48 + n) else byte (87 + n).

Definition escape_u00 (c : ascii) : string :=
  String backslash (String "u" (String "0" (String "0"
    (String (hex_digit (N_of_ascii c / 16)) (String (hex_digit (N_of_ascii c mod 16)) ""))))).

(** One byte below 0x80, with the HTML characters escaped. *)
Definition escape_byte (c : ascii) : string :=
  if Ascii.eqb c quote_char || Ascii.eqb c backslash then String backslash (String c "")
  else if N_of_ascii c =? 8 then String backslash "b"
  else if N_of_ascii c =? 12 then String backslash "f"
  else if N_of_ascii c =? 10 then String backslash "n"
  else if N_of_ascii c =? 13 then String backslash "r"
  else if N_of_ascii c =? 9 then String backslash "t"
  else if (N_of_ascii c <? 32) || byte_in "<>&" c then escape_u00 c
  else String c "".

Definition invalid_escape : string := String backslash "ufffd".

(** U+2028 and U+2029 are escaped. *)
Definition escape_rune3 (a b c : ascii) : string :=
  if in_range 226 226 a && in_range 128 128 b && in_range 168 169 c
  then String backslash (String "u" (String "2" (String "0" (String "2"
         (if in_range 168 168 c then "8" else "9")))))%string
  else String a (String b (String c "")).

Fixpoint escape_string (s : string) : string :=
  match s with
  | EmptyString => EmptyString
  | String c s1 =>
    if N_of_ascii c <? 128 then escape_byte c +:+ escape_string s1
    else
      match s1 with
      | EmptyString => invalid_escape +:+ escape_string s1
      | String c2 s2 =>
        if rune2 c c2 then String c (String c2 (escape_string s2))
        else
          match s2 with
          | EmptyString => invalid_escape +:+ escape_string s1
          | String c3 s3 =>
            if rune3 c c2 c3 then escape_rune3 c c2 c3 +:+ escape_string s3
            else
              match s3 with
              | EmptyString => invalid_escape +:+ escape_string s1
              | String c4 s4 =>
                if rune4 c c2 c3 c4
                then String c (String c2 (String c3 (String c4 (escape_string s4))))
                else invalid_escape +:+ escape_string s1
              end
          end
      end
  end.

Definition quoted (s : string) : string :=
  String quote_char (escape_string s +:+ String quote_char "").

Fixpoint join (sep : string) (l : list string) : string :=
  match l with
  | [] => ""
  | [x] => x
  | x :: l' => x +:+ sep +:+ join sep l'
  end.

Fixpoint print (v : json) : string :=
  match v with
  | JNull => "null"
  | JBool true => "true"
  | JBool false => "false"
  | JNum lit => lit
  | JStr s => quoted s
  | JArr l => "[" +:+ join "," (map (fun x => print x) l) +:+ "]"
  | JObj l =>
      "{" +:+ join "," (map (fun kv => quoted kv.1 +:+ ":" +:+ print kv.2) l) +:+ "}"
  end.
