(* ===== verification/Model.v ===== *)
(** * The domain model (internal/workflow/model.go)

    Every struct is a record with the source's fields, in the source's order.
    A [uint32] or [int64] is an integer [Z]; the operations that can leave the
    width say so.  A [time.Time] is the number of nanoseconds since Go's zero
    time, so [IsZero] is equality with 0; a [*time.Time] is an option. *)
From S2P Require Import Prelude.
From Stdlib Require Import Ascii String.
Local Open Scope string_scope.

(** ** Errors *)

(** The sentinel errors the callers test with [errors.Is]. *)
Inductive sentinel : Type :=
| ErrInvalid
| ErrActorRequired
| ErrNotFound
| ErrConflict
| ErrVersionConflict
| ErrForbidden.
#[global] Instance sentinel_eq_dec : EqDecision sentinel.
Proof. solve_decision. Defined.

(** Errors of other packages that the service tests for, and the rest. *)
Inductive foreign : Type :=
| NotGranted            (* appaccess.ErrNotGranted *)
| AppUnavailable        (* appaccess.ErrUnavailable *)
| ContextCanceled       (* context.Canceled *)
| ContextDeadline       (* context.DeadlineExceeded *)
| NoRows                (* sql.ErrNoRows *)
| AlreadyStarted        (* serviceerror.WorkflowExecutionAlreadyStarted *)
| TemporalNotFound      (* serviceerror.NotFound *)
| UniqueViolation (what : string)      (* the database's constraint errors *)
| CheckViolation (what : string)
| ForeignKeyViolation (what : string)
| OutOfRange (what : string)
| OtherError (what : string).
#[global] Instance foreign_eq_dec : EqDecision foreign.
Proof. solve_decision. Defined.

(** An error value: a sentinel, an error of a library, a fresh
    [errors.New] text, or [fmt.Errorf] of a format with arguments, whose
    [%w] operand (if any) stays reachable for [errors.Is]. *)
Inductive error : Type :=
| Sentinel (s : sentinel)
| Foreign (f : foreign)
| ErrorNew (text : string)
| Errorf (format : string) (args : list string)
| Wrap (format : string) (args : list string) (w : error)
(** [temporal.NewNonRetryableApplicationError(message, type, nil)] *)
| NonRetryable (message type : string).
#[global] Instance error_eq_dec : EqDecision error.
Proof. solve_decision. Defined.

(** [errors.Is] against a sentinel and against a library's error. *)
Fixpoint errors_Is (e : error) (s : sentinel) : bool :=
  match e with
  | Sentinel s' => bool_decide (s' = s)
  | Wrap _ _ w => errors_Is w s
  | _ => false
  end.

Fixpoint errors_Is_foreign (e : error) (f : foreign) : bool :=
  match e with
  | Foreign f' => bool_decide (f' = f)
  | Wrap _ _ w => errors_Is_foreign w f
  | _ => false
  end.

(** At most one sentinel is reachable in an error. *)
Lemma errors_Is_unique e s s' :
  errors_Is e s = true -> errors_Is e s' = true -> s = s'.
Proof.
  induction e; simpl; try done.
  intros H1 H2. apply bool_decide_eq_true_1 in H1, H2. congruence.
Qed.

Abbreviation res := (result error).

(** [fmt.Errorf("%w: ...", ErrInvalid, ...)] *)
Definition invalidf (format : string) (args : list string) : error :=
  Wrap format args (Sentinel ErrInvalid).

(** ** Constants *)

Definition DefinitionDraft : string := "draft".
Definition DefinitionPublished : string := "published".
Definition DefinitionDisabled : string := "disabled".

Definition NodeStart : string := "start".
Definition NodeApproval : string := "approval".
Definition NodeServiceTask : string := "service_task".
Definition NodeTimer : string := "timer".
Definition NodeEnd : string := "end".

Definition AssigneeUser : string := "user".
Definition AssigneeRole : string := "role".
Definition AssigneeStarter : string := "starter".
Definition AssigneeExpression : string := "expression".

Definition InstanceRunning : string := "running".
Definition InstanceCompleted : string := "completed".
Definition InstanceRejected : string := "rejected".
Definition InstanceCancelled : string := "cancelled".
Definition InstanceFailed : string := "failed".

Definition TaskPending : string := "pending".
Definition TaskClaimed : string := "claimed".
Definition TaskApproved : string := "approved".
Definition TaskRejected : string := "rejected".
Definition TaskCancelled : string := "cancelled".
Definition TaskExpired : string := "expired".

Definition DecisionApprove : string := "approve".
Definition DecisionReject : string := "reject".

(** ** Data *)

Record Node : Type := mkNode {
  node_ID : string;
  node_Name : string;
  node_Type : string;
  node_AssigneeType : string;
  node_Assignee : string;
  node_TimeoutSeconds : Z;
  node_TargetService : string;
  node_FullMethod : string;
  node_RequestTemplateJSON : string;
  node_CompensationMethod : string;
  node_TimerSeconds : Z;
  node_ConfigJSON : string
}.
#[global] Instance Node_eq_dec : EqDecision Node.
Proof. solve_decision. Defined.

Record Edge : Type := mkEdge {
  edge_FromNodeID : string;
  edge_ToNodeID : string;
  edge_ConditionExpression : string;
  edge_Priority : Z
}.
#[global] Instance Edge_eq_dec : EqDecision Edge.
Proof. solve_decision. Defined.

Record WDefinition : Type := mkDefinition {
  def_ID : string;
  def_TenantID : string;
  def_ApplicationID : string;
  def_Key : string;
  def_Name : string;
  def_Description : string;
  def_Status : string;
  def_PublishedRevision : Z;
  def_NodesJSON : string;
  def_EdgesJSON : string;
  def_Version : Z;
  def_CreatedAt : Z;
  def_UpdatedAt : Z;
  def_CreatedBy : string;
  def_UpdatedBy : string;
  def_Nodes : list Node;
  def_Edges : list Edge
}.
#[global] Instance Definition_eq_dec : EqDecision WDefinition.
Proof. solve_decision. Defined.

Record DefinitionRevision : Type := mkDefinitionRevision {
  rev_Definition : WDefinition;
  rev_Revision : Z;
  rev_PublishedAt : Z
}.
#[global] Instance DefinitionRevision_eq_dec : EqDecision DefinitionRevision.
Proof. solve_decision. Defined.

Record WInstance : Type := mkInstance {
  inst_ID : string;
  inst_TenantID : string;
  inst_ApplicationID : string;
  inst_DefinitionID : string;
  inst_DefinitionRevision : Z;
  inst_BusinessKey : string;
  inst_IdempotencyKey : string;
  inst_Title : string;
  inst_StarterID : string;
  inst_Status : string;
  inst_CurrentNodeID : string;
  inst_VariablesJSON : string;
  inst_ResultJSON : string;
  inst_ErrorCode : string;
  inst_ErrorMessage : string;
  inst_TemporalWorkflowID : string;
  inst_TemporalRunID : string;
  inst_StartedAt : Z;
  inst_FinishedAt : option Z;
  inst_Version : Z;
  inst_CreatedAt : Z;
  inst_UpdatedAt : Z;
  inst_CreatedBy : string;
  inst_UpdatedBy : string
}.
#[global] Instance Instance_eq_dec : EqDecision WInstance.
Proof. solve_decision. Defined.

Record Task : Type := mkTask {
  task_ID : string;
  task_TenantID : string;
  task_ApplicationID : string;
  task_InstanceID : string;
  task_NodeID : string;
  task_Name : string;
  task_AssigneeType : string;
  task_Assignee : string;
  task_ClaimedBy : string;
  task_Status : string;
  task_Decision : string;
  task_Comment : string;
  task_InputJSON : string;
  task_OutputJSON : string;
  task_DueAt : option Z;
  task_CompletedAt : option Z;
  task_Version : Z;
  task_CreatedAt : Z;
  task_UpdatedAt : Z;
  task_CreatedBy : string;
  task_UpdatedBy : string
}.
#[global] Instance Task_eq_dec : EqDecision Task.
Proof. solve_decision. Defined.

Record TaskHistory : Type := mkTaskHistory {
  hist_ID : string;
  hist_TenantID : string;
  hist_ApplicationID : string;
  hist_TaskID : string;
  hist_InstanceID : string;
  hist_Action : string;
  hist_ActorID : string;
  hist_FromStatus : string;
  hist_ToStatus : string;
  hist_DetailJSON : string;
  hist_Version : Z;
  hist_CreatedAt : Z;
  hist_UpdatedAt : Z;
  hist_CreatedBy : string;
  hist_UpdatedBy : string
}.
#[global] Instance TaskHistory_eq_dec : EqDecision TaskHistory.
Proof. solve_decision. Defined.

(** [Page[T]] *)
Record Page (T : Type) : Type := mkPage {
  page_Items : list T;
  page_Total : Z;
  page_Page : Z;
  page_PageSize : Z
}.
Arguments mkPage {T} _ _ _ _.
Arguments page_Items {T} _.
Arguments page_Total {T} _.
Arguments page_Page {T} _.
Arguments page_PageSize {T} _.

Record DefinitionFilter : Type := mkDefinitionFilter {
  df_TenantID : string;
  df_ApplicationID : string;
  df_Status : string;
  df_Search : string;
  df_Page : Z;
  df_PageSize : Z
}.
#[global] Instance DefinitionFilter_eq_dec : EqDecision DefinitionFilter.
Proof. solve_decision. Defined.

Record DefinitionCandidate : Type := mkDefinitionCandidate {
  dc_ID : string;
  dc_Key : string;
  dc_Name : string;
  dc_Status : string;
  dc_PublishedRevision : Z
}.
#[global] Instance DefinitionCandidate_eq_dec : EqDecision DefinitionCandidate.
Proof. solve_decision. Defined.

Record InstanceFilter : Type := mkInstanceFilter {
  if_TenantID : string;
  if_ApplicationID : string;
  if_DefinitionID : string;
  if_Status : string;
  if_StarterID : string;
  if_Search : string;
  if_StartedFrom : option Z;
  if_StartedUntil : option Z;
  if_Page : Z;
  if_PageSize : Z
}.
#[global] Instance InstanceFilter_eq_dec : EqDecision InstanceFilter.
Proof. solve_decision. Defined.

Record TaskFilter : Type := mkTaskFilter {
  tf_TenantID : string;
  tf_ApplicationID : string;
  tf_InstanceID : string;
  tf_Status : string;
  tf_AssigneeUserID : string;
  tf_Search : string;
  tf_RoleIDs : list string;
  tf_IncludeUnclaimed : bool;
  tf_Page : Z;
  tf_PageSize : Z
}.
#[global] Instance TaskFilter_eq_dec : EqDecision TaskFilter.
Proof. solve_decision. Defined.

Record TaskInstanceCandidate : Type := mkTaskInstanceCandidate {
  tic_ID : string;
  tic_Title : string;
  tic_BusinessKey : string;
  tic_Status : string
}.
#[global] Instance TaskInstanceCandidate_eq_dec : EqDecision TaskInstanceCandidate.
Proof. solve_decision. Defined.

Record TaskInstanceCandidateFilter : Type := mkTaskInstanceCandidateFilter {
  ticf_TenantID : string;
  ticf_ApplicationID : string;
  ticf_Search : string;
  ticf_AssigneeUserID : string;
  ticf_RoleIDs : list string;
  ticf_IncludeUnclaimed : bool;
  ticf_Page : Z;
  ticf_PageSize : Z
}.
#[global] Instance TaskInstanceCandidateFilter_eq_dec : EqDecision TaskInstanceCandidateFilter.
Proof. solve_decision. Defined.

Record TaskHistoryFilter : Type := mkTaskHistoryFilter {
  hf_TenantID : string;
  hf_ApplicationID : string;
  hf_TaskID : string;
  hf_InstanceID : string;
  hf_Page : Z;
  hf_PageSize : Z
}.
#[global] Instance TaskHistoryFilter_eq_dec : EqDecision TaskHistoryFilter.
Proof. solve_decision. Defined.

