(* ===== verification/GraphCodec.v ===== *)
(** * The stored form of a graph (encodeGraph and hydrateDefinition)

    [json.Marshal] of the node and edge structs, with the [json:"..."] names and
    [omitempty] of internal/workflow/model.go, and [json.Unmarshal] back, as
    internal/workflow/service.go and repository.go use them. *)
From S2P Require Import Prelude GoStd Json Model.
From Stdlib Require Import Ascii String.
Local Open Scope string_scope.

(** ** Integers as decimal literals *)

Fixpoint print_N_aux (fuel : nat) (n : N) (acc : string) : string :=
  match fuel with
  | O => acc
  | S fuel =>
      let acc := String (byte (48 + n mod 10)) acc in
      if (n <? 10)%N then acc else print_N_aux fuel (n / 10) acc
  end.
Definition print_N (n : N) : string := print_N_aux (S (N.size_nat n)) n "".
Definition print_Z (z : Z) : string :=
  if (z <? 0)%Z then String "-" (print_N (Z.to_N (- z))) else print_N (Z.to_N z).

(** [strconv.ParseUint(lit, 10, 64)] and the range check of the field's width;
    the literal is already a JSON number, so any non-digit is an error. *)
Definition parse_digits (lit : string) : option Z :=
  if str_forall is_digit lit && negb (str_empty lit)
  then Some (Z.of_N (dec_val 0 lit)) else None.

Definition parse_uint32 (lit : string) : option Z :=
  n ← parse_digits lit; if (n <? 2 ^ 32)%Z then Some n else None.

Definition parse_int32 (lit : string) : option Z :=
  match strip_prefix "-" lit with
  | Some t => n ← parse_digits t; if (n <=? 2 ^ 31)%Z then Some (- n)%Z else None
  | None => n ← parse_digits lit; if (n <? 2 ^ 31)%Z then Some n else None
  end.

(** ** Marshal *)

Definition field_string (omitempty : bool) (name s : string) : list (string * json) :=
  if omitempty && str_empty s then [] else [(name, JStr s)].
Definition field_int (omitempty : bool) (name : string) (z : Z) : list (string * json) :=
  if omitempty && (z =? 0)%Z then [] else [(name, JNum (print_Z z))].

Definition marshal_node (n : Node) : json := JObj (
  field_string false "id" (node_ID n) ++
  field_string false "name" (node_Name n) ++
  field_string false "type" (node_Type n) ++
  field_string true "assignee_type" (node_AssigneeType n) ++
  field_string true "assignee" (node_Assignee n) ++
  field_int true "timeout_seconds" (node_TimeoutSeconds n) ++
  field_string true "target_service" (node_TargetService n) ++
  field_string true "full_method" (node_FullMethod n) ++
  field_string true "request_template_json" (node_RequestTemplateJSON n) ++
  field_string true "compensation_method" (node_CompensationMethod n) ++
  field_int true "timer_seconds" (node_TimerSeconds n) ++
  field_string true "config_json" (node_ConfigJSON n))%list.

Definition marshal_edge (e : Edge) : json := JObj (
  field_string false "from_node_id" (edge_FromNodeID e) ++
  field_string false "to_node_id" (edge_ToNodeID e) ++
  field_string true "condition_expression" (edge_ConditionExpression e) ++
  field_int false "priority" (edge_Priority e))%list.

(** A slice marshals to an array.  The graph slices are never nil where they are
    encoded: validation needs two nodes, and the empty slice is not nil. *)
Definition encodeGraph (nodes : list Node) (edges : list Edge) : string * string :=
  (print (JArr (map marshal_node nodes)), print (JArr (map marshal_edge edges))).

(** ** Unmarshal *)

(** [foldName]: ASCII letters to upper case, and the two code points whose
    simple folding is an ASCII letter (U+017F and U+212A). *)
Definition to_upper (c : ascii) : ascii :=
  if is_lower c then byte (N_of_ascii c - 32) else c.

Fixpoint foldName (s : string) : string :=
  match s with
  | String a s1 =>
      match s1 with
      | String b s2 =>
          if in_range 197 197 a && in_range 191 191 b then String "S" (foldName s2) else
          match s2 with
          | String c s3 =>
              if in_range 226 226 a && in_range 132 132 b && in_range 170 170 c
              then String "K" (foldName s3) else String (to_upper a) (foldName s1)
          | EmptyString => String (to_upper a) (foldName s1)
          end
      | EmptyString => String (to_upper a) (foldName s1)
      end
  | EmptyString => EmptyString
  end.

(** The struct field a key selects: an exact name first, then a folded one. *)
Definition find_field (names : list string) (key : string) : option string :=
  match find (String.eqb key) names with
  | Some f => Some f
  | None => find (fun f => String.eqb (foldName f) (foldName key)) names
  end.

(** Storing a JSON value into a field; [null] leaves it as it is. *)
Definition set_string (v : json) (old : string) : option string :=
  match v with JStr s => Some s | JNull => Some old | _ => None end.
Definition set_int (parse_int : string -> option Z) (v : json) (old : Z) : option Z :=
  match v with JNum lit => parse_int lit | JNull => Some old | _ => None end.

Definition node_fields : list string :=
  ["id"; "name"; "type"; "assignee_type"; "assignee"; "timeout_seconds";
   "target_service"; "full_method"; "request_template_json";
   "compensation_method"; "timer_seconds"; "config_json"].

Definition set_node_field (f : string) (v : json) (n : Node) : option Node :=
  let 'mkNode id name ty aty a timeout svc method tmpl comp timer config := n in
  let str old k := k <$> set_string v old in
  let u32 old k := k <$> set_int parse_uint32 v old in
  if String.eqb f "id" then
    str id (fun x => mkNode x name ty aty a timeout svc method tmpl comp timer config)
  else if String.eqb f "name" then
    str name (fun x => mkNode id x ty aty a timeout svc method tmpl comp timer config)
  else if String.eqb f "type" then
    str ty (fun x => mkNode id name x aty a timeout svc method tmpl comp timer config)
  else if String.eqb f "assignee_type" then
    str aty (fun x => mkNode id name ty x a timeout svc method tmpl comp timer config)
  else if String.eqb f "assignee" then
    str a (fun x => mkNode id name ty aty x timeout svc method tmpl comp timer config)
  else if String.eqb f "timeout_seconds" then
    u32 timeout (fun x => mkNode id name ty aty a x svc method tmpl comp timer config)
  else if String.eqb f "target_service" then
    str svc (fun x => mkNode id name ty aty a timeout x method tmpl comp timer config)
  else if String.eqb f "full_method" then
    str method (fun x => mkNode id name ty aty a timeout svc x tmpl comp timer config)
  else if String.eqb f "request_template_json" then
    str tmpl (fun x => mkNode id name ty aty a timeout svc method x comp timer config)
  else if String.eqb f "compensation_method" then
    str comp (fun x => mkNode id name ty aty a timeout svc method tmpl x timer config)
  else if String.eqb f "timer_seconds" then
    u32 timer (fun x => mkNode id name ty aty a timeout svc method tmpl comp x config)
  else
    str config (fun x => mkNode id name ty aty a timeout svc method tmpl comp timer x).

Definition edge_fields : list string :=
  ["from_node_id"; "to_node_id"; "condition_expression"; "priority"].

Definition set_edge_field (f : string) (v : json) (e : Edge) : option Edge :=
  let 'mkEdge from to cond prio := e in
  let str old k := k <$> set_string v old in
  if String.eqb f "from_node_id" then str from (fun x => mkEdge x to cond prio)
  else if String.eqb f "to_node_id" then str to (fun x => mkEdge from x cond prio)
  else if String.eqb f "condition_expression" then str cond (fun x => mkEdge from to x prio)
  else (fun x => mkEdge from to cond x) <$> set_int parse_int32 v prio.

(** The members of an object, one after the other; an unknown key is skipped. *)
Fixpoint set_members {T} (names : list string) (set : string -> json -> T -> option T)
    (members : list (string * json)) (t : T) : option T :=
  match members with
  | [] => Some t
  | (k, v) :: members' =>
      match find_field names k with
      | Some f => t' ← set f v t; set_members names set members' t'
      | None => set_members names set members' t
      end
  end.

Definition unmarshal_struct {T} (names : list string) (set : string -> json -> T -> option T)
    (zero : T) (v : json) : option T :=
  match v with
  | JObj members => set_members names set members zero
  | JNull => Some zero
  | _ => None
  end.

Definition unmarshal_slice {T} (elem : json -> option T) (v : option json) : option (list T) :=
  match v with
  | Some (JArr l) => mapM elem l
  | Some JNull => Some []
  | _ => None
  end.

Definition zero_node : Node := mkNode "" "" "" "" "" 0 "" "" "" "" 0 "".
Definition zero_edge : Edge := mkEdge "" "" "" 0.

Definition unmarshal_nodes (s : string) : option (list Node) :=
  unmarshal_slice (unmarshal_struct node_fields set_node_field zero_node) (parse s).
Definition unmarshal_edges (s : string) : option (list Edge) :=
  unmarshal_slice (unmarshal_struct edge_fields set_edge_field zero_edge) (parse s).

Definition def_set_graph (d : WDefinition) (nodes : list Node) (edges : list Edge) : WDefinition :=
  mkDefinition (def_ID d) (def_TenantID d) (def_ApplicationID d) (def_Key d) (def_Name d)
    (def_Description d) (def_Status d) (def_PublishedRevision d) (def_NodesJSON d)
    (def_EdgesJSON d) (def_Version d) (def_CreatedAt d) (def_UpdatedAt d) (def_CreatedBy d)
    (def_UpdatedBy d) nodes edges.

Definition hydrateDefinition (value : WDefinition) : res WDefinition :=
  match unmarshal_nodes (def_NodesJSON value) with
  | None => Err (Wrap "decode workflow definition nodes: %w" []
                  (ErrorNew "json: cannot unmarshal nodes"))
  | Some nodes =>
      match unmarshal_edges (def_EdgesJSON value) with
      | None => Err (Wrap "decode workflow definition edges: %w" []
                      (ErrorNew "json: cannot unmarshal edges"))
      | Some edges => Ok (def_set_graph value nodes edges)
      end
  end.
