(* ===== verification/CodecSpec.v ===== *)
(** * Round trips of the stored graph

    What [encodeGraph] writes, [hydrateDefinition] reads back: the scanner of [Json]
    inverts its printer on every tree whose numbers are number literals, and the fields
    the marshaller omits are the zero values of the structs.  Bytes that are not UTF-8
    are replaced, as encoding/json does. *)
From S2P Require Import Prelude GoStd Json Model GraphCodec.
From Stdlib Require Import Ascii String.
Local Open Scope string_scope.
Local Open Scope list_scope.

#[local] Set Warnings "-register-all".

(** ** Strings *)

(** The encoding of a rune beyond ASCII that starts with the byte [c], and the rest. *)
Definition split_rune (c : ascii) (s1 : string) : option (string * string) :=
  match s1 with
  | EmptyString => None
  | String c2 s2 =>
    if rune2 c c2 then Some (String c (String c2 ""), s2)
    else match s2 with
      | EmptyString => None
      | String c3 s3 =>
        if rune3 c c2 c3 then Some (String c (String c2 (String c3 "")), s3)
        else match s3 with
          | EmptyString => None
          | String c4 s4 =>
            if rune4 c c2 c3 c4 then Some (String c (String c2 (String c3 (String c4 ""))), s4) else None
          end
      end
  end.

(** How [json.Marshal] writes the encoding of a rune beyond ASCII. *)
Definition escape_rune (r : string) : string :=
  match r with
  | String a (String b (String c EmptyString)) => escape_rune3 a b c
  | _ => r
  end.

(** [strings.ToValidUTF8(s, U+FFFD)], byte by byte. *)
Fixpoint to_valid (s : string) : string :=
  match s with
  | EmptyString => EmptyString
  | String c s1 =>
    if (N_of_ascii c <? 128)%N then String c (to_valid s1)
    else
      match s1 with
      | EmptyString => replacement +:+ to_valid s1
      | String c2 s2 =>
        if rune2 c c2 then String c (String c2 (to_valid s2))
        else
          match s2 with
          | EmptyString => replacement +:+ to_valid s1
          | String c3 s3 =>
            if rune3 c c2 c3 then String c (String c2 (String c3 (to_valid s3)))
            else
              match s3 with
              | EmptyString => replacement +:+ to_valid s1
              | String c4 s4 =>
                if rune4 c c2 c3 c4
                then String c (String c2 (String c3 (String c4 (to_valid s4))))
                else replacement +:+ to_valid s1
              end
          end
      end
  end.

Lemma escape_string_rune c s : (N_of_ascii c <? 128)%N = false ->
  escape_string (String c s) =
    match split_rune c s with
    | Some (r, s') => escape_rune r +:+ escape_string s'
    | None => invalid_escape +:+ escape_string s
    end.
Proof.
  intros H. unfold split_rune. cbn [escape_string]. rewrite H.
  destruct s as [|c2 s]; [done|]. destruct (rune2 c c2); [done|].
  destruct s as [|c3 s]; [done|]. destruct (rune3 c c2 c3); [done|].
  destruct s as [|c4 s]; [done|]. by destruct (rune4 c c2 c3 c4).
Qed.

Lemma to_valid_rune c s : (N_of_ascii c <? 128)%N = false ->
  to_valid (String c s) =
    match split_rune c s with
    | Some (r, s') => r +:+ to_valid s'
    | None => replacement +:+ to_valid s
    end.
Proof.
  intros H. unfold split_rune. cbn [to_valid]. rewrite H.
  destruct s as [|c2 s]; [done|]. destruct (rune2 c c2); [done|].
  destruct s as [|c3 s]; [done|]. destruct (rune3 c c2 c3); [done|].
  destruct s as [|c4 s]; [done|]. by destruct (rune4 c c2 c3 c4).
Qed.

Lemma split_rune_shorter c s r s' : split_rune c s = Some (r, s') -> String.length s' < String.length s.
Proof.
  unfold split_rune. intros H. repeat case_match; simplify_eq; cbn [String.length]; lia.
Qed.

(** Induction over the runes of a string, with the invalid bytes among them. *)
Lemma runes_ind (P : string -> Prop) :
  P "" ->
  (forall c s, (N_of_ascii c <? 128)%N = true -> P s -> P (String c s)) ->
  (forall c s r s', (N_of_ascii c <? 128)%N = false -> split_rune c s = Some (r, s') -> P s' -> P (String c s)) ->
  (forall c s, (N_of_ascii c <? 128)%N = false -> split_rune c s = None -> P s -> P (String c s)) ->
  forall s, P s.
Proof.
  intros H0 H1 H2 H3 s. remember (String.length s) as n eqn:Hn. revert s Hn.
  induction n as [n IH] using lt_wf_ind. intros [|c s] ->; [done|].
  assert (Hs : P s) by (eapply IH; [|done]; cbn [String.length]; lia).
  destruct (N_of_ascii c <? 128)%N eqn:Hc; [by apply H1|].
  destruct (split_rune c s) as [[r s']|] eqn:Hr; [|by apply H3].
  eapply H2; [done..|]. eapply IH; [|done]. apply split_rune_shorter in Hr. cbn [String.length]. lia.
Qed.

Lemma scan_escape_byte c t : (N_of_ascii c <? 128)%N = true ->
  scan_string (escape_byte c +:+ t) = cons_decoded (String c "") (scan_string t).
Proof.
  destruct c as [[] [] [] [] [] [] [] []]; intros Hc; first [discriminate Hc | reflexivity].
Qed.

Lemma high_byte c : (N_of_ascii c <? 128)%N = false ->
  Ascii.eqb c quote_char = false /\ Ascii.eqb c backslash = false /\ (N_of_ascii c <? 32)%N = false.
Proof.
  intros H%N.ltb_ge. split; [|split].
  - apply Ascii.eqb_neq. intros ->. vm_compute in H. by apply H.
  - apply Ascii.eqb_neq. intros ->. vm_compute in H. by apply H.
  - apply N.ltb_ge. lia.
Qed.

Lemma in_range_single n c : in_range n n c = true -> c = ascii_of_N n.
Proof.
  unfold in_range. intros [H1%N.leb_le H2%N.leb_le]%andb_prop. rewrite <- (ascii_N_embedding c). f_equal. lia.
Qed.

(** A rune beyond ASCII is read back from what was written for it. *)
Lemma scan_escape_rune c s r s' t : (N_of_ascii c <? 128)%N = false -> split_rune c s = Some (r, s') ->
  scan_string (escape_rune r +:+ t) = cons_decoded r (scan_string t).
Proof.
  intros Hc Hr. destruct (high_byte c Hc) as (Hq & Hb & Hl). unfold split_rune in Hr.
  destruct s as [|c2 s]; [done|]. destruct (rune2 c c2) eqn:H2.
  { injection Hr as <- <-. change (scan_string (String c (String c2 t)) = cons_decoded (String c (String c2 "")) (scan_string t)).
    cbn [scan_string]. by rewrite Hq, Hb, Hl, Hc, H2. }
  destruct s as [|c3 s]; [done|]. destruct (rune3 c c2 c3) eqn:H3.
  { injection Hr as <- <-. unfold escape_rune, escape_rune3.
    destruct (in_range 226 226 c && in_range 128 128 c2 && in_range 168 169 c3) eqn:He.
    - apply andb_prop in He as [[->%in_range_single ->%in_range_single]%andb_prop He].
      destruct (in_range 168 168 c3) eqn:H168; [by apply in_range_single in H168 as ->|].
      assert (c3 = ascii_of_N 169) as ->; [|done]. apply in_range_single. unfold in_range in *.
      apply andb_prop in He as [He1 He2%N.leb_le]. apply N.leb_le in He1. apply andb_false_iff in H168.
      apply andb_true_intro. rewrite !N.leb_le. rewrite !N.leb_gt in H168. lia.
    - change (scan_string (String c (String c2 (String c3 t))) = cons_decoded (String c (String c2 (String c3 ""))) (scan_string t)).
      cbn [scan_string]. by rewrite Hq, Hb, Hl, Hc, H2, H3. }
  destruct s as [|c4 s]; [done|]. destruct (rune4 c c2 c3 c4) eqn:H4; [|done]. injection Hr as <- <-.
  change (scan_string (String c (String c2 (String c3 (String c4 t))))
    = cons_decoded (String c (String c2 (String c3 (String c4 "")))) (scan_string t)).
  cbn [scan_string]. by rewrite Hq, Hb, Hl, Hc, H2, H3, H4.
Qed.

Lemma scan_escape s rest : scan_string (escape_string s +:+ String quote_char rest) = Some (to_valid s, rest).
Proof.
  induction s as [|c s Hc IH|c s r s' Hc Hr IH|c s Hc Hr IH] using runes_ind; [done|..].
  - cbn [escape_string to_valid]. rewrite Hc, append_assoc, (scan_escape_byte _ _ Hc), IH. done.
  - rewrite (escape_string_rune c s Hc), (to_valid_rune c s Hc), Hr, append_assoc, (scan_escape_rune _ _ _ _ _ Hc Hr), IH. done.
  - rewrite (escape_string_rune c s Hc), (to_valid_rune c s Hc), Hr, append_assoc.
    change (scan_string (invalid_escape +:+ (escape_string s +:+ String quote_char rest)))
      with (cons_decoded replacement (scan_string (escape_string s +:+ String quote_char rest))).
    rewrite IH. done.
Qed.

(** [utf8.ValidString] *)
Definition ValidString (s : string) : bool := String.eqb (to_valid s) s.

(** ** Trees *)

Section json_ind.
Context (P : json -> Prop) (Hnull : P JNull) (Hbool : forall b, P (JBool b)) (Hnum : forall lit, P (JNum lit))
  (Hstr : forall s, P (JStr s)) (Harr : forall l, Forall P l -> P (JArr l))
  (Hobj : forall l, Forall (fun kv => P kv.2) l -> P (JObj l)).

Fixpoint json_tree_ind (v : json) : P v :=
  match v with
  | JNull => Hnull
  | JBool b => Hbool b
  | JNum lit => Hnum lit
  | JStr s => Hstr s
  | JArr l => Harr l ((fix all (l : list json) : Forall P l :=
      match l with [] => Forall_nil_2 _ | x :: l => Forall_cons_2 _ _ _ (json_tree_ind x) (all l) end) l)
  | JObj l => Hobj l ((fix all (l : list (string * json)) : Forall (fun kv => P kv.2) l :=
      match l with [] => Forall_nil_2 _ | kv :: l => Forall_cons_2 _ _ _ (json_tree_ind kv.2) (all l) end) l)
  end.
End json_ind.

(** Every string of a tree with its invalid bytes replaced. *)
Fixpoint tree_to_valid (v : json) : json :=
  match v with
  | JStr s => JStr (to_valid s)
  | JArr l => JArr (map (fun x => tree_to_valid x) l)
  | JObj l => JObj (map (fun kv => (to_valid kv.1, tree_to_valid kv.2)) l)
  | v => v
  end.

(** A text that does not continue a number. *)
Definition number_end (rest : string) : Prop :=
  match rest with EmptyString => True | String c _ => is_digit c = false /\ byte_in ".eE" c = false end.

(** A number literal of JSON: the scanner stops at its end. *)
Definition number_start (c : ascii) : bool := is_digit c || Ascii.eqb c "-".
Definition number_text (lit : string) : Prop :=
  (exists c t, lit = String c t /\ number_start c = true) /\
  forall rest, number_end rest -> scan_number (lit +:+ rest) = Some (lit, rest).

(** A tree that can be printed and read back at the nesting depth [d]. *)
Inductive printable : N -> json -> Prop :=
| pr_null d : printable d JNull
| pr_bool d b : printable d (JBool b)
| pr_num d lit : number_text lit -> printable d (JNum lit)
| pr_str d s : printable d (JStr s)
| pr_arr d l : (d < max_depth)%N -> Forall (printable (d + 1)) l -> printable d (JArr l)
| pr_obj d l : (d < max_depth)%N -> Forall (fun kv => printable (d + 1) kv.2) l -> printable d (JObj l).

Lemma number_start_other c : number_start c = true ->
  json_space c = false /\ Ascii.eqb c quote_char = false /\ Ascii.eqb c "[" = false /\ Ascii.eqb c "{" = false /\
  Ascii.eqb c "]" = false /\ Ascii.eqb "n" c = false /\ Ascii.eqb "t" c = false /\ Ascii.eqb "f" c = false.
Proof. destruct c as [[] [] [] [] [] [] [] []]; intros H; first [discriminate H | repeat split]. Qed.

Lemma print_head d v : printable d v ->
  exists c t, print v = String c t /\ json_space c = false /\ Ascii.eqb c "]" = false.
Proof.
  intros H. destruct H as [d|d []|d lit [(c & t & -> & Hc) _]|d s|d l|d l]; try (by eexists _, _).
  exists c, t. by destruct (number_start_other c Hc) as (? & _ & _ & _ & ? & _).
Qed.

Lemma skip_ws_head c t : json_space c = false -> skip_ws (String c t) = String c t.
Proof. intros H. cbn [skip_ws]. by rewrite H. Qed.

(** What [scan_value] does at the first byte of a value. *)
Lemma scan_number_value fuel d lit rest : number_text lit -> number_end rest ->
  scan_value (S fuel) d (lit +:+ rest) = Some (JNum lit, rest).
Proof.
  intros [(c & t & -> & Hc) Hs] Hr. specialize (Hs rest Hr).
  destruct (number_start_other c Hc) as (Hsp & Hq & Ha & Ho & _ & Hn & Ht & Hf).
  change (String c t +:+ rest) with (String c (t +:+ rest)) in *. cbn [scan_value].
  rewrite (skip_ws_head _ _ Hsp), Hq, Ha, Ho. cbn [strip_prefix]. rewrite Hn, Ht, Hf, Hs. done.
Qed.

Lemma join_cons (x y : string) l : join "," (x :: y :: l) = x +:+ String "," (join "," (y :: l)).
Proof. done. Qed.

(** The value is read back in front of any text. *)
Definition reads (d : N) (v : json) : Prop := forall fuel rest, number_end rest ->
  2 * String.length (print v) <= fuel -> scan_value fuel d (print v +:+ rest) = Some (tree_to_valid v, rest).

Lemma quoted_rest s rest : quoted s +:+ rest = String quote_char (escape_string s +:+ String quote_char rest).
Proof. unfold quoted. change (String quote_char ((escape_string s +:+ String quote_char "") +:+ rest) = String quote_char (escape_string s +:+ String quote_char rest)).
  by rewrite append_assoc. Qed.

Lemma length_join_cons (x y : string) l :
  String.length (join "," (x :: y :: l)) = String.length x + S (String.length (join "," (y :: l))).
Proof. rewrite join_cons, length_append. done. Qed.

Lemma scan_elements_print d l rest : l <> [] -> Forall (reads d) l ->
  forall fuel, 2 * String.length (join "," (map print l)) + 2 <= fuel ->
  scan_elements fuel d (join "," (map print l) +:+ String "]" rest) = Some (map tree_to_valid l, rest).
Proof.
  intros Hne Hr. induction Hr as [|v l Hv Hr IH]; [done|]. intros [|fuel] Hf; [lia|]. cbn [scan_elements].
  destruct l as [|v' l]; cbn [map] in *.
  - cbn [join] in *. rewrite (Hv fuel (String "]" rest)); [done|done|lia].
  - rewrite length_join_cons in Hf. rewrite join_cons, append_assoc.
    rewrite (Hv fuel); [|done|lia]. cbn [mbind option_bind snd fst].
    change (String "," (join "," (print v' :: map print l)) +:+ String "]" rest)
      with (String "," (join "," (print v' :: map print l) +:+ String "]" rest)).
    rewrite skip_ws_head by done. change (Ascii.eqb "," ",") with true. cbv iota.
    rewrite IH; [done|done|lia].
Qed.

Definition print_member (kv : string * json) : string := quoted kv.1 +:+ ":" +:+ print kv.2.
Definition member_to_valid (kv : string * json) : string * json := (to_valid kv.1, tree_to_valid kv.2).

Lemma scan_members_print d l rest : l <> [] -> Forall (fun kv => reads d kv.2) l ->
  forall fuel, 2 * String.length (join "," (map print_member l)) + 2 <= fuel ->
  scan_members fuel d (join "," (map print_member l) +:+ String "}" rest) = Some (map member_to_valid l, rest).
Proof.
  intros Hne Hr. induction Hr as [|[k v] l Hv Hr IH]; [done|]. intros [|fuel] Hf; [lia|]. cbn [fst snd] in Hv.
  assert (Hkv : forall t, String.length (print v) < String.length (print_member (k, v)) /\
    print_member (k, v) +:+ t = String quote_char (escape_string k +:+ String quote_char (String ":" (print v +:+ t)))).
  { intros t. unfold print_member. cbn [fst snd]. split; [rewrite !length_append; cbn [String.length]; lia|].
    by rewrite append_assoc, quoted_rest. }
  destruct l as [|kv' l]; cbn [map] in *.
  - cbn [join] in *. destruct (Hkv (String "}" rest)) as [Hl ->]. cbn [scan_members].
    rewrite skip_ws_head by done. change (Ascii.eqb quote_char quote_char) with true. cbv iota. rewrite scan_escape.
    cbn [mbind option_bind snd fst]. rewrite skip_ws_head by done. change (Ascii.eqb ":" ":") with true. cbv iota.
    rewrite (Hv fuel (String "}" rest)); [done|done|lia].
  - rewrite length_join_cons in Hf. rewrite join_cons, append_assoc.
    change (String "," (join "," (print_member kv' :: map print_member l)) +:+ String "}" rest)
      with (String "," (join "," (print_member kv' :: map print_member l) +:+ String "}" rest)).
    destruct (Hkv (String "," (join "," (print_member kv' :: map print_member l) +:+ String "}" rest))) as [Hl ->]. cbn [scan_members].
    rewrite skip_ws_head by done. change (Ascii.eqb quote_char quote_char) with true. cbv iota. rewrite scan_escape.
    cbn [mbind option_bind snd fst]. rewrite skip_ws_head by done. change (Ascii.eqb ":" ":") with true. cbv iota.
    rewrite (Hv fuel); [|done|lia]. cbn [mbind option_bind snd fst]. rewrite skip_ws_head by done.
    change (Ascii.eqb "," ",") with true. cbv iota. rewrite IH; [done|done|lia].
Qed.

Lemma join_head (x : string) l r c t : x = String c t -> exists t', join "," (x :: l) +:+ r = String c t'.
Proof. intros ->. destruct l as [|y l]; [by eexists|]. rewrite join_cons. by eexists. Qed.

Lemma scan_array fuel d c t : (max_depth <=? d)%N = false -> json_space c = false -> Ascii.eqb c "]" = false ->
  scan_value (S fuel) d (String "[" (String c t)) = (r ← scan_elements fuel (d + 1) (String c t); Some (JArr r.1, r.2)).
Proof.
  intros Hd Hsp Hc. cbn [scan_value]. rewrite skip_ws_head by done.
  change (Ascii.eqb "[" quote_char) with false. change (Ascii.eqb "[" "[") with true. cbv iota.
  by rewrite Hd, skip_ws_head, Hc.
Qed.

Lemma scan_object fuel d t : (max_depth <=? d)%N = false ->
  scan_value (S fuel) d (String "{" (String quote_char t)) = (r ← scan_members fuel (d + 1) (String quote_char t); Some (JObj r.1, r.2)).
Proof.
  intros Hd. cbn [scan_value]. rewrite skip_ws_head by done.
  change (Ascii.eqb "{" quote_char) with false. change (Ascii.eqb "{" "[") with false. change (Ascii.eqb "{" "{") with true. cbv iota.
  by rewrite Hd, skip_ws_head.
Qed.

Lemma enclosed (a b : ascii) (t rest : string) :
  (String a "" +:+ t +:+ String b "") +:+ rest = String a (t +:+ String b rest) /\
  String.length (String a "" +:+ t +:+ String b "") = String.length t + 2.
Proof.
  change (String a "" +:+ t +:+ String b "") with (String a (t +:+ String b "")). split.
  - change (String a ((t +:+ String b "") +:+ rest) = String a (t +:+ String b rest)). by rewrite append_assoc.
  - cbn [String.length]. rewrite length_append. cbn [String.length]. lia.
Qed.

(** The scanner reads back what the printer wrote. *)
Lemma print_reads v : forall d, printable d v -> reads d v.
Proof.
  induction v as [|b|lit|s|l IH|l IH] using json_tree_ind; intros d Hp [|fuel] rest Hr Hf.
  all: try (exfalso; destruct (print_head d _ Hp) as (c & t & Hh & _); rewrite Hh in Hf; cbn [String.length] in Hf; lia).
  - done.
  - by destruct b.
  - inversion Hp; subst. by apply scan_number_value.
  - cbn [print] in *. rewrite quoted_rest. cbn [scan_value]. rewrite skip_ws_head by done.
    change (Ascii.eqb quote_char quote_char) with true. cbv iota. by rewrite scan_escape.
  - inversion Hp as [| | | |? ? Hd Hl|]; subst. apply N.leb_gt in Hd.
    destruct (enclosed "[" "]" (join "," (map print l)) rest) as [Ht Hlen].
    change (print (JArr l)) with ("[" +:+ join "," (map print l) +:+ "]") in *. rewrite Ht. rewrite Hlen in Hf.
    destruct l as [|v l]; [cbn [map join]; cbn [scan_value]; rewrite skip_ws_head by done; 
      change (Ascii.eqb "[" quote_char) with false; change (Ascii.eqb "[" "[") with true; cbv iota; by rewrite Hd|].
    destruct (print_head (d + 1) v (Forall_inv Hl)) as (c & t & Hh & Hsp & Hc).
    destruct (join_head (print v) (map print l) (String "]" rest) c t Hh) as [t' Hj].
    cbn [map] in *. rewrite Hj, scan_array, <- Hj by done.
    change (print v :: map print l) with (map print (v :: l)) in *. rewrite scan_elements_print; [done|done| |lia].
    apply Forall_forall. intros x Hx. rewrite Forall_forall in IH, Hl. apply (IH x Hx), (Hl x Hx).
  - inversion Hp as [| | | | |? ? Hd Hl]; subst. apply N.leb_gt in Hd.
    destruct (enclosed "{" "}" (join "," (map print_member l)) rest) as [Ht Hlen].
    change (print (JObj l)) with ("{" +:+ join "," (map print_member l) +:+ "}") in *. rewrite Ht. rewrite Hlen in Hf.
    destruct l as [|kv l]; [cbn [map join]; cbn [scan_value]; rewrite skip_ws_head by done;
      change (Ascii.eqb "{" quote_char) with false; change (Ascii.eqb "{" "[") with false; change (Ascii.eqb "{" "{") with true; cbv iota; by rewrite Hd|].
    destruct (join_head (print_member kv) (map print_member l) (String "}" rest) quote_char
      ((escape_string kv.1 +:+ String quote_char "") +:+ ":" +:+ print kv.2) eq_refl) as [t' Hj].
    cbn [map] in *. rewrite Hj, scan_object, <- Hj by done.
    change (print_member kv :: map print_member l) with (map print_member (kv :: l)) in *. rewrite scan_members_print; [done|done| |lia].
    apply Forall_forall. intros x Hx. rewrite Forall_forall in IH, Hl. apply (IH x Hx), (Hl x Hx).
Qed.

(** The document of a tree, parsed, is the tree. *)
Lemma parse_print v : printable 0 v -> parse (print v) = Some (tree_to_valid v).
Proof.
  intros Hp. unfold parse. pose proof (print_reads v 0 Hp (3 * S (String.length (print v))) "" I) as H.
  rewrite append_nil_r in H. rewrite H by lia. done.
Qed.

(** ** Numbers *)

(** The decimal text of [n]: no leading zero, and its value is [n]. *)
Definition decimal (p : string) (n : N) : Prop :=
  str_forall is_digit p = true /\ dec_val 0 p = n /\
  match p with EmptyString => False | String c t => Ascii.eqb c "0" = true -> t = EmptyString end.

Lemma dec_val_app a p q : dec_val a (p +:+ q) = dec_val (dec_val a p) q.
Proof. revert a. induction p as [|c p IH]; intros a; [done|]. change (dec_val (a * 10 + digit_val c) (p +:+ q) = dec_val (dec_val (a * 10 + digit_val c) p) q). apply IH. Qed.

Lemma str_forall_app f p q : str_forall f (p +:+ q) = str_forall f p && str_forall f q.
Proof. induction p as [|c p IH]; [done|]. change (f c && str_forall f (p +:+ q) = f c && str_forall f p && str_forall f q). by rewrite IH, andb_assoc. Qed.

Lemma digit_byte d : (d < 10)%N -> is_digit (byte (48 + d)) = true /\ digit_val (byte (48 + d)) = d /\
  (Ascii.eqb (byte (48 + d)) "0" = true -> d = 0%N).
Proof.
  intros Hd. assert (Hn : N_of_ascii (byte (48 + d)) = (48 + d)%N) by (apply N_ascii_embedding; lia).
  unfold is_digit, in_range, digit_val. rewrite Hn. split; [|split; [lia|]].
  - apply andb_true_intro. rewrite !N.leb_le. lia.
  - intros H%Ascii.eqb_eq. rewrite H in Hn. change (N_of_ascii "0") with 48%N in Hn. lia.
Qed.

Lemma print_N_aux_decimal fuel : forall n acc, (n < 10 ^ N.of_nat fuel)%N -> (0 < fuel) ->
  exists p, print_N_aux fuel n acc = p +:+ acc /\ decimal p n.
Proof.
  induction fuel as [|fuel IH]; intros n acc Hn Hf; [lia|]. cbn [print_N_aux].
  destruct (digit_byte (n mod 10)) as (Hd & Hv & Hz); [by apply N.mod_lt|].
  destruct (N.ltb_spec n 10) as [Hlt|Hge].
  - exists (String (byte (48 + n mod 10)) ""). split; [done|]. rewrite N.mod_small in * by done.
    split; [cbn [str_forall]; by rewrite Hd|]. split; [cbn [dec_val]; rewrite Hv; lia|done].
  - assert (Hn' : (n / 10 < 10 ^ N.of_nat fuel)%N).
    { apply N.Div0.div_lt_upper_bound. rewrite Nat2N.inj_succ, N.pow_succ_r' in Hn. lia. }
    destruct fuel as [|fuel]; [change (10 ^ N.of_nat 1)%N with 10%N in Hn; lia|].
    destruct (IH (n / 10)%N (String (byte (48 + n mod 10)) acc) Hn') as (p & -> & Hp & Hpv & Hh); [lia|].
    exists (p +:+ String (byte (48 + n mod 10)) ""). split; [by rewrite append_assoc|]. split; [|split].
    + rewrite str_forall_app, Hp. cbn [str_forall]. by rewrite Hd.
    + rewrite dec_val_app, Hpv. cbn [dec_val]. rewrite Hv. pose proof (N.Div0.div_mod n 10). lia.
    + destruct p as [|c p]; [done|]. intros H0. specialize (Hh H0) as ->. exfalso.
      apply Ascii.eqb_eq in H0 as ->. change (0 = n / 10)%N in Hpv. pose proof (N.Div0.div_mod n 10). assert (n mod 10 < 10)%N by (by apply N.mod_lt). lia.
Qed.

Lemma print_N_decimal n : decimal (print_N n) n.
Proof.
  destruct (print_N_aux_decimal (S (N.size_nat n)) n "") as (p & Hp & Hd); [|lia|].
  - assert (Hs : (n < 2 ^ N.of_nat (N.size_nat n))%N).
    { destruct n as [|p]; [done|]. cbn [N.size_nat]. induction p as [p IH|p IH|]; [| |done].
      all: cbn [Pos.size_nat]; rewrite Nat2N.inj_succ, N.pow_succ_r'; lia. }
    eapply N.lt_le_trans; [exact Hs|]. rewrite Nat2N.inj_succ, N.pow_succ_r'.
    transitivity (10 ^ N.of_nat (N.size_nat n))%N; [by apply N.pow_le_mono_l|]. lia.
  - unfold print_N. by rewrite Hp, append_nil_r.
Qed.

Lemma span_digits_app p rest : str_forall is_digit p = true -> number_end rest -> span_digits (p +:+ rest) = (p, rest).
Proof.
  intros Hp Hr. induction p as [|c p IH].
  - change (span_digits rest = ("", rest)). destruct rest as [|c rest]; [done|]. cbn [span_digits]. by rewrite (proj1 Hr).
  - cbn [str_forall] in Hp. apply andb_prop in Hp as [Hc Hp]. change (span_digits (String c (p +:+ rest)) = (String c p, rest)).
    cbn [span_digits]. by rewrite Hc, (IH Hp).
Qed.

Lemma scan_int_decimal p n rest : decimal p n -> number_end rest -> scan_int (p +:+ rest) = Some (p, rest).
Proof.
  intros (Hp & _ & Hz) Hr. destruct p as [|c p]; [done|]. cbn [str_forall] in Hp. apply andb_prop in Hp as [Hc Hp].
  change (scan_int (String c (p +:+ rest)) = Some (String c p, rest)). cbn [scan_int].
  destruct (Ascii.eqb c "0") eqn:H0; [by rewrite (Hz eq_refl)|]. by rewrite Hc, span_digits_app.
Qed.

(** Nothing follows the integer. *)
Lemma scan_frac_end rest : number_end rest -> scan_frac rest = Some ("", rest).
Proof.
  destruct rest as [|c rest]; [done|]. intros [_ He]. cbn [scan_frac]. cbn [byte_in] in He.
  rewrite (Ascii.eqb_sym "." c) in He. by destruct (Ascii.eqb c ".").
Qed.
Lemma scan_exp_end rest : number_end rest -> scan_exp rest = Some ("", rest).
Proof.
  destruct rest as [|c rest]; [done|]. intros [_ He]. cbn [scan_exp].
  replace (byte_in "eE" c) with false; [done|]. cbn [byte_in] in *. by destruct (Ascii.eqb "." c).
Qed.

Lemma decimal_head p n : decimal p n -> exists c t, p = String c t /\ is_digit c = true /\ Ascii.eqb c "-" = false.
Proof.
  intros (Hp & _ & Hh). destruct p as [|c t]; [done|]. exists c, t. split; [done|]. cbn [str_forall] in Hp.
  apply andb_prop in Hp as [Hc _]. split; [done|]. apply Ascii.eqb_neq. by intros ->.
Qed.

Lemma print_Z_number z : number_text (print_Z z).
Proof.
  unfold print_Z. destruct (Z.ltb_spec z 0) as [Hz|Hz].
  - pose proof (print_N_decimal (Z.to_N (- z))) as Hd. split; [by eexists _, _|]. intros rest Hr.
    change (scan_number (String "-" (print_N (Z.to_N (- z)) +:+ rest)) = Some (String "-" (print_N (Z.to_N (- z))), rest)).
    unfold scan_number. change (Ascii.eqb "-" "-") with true. cbv iota zeta. rewrite (scan_int_decimal _ _ _ Hd Hr).
    cbn [mbind option_bind fst snd]. rewrite (scan_frac_end _ Hr). cbn [mbind option_bind fst snd]. rewrite (scan_exp_end _ Hr).
    cbn [mbind option_bind fst snd]. by rewrite !append_nil_r.
  - pose proof (print_N_decimal (Z.to_N z)) as Hd. destruct (decimal_head _ _ Hd) as (c & t & Hp & Hc & Hm).
    split; [exists c, t; split; [done|]; unfold number_start; by rewrite Hc|]. intros rest Hr.
    pose proof (scan_int_decimal _ _ _ Hd Hr) as Hs. rewrite Hp in *.
    change (String c t +:+ rest) with (String c (t +:+ rest)) in *. unfold scan_number. rewrite Hm. cbv iota zeta. rewrite Hs.
    cbn [mbind option_bind fst snd]. rewrite (scan_frac_end _ Hr). cbn [mbind option_bind fst snd]. rewrite (scan_exp_end _ Hr).
    cbn [mbind option_bind fst snd]. by rewrite !append_nil_r.
Qed.

Lemma parse_digits_decimal p n : decimal p n -> parse_digits p = Some (Z.of_N n).
Proof. intros (Hp & Hv & Hh). unfold parse_digits. rewrite Hp, Hv. by destruct p. Qed.

Lemma parse_uint32_print z : (0 <= z < 2 ^ 32)%Z -> parse_uint32 (print_Z z) = Some z.
Proof.
  intros Hz. unfold print_Z. destruct (Z.ltb_spec z 0) as [|_]; [lia|]. unfold parse_uint32.
  rewrite (parse_digits_decimal _ _ (print_N_decimal _)). cbn [mbind option_bind]. rewrite Z2N.id by lia.
  by destruct (Z.ltb_spec z (2 ^ 32)); [|lia].
Qed.

Lemma parse_int32_print z : (- 2 ^ 31 <= z < 2 ^ 31)%Z -> parse_int32 (print_Z z) = Some z.
Proof.
  intros Hz. unfold print_Z, parse_int32. destruct (Z.ltb_spec z 0) as [Hn|Hn].
  - cbn [strip_prefix]. change (Ascii.eqb "-" "-") with true. cbv iota.
    rewrite (parse_digits_decimal _ _ (print_N_decimal _)). cbn [mbind option_bind]. rewrite Z2N.id by lia.
    destruct (Z.leb_spec (- z) (2 ^ 31)); [|lia]. f_equal. lia.
  - pose proof (print_N_decimal (Z.to_N z)) as Hd. destruct (decimal_head _ _ Hd) as (c & t & Hp & _ & Hm).
    replace (strip_prefix "-" (print_N (Z.to_N z))) with (@None string)
      by (rewrite Hp; cbn [strip_prefix]; by rewrite Ascii.eqb_sym, Hm).
    rewrite (parse_digits_decimal _ _ Hd). cbn [mbind option_bind]. rewrite Z2N.id by lia.
    by destruct (Z.ltb_spec z (2 ^ 31)); [|lia].
Qed.

(** ** Structs *)

Section structs.
Context {T : Type} (names : list string) (set : string -> json -> T -> option T).

(** A field that is written is set, a field that is omitted has its zero value already. *)
Lemma set_string_field omitempty name s rest t t' :
  find_field names name = Some name -> set name (JStr s) t = Some t' -> (omitempty = true -> s = "" -> t = t') ->
  set_members names set (field_string omitempty name s ++ rest) t = set_members names set rest t'.
Proof.
  intros Hf Hs Hz. unfold field_string. destruct (omitempty && str_empty s) eqn:He.
  - apply andb_prop in He as [Ho He%String.eqb_eq]. by rewrite (Hz Ho He).
  - cbn [app set_members]. rewrite Hf, Hs. done.
Qed.

Lemma set_int_field omitempty name z rest t t' :
  find_field names name = Some name -> set name (JNum (print_Z z)) t = Some t' -> (omitempty = true -> z = 0%Z -> t = t') ->
  set_members names set (field_int omitempty name z ++ rest) t = set_members names set rest t'.
Proof.
  intros Hf Hs Hz. unfold field_int. destruct (omitempty && (z =? 0)%Z) eqn:He.
  - apply andb_prop in He as [Ho He%Z.eqb_eq]. by rewrite (Hz Ho He).
  - cbn [app set_members]. rewrite Hf, Hs. done.
Qed.
End structs.

(** The integers of the structs are within their widths. *)
Definition node_wide (n : Node) : Prop :=
  (0 <= node_TimeoutSeconds n < 2 ^ 32)%Z /\ (0 <= node_TimerSeconds n < 2 ^ 32)%Z.
Definition edge_wide (e : Edge) : Prop := (- 2 ^ 31 <= edge_Priority e < 2 ^ 31)%Z.

Definition node_to_valid (n : Node) : Node :=
  mkNode (to_valid (node_ID n)) (to_valid (node_Name n)) (to_valid (node_Type n)) (to_valid (node_AssigneeType n))
    (to_valid (node_Assignee n)) (node_TimeoutSeconds n) (to_valid (node_TargetService n)) (to_valid (node_FullMethod n))
    (to_valid (node_RequestTemplateJSON n)) (to_valid (node_CompensationMethod n)) (node_TimerSeconds n)
    (to_valid (node_ConfigJSON n)).
Definition edge_to_valid (e : Edge) : Edge :=
  mkEdge (to_valid (edge_FromNodeID e)) (to_valid (edge_ToNodeID e)) (to_valid (edge_ConditionExpression e)) (edge_Priority e).

Lemma to_valid_empty s : str_empty (to_valid s) = str_empty s.
Proof.
  destruct s as [|c s]; [done|]. destruct (N_of_ascii c <? 128)%N eqn:Hc; [cbn [to_valid]; by rewrite Hc|].
  rewrite (to_valid_rune c s Hc). destruct (split_rune c s) as [[r s']|] eqn:Hr; [|done].
  unfold split_rune in Hr. repeat case_match; simplify_eq; done.
Qed.

Lemma field_string_to_valid omitempty name s : to_valid name = name ->
  map member_to_valid (field_string omitempty name s) = field_string omitempty name (to_valid s).
Proof.
  intros Hn. unfold field_string. rewrite to_valid_empty. destruct (omitempty && str_empty s); [done|].
  cbn [map]. unfold member_to_valid. cbn [fst snd]. by rewrite Hn.
Qed.
Lemma field_int_to_valid omitempty name z : to_valid name = name ->
  map member_to_valid (field_int omitempty name z) = field_int omitempty name z.
Proof.
  intros Hn. unfold field_int. destruct (omitempty && (z =? 0)%Z); [done|].
  cbn [map]. unfold member_to_valid. cbn [fst snd]. by rewrite Hn.
Qed.

Lemma marshal_node_to_valid n : tree_to_valid (marshal_node n) = marshal_node (node_to_valid n).
Proof.
  unfold marshal_node. change (tree_to_valid (JObj ?l)) with (JObj (map member_to_valid l)).
  rewrite !map_app, !field_string_to_valid, !field_int_to_valid by reflexivity. done.
Qed.
Lemma marshal_edge_to_valid e : tree_to_valid (marshal_edge e) = marshal_edge (edge_to_valid e).
Proof.
  unfold marshal_edge. change (tree_to_valid (JObj ?l)) with (JObj (map member_to_valid l)).
  rewrite !map_app, !field_string_to_valid, !field_int_to_valid by reflexivity. done.
Qed.

Lemma field_string_printable omitempty name s d : Forall (fun kv => printable d kv.2) (field_string omitempty name s).
Proof. unfold field_string. destruct (omitempty && str_empty s); repeat constructor. Qed.
Lemma field_int_printable omitempty name z d : Forall (fun kv => printable d kv.2) (field_int omitempty name z).
Proof. unfold field_int. destruct (omitempty && (z =? 0)%Z); repeat constructor; apply print_Z_number. Qed.
#[local] Hint Resolve field_string_printable field_int_printable : core.

Lemma marshal_node_printable n : printable 1 (marshal_node n).
Proof. constructor; [done|]. repeat (apply Forall_app; split); auto. Qed.
Lemma marshal_edge_printable e : printable 1 (marshal_edge e).
Proof. constructor; [done|]. repeat (apply Forall_app; split); auto. Qed.

Ltac read_string := erewrite set_string_field; [|reflexivity|reflexivity|by intros ? ->].
Ltac read_int H := erewrite set_int_field;
  [|reflexivity|cbn -[print_Z parse_uint32 parse_int32]; rewrite H by done; reflexivity|by intros ? ->].

Lemma unmarshal_marshal_node n : node_wide n ->
  unmarshal_struct node_fields set_node_field zero_node (marshal_node n) = Some n.
Proof.
  intros [Ht Hm]. destruct n as [id name ty aty a timeout svc method tmpl comp timer config].
  unfold marshal_node, unmarshal_struct, zero_node. cbn [node_ID node_Name node_Type node_AssigneeType node_Assignee node_TimeoutSeconds
    node_TargetService node_FullMethod node_RequestTemplateJSON node_CompensationMethod node_TimerSeconds node_ConfigJSON] in *.
  rewrite <- (app_nil_r (field_string true "config_json" config)).
  do 5 read_string. read_int parse_uint32_print. do 4 read_string. read_int parse_uint32_print. read_string. done.
Qed.

Lemma unmarshal_marshal_edge e : edge_wide e ->
  unmarshal_struct edge_fields set_edge_field zero_edge (marshal_edge e) = Some e.
Proof.
  intros Hp. destruct e as [from to cond prio]. unfold edge_wide in Hp.
  unfold marshal_edge, unmarshal_struct, zero_edge. cbn [edge_FromNodeID edge_ToNodeID edge_ConditionExpression edge_Priority] in *.
  rewrite <- (app_nil_r (field_int false "priority" prio)). do 3 read_string. read_int parse_int32_print. done.
Qed.

(** ** Graphs *)

Lemma unmarshal_slice_print {A B} (enc : A -> json) (dec : json -> option B) (norm : A -> B) l :
  Forall (fun x => printable 1 (enc x) /\ dec (tree_to_valid (enc x)) = Some (norm x)) l ->
  unmarshal_slice dec (parse (print (JArr (map enc l)))) = Some (map norm l).
Proof.
  intros Hl. rewrite parse_print.
  - cbn [tree_to_valid unmarshal_slice]. rewrite map_map. induction Hl as [|x l [_ Hx] Hl IH]; [done|].
    cbn [map mapM]. cbn. rewrite Hx. cbn. by rewrite IH.
  - constructor; [done|]. apply Forall_map. eapply Forall_impl; [exact Hl|]. by intros x [Hx _].
Qed.

Definition graph_wide (nodes : list Node) (edges : list Edge) : Prop := Forall node_wide nodes /\ Forall edge_wide edges.

Lemma unmarshal_nodes_print nodes : Forall node_wide nodes ->
  unmarshal_nodes (print (JArr (map marshal_node nodes))) = Some (map node_to_valid nodes).
Proof.
  intros Hw. apply unmarshal_slice_print. eapply Forall_impl; [exact Hw|]. intros n Hn.
  split; [apply marshal_node_printable|]. rewrite marshal_node_to_valid. by apply unmarshal_marshal_node.
Qed.
Lemma unmarshal_edges_print edges : Forall edge_wide edges ->
  unmarshal_edges (print (JArr (map marshal_edge edges))) = Some (map edge_to_valid edges).
Proof.
  intros Hw. apply unmarshal_slice_print. eapply Forall_impl; [exact Hw|]. intros e He.
  split; [apply marshal_edge_printable|]. rewrite marshal_edge_to_valid. by apply unmarshal_marshal_edge.
Qed.

(** What is stored is read back, with the invalid bytes replaced. *)
Lemma hydrate_encoded d nodes edges : graph_wide nodes edges ->
  def_NodesJSON d = (encodeGraph nodes edges).1 -> def_EdgesJSON d = (encodeGraph nodes edges).2 ->
  hydrateDefinition d = Ok (def_set_graph d (map node_to_valid nodes) (map edge_to_valid edges)).
Proof.
  intros [Hn He] H1 H2. unfold hydrateDefinition. rewrite H1, H2. unfold encodeGraph. cbn [fst snd].
  by rewrite (unmarshal_nodes_print nodes Hn), (unmarshal_edges_print edges He).
Qed.

(** A graph of UTF-8 strings. *)
Definition node_utf8 (n : Node) : Prop := node_to_valid n = n.
Definition edge_utf8 (e : Edge) : Prop := edge_to_valid e = e.
Definition graph_utf8 (nodes : list Node) (edges : list Edge) : Prop := Forall node_utf8 nodes /\ Forall edge_utf8 edges.

Lemma map_fixed {A} (f : A -> A) l : Forall (fun x => f x = x) l -> map f l = l.
Proof. intros H. induction H as [|x l Hx _ IH]; [done|]. cbn [map]. by rewrite Hx, IH. Qed.

Lemma hydrate_encoded_utf8 d nodes edges : graph_wide nodes edges -> graph_utf8 nodes edges ->
  def_NodesJSON d = (encodeGraph nodes edges).1 -> def_EdgesJSON d = (encodeGraph nodes edges).2 ->
  hydrateDefinition d = Ok (def_set_graph d nodes edges).
Proof. intros Hw [Hn He] H1 H2. rewrite (hydrate_encoded d nodes edges Hw H1 H2). by rewrite (map_fixed _ _ Hn), (map_fixed _ _ He). Qed.
