(* ===== verification/Graph.v ===== *)
(** * Definition graphs (internal/workflow/graph.go)

    [ValidateDefinition] and its helpers, and what acceptance means: the
    identifiers are unique, there is one start, the graph is acyclic, every node
    is reachable from the start and every node reaches an end. *)
From S2P Require Import Prelude GoStd Json Model.
From Stdlib Require Import Ascii String.
From stdpp Require Import sorting.
Local Open Scope string_scope.
Local Open Scope list_scope.

(** ** Patterns *)

Definition class_identifier (c : ascii) : bool :=
  is_lower c || is_digit c || byte_in "_.-" c.

(** [^[a-z][a-z0-9_.-]{0,127}$] *)
Definition identifierPattern : regexp :=
  RSeq (RCls is_lower) (RUpTo 127 (RCls class_identifier)).

(** [^/[A-Za-z][A-Za-z0-9_.]*/[A-Za-z][A-Za-z0-9_]*$] *)
Definition fullMethodPattern : regexp :=
  RSeq (RCls (Ascii.eqb "/")) (RSeq (RCls is_letter)
    (RSeq (RStar (RCls (fun c => is_letter c || is_digit c || byte_in "_." c)))
      (RSeq (RCls (Ascii.eqb "/")) (RSeq (RCls is_letter)
        (RStar (RCls (fun c => is_letter c || is_digit c || byte_in "_" c))))))).

Definition validFullMethod (value : string) : bool := MatchString fullMethodPattern value.

Definition validJSONObject (value : string) : res unit :=
  let value := if str_empty value then "{}" else value in
  match unmarshal_map value with
  | Some _ => Ok tt
  | None => Err (ErrorNew "json: cannot unmarshal into a map")
  end.

Definition oneOf (value : string) (values : list string) : bool :=
  existsb (String.eqb value) values.

(** ** Nodes *)

Definition validateNode (node : Node) : res unit :=
  if negb (MatchString identifierPattern (node_ID node)) || blank (node_Name node) then
    Err (invalidf "%w: node id and name are required" [])
  else
    _ ← (if oneOf (node_Type node) [NodeStart; NodeEnd] then Ok tt
         else if String.eqb (node_Type node) NodeApproval then
           if negb (oneOf (node_AssigneeType node)
                     [AssigneeUser; AssigneeRole; AssigneeStarter; AssigneeExpression])
           then Err (invalidf "%w: approval node %q has invalid assignee type" [node_ID node])
           else if negb (String.eqb (node_AssigneeType node) AssigneeStarter)
                   && blank (node_Assignee node)
           then Err (invalidf "%w: approval node %q requires an assignee" [node_ID node])
           else Ok tt
         else if String.eqb (node_Type node) NodeServiceTask then
           if negb (MatchString identifierPattern (node_TargetService node))
              || negb (validFullMethod (node_FullMethod node))
              || (negb (str_empty (node_CompensationMethod node))
                  && negb (validFullMethod (node_CompensationMethod node)))
           then Err (invalidf "%w: service node %q requires an allow-listed service and full RPC method" [node_ID node])
           else
             match validJSONObject (node_RequestTemplateJSON node) with
             | Err e => Err (invalidf "%w: service node %q request template: %v" [node_ID node])
             | Ok _ => Ok tt
             end
         else if String.eqb (node_Type node) NodeTimer then
           if (node_TimerSeconds node =? 0)%Z || (365*24*60*60 <? node_TimerSeconds node)%Z
           then Err (invalidf "%w: timer node %q duration is invalid" [node_ID node])
           else Ok tt
         else Err (invalidf "%w: node %q has unknown type" [node_ID node]));
    if negb (str_empty (node_ConfigJSON node)) then
      match validJSONObject (node_ConfigJSON node) with
      | Err e => Err (invalidf "%w: node %q config: %v" [node_ID node])
      | Ok _ => Ok tt
      end
    else Ok tt.

(** ** Go maps

    The order in which [for k, v := range m] visits a map is unspecified: the
    model takes any enumeration of the map's entries. *)
Class MapRange := {
  range : forall {A}, gmap string A -> list (string * A);
  range_perm : forall A (m : gmap string A), range m ≡ₚ map_to_list m
}.

#[export, refine] Instance range_map_to_list : MapRange | 100 :=
  {| range := fun A m => map_to_list m |}.
Proof. reflexivity. Defined.

(** ** Edges *)

Abbreviation counts := (gmap string Z).
Abbreviation adjacency := (gmap string (list string)).

(** A missing key reads as the zero value. *)
Definition count_of (m : counts) (k : string) : Z := default 0%Z (m !! k).
Definition targets_of (m : adjacency) (k : string) : list string := default [] (m !! k).

(** [edge.FromNodeID + "\x00" + edge.ToNodeID + "\x00" + edge.ConditionExpression] *)
Definition edge_key (e : Edge) : string :=
  edge_FromNodeID e +:+ String "000" (edge_ToNodeID e +:+ String "000" (edge_ConditionExpression e)).

(** The loop over the edges: the degrees, the adjacency lists and the keys seen. *)
Definition edge_state : Type := counts * adjacency * gset string.

Definition add_edge (nodes : gmap string Node) (edge : Edge) (st : edge_state) : res edge_state :=
  let '(indegree, outgoing, seen) := st in
  let f := edge_FromNodeID edge in
  let t := edge_ToNodeID edge in
  let bad := Err (invalidf "%w: edge %q -> %q is invalid" [f; t]) in
  match nodes !! f, nodes !! t with
  | Some from, Some to =>
      if String.eqb (node_Type from) NodeEnd || String.eqb (node_Type to) NodeStart
         || String.eqb f t then bad
      else if bool_decide (edge_key edge ∈ seen) then
        Err (invalidf "%w: duplicate edge %q -> %q" [f; t])
      else if Nat.ltb 1000 (String.length (edge_ConditionExpression edge)) then
        Err (invalidf "%w: edge condition is too long" [])
      else
        Ok (<[t := (count_of indegree t + 1)%Z]> indegree,
            <[f := targets_of outgoing f ++ [t]]> outgoing,
            {[edge_key edge]} ∪ seen)
  | _, _ => bad
  end.

Fixpoint add_edges (nodes : gmap string Node) (edges : list Edge) (st : edge_state) : res edge_state :=
  match edges with
  | [] => Ok st
  | e :: edges' => st' ← add_edge nodes e st; add_edges nodes edges' st'
  end.

(** [sort.Strings] on bytes. *)
Definition str_le (a b : string) : Prop := is_true (String.leb a b).
#[global] Instance str_le_dec : RelDecision str_le.
Proof. intros a b. unfold str_le, is_true. apply _. Defined.
Definition sort_strings (l : list string) : list string := merge_sort str_le l.

(** [indegree[next]--] for the targets of a node, queueing those that reach 0. *)
Fixpoint relax (targets : list string) (indegree : counts) (queue : list string) :
  counts * list string :=
  match targets with
  | [] => (indegree, queue)
  | next :: targets' =>
      let d := (count_of indegree next - 1)%Z in
      relax targets' (<[next := d]> indegree) (if (d =? 0)%Z then queue ++ [next] else queue)
  end.

(** [for len(queue) > 0]: [None] only when the fuel runs out. *)
Fixpoint visit (fuel : nat) (outgoing : adjacency) (indegree : counts)
    (queue : list string) (visited : nat) : option nat :=
  match queue with
  | [] => Some visited
  | id :: queue' =>
      match fuel with
      | O => None
      | S fuel =>
          let '(indegree, queue) := relax (targets_of outgoing id) indegree queue' in
          visit fuel outgoing indegree queue (S visited)
      end
  end.

Section validate_edges.
Context `{MapRange}.

(** [startID]: the last start node the range visits, or the empty string. *)
Definition find_start (nodes : gmap string Node) : string :=
  foldl (fun s kv => if String.eqb (node_Type kv.2) NodeStart then kv.1 else s) "" (range nodes).

(** The loop that looks for unreachable and stuck nodes, and sorts the targets. *)
Fixpoint check_degrees (startID : string) (nodes : list (string * Node))
    (indegree : counts) (outgoing : adjacency) : res adjacency :=
  match nodes with
  | [] => Ok outgoing
  | (id, node) :: nodes' =>
      if negb (String.eqb id startID) && (count_of indegree id =? 0)%Z then
        Err (invalidf "%w: node %q is unreachable" [id])
      else if negb (String.eqb (node_Type node) NodeEnd)
              && Nat.eqb (List.length (targets_of outgoing id)) 0 then
        Err (invalidf "%w: node %q has no outgoing edge" [id])
      else
        check_degrees startID nodes' indegree
          (match outgoing !! id with
           | Some l => <[id := sort_strings l]> outgoing
           | None => outgoing
           end)
  end.

Definition validateEdges (nodes : gmap string Node) (edges : list Edge) : res unit :=
  let startID := find_start nodes in
  let indegree : counts := (fun _ => 0%Z) <$> nodes in
  '(indegree, outgoing, _) ← add_edges nodes edges (indegree, ∅, ∅);
  if negb (Nat.eqb (List.length (targets_of outgoing startID)) 1) then
    Err (invalidf "%w: start node requires exactly one outgoing edge" [])
  else
    outgoing ← check_degrees startID (range nodes) indegree outgoing;
    match visit (S (size nodes)) outgoing indegree [startID] 0 with
    | Some visited =>
        if negb (Nat.eqb visited (size nodes)) then
          Err (invalidf "%w: workflow graph must be acyclic" [])
        else Ok tt
    | None => Err (ErrorNew "out of fuel")
    end.

(** ** The whole definition *)

(** [byID], [startCount], [endCount] *)
Fixpoint index_nodes (nodes : list Node) (byID : gmap string Node) (starts ends : nat) :
  res (gmap string Node * nat * nat) :=
  match nodes with
  | [] => Ok (byID, starts, ends)
  | node :: nodes' =>
      _ ← validateNode node;
      if bool_decide (is_Some (byID !! node_ID node)) then
        Err (invalidf "%w: duplicate node %q" [node_ID node])
      else
        index_nodes nodes' (<[node_ID node := node]> byID)
          (if String.eqb (node_Type node) NodeStart then S starts else starts)
          (if String.eqb (node_Type node) NodeEnd then S ends else ends)
  end.

Definition ValidateDefinition (key name : string) (nodes : list Node) (edges : list Edge) : res unit :=
  if negb (MatchString identifierPattern key) || blank name
     || Nat.ltb (List.length nodes) 2 || Nat.ltb 200 (List.length nodes)
     || Nat.ltb 500 (List.length edges) then
    Err (invalidf "%w: key, name, and bounded graph are required" [])
  else
    '(byID, startCount, endCount) ← index_nodes nodes ∅ 0 0;
    if negb (Nat.eqb startCount 1) || Nat.eqb endCount 0 then
      Err (invalidf "%w: graph requires exactly one start and at least one end" [])
    else validateEdges byID edges.
End validate_edges.
