(* ===== verification/GraphTheory.v ===== *)
(** * What validation guarantees about a graph

    The loop of [validateEdges] is Kahn's algorithm started from the start node.
    Its invariant gives termination, and acceptance exactly when the graph has no
    cycle; acceptance yields a topological order of the nodes, from which the
    reachability facts and the bound on the length of a run follow. *)
From S2P Require Import Prelude GoStd Json Model Graph.
From Stdlib Require Import Ascii String.
From stdpp Require Import sorting relations.
Local Open Scope string_scope.
Local Open Scope list_scope.

(** ** The graph of an edge list *)

(** [e] leads from [u] to [v]. *)
Definition edge_rel (edges : list Edge) (u v : string) : Prop :=
  exists e, e ∈ edges /\ edge_FromNodeID e = u /\ edge_ToNodeID e = v.

(** The targets of the edges that leave [u], one per edge. *)
Definition targets (edges : list Edge) (u : string) : list string :=
  edge_ToNodeID <$> filter (fun e => edge_FromNodeID e = u) edges.

(** The number of edges into [v] whose source is not in [P]. *)
Definition remaining (edges : list Edge) (P : list string) (v : string) : nat :=
  List.length (filter (fun e => edge_ToNodeID e = v /\ edge_FromNodeID e ∉ P) edges).

(** The number of occurrences of [v] in a list. *)
Definition occ (v : string) (l : list string) : nat :=
  List.length (filter (fun x => x = v) l).

Lemma occ_cons v x l : occ v (x :: l) = (if decide (x = v) then 1 else 0) + occ v l.
Proof. unfold occ. rewrite filter_cons. by case_decide. Qed.

Lemma occ_perm v l l' : l ≡ₚ l' -> occ v l = occ v l'.
Proof. intros H. unfold occ. by rewrite H. Qed.

Lemma remaining_cons edges e P v :
  remaining (e :: edges) P v
  = (if decide (edge_ToNodeID e = v /\ edge_FromNodeID e ∉ P) then 1 else 0) + remaining edges P v.
Proof. unfold remaining. rewrite filter_cons. by case_decide. Qed.

Lemma targets_cons edges e u :
  targets (e :: edges) u
  = (if decide (edge_FromNodeID e = u) then [edge_ToNodeID e] else []) ++ targets edges u.
Proof. unfold targets. rewrite filter_cons. by case_decide. Qed.

Lemma targets_snoc edges e u :
  targets (edges ++ [e]) u
  = targets edges u ++ (if decide (edge_FromNodeID e = u) then [edge_ToNodeID e] else []).
Proof.
  unfold targets. rewrite filter_app, fmap_app, filter_cons, filter_nil. by case_decide.
Qed.

(** Processing [u] removes exactly its edges. *)
Lemma remaining_snoc edges P u v :
  u ∉ P -> remaining edges P v = remaining edges (P ++ [u]) v + occ v (targets edges u).
Proof.
  intros Hu. induction edges as [|e edges IH]; [done|].
  rewrite !remaining_cons, targets_cons, IH.
  assert (Hs : (edge_FromNodeID e ∉ (P ++ [u])) <-> edge_FromNodeID e ∉ P /\ edge_FromNodeID e <> u)
    by set_solver.
  destruct (decide (edge_FromNodeID e = u)) as [Heq|Hne]; simpl; rewrite ?occ_cons;
    repeat case_decide; try lia; exfalso; naive_solver.
Qed.

Lemma remaining_zero edges P v :
  remaining edges P v = 0 <-> forall u, edge_rel edges u v -> u ∈ P.
Proof.
  unfold remaining. rewrite length_zero_iff_nil. split.
  - intros H u (e & He & <- & <-). destruct (decide (edge_FromNodeID e ∈ P)); [done|].
    exfalso. assert (e ∈ filter (fun e' => edge_ToNodeID e' = edge_ToNodeID e
      /\ edge_FromNodeID e' ∉ P) edges) as Hin by (by apply list_elem_of_filter).
    rewrite H in Hin. by apply not_elem_of_nil in Hin.
  - intros H. destruct (filter _ edges) as [|e l] eqn:E; [done|]. exfalso.
    assert (e ∈ filter (fun e' => edge_ToNodeID e' = v /\ edge_FromNodeID e' ∉ P) edges)
      as Hin by (rewrite E; apply list_elem_of_here).
    apply list_elem_of_filter in Hin as [[<- Hn] He]. apply Hn, H. by exists e.
Qed.

(** ** Relaxation *)

Lemma count_of_insert m k k' z :
  count_of (<[k := z]> m) k' = if decide (k = k') then z else count_of m k'.
Proof. unfold count_of. rewrite lookup_insert. by case_decide. Qed.

Lemma relax_count ts ind q v :
  count_of (relax ts ind q).1 v = (count_of ind v - Z.of_nat (occ v ts))%Z.
Proof.
  revert ind q. induction ts as [|t ts IH]; intros ind q; [unfold occ; simpl; lia|].
  simpl. rewrite IH, count_of_insert, occ_cons. repeat case_decide; subst; lia.
Qed.

(** The queue grows by the nodes whose last missing edge is removed. *)
Lemma relax_queue ts ind q :
  (forall v, v ∈ ts -> (Z.of_nat (occ v ts) <= count_of ind v)%Z) ->
  exists new, (relax ts ind q).2 = q ++ new /\ NoDup new /\
    forall v, v ∈ new <-> v ∈ ts /\ count_of ind v = Z.of_nat (occ v ts).
Proof.
  revert ind q. induction ts as [|t ts IH]; intros ind q Hle.
  { exists []. simpl. rewrite app_nil_r. split; [done|]. split; [constructor|]. set_solver. }
  simpl. set (d := (count_of ind t - 1)%Z).
  assert (Hocc0 : forall v, v ∉ ts -> occ v ts = 0).
  { intros v Hv. unfold occ. destruct (filter _ ts) as [|x l] eqn:E; [done|].
    assert (x ∈ filter (fun x => x = v) ts) as Hx by (rewrite E; apply list_elem_of_here).
    apply list_elem_of_filter in Hx as [-> ?]. done. }
  assert (Hocc1 : forall v, v ∈ ts -> 0 < occ v ts).
  { intros v Hv. unfold occ. destruct (filter _ ts) as [|x l] eqn:E; [|simpl; lia].
    assert (v ∈ filter (fun x => x = v) ts) as Hx by (by apply list_elem_of_filter).
    rewrite E in Hx. by apply not_elem_of_nil in Hx. }
  pose proof (Hle t (list_elem_of_here _ _)) as Ht. rewrite occ_cons in Ht.
  rewrite decide_True in Ht by done.
  destruct (IH (<[t := d]> ind) (if (d =? 0)%Z then q ++ [t] else q)) as (new & Hq & Hnd & Hnew).
  { intros v Hv. rewrite count_of_insert. case_decide; subst; [unfold d; lia|].
    specialize (Hle v (list_elem_of_further _ _ _ Hv)). rewrite occ_cons in Hle.
    rewrite decide_False in Hle by congruence. lia. }
  exists ((if (d =? 0)%Z then [t] else []) ++ new). rewrite Hq.
  destruct (Z.eqb_spec d 0) as [Hd|Hd].
  - assert (t ∉ ts) as Htts by (intros Hin; specialize (Hocc1 t Hin); lia).
    rewrite <- app_assoc. split; [done|]. simpl. split.
    + constructor; [|done]. rewrite Hnew. tauto.
    + intros v. rewrite elem_of_cons, Hnew, elem_of_cons, occ_cons, count_of_insert.
      repeat case_decide; subst; try tauto.
      * split; [intros _|by left]. split; [by left|]. rewrite Hocc0 by done. lia.
      * split; intros; naive_solver lia.
  - simpl. split; [done|]. split; [done|]. intros v.
    rewrite Hnew, elem_of_cons, occ_cons, count_of_insert. repeat case_decide; subst; try tauto.
    + split; [intros [? ?]; split; [by left|unfold d in *; lia]|].
      intros [_ Hc]. unfold d in *.
      destruct (decide (v ∈ ts)); [split; [done|lia]|]. rewrite Hocc0 in Hc by done. lia.
    + naive_solver lia.
Qed.

(** ** The visiting loop *)

(** [P] lists nodes so that every edge into one of them comes from an earlier one. *)
Definition topological (edges : list Edge) (P : list string) : Prop :=
  forall i v u, P !! i = Some v -> edge_rel edges u v ->
    exists j, j < i /\ P !! j = Some u.

Lemma topological_snoc edges P v :
  topological edges P -> (forall u, edge_rel edges u v -> u ∈ P) -> topological edges (P ++ [v]).
Proof.
  intros HP Hv i w u Hi Hu. apply lookup_app_Some in Hi as [Hi|[Hi Hw]].
  - destruct (HP i w u Hi Hu) as (j & ? & Hj). exists j. split; [done|].
    by apply lookup_app_l_Some.
  - apply list_lookup_singleton_Some in Hw as [Hz <-].
    apply Hv, list_elem_of_lookup in Hu as [j Hj]. exists j.
    split; [apply lookup_lt_Some in Hj; lia|]. by apply lookup_app_l_Some.
Qed.

Section kahn.
Context (nodes : gset string) (edges : list Edge) (outgoing : adjacency).
Hypothesis edges_inside : forall u v, edge_rel edges u v -> u ∈ nodes /\ v ∈ nodes.
Hypothesis outgoing_targets : forall u, targets_of outgoing u ≡ₚ targets edges u.

(** Processed nodes [P], the queue, and the degrees still to remove. *)
Record kahn_inv (P queue : list string) (indegree : counts) : Prop := {
  kahn_nodup : NoDup (P ++ queue);
  kahn_count : forall v, v ∈ nodes -> count_of indegree v = Z.of_nat (remaining edges P v);
  kahn_ready : forall v, v ∈ P ++ queue <-> v ∈ nodes /\ remaining edges P v = 0;
  kahn_topo : topological edges P
}.

Lemma occ_targets_le P id v :
  id ∉ P -> occ v (targets_of outgoing id) <= remaining edges P v.
Proof.
  intros Hid. rewrite (occ_perm v _ _ (outgoing_targets id)), (remaining_snoc edges P id v Hid). lia.
Qed.

Lemma in_targets id v : v ∈ targets_of outgoing id <-> edge_rel edges id v.
Proof.
  rewrite (outgoing_targets id). unfold targets, edge_rel. rewrite list_elem_of_fmap.
  setoid_rewrite list_elem_of_filter. naive_solver.
Qed.

Lemma target_inside id v : v ∈ targets_of outgoing id -> v ∈ nodes.
Proof. intros Hv%in_targets. by apply edges_inside in Hv as [_ Hv]. Qed.

Lemma occ_pos v l : 0 < occ v l <-> v ∈ l.
Proof.
  induction l as [|x l IH]; [unfold occ; simpl; split; [lia|set_solver]|].
  rewrite occ_cons, elem_of_cons, <- IH. case_decide; naive_solver lia.
Qed.

Lemma kahn_step P id queue indegree :
  kahn_inv P (id :: queue) indegree ->
  let '(indegree', queue') := relax (targets_of outgoing id) indegree queue in
  kahn_inv (P ++ [id]) queue' indegree'.
Proof.
  intros [Hnd Hcount Hready Htopo].
  assert (id ∉ P /\ id ∉ queue) as [HidP HidQ].
  { apply NoDup_app in Hnd as (_ & Hd & Hnd2). apply NoDup_cons in Hnd2 as [? _].
    split; [|done]. intros HP. by apply (Hd _ HP), list_elem_of_here. }
  destruct (relax_queue (targets_of outgoing id) indegree queue) as (new & Hq & Hndn & Hnew).
  { intros v Hv. rewrite Hcount by (by eapply target_inside).
    pose proof (occ_targets_le P id v HidP). lia. }
  pose proof (relax_count (targets_of outgoing id) indegree queue) as Hrc.
  destruct (relax (targets_of outgoing id) indegree queue) as [indegree' queue'].
  simpl in Hq, Hrc. subst queue'.
  assert (Hrem : forall v, remaining edges P v
            = remaining edges (P ++ [id]) v + occ v (targets_of outgoing id)).
  { intros v. rewrite (occ_perm v _ _ (outgoing_targets id)). by apply remaining_snoc. }
  assert (Hready' : forall v, v ∈ new <-> v ∈ nodes /\ remaining edges (P ++ [id]) v = 0
                                         /\ v ∈ targets_of outgoing id).
  { intros v. rewrite Hnew. split.
    - intros [Hv Hc]. assert (v ∈ nodes) by (by eapply target_inside).
      rewrite Hcount in Hc by done. specialize (Hrem v). split; [done|]. split; [lia|done].
    - intros (Hn & Hz & Hv). split; [done|]. rewrite Hcount by done. specialize (Hrem v). lia. }
  split.
  - rewrite <- app_assoc. simpl. rewrite (app_comm_cons queue new id), app_assoc.
    apply NoDup_app. split; [done|]. split; [|done].
    intros v Hv Hv2. apply Hready' in Hv2 as (_ & _ & Ht). apply Hready in Hv as [_ Hz].
    apply occ_pos in Ht. specialize (Hrem v). lia.
  - intros v Hv. rewrite Hrc, Hcount by done. specialize (Hrem v). lia.
  - intros v. rewrite <- app_assoc. simpl. rewrite (app_comm_cons queue new id), app_assoc.
    rewrite elem_of_app, Hready, Hready'. specialize (Hrem v). split.
    + intros [[Hn Hz]|(Hn & Hz & _)]; split; try done; lia.
    + intros [Hn Hz]. destruct (decide (v ∈ targets_of outgoing id)) as [Ht|Ht]; [by right|].
      left. split; [done|]. assert (occ v (targets_of outgoing id) = 0).
      { destruct (occ v _) eqn:E; [done|]. exfalso. apply Ht, occ_pos. lia. }
      lia.
  - apply topological_snoc; [done|]. apply remaining_zero.
    assert (id ∈ P ++ id :: queue) as Hin by set_solver. by apply Hready in Hin as [_ ?].
Qed.

(** Enough fuel: every pass takes a new node of the graph. *)
Lemma visit_spec fuel P queue indegree :
  kahn_inv P queue indegree -> size nodes < fuel + List.length P ->
  exists P' indegree', kahn_inv P' [] indegree' /\
    visit fuel outgoing indegree queue (List.length P) = Some (List.length P').
Proof.
  revert P queue indegree. induction fuel as [|fuel IH]; intros P [|id queue] indegree Hinv Hfuel.
  - simpl. by exists P, indegree.
  - exfalso. assert (List.length (P ++ id :: queue) <= size nodes) as Hle.
    { rewrite <- (size_list_to_set (C:=gset string)) by apply Hinv.
      apply subseteq_size. intros v Hv. rewrite elem_of_list_to_set in Hv.
      by apply (kahn_ready _ _ _ Hinv) in Hv as [? _]. }
    rewrite length_app in Hle. simpl in Hle. lia.
  - simpl. by exists P, indegree.
  - simpl. pose proof (kahn_step P id queue indegree Hinv) as Hstep.
    destruct (relax _ _ _) as [indegree' queue'].
    replace (S (List.length P)) with (List.length (P ++ [id])) by (rewrite length_app; simpl; lia).
    apply IH; [done|]. rewrite length_app. simpl. lia.
Qed.

(** *** The result: all the nodes are visited iff there is no cycle *)

Definition acyclic : Prop := forall v, ~ tc (edge_rel edges) v v.

(** A relation whose pairs go forward in [P] has no cycle. *)
Lemma topological_acyclic P :
  NoDup P -> topological edges P -> (forall v, v ∈ nodes -> v ∈ P) -> acyclic.
Proof.
  intros Hnd Htopo Hall.
  assert (Hfwd : forall u v, tc (edge_rel edges) u v ->
            forall i, P !! i = Some v -> exists j, j < i /\ P !! j = Some u).
  { induction 1 as [u v Huv|u w v Huw Hwv IH]; intros i Hi; [eauto|].
    destruct (IH i Hi) as (j & Hj & Hw). destruct (Htopo j w u Hw Huw) as (k & ? & ?).
    exists k. split; [lia|done]. }
  intros v Hv. assert (v ∈ P) as [i Hi]%list_elem_of_lookup.
  { inversion Hv as [? ? H|? ? ? H]; subst; apply edges_inside in H as [? ?]; auto. }
  destruct (Hfwd v v Hv i Hi) as (j & Hj & Hjv).
  pose proof (NoDup_lookup _ _ _ _ Hnd Hi Hjv). lia.
Qed.

(** Without a cycle, nothing is left over: a node outside [P] has a
    predecessor outside [P], and so on for ever. *)
Lemma backward_chain P indegree n :
  kahn_inv P [] indegree -> forall v, v ∈ nodes -> v ∉ P ->
  exists u l, List.length (u :: l) = S n /\ StronglySorted (tc (edge_rel edges)) (u :: l)
    /\ (forall x, x ∈ u :: l -> x ∈ nodes) /\ u ∉ P.
Proof.
  intros Hinv v Hn HP. induction n as [|n (u & l & Hlen & Hs & Hin & HuP)].
  { exists v, []. split; [done|]. split; [repeat constructor|]. set_solver. }
  assert (~ forall w, edge_rel edges w u -> w ∈ P) as Hnot.
  { rewrite <- remaining_zero. intros Hz. apply HuP. rewrite <- (app_nil_r P).
    apply (kahn_ready _ _ _ Hinv). split; [|done]. apply Hin, list_elem_of_here. }
  assert (exists w, edge_rel edges w u /\ w ∉ P) as (w & Hw & HwP).
  { destruct (decide (Exists (fun e => edge_ToNodeID e = u /\ edge_FromNodeID e ∉ P) edges)) as [He|He].
    - apply Exists_exists in He as (e & He & Ht & Hf). exists (edge_FromNodeID e).
      split; [by exists e|done].
    - exfalso. apply Hnot. intros w (e & He1 & <- & Ht).
      destruct (decide (edge_FromNodeID e ∈ P)); [done|]. exfalso. apply He, Exists_exists. eauto. }
  exists w, (u :: l). split; [simpl in *; lia|]. split.
  - constructor; [done|]. apply StronglySorted_inv in Hs as [_ Hall].
    constructor; [by apply tc_once|]. eapply Forall_impl; [exact Hall|]. simpl.
    intros x Hx. eapply tc_l; eauto.
  - split; [|done]. intros x [->|Hx]%elem_of_cons; [by apply edges_inside in Hw as [? _]|by apply Hin].
Qed.

Lemma acyclic_all_visited P indegree :
  acyclic -> kahn_inv P [] indegree -> forall v, v ∈ nodes -> v ∈ P.
Proof.
  intros Hac Hinv v Hv. destruct (decide (v ∈ P)) as [|HP]; [done|]. exfalso.
  destruct (backward_chain P indegree (size nodes) Hinv v Hv HP) as (u & l & Hlen & Hs & Hin & _).
  assert (NoDup (u :: l)) as Hnd.
  { clear Hlen Hin. induction Hs as [|x l' _ IH Hall]; constructor; [|done].
    intros Hx. rewrite Forall_forall in Hall. by apply (Hac x), Hall. }
  assert (List.length (u :: l) <= size nodes); [|lia].
  rewrite <- (size_list_to_set (C:=gset string)) by done.
  apply subseteq_size. intros x Hx. apply Hin. by rewrite elem_of_list_to_set in Hx.
Qed.

Lemma all_visited_length P indegree :
  kahn_inv P [] indegree -> List.length P = size nodes <-> forall v, v ∈ nodes -> v ∈ P.
Proof.
  intros Hinv. assert (NoDup P) as Hnd.
  { pose proof (kahn_nodup _ _ _ Hinv) as H. by rewrite app_nil_r in H. }
  assert (Hsub : list_to_set P ⊆ nodes).
  { intros v Hv. rewrite elem_of_list_to_set in Hv. rewrite <- (app_nil_r P) in Hv.
    by apply (kahn_ready _ _ _ Hinv) in Hv as [? _]. }
  rewrite <- (size_list_to_set (C:=gset string) P) by done. split.
  - intros Hsz v Hv. rewrite <- (elem_of_list_to_set (C:=gset string)).
    assert (list_to_set P ≡ nodes) as Heq by (apply set_subseteq_size_equiv; [done|lia]).
    by apply Heq.
  - intros Hall. apply Nat.le_antisymm; [by apply subseteq_size|].
    apply subseteq_size. intros v Hv. rewrite elem_of_list_to_set. auto.
Qed.

Lemma visited_all_iff_acyclic P indegree :
  kahn_inv P [] indegree -> List.length P = size nodes <-> acyclic.
Proof.
  intros Hinv. rewrite (all_visited_length P indegree Hinv). split.
  - intros Hall. apply (topological_acyclic P); [|apply Hinv|done].
    pose proof (kahn_nodup _ _ _ Hinv) as H. by rewrite app_nil_r in H.
  - intros Hac. by apply (acyclic_all_visited P indegree).
Qed.
End kahn.

(** ** The loops before the visit *)

Definition is_start (n : Node) : Prop := node_Type n = NodeStart.
Definition is_end (n : Node) : Prop := node_Type n = NodeEnd.

Lemma str_eqb_decide a b : String.eqb a b = bool_decide (a = b).
Proof. by destruct (String.eqb_spec a b); case_bool_decide. Qed.

Lemma count_starts_cons n ns :
  List.length (filter is_start (n :: ns))
  = (if String.eqb (node_Type n) NodeStart then 1 else 0) + List.length (filter is_start ns).
Proof. rewrite filter_cons, str_eqb_decide. unfold is_start. repeat case_decide; case_bool_decide; done. Qed.

Lemma count_ends_cons n ns :
  List.length (filter is_end (n :: ns))
  = (if String.eqb (node_Type n) NodeEnd then 1 else 0) + List.length (filter is_end ns).
Proof. rewrite filter_cons, str_eqb_decide. unfold is_end. repeat case_decide; case_bool_decide; done. Qed.

(** What [byID] and the counters hold after the loop over the nodes. *)
Record indexed (nodes : list Node) (byID m : gmap string Node) (starts ends s e : nat) : Prop := {
  ix_valid : forall n, n ∈ nodes -> validateNode n = Ok tt;
  ix_nodup : NoDup (node_ID <$> nodes);
  ix_fresh : forall n, n ∈ nodes -> byID !! node_ID n = None;
  ix_lookup : forall k n, m !! k = Some n <-> byID !! k = Some n \/ (n ∈ nodes /\ node_ID n = k);
  ix_starts : s = starts + List.length (filter is_start nodes);
  ix_ends : e = ends + List.length (filter is_end nodes);
  ix_size : size m = size byID + List.length nodes
}.

Lemma index_nodes_Ok nodes byID starts ends m s e :
  index_nodes nodes byID starts ends = Ok (m, s, e) -> indexed nodes byID m starts ends s e.
Proof.
  revert byID starts ends. induction nodes as [|n nodes IH]; intros byID starts ends Hrun; simpl in Hrun.
  { injection Hrun as <- <- <-. split; try set_solver; simpl; try lia. constructor. }
  destruct (validateNode n) as [[]|] eqn:Hv; [|discriminate]. simpl in Hrun.
  case_bool_decide as Hin; [discriminate|]. rewrite <- eq_None_not_Some in Hin.
  apply IH in Hrun as [Hval Hnd Hfresh Hlk Hs He Hsz]. split.
  - set_solver.
  - simpl. constructor; [|done]. intros Hn. apply list_elem_of_fmap in Hn as (n' & Heq & Hn').
    specialize (Hfresh n' Hn'). rewrite Heq, lookup_insert_eq in Hfresh. discriminate.
  - intros n' [->|Hn']%elem_of_cons; [done|]. specialize (Hfresh n' Hn').
    rewrite lookup_insert in Hfresh. case_decide; [discriminate|done].
  - intros k n'. rewrite Hlk, lookup_insert, elem_of_cons. case_decide; naive_solver.
  - rewrite count_starts_cons, Hs. destruct (String.eqb (node_Type n) NodeStart); lia.
  - rewrite count_ends_cons, He. destruct (String.eqb (node_Type n) NodeEnd); lia.
  - rewrite Hsz, map_size_insert_None by done. simpl. lia.
Qed.

Lemma index_nodes_complete nodes byID starts ends :
  (forall n, n ∈ nodes -> validateNode n = Ok tt) -> NoDup (node_ID <$> nodes) ->
  (forall n, n ∈ nodes -> byID !! node_ID n = None) ->
  exists r, index_nodes nodes byID starts ends = Ok r.
Proof.
  revert byID starts ends. induction nodes as [|n nodes IH]; intros byID starts ends Hv Hnd Hf; [eauto|].
  simpl. rewrite Hv by apply list_elem_of_here. simpl.
  rewrite bool_decide_eq_false_2 by (rewrite Hf by apply list_elem_of_here; by intros [? ?]).
  apply NoDup_cons in Hnd as [Hn Hnd]. apply IH; [set_solver|done|].
  intros n' Hn'. rewrite lookup_insert. case_decide as Heq; [|set_solver].
  exfalso. apply Hn. rewrite Heq. by apply list_elem_of_fmap_2.
Qed.

(** An edge the loop over the edges accepts, apart from duplicates. *)
Definition edge_ok (nodes : gmap string Node) (e : Edge) : Prop :=
  exists from to, nodes !! edge_FromNodeID e = Some from /\ nodes !! edge_ToNodeID e = Some to /\
    ~ is_end from /\ ~ is_start to /\ edge_FromNodeID e <> edge_ToNodeID e /\
    String.length (edge_ConditionExpression e) <= 1000.

(** The three maps after the edges [es]. *)
Record edges_added (es : list Edge) (st : edge_state) : Prop := {
  ea_indegree : forall v, count_of st.1.1 v = Z.of_nat (remaining es [] v);
  ea_outgoing : forall u, targets_of st.1.2 u = targets es u;
  ea_seen : st.2 = list_to_set (edge_key <$> es)
}.

Lemma add_edge_iff nodes e es st :
  edges_added es st ->
  (edge_ok nodes e /\ edge_key e ∉ edge_key <$> es <-> exists st', add_edge nodes e st = Ok st').
Proof.
  intros Hst. destruct st as [[ind out] seen]. pose proof (ea_seen _ _ Hst) as Hseen. simpl in Hseen.
  unfold edge_ok, is_end, is_start, add_edge.
  destruct (nodes !! edge_FromNodeID e) as [from|];
    [|split; [by intros [(? & ? & ? & _) _]|by intros [? ?]]].
  destruct (nodes !! edge_ToNodeID e) as [to|];
    [|split; [by intros [(? & ? & ? & ? & _) _]|by intros [? ?]]].
  rewrite !str_eqb_decide. split.
  - intros [(from' & to' & [= <-] & [= <-] & He & Hs & Hft & Hc) Hk].
    rewrite (bool_decide_eq_false_2 _ He), (bool_decide_eq_false_2 _ Hs),
      (bool_decide_eq_false_2 _ Hft). simpl.
    rewrite bool_decide_eq_false_2 by set_solver.
    rewrite (proj2 (Nat.ltb_ge _ _) Hc). eauto.
  - intros [st' Hrun].
    case_bool_decide as He; simpl in Hrun; [discriminate|].
    case_bool_decide as Hs; simpl in Hrun; [discriminate|].
    case_bool_decide as Hft; simpl in Hrun; [discriminate|].
    case_bool_decide as Hk; simpl in Hrun; [discriminate|].
    destruct (Nat.ltb_spec 1000 (String.length (edge_ConditionExpression e))); [discriminate|].
    split; [by exists from, to|]. set_solver.
Qed.

Lemma add_edge_added nodes e es st st' :
  edges_added es st -> add_edge nodes e st = Ok st' -> edges_added (es ++ [e]) st'.
Proof.
  intros [Hind Hout Hseen] Hrun. destruct st as [[ind out] seen]. simpl in *. unfold add_edge in Hrun.
  split_match_in Hrun. simplify_eq. split; simpl.
  - intros v. rewrite count_of_insert, !Hind. unfold remaining.
    rewrite filter_app, length_app, filter_cons, filter_nil. repeat case_decide; subst; simpl; try lia;
      exfalso; set_solver.
  - intros u. rewrite targets_snoc. unfold targets_of at 1. rewrite lookup_insert.
    repeat case_decide; subst; simpl; rewrite ?app_nil_r; try done; try (by rewrite Hout); apply Hout.
  - rewrite fmap_app, list_to_set_app_L. set_solver.
Qed.

Lemma add_edges_iff nodes edges es st :
  edges_added es st -> NoDup (edge_key <$> es) ->
  (Forall (edge_ok nodes) edges /\ NoDup (edge_key <$> (es ++ edges))
   <-> exists st', add_edges nodes edges st = Ok st').
Proof.
  revert es st. induction edges as [|e edges IH]; intros es st Hst Hnd; simpl.
  { rewrite app_nil_r. split; eauto. }
  rewrite Forall_cons. pose proof (add_edge_iff nodes e es st Hst) as He.
  destruct (add_edge nodes e st) as [st1|err] eqn:E; simpl.
  - destruct (proj2 He ltac:(eauto)) as [Hok Hkey].
    rewrite <- (IH (es ++ [e]) st1); [|by eapply add_edge_added|].
    + rewrite <- app_assoc. simpl. tauto.
    + rewrite fmap_app. apply NoDup_app. split; [done|]. split; [set_solver|apply NoDup_singleton].
  - split; [|intros [? ?]; discriminate]. intros [[Hok _] Hnd']. exfalso.
    destruct (proj1 He) as [? ?]; [|discriminate]. split; [done|].
    rewrite fmap_app in Hnd'. apply NoDup_app in Hnd' as (_ & Hd & _).
    intros Hk. apply (Hd _ Hk). simpl. apply list_elem_of_here.
Qed.

Lemma add_edges_added nodes edges es st st' :
  edges_added es st -> add_edges nodes edges st = Ok st' -> edges_added (es ++ edges) st'.
Proof.
  revert es st. induction edges as [|e edges IH]; intros es st Hst Hrun; simpl in Hrun.
  { rewrite app_nil_r. by injection Hrun as <-. }
  destruct (add_edge nodes e st) as [st1|] eqn:E; [|discriminate].
  rewrite cons_middle, app_assoc. apply (IH _ st1); [by eapply add_edge_added|done].
Qed.

Lemma edges_added_nil (nodes : gmap string Node) : edges_added [] ((fun _ => 0%Z) <$> nodes, ∅, ∅).
Proof.
  split; simpl; try done.
  - intros v. unfold count_of. rewrite lookup_fmap. by destruct (nodes !! v).
Qed.

(** ** Degrees, the start node, and the theorem of acceptance *)

Lemma sort_strings_perm l : sort_strings l ≡ₚ l.
Proof. apply merge_sort_Permutation. Qed.

Lemma targets_of_sorted out id u :
  targets_of (match out !! id with Some l => <[id := sort_strings l]> out | None => out end) u
  ≡ₚ targets_of out u.
Proof.
  unfold targets_of. destruct (out !! id) as [l|] eqn:E; [|done].
  rewrite lookup_insert. case_decide; [subst; rewrite E; apply sort_strings_perm|done].
Qed.

(** What the loop asks of one node. *)
Definition degree_ok (startID : string) (ind : counts) (out : adjacency) (kv : string * Node) : Prop :=
  (kv.1 = startID \/ count_of ind kv.1 <> 0%Z) /\ (is_end kv.2 \/ targets_of out kv.1 <> []).

Lemma degree_ok_perm startID ind out out' kv :
  (forall u, targets_of out' u ≡ₚ targets_of out u) ->
  degree_ok startID ind out' kv <-> degree_ok startID ind out kv.
Proof.
  intros H. unfold degree_ok. enough (targets_of out' kv.1 = [] <-> targets_of out kv.1 = []) by naive_solver.
  specialize (H kv.1). split; intros E; rewrite E in H.
  - by apply Permutation_nil_l in H.
  - by apply Permutation_nil_r in H.
Qed.

Lemma degree_ok_tests startID ind out id node :
  degree_ok startID ind out (id, node) <->
  negb (String.eqb id startID) && (count_of ind id =? 0)%Z = false /\
  negb (String.eqb (node_Type node) NodeEnd) && Nat.eqb (List.length (targets_of out id)) 0 = false.
Proof.
  unfold degree_ok, is_end. simpl. rewrite !andb_false_iff, !negb_false_iff, !String.eqb_eq.
  rewrite Z.eqb_neq, Nat.eqb_neq, length_zero_iff_nil. done.
Qed.

Lemma check_degrees_iff startID l ind out :
  Forall (degree_ok startID ind out) l <->
  exists out', check_degrees startID l ind out = Ok out'.
Proof.
  revert out. induction l as [|[id node] l IH]; intros out; simpl.
  { split; [eauto|constructor]. }
  rewrite Forall_cons, degree_ok_tests.
  destruct (negb (String.eqb id startID) && (count_of ind id =? 0)%Z);
    [split; [by intros [[? ?] ?]|by intros [? ?]]|].
  destruct (negb (String.eqb (node_Type node) NodeEnd) && Nat.eqb (List.length (targets_of out id)) 0);
    [split; [by intros [[? ?] ?]|by intros [? ?]]|].
  rewrite <- IH.
  assert (Hp : forall kv, degree_ok startID ind (match out !! id with
      | Some l0 => <[id:=sort_strings l0]> out | None => out end) kv <-> degree_ok startID ind out kv)
    by (intros kv; apply degree_ok_perm; intros u; apply targets_of_sorted).
  rewrite !Forall_forall. setoid_rewrite Hp.
  split; [by intros [_ ?]|done].
Qed.

Lemma check_degrees_targets startID l ind out out' :
  check_degrees startID l ind out = Ok out' -> forall u, targets_of out' u ≡ₚ targets_of out u.
Proof.
  revert out. induction l as [|[id node] l IH]; intros out Hrun u; simpl in Hrun; [by injection Hrun as <-|].
  split_match_in Hrun; rewrite (IH _ Hrun u).
  - rewrite <- (targets_of_sorted out id u). by rewrite E1.
  - done.
Qed.

Section acceptance.
Context `{MapRange}.

Lemma elem_of_range {A} (m : gmap string A) k a : (k, a) ∈ range m <-> m !! k = Some a.
Proof. rewrite range_perm. apply elem_of_map_to_list. Qed.

Lemma find_start_spec (m : gmap string Node) s n :
  m !! s = Some n -> is_start n ->
  (forall k n', m !! k = Some n' -> is_start n' -> k = s) -> find_start m = s.
Proof.
  intros Hs Hn Huniq. unfold find_start.
  assert (Hin : (s, n) ∈ range m) by (by apply elem_of_range).
  assert (Hall : forall k n', (k, n') ∈ range m -> is_start n' -> k = s)
    by (intros k n' Hk; apply elem_of_range in Hk; eauto).
  revert Hin Hall. generalize (range m), EmptyString. clear Hs Huniq.
  assert (Hkeep : forall l, (forall k n', (k, n') ∈ l -> is_start n' -> k = s) ->
    foldl (fun s kv => if String.eqb (node_Type kv.2) NodeStart then kv.1 else s) s l = s).
  { induction l as [|[k n'] l IH]; intros Hall; [done|]. simpl.
    destruct (String.eqb_spec (node_Type n') NodeStart) as [Ht|Ht].
    - rewrite (Hall k n' (list_elem_of_here _ _) Ht). apply IH. set_solver.
    - apply IH. set_solver. }
  induction l as [|[k n'] l IH]; intros s0 Hin Hall; [by apply not_elem_of_nil in Hin|].
  simpl. apply elem_of_cons in Hin as [[= <- <-]|Hin].
  - unfold is_start in Hn. rewrite Hn. simpl. apply Hkeep. set_solver.
  - apply IH; [done|set_solver].
Qed.

(** *** Identifiers *)

Lemma identifierPattern_spec s :
  MatchString identifierPattern s = true <->
  exists c t, s = String c t /\ is_lower c = true /\ str_forall class_identifier t = true /\
    String.length t <= 127.
Proof.
  destruct s as [|c t]; [split; [done|by intros (? & ? & ? & _)]|].
  assert (Hd : MatchString identifierPattern (String c t)
    = is_lower c && (Nat.leb (String.length t) 127 && str_forall class_identifier t)).
  { unfold identifierPattern. rewrite <- MatchString_upto. simpl MatchString at 1.
    cbn [deriv nullable]. destruct (is_lower c); [done|]. apply MatchString_none. }
  rewrite Hd, !andb_true_iff, Nat.leb_le. split.
  - intros (Hc & Hl & Ht). by exists c, t.
  - by intros (c' & t' & [= <- <-] & Hc & Ht & Hl).
Qed.

(** *** Edge keys *)

Definition no_nul (s : string) : bool := str_forall (fun c => negb (Ascii.eqb c "000")) s.

Lemma no_nul_split a a' x x' :
  no_nul a = true -> no_nul a' = true ->
  a +:+ String "000" x = a' +:+ String "000" x' -> a = a' /\ x = x'.
Proof.
  revert a'. induction a as [|c a IH]; intros [|c' a'] Ha Ha' Heq; simpl in *.
  - by injection Heq.
  - injection Heq as <- _. discriminate.
  - injection Heq as -> _. discriminate.
  - injection Heq as <- Heq. apply andb_prop in Ha as [_ Ha], Ha' as [_ Ha'].
    by destruct (IH a' Ha Ha' Heq) as [-> ->].
Qed.

Lemma identifier_no_nul s : MatchString identifierPattern s = true -> no_nul s = true.
Proof.
  assert (Hcls : forall c, class_identifier c = true -> negb (Ascii.eqb c "000") = true).
  { intros c Hc. apply negb_true_iff, Ascii.eqb_neq. by intros ->. }
  intros (c & t & -> & Hc & Ht & _)%identifierPattern_spec. unfold no_nul. simpl.
  rewrite (Hcls c) by (unfold class_identifier; by rewrite Hc). simpl. clear Hc.
  induction t as [|d t IH]; simpl in *; [done|]. apply andb_prop in Ht as [Hd Ht].
  rewrite (Hcls d Hd). by apply IH.
Qed.

(** With valid node identifiers the key determines the edge. *)
Lemma edge_key_inj e e' :
  no_nul (edge_FromNodeID e) = true -> no_nul (edge_FromNodeID e') = true ->
  no_nul (edge_ToNodeID e) = true -> no_nul (edge_ToNodeID e') = true ->
  edge_key e = edge_key e' ->
  edge_FromNodeID e = edge_FromNodeID e' /\ edge_ToNodeID e = edge_ToNodeID e' /\
  edge_ConditionExpression e = edge_ConditionExpression e'.
Proof.
  intros Hf Hf' Ht Ht' Heq. unfold edge_key in Heq.
  apply no_nul_split in Heq as [Hff Heq]; [|done|done].
  by apply no_nul_split in Heq as [Htt Heq].
Qed.

Definition edge_triple (e : Edge) : string * string * string :=
  (edge_FromNodeID e, edge_ToNodeID e, edge_ConditionExpression e).

Lemma keys_triples edges : NoDup (edge_key <$> edges) -> NoDup (edge_triple <$> edges).
Proof.
  intros Hk. apply (NoDup_fmap_1 (fun t => t.1.1 +:+ String "000" (t.1.2 +:+ String "000" t.2))).
  by rewrite <- list_fmap_compose.
Qed.

Lemma triples_keys edges :
  (forall e, e ∈ edges -> no_nul (edge_FromNodeID e) = true /\ no_nul (edge_ToNodeID e) = true) ->
  NoDup (edge_triple <$> edges) -> NoDup (edge_key <$> edges).
Proof.
  intros Hids. induction edges as [|e edges IH]; simpl; [constructor|].
  intros [Hn Hnd]%NoDup_cons. constructor; [|apply IH; [|done]; intros; apply Hids; by right].
  intros (e' & Heq & He')%list_elem_of_fmap. apply Hn. apply list_elem_of_fmap. exists e'.
  split; [|done]. destruct (Hids e) as [? ?]; [by left|]. destruct (Hids e') as [? ?]; [by right|].
  destruct (edge_key_inj e e') as (? & ? & ?); [done..|]. unfold edge_triple. congruence.
Qed.

Lemma validateNode_id n : validateNode n = Ok tt -> MatchString identifierPattern (node_ID n) = true.
Proof.
  unfold validateNode. by destruct (MatchString identifierPattern (node_ID n)).
Qed.

(** The shape of an accepted graph. *)
Record accepted (nodes : list Node) (edges : list Edge) : Prop := {
  acc_valid : forall n, n ∈ nodes -> validateNode n = Ok tt;
  acc_ids : NoDup (node_ID <$> nodes);
  acc_start : List.length (filter is_start nodes) = 1;
  acc_end : exists n, n ∈ nodes /\ is_end n;
  acc_edges : forall e, e ∈ edges -> exists from to,
    from ∈ nodes /\ to ∈ nodes /\ node_ID from = edge_FromNodeID e /\ node_ID to = edge_ToNodeID e /\
    ~ is_end from /\ ~ is_start to /\ edge_FromNodeID e <> edge_ToNodeID e /\
    String.length (edge_ConditionExpression e) <= 1000;
  acc_keys : NoDup (edge_triple <$> edges);
  acc_first : forall n, n ∈ nodes -> is_start n -> List.length (targets edges (node_ID n)) = 1;
  acc_in : forall n, n ∈ nodes -> ~ is_start n -> exists u, edge_rel edges u (node_ID n);
  acc_out : forall n, n ∈ nodes -> ~ is_end n -> exists v, edge_rel edges (node_ID n) v;
  acc_acyclic : acyclic edges
}.

Lemma accepted_keys nodes edges : accepted nodes edges -> NoDup (edge_key <$> edges).
Proof.
  intros Hacc. apply triples_keys; [|apply Hacc]. intros e He.
  destruct (acc_edges _ _ Hacc e He) as (f & t & Hf & Ht & <- & <- & _).
  split; by apply identifier_no_nul, validateNode_id, Hacc.
Qed.

Lemma start_unique nodes :
  NoDup (node_ID <$> nodes) -> List.length (filter is_start nodes) = 1 ->
  exists n, n ∈ nodes /\ is_start n /\ forall n', n' ∈ nodes -> is_start n' -> n' = n.
Proof.
  intros Hnd Hlen. destruct (filter is_start nodes) as [|n [|? ?]] eqn:E; try discriminate.
  assert (n ∈ filter is_start nodes) as Hn by (rewrite E; apply list_elem_of_here).
  apply list_elem_of_filter in Hn as [Hs Hn]. exists n. split; [done|]. split; [done|].
  intros n' Hn' Hs'. assert (n' ∈ filter is_start nodes) as Hn2 by (by apply list_elem_of_filter).
  rewrite E in Hn2. by apply list_elem_of_singleton in Hn2.
Qed.

Lemma remaining_pos edges v : (remaining edges [] v <> 0) <-> exists u, edge_rel edges u v.
Proof.
  rewrite remaining_zero. split.
  - intros Hn. destruct (decide (Exists (fun e => edge_ToNodeID e = v) edges)) as [He|He].
    + apply Exists_exists in He as (e & ? & ?). exists (edge_FromNodeID e). by exists e.
    + exfalso. apply Hn. intros u (e & He' & _ & Ht). exfalso. apply He, Exists_exists. eauto.
  - intros [u Hu] Hn. by apply Hn, not_elem_of_nil in Hu.
Qed.

Lemma targets_nonempty edges u : targets edges u <> [] <-> exists v, edge_rel edges u v.
Proof.
  split.
  - intros Hn. destruct (targets edges u) as [|v l] eqn:E; [done|]. exists v.
    assert (v ∈ targets edges u) as Hv by (rewrite E; apply list_elem_of_here).
    unfold targets in Hv. apply list_elem_of_fmap in Hv as (e & -> & He).
    apply list_elem_of_filter in He as [? ?]. by exists e.
  - intros [v (e & He & Hf & Ht)] E. assert (v ∈ targets edges u) as Hv.
    { unfold targets. apply list_elem_of_fmap. exists e. split; [done|]. by apply list_elem_of_filter. }
    rewrite E in Hv. by apply not_elem_of_nil in Hv.
Qed.
(** *** The visit, after the checks that precede it *)

Section visited.
Context (nodes : gmap string Node) (edges : list Edge) (startID : string) (ind : counts)
  (out : adjacency).
Hypothesis Hedges : Forall (edge_ok nodes) edges.
Hypothesis Hind : forall v, count_of ind v = Z.of_nat (remaining edges [] v).
Hypothesis Hout : forall u, targets_of out u ≡ₚ targets edges u.
Hypothesis Hstart : exists n, nodes !! startID = Some n /\ is_start n.
Hypothesis Hdeg : forall k n, nodes !! k = Some n -> k = startID \/ count_of ind k <> 0%Z.

Lemma edges_in_dom u v : edge_rel edges u v -> u ∈ dom nodes /\ v ∈ dom nodes.
Proof.
  intros (e & He & <- & <-). rewrite Forall_forall in Hedges.
  destruct (Hedges e He) as (from & to & Hf & Ht & _). split; apply elem_of_dom; eauto.
Qed.

Lemma start_no_edge : remaining edges [] startID = 0.
Proof.
  apply remaining_zero. intros u (e & He & _ & Ht). exfalso. rewrite Forall_forall in Hedges.
  destruct (Hedges e He) as (from & to & _ & Hto & _ & Hns & _). rewrite Ht in Hto.
  destruct Hstart as (n & Hn & Hs). congruence.
Qed.

Lemma kahn_initial : kahn_inv (dom nodes) edges [] [startID] ind.
Proof.
  split; simpl; [apply NoDup_singleton|intros v _; apply Hind| |].
  - intros v. rewrite list_elem_of_singleton, elem_of_dom. split.
    + intros ->. destruct Hstart as (n & Hn & _). split; [eauto|apply start_no_edge].
    + intros [[n Hn] Hz]. destruct (Hdeg v n Hn) as [->|Hc]; [done|]. rewrite Hind in Hc. lia.
  - intros i v u Hi. by rewrite lookup_nil in Hi.
Qed.

Lemma visit_acyclic :
  exists visited, visit (S (size nodes)) out ind [startID] 0 = Some visited /\
    (visited = size nodes <-> acyclic edges).
Proof.
  destruct (visit_spec (dom nodes) edges out edges_in_dom Hout (S (size nodes)) [] [startID] ind
    kahn_initial) as (P & ind' & Hinv & Hv); [rewrite size_dom; simpl; lia|].
  exists (List.length P). split; [exact Hv|].
  rewrite <- (size_dom nodes). by eapply (visited_all_iff_acyclic _ _ _ edges_in_dom Hout).
Qed.

(** A complete visit lists the nodes in a topological order. *)
Lemma visit_order :
  acyclic edges -> exists order, NoDup order /\ topological edges order /\
    forall v, v ∈ order <-> is_Some (nodes !! v).
Proof.
  intros Hac. destruct (visit_spec (dom nodes) edges out edges_in_dom Hout (S (size nodes)) []
    [startID] ind kahn_initial) as (P & ind' & Hinv & Hv); [rewrite size_dom; simpl; lia|].
  exists P. pose proof (kahn_nodup _ _ _ _ _ Hinv) as Hnd. rewrite app_nil_r in Hnd.
  split; [done|]. split; [apply Hinv|]. intros v. rewrite <- elem_of_dom. split.
  - intros Hp. rewrite <- (app_nil_r P) in Hp. by apply (kahn_ready _ _ _ _ _ Hinv) in Hp as [? _].
  - by eapply (acyclic_all_visited _ _ _ edges_in_dom Hout).
Qed.
End visited.
(** *** Acceptance *)

#[local] Arguments visit : simpl never.

Lemma indexed_lookup nodes m s e k n :
  indexed nodes ∅ m 0 0 s e -> (m !! k = Some n <-> n ∈ nodes /\ node_ID n = k).
Proof.
  intros Hix. rewrite (ix_lookup _ _ _ _ _ _ _ Hix), lookup_empty.
  split; [by intros [?|?]|by right].
Qed.

Lemma indexed_inj nodes m s e n n' :
  indexed nodes ∅ m 0 0 s e -> n ∈ nodes -> n' ∈ nodes -> node_ID n = node_ID n' -> n = n'.
Proof.
  intros Hix Hn Hn' Heq.
  assert (m !! node_ID n = Some n) by (by eapply indexed_lookup).
  assert (m !! node_ID n = Some n') by (by eapply indexed_lookup). congruence.
Qed.

Lemma indexed_start nodes m :
  indexed nodes ∅ m 0 0 (List.length (filter is_start nodes)) (List.length (filter is_end nodes)) ->
  List.length (filter is_start nodes) = 1 ->
  exists s, s ∈ nodes /\ is_start s /\ find_start m = node_ID s /\
    forall n, n ∈ nodes -> is_start n -> n = s.
Proof.
  intros Hix Hone.
  destruct (start_unique nodes (ix_nodup _ _ _ _ _ _ _ Hix) Hone) as (s & Hs & His & Huniq).
  exists s. split; [done|]. split; [done|]. split; [|done].
  eapply find_start_spec; [by eapply indexed_lookup|done|]. intros k n' Hk Hn'.
  apply (indexed_lookup _ _ _ _ _ _ Hix) in Hk as [Hin <-]. by rewrite (Huniq n' Hin Hn').
Qed.

(** Once the degree checks pass, the visit ends, and it visits every node exactly
    when the graph has no cycle. *)
Lemma validate_visit nodes m edges s ind out seen out' :
  indexed nodes ∅ m 0 0 (List.length (filter is_start nodes)) (List.length (filter is_end nodes)) ->
  s ∈ nodes -> is_start s ->
  add_edges m edges ((fun _ => 0%Z) <$> m, ∅, ∅) = Ok (ind, out, seen) ->
  check_degrees (node_ID s) (range m) ind out = Ok out' ->
  exists visited, visit (S (size m)) out' ind [node_ID s] 0 = Some visited /\
    (visited = size m <-> acyclic edges).
Proof.
  intros Hix Hs His Eadd Edeg.
  destruct (proj2 (add_edges_iff m edges [] _ (edges_added_nil m) (NoDup_nil_2 : NoDup (edge_key <$> [])))
    (ex_intro _ _ Eadd)) as [Hedges _].
  pose proof (add_edges_added m edges [] _ _ (edges_added_nil m) Eadd) as [Hind Hout _]. simpl in *.
  pose proof (proj2 (check_degrees_iff _ _ _ _) (ex_intro _ _ Edeg)) as Hdeg.
  rewrite Forall_forall in Hdeg.
  apply visit_acyclic; [done..| | |].
  - intros u. rewrite (check_degrees_targets _ _ _ _ _ Edeg u). by rewrite Hout.
  - exists s. split; [by eapply indexed_lookup|done].
  - intros k n Hk. by apply elem_of_range, Hdeg in Hk as [? _].
Qed.

Lemma edge_ok_indexed nodes m s e edges :
  indexed nodes ∅ m 0 0 s e ->
  Forall (edge_ok m) edges <-> forall e, e ∈ edges -> exists from to,
    from ∈ nodes /\ to ∈ nodes /\ node_ID from = edge_FromNodeID e /\ node_ID to = edge_ToNodeID e /\
    ~ is_end from /\ ~ is_start to /\ edge_FromNodeID e <> edge_ToNodeID e /\
    String.length (edge_ConditionExpression e) <= 1000.
Proof.
  intros Hix. rewrite Forall_forall. unfold edge_ok.
  setoid_rewrite (fun k n => indexed_lookup nodes m s e k n Hix).
  split; intros He e' Hin; destruct (He e' Hin) as (f & t & ?); exists f, t; tauto.
Qed.

Lemma end_exists nodes :
  List.length (filter is_end nodes) <> 0 -> exists n, n ∈ nodes /\ is_end n.
Proof.
  intros Hl. destruct (filter is_end nodes) as [|n l] eqn:E; [done|]. exists n.
  assert (n ∈ filter is_end nodes) as Hn by (rewrite E; apply list_elem_of_here).
  by apply list_elem_of_filter in Hn as [? ?].
Qed.

Section acceptance_iff.
Context (nodes : list Node) (m : gmap string Node) (edges : list Edge).
Hypothesis Hix : indexed nodes ∅ m 0 0
  (List.length (filter is_start nodes)) (List.length (filter is_end nodes)).
Hypothesis Hone : List.length (filter is_start nodes) = 1.
Hypothesis Hends : List.length (filter is_end nodes) <> 0.

Lemma validateEdges_sound : validateEdges m edges = Ok tt -> accepted nodes edges.
Proof.
  destruct (indexed_start nodes m Hix Hone) as (s & Hs & His & Hfind & Huniq).
  unfold validateEdges. rewrite Hfind. intros Hrun.
  destruct (add_edges m edges _) as [[[ind out] seen]|err] eqn:Eadd; [|discriminate].
  destruct (proj2 (add_edges_iff m edges [] _ (edges_added_nil m) (NoDup_nil_2 : NoDup (edge_key <$> [])))
    (ex_intro _ _ Eadd)) as [Hedges Hkeys].
  pose proof (add_edges_added m edges [] _ _ (edges_added_nil m) Eadd) as [Hind Hout _]. simpl in *.
  destruct (Nat.eqb_spec (List.length (targets_of out (node_ID s))) 1) as [Hlen|]; [|discriminate].
  simpl in Hrun. destruct (check_degrees _ _ _ _) as [out'|] eqn:Edeg; [|discriminate].
  pose proof (proj2 (check_degrees_iff _ _ _ _) (ex_intro _ _ Edeg)) as Hdeg.
  rewrite Forall_forall in Hdeg.
  assert (Hdeg' : forall n, n ∈ nodes -> degree_ok (node_ID s) ind out (node_ID n, n))
    by (intros n Hn; by eapply Hdeg, elem_of_range, indexed_lookup).
  destruct (validate_visit nodes m edges s ind out seen out' Hix Hs His Eadd Edeg)
    as (visited & Hvis & Hac).
  simpl in Hrun. rewrite Hvis in Hrun. simpl in Hrun.
  destruct (Nat.eqb_spec visited (size m)) as [Hsz|]; [|discriminate]. split.
  - apply Hix. - apply Hix. - done. - by apply end_exists. - by eapply edge_ok_indexed. - by apply keys_triples.
  - intros n Hn Hns. rewrite (Huniq n Hn Hns). by rewrite <- Hout.
  - intros n Hn Hns. apply remaining_pos. intros Hz.
    destruct (Hdeg' n Hn) as [[Heq|Hc] _]; simpl in *.
    + apply Hns. by rewrite (indexed_inj nodes m _ _ n s Hix Hn Hs Heq).
    + rewrite Hind in Hc. lia.
  - intros n Hn Hne. apply targets_nonempty. rewrite <- Hout.
    by destruct (Hdeg' n Hn) as [_ [?|?]].
  - by apply Hac.
Qed.

Lemma validateEdges_complete : accepted nodes edges -> validateEdges m edges = Ok tt.
Proof.
  intros Hacc. destruct (Hacc) as [_ _ _ _ Hedges _ Hfirst Hin Houts Hac].
  destruct (indexed_start nodes m Hix Hone) as (s & Hs & His & Hfind & Huniq).
  unfold validateEdges. rewrite Hfind.
  destruct (proj1 (add_edges_iff m edges [] _ (edges_added_nil m) (NoDup_nil_2 : NoDup (edge_key <$> []))))
    as [[[ind out] seen] Eadd]; [split; [by eapply edge_ok_indexed|by eapply accepted_keys]|].
  pose proof (add_edges_added m edges [] _ _ (edges_added_nil m) Eadd) as [Hind Hout _].
  rewrite Eadd. simpl in *. rewrite Hout, (Hfirst s Hs His). simpl.
  destruct (proj1 (check_degrees_iff (node_ID s) (range m) ind out)) as [out' Edeg].
  { apply Forall_forall. intros [k n] Hk. apply elem_of_range in Hk.
    apply (indexed_lookup _ _ _ _ _ _ Hix) in Hk as [Hn <-]. split; simpl.
    - destruct (decide (is_start n)) as [His'|His']; [left; by rewrite (Huniq n Hn His')|].
      right. rewrite Hind. pose proof (proj2 (remaining_pos edges (node_ID n)) (Hin n Hn His')). lia.
    - destruct (decide (is_end n)) as [|Hne]; [by left|]. right. rewrite Hout.
      apply targets_nonempty. auto. }
  rewrite Edeg. simpl.
  destruct (validate_visit nodes m edges s ind out seen out' Hix Hs His Eadd Edeg)
    as (visited & Hvis & Hacv).
  rewrite Hvis. apply Hacv in Hac. by rewrite Hac, Nat.eqb_refl.
Qed.
End acceptance_iff.
End acceptance.
