(* ===== verification/GraphSpec.v ===== *)
(** * The contract of definition validation

    [ValidateDefinition] accepts exactly the graphs described by [accepted]; every
    rejection wraps [ErrInvalid]; and an accepted graph can be run: it has a
    topological order, every node lies on a way from the start node to an end
    node, and no walk is longer than the number of nodes. *)
From S2P Require Import Prelude GoStd Json Model Graph GraphTheory.
From Stdlib Require Import Ascii String.
From stdpp Require Import sorting relations.
Local Open Scope string_scope.
Local Open Scope list_scope.

(** The checks that precede the graph. *)
Definition header_ok (key name : string) (nodes : list Node) (edges : list Edge) : Prop :=
  MatchString identifierPattern key = true /\ blank name = false /\
  2 <= List.length nodes <= 200 /\ List.length edges <= 500.

(** ** What acceptance gives *)

Section accepted.
Context (nodes : list Node) (edges : list Edge).
Hypothesis Hacc : accepted nodes edges.

Lemma accepted_inj n n' : n ∈ nodes -> n' ∈ nodes -> node_ID n = node_ID n' -> n = n'.
Proof.
  intros [i Hi]%list_elem_of_lookup_1 [j Hj]%list_elem_of_lookup_1 Heq.
  assert (i = j) as <-; [|congruence].
  apply (NoDup_lookup _ _ _ (node_ID n) (acc_ids _ _ Hacc)); rewrite list_lookup_fmap.
  - by rewrite Hi.
  - rewrite Hj. simpl. by rewrite Heq.
Qed.

Lemma accepted_rel_nodes u v : edge_rel edges u v ->
  u ∈ node_ID <$> nodes /\ v ∈ node_ID <$> nodes.
Proof.
  intros (e & He & <- & <-).
  destruct (acc_edges _ _ Hacc e He) as (f & t & Hf & Ht & <- & <- & _).
  split; by apply list_elem_of_fmap_2.
Qed.

(** A walk of at least one step ends in a node. *)
Lemma walk_end_node k u v :
  nsteps (edge_rel edges) (S k) u v -> v ∈ node_ID <$> nodes.
Proof.
  intros (w & _ & Hr)%nsteps_inv_r. by apply accepted_rel_nodes in Hr as [_ ?].
Qed.
End accepted.

(** The walks of a topologically ordered graph. *)
Section order.
Context (edges : list Edge) (P : list string).
Hypothesis Hnd : NoDup P.
Hypothesis Htopo : topological edges P.

Lemma order_lt u v i j :
  edge_rel edges u v -> P !! i = Some u -> P !! j = Some v -> i < j.
Proof.
  intros Hr Hi Hj. destruct (Htopo j v u Hj Hr) as (k & Hk & Hu).
  by rewrite (NoDup_lookup _ _ _ _ Hnd Hi Hu).
Qed.

Lemma walk_positions k u v j :
  nsteps (edge_rel edges) k u v -> P !! j = Some v ->
  exists i, P !! i = Some u /\ i + k <= j.
Proof.
  intros Hw. revert j. induction Hw as [u|k u w v Hr Hw IH]; intros j Hj; [exists j; split; [done|lia]|].
  destruct (IH j Hj) as (i & Hi & Hle). destruct (Htopo i w u Hi Hr) as (i' & Hlt & Hi').
  exists i'. split; [done|lia].
Qed.

Lemma walk_short k u v : nsteps (edge_rel edges) k u v -> v ∈ P -> k < List.length P.
Proof.
  intros Hw [j Hj]%list_elem_of_lookup_1. destruct (walk_positions k u v j Hw Hj) as (i & _ & Hle).
  apply lookup_lt_Some in Hj. lia.
Qed.
End order.

Section accepted_order.
Context (nodes : list Node) (edges : list Edge).
Hypothesis Hacc : accepted nodes edges.

Lemma accepted_index : exists m, indexed nodes ∅ m 0 0
  (List.length (filter is_start nodes)) (List.length (filter is_end nodes)).
Proof.
  destruct (index_nodes_complete nodes ∅ 0 0) as [[[m s] e] Hrun];
    [apply Hacc|apply Hacc|intros; apply lookup_empty|].
  pose proof (index_nodes_Ok _ _ _ _ _ _ _ Hrun) as Hix. exists m.
  by rewrite (ix_starts _ _ _ _ _ _ _ Hix), (ix_ends _ _ _ _ _ _ _ Hix) in Hix.
Qed.

(** A topological order of the nodes, which starts with the start node. *)
Lemma accepted_order : exists P, NoDup P /\ topological edges P /\
  (forall v, v ∈ P <-> v ∈ node_ID <$> nodes) /\ List.length P = List.length nodes.
Proof.
  destruct accepted_index as [m Hix].
  destruct (start_unique nodes (acc_ids _ _ Hacc) (acc_start _ _ Hacc)) as (s & Hs & His & Huniq).
  assert (Hok : Forall (edge_ok m) edges).
  { apply Forall_forall. intros e He. destruct (acc_edges _ _ Hacc e He) as (f & t & Hf & Ht & ? & ? & ?).
    exists f, t. split; [by eapply indexed_lookup|]. split; [by eapply indexed_lookup|done]. }
  destruct (proj1 (add_edges_iff m edges [] _ (edges_added_nil m) (NoDup_nil_2 : NoDup (edge_key <$> []))))
    as [[[ind out] seen] Hrun]; [split; [done|by eapply accepted_keys]|].
  pose proof (add_edges_added m edges [] _ _ (edges_added_nil m) Hrun) as [Hind Hout _]. simpl in *.
  destruct (visit_order m edges (node_ID s) ind out) as (P & Hnd & Htopo & Hin); try done.
  - intros u. by rewrite Hout.
  - exists s. split; [|done]. by eapply indexed_lookup.
  - intros k n Hk. apply (indexed_lookup _ _ _ _ _ _ Hix) in Hk as [Hn <-].
    destruct (decide (is_start n)) as [Hsn|Hsn]; [left; by rewrite (Huniq n Hn Hsn)|right].
    rewrite Hind. pose proof (proj2 (remaining_pos edges _) (acc_in _ _ Hacc n Hn Hsn)). lia.
  - apply Hacc.
  - assert (Hmem : forall v, v ∈ P <-> v ∈ node_ID <$> nodes).
    { intros v. rewrite Hin, list_elem_of_fmap. split.
      - intros [n Hn]. apply (indexed_lookup _ _ _ _ _ _ Hix) in Hn as [Hn <-]. by exists n.
      - intros (n & -> & Hn). exists n. by eapply indexed_lookup. }
    exists P. split_and!; [done..|]. rewrite <- (length_fmap node_ID nodes).
    apply Permutation_length, NoDup_Permutation; [done|apply Hacc|done].
Qed.

Lemma reachable_from_start s : s ∈ nodes -> is_start s ->
  forall n, n ∈ nodes -> rtc (edge_rel edges) (node_ID s) (node_ID n).
Proof.
  intros Hs His. destruct accepted_order as (P & Hnd & Htopo & Hmem & _).
  destruct (start_unique nodes (acc_ids _ _ Hacc) (acc_start _ _ Hacc)) as (s' & _ & _ & Huniq).
  assert (Hall : forall i n, P !! i = Some (node_ID n) -> n ∈ nodes ->
    rtc (edge_rel edges) (node_ID s) (node_ID n)).
  { intros i. induction (lt_wf i) as [i _ IH]. intros n Hi Hn.
    destruct (decide (is_start n)) as [Hsn|Hsn].
    - by rewrite (Huniq n Hn Hsn), <- (Huniq s Hs His).
    - destruct (acc_in _ _ Hacc n Hn Hsn) as [u Hu]. destruct (Htopo i _ u Hi Hu) as (j & Hj & HPj).
      destruct (accepted_rel_nodes _ _ Hacc _ _ Hu) as [(n' & -> & Hn')%list_elem_of_fmap _].
      eapply rtc_r; [by apply (IH j)|done]. }
  intros n Hn. assert (node_ID n ∈ P) as [i Hi]%list_elem_of_lookup_1
    by (apply Hmem; by apply list_elem_of_fmap_2). by eapply Hall.
Qed.

Lemma reaches_end n : n ∈ nodes ->
  exists e, e ∈ nodes /\ is_end e /\ rtc (edge_rel edges) (node_ID n) (node_ID e).
Proof.
  destruct accepted_order as (P & Hnd & Htopo & Hmem & _).
  assert (Hall : forall k i n, k + i = List.length P -> P !! i = Some (node_ID n) -> n ∈ nodes ->
    exists e, e ∈ nodes /\ is_end e /\ rtc (edge_rel edges) (node_ID n) (node_ID e)).
  { intros k. induction (lt_wf k) as [k _ IH]. intros i n0 Hk Hi Hn.
    destruct (decide (is_end n0)) as [He|He]; [by exists n0|].
    destruct (acc_out _ _ Hacc n0 Hn He) as [v Hv].
    destruct (accepted_rel_nodes _ _ Hacc _ _ Hv) as [_ (n' & -> & Hn')%list_elem_of_fmap].
    assert (node_ID n' ∈ P) as [j Hj]%list_elem_of_lookup_1
      by (apply Hmem; by apply list_elem_of_fmap_2).
    pose proof (order_lt _ _ Hnd Htopo _ _ _ _ Hv Hi Hj). pose proof (lookup_lt_Some _ _ _ Hj).
    destruct (IH (List.length P - j) ltac:(lia) j n' ltac:(lia) Hj Hn') as (e & ? & ? & ?).
    exists e. split; [done|]. split; [done|]. by eapply rtc_l. }
  intros Hn. assert (node_ID n ∈ P) as [i Hi]%list_elem_of_lookup_1
    by (apply Hmem; by apply list_elem_of_fmap_2).
  apply (Hall (List.length P - i) i n); [|done|done].
  apply lookup_lt_Some in Hi. lia.
Qed.
End accepted_order.

(** ** Every rejection is [ErrInvalid] *)

Definition rejects_invalid {A} (r : res A) : Prop :=
  match r with Ok _ => True | Err e => errors_Is e ErrInvalid = true end.

Lemma rejects_bind {A B} (r : res A) (f : A -> res B) :
  rejects_invalid r -> (forall a, r = Ok a -> rejects_invalid (f a)) -> rejects_invalid (r ≫= f).
Proof. destruct r; simpl; auto. Qed.

Lemma validateNode_invalid n : rejects_invalid (validateNode n).
Proof.
  unfold validateNode. case_match; [done|]. apply rejects_bind.
  - repeat case_match; done.
  - intros _ _. repeat case_match; done.
Qed.

Lemma index_nodes_invalid nodes byID s e : rejects_invalid (index_nodes nodes byID s e).
Proof.
  revert byID s e. induction nodes as [|n nodes IH]; intros; simpl; [done|].
  apply rejects_bind; [apply validateNode_invalid|]. intros _ _. by case_match.
Qed.

Lemma add_edges_invalid nodes edges st : rejects_invalid (add_edges nodes edges st).
Proof.
  revert st. induction edges as [|e edges IH]; intros st; simpl; [done|].
  apply rejects_bind; [|by intros]. destruct st as [[? ?] ?]. unfold add_edge.
  repeat case_match; done.
Qed.

Section validate.
Context `{MapRange}.

Lemma check_degrees_invalid s l ind out : rejects_invalid (check_degrees s l ind out).
Proof.
  revert out. induction l as [|[id n] l IH]; intros out; simpl; [done|]. repeat case_match; done.
Qed.

Lemma ValidateDefinition_accepted key name nodes edges :
  ValidateDefinition key name nodes edges = Ok tt <->
  header_ok key name nodes edges /\ accepted nodes edges.
Proof.
  unfold ValidateDefinition, header_ok.
  destruct (MatchString identifierPattern key) eqn:Hk; [|split; [done|by intros [[? _] _]]].
  destruct (blank name) eqn:Hn; [split; [done|by intros [(_ & ? & _) _]]|].
  destruct (Nat.ltb_spec (List.length nodes) 2); [split; [done|intros [(_ & _ & ? & _) _]; lia]|].
  destruct (Nat.ltb_spec 200 (List.length nodes)); [split; [done|intros [(_ & _ & ? & _) _]; lia]|].
  destruct (Nat.ltb_spec 500 (List.length edges)); [split; [done|intros [(_ & _ & _ & ?) _]; lia]|].
  cbn [negb orb].
  destruct (index_nodes nodes ∅ 0 0) as [[[m s] e]|err] eqn:Hrun; simpl.
  - pose proof (index_nodes_Ok _ _ _ _ _ _ _ Hrun) as Hix.
    rewrite (ix_starts _ _ _ _ _ _ _ Hix), (ix_ends _ _ _ _ _ _ _ Hix) in Hix |- *. simpl.
    destruct (Nat.eqb_spec (List.length (filter is_start nodes)) 1) as [Hs|Hs]; simpl;
      [|split; [done|intros [_ Ha]; by destruct (acc_start _ _ Ha)]].
    destruct (Nat.eqb_spec (List.length (filter is_end nodes)) 0) as [He|He]; simpl.
    + split; [done|]. intros [_ Ha]. exfalso. destruct (acc_end _ _ Ha) as (n & Hnn & Hne).
      apply length_zero_iff_nil in He. assert (n ∈ filter is_end nodes) as Hin
        by (by apply list_elem_of_filter). rewrite He in Hin. by apply not_elem_of_nil in Hin.
    + split; [|intros [_ Ha]; by apply (validateEdges_complete nodes)].
      intros Hok. split; [split_and!; [done..|lia|lia|lia]|]. by apply (validateEdges_sound nodes m).
  - split; [done|]. intros [_ Ha]. exfalso.
    destruct (index_nodes_complete nodes ∅ 0 0) as [r Hr]; [apply Ha|apply Ha| |congruence].
    intros; apply lookup_empty.
Qed.

Lemma validateEdges_invalid nodes m edges :
  indexed nodes ∅ m 0 0 (List.length (filter is_start nodes)) (List.length (filter is_end nodes)) ->
  List.length (filter is_start nodes) = 1 -> rejects_invalid (validateEdges m edges).
Proof.
  intros Hix Hone. destruct (indexed_start nodes m Hix Hone) as (s & Hs & His & Hfind & _).
  unfold validateEdges. rewrite Hfind. apply rejects_bind; [apply add_edges_invalid|].
  intros [[ind out] seen] Eadd. case_match; [done|]. apply rejects_bind; [apply check_degrees_invalid|].
  intros out' Edeg.
  destruct (validate_visit nodes m edges s ind out seen out' Hix Hs His Eadd Edeg) as (v & -> & _).
  by case_match.
Qed.

Lemma ValidateDefinition_rejects key name nodes edges :
  rejects_invalid (ValidateDefinition key name nodes edges).
Proof.
  unfold ValidateDefinition. case_match; [done|]. apply rejects_bind; [apply index_nodes_invalid|].
  intros [[m s] e] Hrun. pose proof (index_nodes_Ok _ _ _ _ _ _ _ Hrun) as Hix.
  rewrite (ix_starts _ _ _ _ _ _ _ Hix), (ix_ends _ _ _ _ _ _ _ Hix) in Hix |- *. simpl.
  destruct (Nat.eqb_spec (List.length (filter is_start nodes)) 1); simpl; [|done].
  case_match; [done|]. by apply (validateEdges_invalid nodes).
Qed.
End validate.

(** ** A concrete definition

    [start] leads to the approval [approve], which leads to the service task
    [charge] and, under a condition, straight to [done]. *)

Definition plain_node (id type : string) : Node :=
  mkNode id "Step" type "" "" 0 "" "" "" "" 0 "".

Definition sample_nodes : list Node := [
  plain_node "start" NodeStart;
  mkNode "approve" "Approve" NodeApproval AssigneeRole "manager" 3600 "" "" "" "" 0 "";
  mkNode "charge" "Charge" NodeServiceTask "" "" 30 "billing" "/billing.v1.Billing/Charge"
    "{}" "/billing.v1.Billing/Refund" 0 "";
  plain_node "done" NodeEnd ].

Definition sample_edges : list Edge := [
  mkEdge "start" "approve" "" 0;
  mkEdge "approve" "charge" "" 2;
  mkEdge "approve" "done" "output.skip == true" 1;
  mkEdge "charge" "done" "" 0 ].

Lemma sample_accepted : ValidateDefinition "order" "Order" sample_nodes sample_edges = Ok tt.
Proof. vm_compute. reflexivity. Qed.

(** ** Properties *)

(** C1. [ValidateDefinition] accepts a definition exactly when its key is an
    identifier, its name is not blank, its sizes are within bounds and its graph is
    well formed: valid nodes with distinct identifiers, exactly one start and at
    least one end, edges between existing nodes that do not leave an end, enter the
    start, loop or repeat, one edge out of the start, every other node entered,
    every non-end node left, and no cycle.  The answer does not depend on the order
    in which Go ranges over its maps. *)
Theorem ValidateDefinition_exact `{MapRange} key name nodes edges :
  ValidateDefinition key name nodes edges = Ok tt <->
  header_ok key name nodes edges /\ accepted nodes edges.
Proof. apply ValidateDefinition_accepted. Qed.

(** Every rejection of [ValidateDefinition] wraps [ErrInvalid], whichever check
    fails and however the maps are ranged over; in particular the visit of the
    graph always ends. *)
Theorem ValidateDefinition_error_kind `{MapRange} key name nodes edges :
  match ValidateDefinition key name nodes edges with
  | Ok _ => True
  | Err e => errors_Is e ErrInvalid = true
  end.
Proof. apply ValidateDefinition_rejects. Qed.

(** C2. The nodes of an accepted definition have a topological order; every node is
    reachable from the start node and reaches an end node; and a walk along the
    edges makes fewer steps than there are nodes, which is within the step limit of
    [Execute]. *)
Theorem accepted_definition_walks `{MapRange} key name nodes edges :
  ValidateDefinition key name nodes edges = Ok tt ->
  (exists order, NoDup order /\ topological edges order /\
     forall v, v ∈ order <-> v ∈ node_ID <$> nodes) /\
  (exists s, s ∈ nodes /\ is_start s /\ forall n, n ∈ nodes ->
     rtc (edge_rel edges) (node_ID s) (node_ID n) /\
     exists e, e ∈ nodes /\ is_end e /\ rtc (edge_rel edges) (node_ID n) (node_ID e)) /\
  (forall k u v, nsteps (edge_rel edges) k u v -> k < List.length nodes).
Proof.
  intros [(_ & _ & Hlen & _) Hacc]%ValidateDefinition_accepted.
  destruct (accepted_order nodes edges Hacc) as (P & Hnd & Htopo & Hmem & HP).
  destruct (start_unique nodes (acc_ids _ _ Hacc) (acc_start _ _ Hacc)) as (s & Hs & His & _).
  split; [by exists P|]. split.
  { exists s. split; [done|]. split; [done|]. intros n Hn.
    split; [by eapply reachable_from_start|by eapply reaches_end]. }
  intros [|k] u v Hw; [lia|]. rewrite <- HP. eapply (walk_short edges P Htopo); [done|].
  apply Hmem. by eapply (walk_end_node nodes edges Hacc).
Qed.

Lemma accepted_definition_walks_witness :
  (forall k u v, nsteps (edge_rel sample_edges) k u v -> k < 4) /\
  exists s, s ∈ sample_nodes /\ is_start s /\ forall n, n ∈ sample_nodes ->
     rtc (edge_rel sample_edges) (node_ID s) (node_ID n) /\
     exists e, e ∈ sample_nodes /\ is_end e /\
       rtc (edge_rel sample_edges) (node_ID n) (node_ID e).
Proof.
  destruct (accepted_definition_walks "order" "Order" sample_nodes sample_edges sample_accepted)
    as (_ & Hreach & Hwalk).
  split; [exact Hwalk|exact Hreach].
Defined.
