(* ===== verification/World.v ===== *)
(** * Contexts, the environment and the database

    The caller's context, the sources of nondeterminism (clock, identifiers,
    failing calls), the tables of [migrations/postgres], and the ways of running a
    statement: alone, or inside a transaction that is rolled back on every path
    that does not commit.

    Statements fail for two reasons: the environment makes the call fail
    ([env_fault]: network, cancelled context, serialization), or the statement
    violates a constraint of the schema.  Neither has an effect on the tables. *)
From S2P Require Import Prelude GoStd Model.
From Stdlib Require Import Ascii String.
Local Open Scope string_scope.
Local Open Scope list_scope.

(** ** Request contexts *)

(** [principal.Principal]: the fields this service reads. *)
Inductive principal_type : Type := TypeUser | TypeServiceAccount | TypeSystem.

Record Principal : Type := mkPrincipal {
  pr_ID : string;
  pr_TenantID : string;
  pr_MembershipID : string;
  pr_Type : principal_type
}.

Record Ctx : Type := mkCtx {
  ctx_principal : option Principal;   (** [principal.FromContext] *)
  ctx_request_id : string;            (** [requestid.FromContext] *)
  ctx_trace_id : string               (** [trace.SpanContextFromContext] *)
}.

(** Errors that are none of the domain's and not [sql.ErrNoRows]. *)
Definition fault_error (e : error) : Prop :=
  (forall s, errors_Is e s = false) /\ errors_Is_foreign e NoRows = false.

(** ** The environment

    The n-th interaction with the environment reads the clock, draws an identifier
    or calls the database; [env_fault n] is the error that call fails with. *)
Class Env := {
  env_fault : nat -> option error;
  env_now : nat -> Z;
  env_uuid : nat -> string;
  env_fault_foreign : forall n e, env_fault n = Some e -> fault_error e
}.

(** ** Tables *)

Section world.
Context {Event : Type}.

(** The outbox rows carry the event and the actor who caused it; newest last. *)
Record DB : Type := mkDB {
  db_definitions : gmap string WDefinition;
  db_revisions : gmap (string * Z) DefinitionRevision;
  db_instances : gmap string WInstance;
  db_tasks : gmap string Task;
  db_history : gmap string TaskHistory;
  db_outbox : list (Event * string)
}.

Definition empty_db : DB := mkDB ∅ ∅ ∅ ∅ ∅ [].

Definition set_definitions (t : gmap string WDefinition) (db : DB) : DB :=
  mkDB t (db_revisions db) (db_instances db) (db_tasks db) (db_history db) (db_outbox db).
Definition set_revisions (t : gmap (string * Z) DefinitionRevision) (db : DB) : DB :=
  mkDB (db_definitions db) t (db_instances db) (db_tasks db) (db_history db) (db_outbox db).
Definition set_instances (t : gmap string WInstance) (db : DB) : DB :=
  mkDB (db_definitions db) (db_revisions db) t (db_tasks db) (db_history db) (db_outbox db).
Definition set_tasks (t : gmap string Task) (db : DB) : DB :=
  mkDB (db_definitions db) (db_revisions db) (db_instances db) t (db_history db) (db_outbox db).
Definition set_history (t : gmap string TaskHistory) (db : DB) : DB :=
  mkDB (db_definitions db) (db_revisions db) (db_instances db) (db_tasks db) t (db_outbox db).
Definition set_outbox (t : list (Event * string)) (db : DB) : DB :=
  mkDB (db_definitions db) (db_revisions db) (db_instances db) (db_tasks db) (db_history db) t.

(** ** Statements and transactions *)

Record World : Type := mkWorld { w_db : DB; w_tick : nat }.

Context `{Env}.

(** One call to the database: it fails, or it runs [f] on the tables. *)
Definition exec {A} (f : DB -> res (A * DB)) : stE World error A := fun w =>
  let next db := mkWorld db (S (w_tick w)) in
  match env_fault (w_tick w) with
  | Some e => (Err e, next (w_db w))
  | None =>
      match f (w_db w) with
      | Ok (a, db) => (Ok a, next db)
      | Err e => (Err e, next (w_db w))
      end
  end.

Definition query {A} (f : DB -> res A) : stE World error A :=
  exec (fun db => a ← f db; Ok (a, db)).

Definition get_now : stE World error Z := fun w =>
  (Ok (env_now (w_tick w)), mkWorld (w_db w) (S (w_tick w))).
Definition new_id : stE World error string := fun w =>
  (Ok (env_uuid (w_tick w)), mkWorld (w_db w) (S (w_tick w))).

(** [result.RowsAffected()] *)
Definition rows_affected (n : Z) : stE World error Z := query (fun _ => Ok n).

(** [if err != nil { return fmt.Errorf(format, args..., err) }] *)
Definition wrap_err {A} (format : string) (args : list string) (m : stE World error A) :
  stE World error A := fun w =>
  match m w with
  | (Ok a, w') => (Ok a, w')
  | (Err e, w') => (Err (Wrap format args e), w')
  end.

(** How the body of a transaction ends: [return v, nil] before the commit, which
    leaves the deferred rollback to run, or [tx.Commit()] and [return v, nil]. *)
Inductive tx_end (A : Type) : Type :=
| Rolled (a : A)
| Committed (a : A).
Arguments Rolled {A} _.
Arguments Committed {A} _.

(** [BeginTxx] with [defer tx.Rollback()], the body, and the commit. *)
Definition transaction {A} (begin_format commit_format : string)
    (body : stE World error (tx_end A)) : stE World error A := fun w =>
  match query (fun _ => Ok tt) w with
  | (Err e, w1) => (Err (Wrap begin_format [] e), w1)
  | (Ok _, w1) =>
      let rollback w2 := mkWorld (w_db w1) (w_tick w2) in
      match body w1 with
      | (Err e, w2) => (Err e, rollback w2)
      | (Ok (Rolled a), w2) => (Ok a, rollback w2)
      | (Ok (Committed a), w2) =>
          match query (fun _ => Ok tt) w2 with
          | (Err e, w3) => (Err (Wrap commit_format [] e), rollback w3)
          | (Ok _, w3) => (Ok a, w3)
          end
      end
  end.

(** ** Rows *)

(** [UPDATE ... SET ... WHERE id=? AND cond]: the rows changed, at most one. *)
Definition update_row {R} (id : string) (cond : R -> bool) (upd : R -> res R)
    (t : gmap string R) : res (Z * gmap string R) :=
  match t !! id with
  | Some r => if cond r then r' ← upd r; Ok (1%Z, <[id := r']> t) else Ok (0%Z, t)
  | None => Ok (0%Z, t)
  end.

(** [SELECT ... WHERE id=? AND cond] into one value. *)
Definition select_row {R} (id : string) (cond : R -> bool) (t : gmap string R) : res R :=
  match t !! id with
  | Some r => if cond r then Ok r else Err (Foreign NoRows)
  | None => Err (Foreign NoRows)
  end.

(** Some row of the table satisfies the condition. *)
Definition exists_row {K R} `{Countable K} (cond : R -> bool) (t : gmap K R) : bool :=
  existsb (fun kv => cond kv.2) (map_to_list t).

(** A BIGINT column incremented, an INTEGER column set. *)
Definition max_int64 : Z := 9223372036854775807.
Definition bigint_incr (v : Z) : res Z :=
  if (v <? max_int64)%Z then Ok (v + 1)%Z else Err (Foreign (OutOfRange "bigint out of range")).
Definition int4_fits (v : Z) : bool := ((-2147483648 <=? v) && (v <=? 2147483647))%Z.

End world.
Arguments DB Event : clear implicits.
Arguments World Event : clear implicits.
Arguments Rolled {A} _.
Arguments Committed {A} _.

(** [M]: a method of the repository. *)
Abbreviation M Event := (stE (World Event) error).
