(* ===== verification/WorldTheory.v ===== *)
(** * Reasoning about repository methods

    [wp m Q db]: started on the tables [db], at any point of the environment, [m]
    ends with a result and tables that satisfy [Q].  The rules follow the
    combinators of [World]; [wp_step] applies them. *)
From S2P Require Import Prelude GoStd Model World.
From Stdlib Require Import Ascii String.
Local Open Scope string_scope.
Local Open Scope list_scope.

Section wp.
Context {Event : Type} {E : Env}.
Implicit Types db : DB Event.

Definition wp {A} (m : M Event A) (Q : res A -> DB Event -> Prop) db : Prop :=
  forall t, Q (m (mkWorld db t)).1 (w_db (m (mkWorld db t)).2).

Lemma wp_world {A} (m : M Event A) Q w : wp m Q (w_db w) -> Q (m w).1 (w_db (m w).2).
Proof. destruct w as [db t]. intros H. apply H. Qed.

Lemma wp_mono {A} (m : M Event A) (Q Q' : res A -> DB Event -> Prop) db :
  wp m Q db -> (forall r db', Q r db' -> Q' r db') -> wp m Q' db.
Proof. intros Hm HQ t. apply HQ, Hm. Qed.

Lemma wp_ret {A} (a : A) Q db : Q (Ok a) db -> wp (mret a) Q db.
Proof. intros H t. exact H. Qed.

Lemma wp_lift {A} (r : res A) Q db : Q r db -> wp (lift r) Q db.
Proof. intros H t. exact H. Qed.

Lemma wp_bind {A B} (m : M Event A) (k : A -> M Event B) Q db :
  wp m (fun r db' => match r with Ok a => wp (k a) Q db' | Err e => Q (Err e) db' end) db ->
  wp (m ≫= k) Q db.
Proof.
  intros Hm t. specialize (Hm t). unfold mbind, stE_bind.
  destruct (m (mkWorld db t)) as [[a|e] w]; simpl in *; [|done]. by apply wp_world.
Qed.

Lemma wp_exec {A} (f : DB Event -> res (A * DB Event)) (Q : res A -> DB Event -> Prop) db :
  (forall e, fault_error e -> Q (Err e) db) ->
  match f db with Ok (a, db') => Q (Ok a) db' | Err e => Q (Err e) db end ->
  wp (exec f) Q db.
Proof.
  intros Hfault Hf t. unfold exec. simpl. destruct (env_fault t) as [e|] eqn:Ht.
  - by apply Hfault, (env_fault_foreign t).
  - by destruct (f db) as [[a db']|e].
Qed.

Lemma wp_query {A} (f : DB Event -> res A) (Q : res A -> DB Event -> Prop) db :
  (forall e, fault_error e -> Q (Err e) db) -> Q (f db) db -> wp (query f) Q db.
Proof. intros Hfault Hf. apply wp_exec; [done|]. by destruct (f db). Qed.

Lemma wp_now (Q : res Z -> DB Event -> Prop) db : (forall now, Q (Ok now) db) -> wp get_now Q db.
Proof. intros H t. apply H. Qed.

Lemma wp_new_id (Q : res string -> DB Event -> Prop) db : (forall id, Q (Ok id) db) -> wp new_id Q db.
Proof. intros H t. apply H. Qed.

Lemma wp_rows_affected n (Q : res Z -> DB Event -> Prop) db :
  (forall e, fault_error e -> Q (Err e) db) -> Q (Ok n) db -> wp (rows_affected n) Q db.
Proof. intros Hf HQ. by apply wp_query. Qed.

Lemma wp_wrap_err {A} format args (m : M Event A) Q db :
  wp m (fun r db' => match r with Ok a => Q (Ok a) db' | Err e => Q (Err (Wrap format args e)) db' end) db ->
  wp (wrap_err format args m) Q db.
Proof.
  intros Hm t. specialize (Hm t). unfold wrap_err. by destruct (m (mkWorld db t)) as [[a|e] w].
Qed.

Lemma wp_reject_if cond e (Q : res unit -> DB Event -> Prop) db :
  (cond = true -> Q (Err e) db) -> (cond = false -> Q (Ok tt) db) -> wp (reject_if cond e) Q db.
Proof. intros H1 H2 t. unfold reject_if. destruct cond; [by apply H1|by apply H2]. Qed.

Lemma wp_transaction {A} bf cf (body : M Event (tx_end A)) (Q : res A -> DB Event -> Prop) db :
  (forall format e, fault_error e -> Q (Err (Wrap format [] e)) db) ->
  wp body (fun r db' => match r with
                        | Ok (Committed a) => Q (Ok a) db'
                        | Ok (Rolled a) => Q (Ok a) db
                        | Err e => Q (Err e) db
                        end) db ->
  wp (transaction bf cf body) Q db.
Proof.
  intros Hfault Hbody t. unfold transaction, query, exec. simpl.
  destruct (env_fault t) as [e|] eqn:Ht; [by eapply Hfault, env_fault_foreign|]. simpl.
  specialize (Hbody (S t)). destruct (body (mkWorld db (S t))) as [[[a|a]|e] w]; simpl in *; [done| |done].
  destruct (env_fault (w_tick w)) as [e|] eqn:Hw; simpl; [by eapply Hfault, env_fault_foreign|done].
Qed.

Lemma fault_error_wrap format args e : fault_error e -> fault_error (Wrap format args e).
Proof. done. Qed.

(** ** Rows *)

Lemma update_row_one {R} id cond (upd : R -> res R) t t' :
  update_row id cond upd t = Ok (1%Z, t') ->
  exists r r', t !! id = Some r /\ cond r = true /\ upd r = Ok r' /\ t' = <[id := r']> t.
Proof.
  unfold update_row. destruct (t !! id) as [r|] eqn:Hr; [|discriminate].
  destruct (cond r) eqn:Hc; [|discriminate]. destruct (upd r) as [r'|] eqn:Hu; [|discriminate].
  simpl. intros [= <-]. by exists r, r'.
Qed.

Lemma update_row_count {R} id cond (upd : R -> res R) t n t' :
  update_row id cond upd t = Ok (n, t') ->
  (n = 1%Z /\ update_row id cond upd t = Ok (1%Z, t')) \/
  (n = 0%Z /\ t' = t /\ forall r, t !! id = Some r -> cond r = false).
Proof.
  unfold update_row. destruct (t !! id) as [r|] eqn:Hr; [|by intros [= <- <-]; right].
  destruct (cond r) eqn:Hc; [|intros [= <- <-]; right; split_and!; [done..|by intros ? [= <-]]].
  destruct (upd r) as [r'|] eqn:Hu; [|discriminate]. simpl. intros [= <- <-]. by left.
Qed.

Lemma select_row_Ok {R} id cond (t : gmap string R) r :
  select_row id cond t = Ok r <-> t !! id = Some r /\ cond r = true.
Proof.
  unfold select_row. destruct (t !! id) as [r'|]; [|naive_solver].
  destruct (cond r') eqn:Hc; split.
  - by intros [= <-].
  - by intros [[= <-] _].
  - done.
  - intros [[= <-] Hr]. by rewrite Hc in Hr.
Qed.

Lemma select_row_Err {R} id cond (t : gmap string R) e :
  select_row id cond t = Err e ->
  e = Foreign NoRows /\ forall r, t !! id = Some r -> cond r = false.
Proof.
  unfold select_row. destruct (t !! id) as [r'|]; [|by intros [= <-]].
  destruct (cond r') eqn:Hc; [discriminate|]. intros [= <-]. split; [done|]. by intros ? [= <-].
Qed.

Lemma exists_row_false {R} cond (t : gmap string R) :
  exists_row cond t = false <-> forall k r, t !! k = Some r -> cond r = false.
Proof.
  unfold exists_row. split.
  - intros Hf k r Hr. destruct (cond r) eqn:Hc; [|done]. exfalso.
    apply not_true_iff_false in Hf. apply Hf, existsb_exists. exists (k, r).
    split; [|done]. by apply list_elem_of_In, elem_of_map_to_list.
  - intros Hall. apply not_true_iff_false. intros (kv & Hin & Hc)%existsb_exists.
    apply list_elem_of_In in Hin. destruct kv as [k r]. apply elem_of_map_to_list in Hin.
    simpl in Hc. by rewrite (Hall k r Hin) in Hc.
Qed.

Lemma bigint_incr_Ok v v' : bigint_incr v = Ok v' -> v' = (v + 1)%Z /\ (v < max_int64)%Z.
Proof. unfold bigint_incr. destruct (Z.ltb_spec v max_int64); [|discriminate]. by intros [= <-]. Qed.
End wp.
#[export] Hint Resolve fault_error_wrap : wf.
