(* ===== verification/Repository.v ===== *)
(** * The repository (internal/workflow/repository.go)

    Every method of [Repository], statement by statement: the SQL text is read as
    its effect on the tables of [World], with the constraints of the migrations.
    A method's result and the world after it are those of the Go method, for every
    environment. *)
From S2P Require Import Prelude GoStd Json Model GraphCodec Graph World.
From Stdlib Require Import Ascii String.
From stdpp Require Import sorting.
Local Open Scope string_scope.
Local Open Scope list_scope.

(** ** Interfaces *)

(** The methods of [EventFactory], as the events they are asked for. *)
Inductive DomainEvent : Type :=
| DefinitionPublished_ (value : WDefinition)
| InstanceStartRequested (value : WInstance) (definition : WDefinition)
| InstanceCancellationRequested (value : WInstance) (reason : string)
| InstanceStatusChanged (value : WInstance) (previousStatus : string)
| TaskCreated (value : Task)
| TaskCompleted (value : Task).

(** The subject and the aggregate of an event. *)
Definition domain_key (d : DomainEvent) : string * string :=
  match d with
  | DefinitionPublished_ v => ("platform.workflow.definition.published.v1", def_ID v)
  | InstanceStartRequested v _ => ("platform.workflow.instance.start-requested.v1", inst_ID v)
  | InstanceCancellationRequested v _ =>
      ("platform.workflow.instance.cancellation-requested.v1", inst_ID v)
  | InstanceStatusChanged v _ => ("platform.workflow.instance.status-changed.v1", inst_ID v)
  | TaskCreated v => ("platform.workflow.task.created.v1", task_ID v)
  | TaskCompleted v => ("platform.workflow.task.completed.v1", task_ID v)
  end.

(** [EventFactory].  The number is the position in the environment from which the
    factory draws its identifier and its clock reading.  An event keeps its subject
    and aggregate, and a failing factory returns none of the domain's errors. *)
Class EventFactory (Event : Type) := {
  ev_build : Ctx -> nat -> DomainEvent -> res Event;
  ev_key : Event -> string * string;
  ev_build_key : forall ctx n d ev, ev_build ctx n d = Ok ev -> ev_key ev = domain_key d;
  ev_build_error : forall ctx n d e, ev_build ctx n d = Err e -> fault_error e
}.

(** What the list queries leave to PostgreSQL and to the Unicode tables: [LOWER],
    [strings.ToLower], [LIKE] and the collation of text columns. *)
Class SqlText := {
  sql_lower : string -> string;
  go_lower : string -> string;
  sql_like : string -> string -> bool;
  collate_le : string -> string -> bool
}.

(** ** Rows after a statement *)

(** A stored definition has no decoded graph, and an inserted row has version 1. *)
Definition definition_row (v : WDefinition) : WDefinition :=
    mkDefinition (def_ID v) (def_TenantID v) (def_ApplicationID v) (def_Key v) (def_Name v)
      (def_Description v) (def_Status v) (def_PublishedRevision v) (def_NodesJSON v)
      (def_EdgesJSON v) 1 (def_CreatedAt v) (def_UpdatedAt v) (def_CreatedBy v) (def_UpdatedBy v)
      [] [].

Definition row_updated (v : WDefinition) (now : Z) (actor : string) (d : WDefinition) : res WDefinition :=
  version ← bigint_incr (def_Version d);
  Ok (
    mkDefinition (def_ID d) (def_TenantID d) (def_ApplicationID d) (def_Key d) (def_Name v)
      (def_Description v) (def_Status d) (def_PublishedRevision d) (def_NodesJSON v)
      (def_EdgesJSON v) version (def_CreatedAt d) now (def_CreatedBy d) actor (def_Nodes d)
      (def_Edges d)).

Definition row_published (revision now : Z) (actor : string) (d : WDefinition) : res WDefinition :=
  version ← bigint_incr (def_Version d);
  if int4_fits revision then Ok (
    mkDefinition (def_ID d) (def_TenantID d) (def_ApplicationID d) (def_Key d) (def_Name d)
      (def_Description d) DefinitionPublished revision (def_NodesJSON d) (def_EdgesJSON d) version
      (def_CreatedAt d) now (def_CreatedBy d) actor (def_Nodes d) (def_Edges d))
  else Err (Foreign (OutOfRange "integer out of range")).

Definition row_disabled (now : Z) (actor : string) (d : WDefinition) : res WDefinition :=
  version ← bigint_incr (def_Version d);
  Ok (
    mkDefinition (def_ID d) (def_TenantID d) (def_ApplicationID d) (def_Key d) (def_Name d)
      (def_Description d) DefinitionDisabled (def_PublishedRevision d) (def_NodesJSON d)
      (def_EdgesJSON d) version (def_CreatedAt d) now (def_CreatedBy d) actor (def_Nodes d)
      (def_Edges d)).

(** The row of [workflow_definition_revisions] that a publish inserts. *)
Definition revision_row (d : WDefinition) (revision now : Z) (actor : string) : DefinitionRevision :=
  mkDefinitionRevision (
    mkDefinition (def_ID d) (def_TenantID d) (def_ApplicationID d) (def_Key d) (def_Name d)
      (def_Description d) DefinitionPublished revision (def_NodesJSON d) (def_EdgesJSON d) 1 now
      now actor actor [] [])
    revision now.

Definition instance_row (v : WInstance) : WInstance :=
    mkInstance (inst_ID v) (inst_TenantID v) (inst_ApplicationID v) (inst_DefinitionID v)
      (inst_DefinitionRevision v) (inst_BusinessKey v) (inst_IdempotencyKey v) (inst_Title v)
      (inst_StarterID v) (inst_Status v) (inst_CurrentNodeID v) (inst_VariablesJSON v)
      (inst_ResultJSON v) (inst_ErrorCode v) (inst_ErrorMessage v) (inst_TemporalWorkflowID v)
      (inst_TemporalRunID v) (inst_StartedAt v) (inst_FinishedAt v) 1 (inst_CreatedAt v)
      (inst_UpdatedAt v) (inst_CreatedBy v) (inst_UpdatedBy v).

Definition row_cancelled (reason : string) (now : Z) (actor : string) (i : WInstance) : res WInstance :=
  version ← bigint_incr (inst_Version i);
  Ok (
    mkInstance (inst_ID i) (inst_TenantID i) (inst_ApplicationID i) (inst_DefinitionID i)
      (inst_DefinitionRevision i) (inst_BusinessKey i) (inst_IdempotencyKey i) (inst_Title i)
      (inst_StarterID i) InstanceCancelled (inst_CurrentNodeID i) (inst_VariablesJSON i)
      (inst_ResultJSON i) (inst_ErrorCode i) reason (inst_TemporalWorkflowID i)
      (inst_TemporalRunID i) (inst_StartedAt i) (Some now) version (inst_CreatedAt i) now
      (inst_CreatedBy i) actor).

Definition row_advanced (nodeID : string) (now : Z) (actor : string) (i : WInstance) : res WInstance :=
  version ← bigint_incr (inst_Version i);
  Ok (
    mkInstance (inst_ID i) (inst_TenantID i) (inst_ApplicationID i) (inst_DefinitionID i)
      (inst_DefinitionRevision i) (inst_BusinessKey i) (inst_IdempotencyKey i) (inst_Title i)
      (inst_StarterID i) (inst_Status i) nodeID (inst_VariablesJSON i) (inst_ResultJSON i)
      (inst_ErrorCode i) (inst_ErrorMessage i) (inst_TemporalWorkflowID i) (inst_TemporalRunID i)
      (inst_StartedAt i) (inst_FinishedAt i) version (inst_CreatedAt i) now (inst_CreatedBy i)
      actor).

Definition instance_statuses : list string :=
  [InstanceRunning; InstanceCompleted; InstanceRejected; InstanceCancelled; InstanceFailed].

Definition row_finished (status resultJSON errorMessage : string) (now : Z) (actor : string)
    (i : WInstance) : res WInstance :=
  version ← bigint_incr (inst_Version i);
  if negb (oneOf status instance_statuses) then Err (Foreign (CheckViolation "workflow_instances.status"))
  else Ok (
    mkInstance (inst_ID i) (inst_TenantID i) (inst_ApplicationID i) (inst_DefinitionID i)
      (inst_DefinitionRevision i) (inst_BusinessKey i) (inst_IdempotencyKey i) (inst_Title i)
      (inst_StarterID i) status (inst_CurrentNodeID i) (inst_VariablesJSON i) resultJSON
      (inst_ErrorCode i) errorMessage (inst_TemporalWorkflowID i) (inst_TemporalRunID i)
      (inst_StartedAt i) (Some now) version (inst_CreatedAt i) now (inst_CreatedBy i) actor).

Definition task_row (v : Task) : Task :=
    mkTask (task_ID v) (task_TenantID v) (task_ApplicationID v) (task_InstanceID v)
      (task_NodeID v) (task_Name v) (task_AssigneeType v) (task_Assignee v) (task_ClaimedBy v)
      (task_Status v) (task_Decision v) (task_Comment v) (task_InputJSON v) (task_OutputJSON v)
      (task_DueAt v) (task_CompletedAt v) 1 (task_CreatedAt v) (task_UpdatedAt v)
      (task_CreatedBy v) (task_UpdatedBy v).

Definition row_claimed (now : Z) (actor : string) (t : Task) : res Task :=
  version ← bigint_incr (task_Version t);
  Ok (
    mkTask (task_ID t) (task_TenantID t) (task_ApplicationID t) (task_InstanceID t)
      (task_NodeID t) (task_Name t) (task_AssigneeType t) (task_Assignee t) actor TaskClaimed
      (task_Decision t) (task_Comment t) (task_InputJSON t) (task_OutputJSON t) (task_DueAt t)
      (task_CompletedAt t) version (task_CreatedAt t) now (task_CreatedBy t) actor).

Definition row_completed (status decision comment outputJSON : string) (now : Z) (actor : string)
    (t : Task) : res Task :=
  version ← bigint_incr (task_Version t);
  Ok (
    mkTask (task_ID t) (task_TenantID t) (task_ApplicationID t) (task_InstanceID t)
      (task_NodeID t) (task_Name t) (task_AssigneeType t) (task_Assignee t) (task_ClaimedBy t)
      status decision comment (task_InputJSON t) outputJSON (task_DueAt t) (Some now) version
      (task_CreatedAt t) now (task_CreatedBy t) actor).

Definition row_delegated (delegateTo : string) (now : Z) (actor : string) (t : Task) : res Task :=
  version ← bigint_incr (task_Version t);
  Ok (
    mkTask (task_ID t) (task_TenantID t) (task_ApplicationID t) (task_InstanceID t)
      (task_NodeID t) (task_Name t) AssigneeUser delegateTo "" TaskPending (task_Decision t)
      (task_Comment t) (task_InputJSON t) (task_OutputJSON t) (task_DueAt t) (task_CompletedAt t)
      version (task_CreatedAt t) now (task_CreatedBy t) actor).

(** ** Statements *)

Section statements.
Context {Event : Type}.
Implicit Types db : DB Event.

Definition def_in (tenantID applicationID : string) (d : WDefinition) : bool :=
  String.eqb (def_TenantID d) tenantID && String.eqb (def_ApplicationID d) applicationID.
Definition inst_in (tenantID applicationID : string) (i : WInstance) : bool :=
  String.eqb (inst_TenantID i) tenantID && String.eqb (inst_ApplicationID i) applicationID.
Definition task_in (tenantID applicationID : string) (t : Task) : bool :=
  String.eqb (task_TenantID t) tenantID && String.eqb (task_ApplicationID t) applicationID.

(** [UNIQUE (tenant_id,application_id,definition_key)] *)
Definition same_key (v d : WDefinition) : bool :=
  def_in (def_TenantID v) (def_ApplicationID v) d && String.eqb (def_Key d) (def_Key v).

Definition definition_statuses : list string :=
  [DefinitionDraft; DefinitionPublished; DefinitionDisabled].

Definition insert_definition (v : WDefinition) db : res (Z * DB Event) :=
  if negb (int4_fits (def_PublishedRevision v)) then
    Err (Foreign (OutOfRange "integer out of range"))
  else if negb (oneOf (def_Status v) definition_statuses) then
    Err (Foreign (CheckViolation "workflow_definitions.status"))
  else if bool_decide (is_Some (db_definitions db !! def_ID v)) then
    Err (Foreign (UniqueViolation "workflow_definitions_pkey"))
  else if exists_row (same_key v) (db_definitions db) then
    Err (Foreign (UniqueViolation "uq_workflow_definition_application_key"))
  else Ok (1%Z, set_definitions (<[def_ID v := definition_row v]> (db_definitions db)) db).

Definition update_definition (tenantID applicationID id : string) (cond : WDefinition -> bool)
    (upd : WDefinition -> res WDefinition) db : res (Z * DB Event) :=
  '(n, t) ← update_row id (fun d => def_in tenantID applicationID d && cond d) upd (db_definitions db);
  Ok (n, set_definitions t db).

Definition insert_revision (d : WDefinition) (revision now : Z) (actor : string) db : res (Z * DB Event) :=
  if negb (int4_fits revision) then Err (Foreign (OutOfRange "integer out of range"))
  else if bool_decide (is_Some (db_revisions db !! (def_ID d, revision))) then
    Err (Foreign (UniqueViolation "workflow_definition_revisions_pkey"))
  else if negb (bool_decide (is_Some (db_definitions db !! def_ID d))) then
    Err (Foreign (ForeignKeyViolation "workflow_definition_revisions.definition_id"))
  else Ok (1%Z, set_revisions (<[(def_ID d, revision) := revision_row d revision now actor]>
                                (db_revisions db)) db).

(** The two unique constraints of [workflow_instances]. *)
Definition same_idempotency (v i : WInstance) : bool :=
  inst_in (inst_TenantID v) (inst_ApplicationID v) i
  && String.eqb (inst_IdempotencyKey i) (inst_IdempotencyKey v).
Definition same_business (v i : WInstance) : bool :=
  String.eqb (inst_TenantID i) (inst_TenantID v)
  && String.eqb (inst_DefinitionID i) (inst_DefinitionID v)
  && String.eqb (inst_BusinessKey i) (inst_BusinessKey v).

Definition insert_instance (v : WInstance) db : res (Z * DB Event) :=
  if negb (int4_fits (inst_DefinitionRevision v)) then
    Err (Foreign (OutOfRange "integer out of range"))
  else if negb (oneOf (inst_Status v) instance_statuses) then
    Err (Foreign (CheckViolation "workflow_instances.status"))
  else if bool_decide (is_Some (db_instances db !! inst_ID v)) then
    Err (Foreign (UniqueViolation "workflow_instances_pkey"))
  else if exists_row (same_idempotency v) (db_instances db) then
    Err (Foreign (UniqueViolation "uq_workflow_instance_application_idempotency"))
  else if exists_row (same_business v) (db_instances db) then
    Err (Foreign (UniqueViolation "workflow_instances_tenant_id_definition_id_business_key_key"))
  else if negb (bool_decide (is_Some (db_definitions db !! inst_DefinitionID v))) then
    Err (Foreign (ForeignKeyViolation "workflow_instances.definition_id"))
  else Ok (1%Z, set_instances (<[inst_ID v := instance_row v]> (db_instances db)) db).

Definition update_instance (tenantID applicationID id : string) (cond : WInstance -> bool)
    (upd : WInstance -> res WInstance) db : res (Z * DB Event) :=
  '(n, t) ← update_row id (fun i => inst_in tenantID applicationID i && cond i) upd (db_instances db);
  Ok (n, set_instances t db).

(** [UNIQUE(instance_id,node_id)] *)
Definition same_node (v t : Task) : bool :=
  String.eqb (task_InstanceID t) (task_InstanceID v) && String.eqb (task_NodeID t) (task_NodeID v).

Definition task_statuses : list string :=
  [TaskPending; TaskClaimed; TaskApproved; TaskRejected; TaskCancelled; TaskExpired].
Definition assignee_types : list string :=
  [AssigneeUser; AssigneeRole; AssigneeStarter; AssigneeExpression].

Definition insert_task (v : Task) db : res (Z * DB Event) :=
  if negb (oneOf (task_AssigneeType v) assignee_types) then
    Err (Foreign (CheckViolation "workflow_tasks.assignee_type"))
  else if negb (oneOf (task_Status v) task_statuses) then
    Err (Foreign (CheckViolation "workflow_tasks.status"))
  else if bool_decide (is_Some (db_tasks db !! task_ID v)) then
    Err (Foreign (UniqueViolation "workflow_tasks_pkey"))
  else if exists_row (same_node v) (db_tasks db) then
    Err (Foreign (UniqueViolation "workflow_tasks_instance_id_node_id_key"))
  else if negb (bool_decide (is_Some (db_instances db !! task_InstanceID v))) then
    Err (Foreign (ForeignKeyViolation "workflow_tasks.instance_id"))
  else Ok (1%Z, set_tasks (<[task_ID v := task_row v]> (db_tasks db)) db).

(** The condition on the application is part of [cond] where the SQL has it. *)
Definition update_task (tenantID id : string) (cond : Task -> bool) (upd : Task -> res Task) db :
  res (Z * DB Event) :=
  '(n, t) ← update_row id (fun t => String.eqb (task_TenantID t) tenantID && cond t) upd (db_tasks db);
  Ok (n, set_tasks t db).

Definition insert_history (h : TaskHistory) db : res (Z * DB Event) :=
  if bool_decide (is_Some (db_history db !! hist_ID h)) then
    Err (Foreign (UniqueViolation "workflow_task_history_pkey"))
  else if negb (bool_decide (is_Some (db_tasks db !! hist_TaskID h))) then
    Err (Foreign (ForeignKeyViolation "workflow_task_history.task_id"))
  else Ok (1%Z, set_history (<[hist_ID h := h]> (db_history db)) db).

(** [AddTx]: one row of the outbox, in the caller's transaction. *)
Definition insert_outbox (event : Event) (actor : string) db : res (unit * DB Event) :=
  Ok (tt, set_outbox (db_outbox db ++ [(event, actor)]) db).

(** A row found by other columns than its key. *)
Definition find_row {R} (cond : R -> bool) (t : gmap string R) : res R :=
  match List.find (fun kv => cond kv.2) (map_to_list t) with
  | Some kv => Ok kv.2
  | None => Err (Foreign NoRows)
  end.
End statements.

(** ** Methods *)

Section methods.
Context {Event : Type} {EF : EventFactory Event} {E : Env}.

Definition mapNotFound (err : error) (operation : string) : error :=
  if errors_Is_foreign err NoRows then Sentinel ErrNotFound
  else Wrap "%s: %w" [operation] err.

(** [if err := ...; err != nil { return mapNotFound(err, operation) }] *)
Definition or_not_found {A} (operation : string) (m : M Event A) : M Event A := fun w =>
  match m w with
  | (Ok a, w') => (Ok a, w')
  | (Err e, w') => (Err (mapNotFound e operation), w')
  end.

(** [if err := m; err == nil { return found } else if !errors.Is(err, sql.ErrNoRows)
    { return fmt.Errorf(format, err) }; missing] *)
Definition found_or {A B} (m : M Event A) (found : A -> M Event B) (format : string)
    (missing : M Event B) : M Event B := fun w =>
  match m w with
  | (Ok a, w') => found a w'
  | (Err e, w') => if errors_Is_foreign e NoRows then missing w' else (Err (Wrap format [] e), w')
  end.

(** [result, err := ...; affectedOne(result, err, operation)] *)
Definition affectedOne (m : M Event Z) (operation : string) : M Event unit :=
  result ← wrap_err "%s: %w" [operation] m;
  count ← wrap_err "count %s: %w" [operation] (rows_affected result);
  reject_if (negb (count =? 1)%Z) (Sentinel ErrVersionConflict).

(** A call of the event factory, with the text that wraps its error. *)
Definition build_event (format : string) (ctx : Ctx) (d : DomainEvent) : M Event Event :=
  wrap_err format [] (fun w => (ev_build ctx (w_tick w) d, mkWorld (w_db w) (S (w_tick w)))).

(** [r.outbox.AddTx(ctx, tx, event, actor)] *)
Definition AddTx (format : string) (event : Event) (actor : string) : M Event unit :=
  wrap_err format [] (exec (insert_outbox event actor)).

Definition newRepositoryID : M Event string := new_id.

(** *** Definitions *)

Definition revision_definition (r : DefinitionRevision) : WDefinition := rev_Definition r.

Definition GetDefinition (tenantID applicationID id : string) (revision : Z) : M Event WDefinition :=
  value ←
    (if (revision =? 0)%Z then
       or_not_found "select workflow definition"
         (query (fun db => select_row id (def_in tenantID applicationID) (db_definitions db)))
     else
       or_not_found "select workflow definition revision"
         (query (fun db =>
            match db_revisions db !! (id, revision) with
            | Some r =>
                if def_in tenantID applicationID (revision_definition r)
                then Ok (revision_definition r) else Err (Foreign NoRows)
            | None => Err (Foreign NoRows)
            end)));
  lift (hydrateDefinition value).

Definition CreateDefinition (value : WDefinition) : M Event WDefinition :=
  _ ← wrap_err "insert workflow definition: %w" [] (exec (insert_definition value));
  GetDefinition (def_TenantID value) (def_ApplicationID value) (def_ID value) 0.

Definition draft_at (expectedVersion : Z) (d : WDefinition) : bool :=
  (def_Version d =? expectedVersion)%Z && String.eqb (def_Status d) DefinitionDraft.

Definition UpdateDefinition (value : WDefinition) (expectedVersion : Z) (actor : string) :
  M Event WDefinition :=
  now ← get_now;
  _ ← affectedOne
        (exec (update_definition (def_TenantID value) (def_ApplicationID value) (def_ID value)
                 (draft_at expectedVersion) (row_updated value now actor)))
        "update workflow definition";
  GetDefinition (def_TenantID value) (def_ApplicationID value) (def_ID value) 0.

(** [current.Status = ...; current.PublishedRevision = revision; ...] *)
Definition publish_current (current : WDefinition) (revision now : Z) (actor : string) : WDefinition :=
  mkDefinition (def_ID current) (def_TenantID current) (def_ApplicationID current) (def_Key current)
    (def_Name current) (def_Description current) DefinitionPublished revision
    (def_NodesJSON current) (def_EdgesJSON current) (def_Version current + 1)
    (def_CreatedAt current) now (def_CreatedBy current) actor (def_Nodes current) (def_Edges current).

(** [uint32] addition. *)
Definition uint32_incr (n : Z) : Z := ((n + 1) mod 4294967296)%Z.

Definition PublishDefinition (ctx : Ctx) (tenantID applicationID id : string) (expectedVersion : Z)
    (actor : string) : M Event WDefinition :=
  transaction "begin workflow definition publish: %w" "commit workflow definition publish: %w" (
    current ← or_not_found "select workflow definition for publish"
      (query (fun db => select_row id (def_in tenantID applicationID) (db_definitions db)));
    _ ← reject_if (negb (def_Version current =? expectedVersion)%Z
                   || negb (String.eqb (def_Status current) DefinitionDraft))
          (Sentinel ErrVersionConflict);
    now ← get_now;
    let revision := uint32_incr (def_PublishedRevision current) in
    _ ← wrap_err "insert workflow definition revision: %w" []
          (exec (insert_revision current revision now actor));
    _ ← affectedOne
          (exec (update_definition tenantID applicationID id (draft_at expectedVersion)
                   (row_published revision now actor)))
          "publish workflow definition";
    current ← lift (hydrateDefinition (publish_current current revision now actor));
    event ← build_event "build workflow definition published event: %w"
              ctx (DefinitionPublished_ current);
    _ ← AddTx "enqueue workflow definition published event: %w" event actor;
    mret (Committed current)).

Definition published_at (expectedVersion : Z) (d : WDefinition) : bool :=
  (def_Version d =? expectedVersion)%Z && String.eqb (def_Status d) DefinitionPublished.

Definition DisableDefinition (tenantID applicationID id : string) (expectedVersion : Z)
    (actor : string) : M Event WDefinition :=
  now ← get_now;
  _ ← affectedOne
        (exec (update_definition tenantID applicationID id (published_at expectedVersion)
                 (row_disabled now actor)))
        "disable workflow definition";
  GetDefinition tenantID applicationID id 0.

Definition GetPublishedDefinitionByKey (tenantID applicationID key : string) : M Event WDefinition :=
  current ← or_not_found "select published workflow definition"
    (query (fun db => find_row (fun d => def_in tenantID applicationID d
                                         && String.eqb (def_Key d) key
                                         && String.eqb (def_Status d) DefinitionPublished)
                               (db_definitions db)));
  GetDefinition tenantID applicationID (def_ID current) (def_PublishedRevision current).

(** *** Instances *)

Definition CreateInstance (ctx : Ctx) (value : WInstance) (definition : WDefinition) :
  M Event WInstance :=
  transaction "begin workflow instance creation: %w" "commit workflow instance creation: %w" (
    _ ← wrap_err "insert workflow instance: %w" [] (exec (insert_instance value));
    event ← build_event "build workflow instance start event: %w"
              ctx (InstanceStartRequested value definition);
    _ ← AddTx "enqueue workflow instance start event: %w" event (inst_CreatedBy value);
    mret (Committed value)).

Definition select_instance (tenantID applicationID id : string) (db : DB Event) : res WInstance :=
  select_row id (inst_in tenantID applicationID) (db_instances db).
Definition select_task (tenantID applicationID id : string) (db : DB Event) : res Task :=
  select_row id (task_in tenantID applicationID) (db_tasks db).

Definition getInstanceTx (tenantID applicationID id : string) : M Event WInstance :=
  or_not_found "select workflow instance in transaction"
    (query (select_instance tenantID applicationID id)).
Definition getTaskTx (tenantID applicationID id : string) : M Event Task :=
  or_not_found "select workflow task in transaction" (query (select_task tenantID applicationID id)).

Definition GetInstance (tenantID applicationID id : string) : M Event WInstance :=
  or_not_found "select workflow instance" (query (select_instance tenantID applicationID id)).

Definition running_at (expectedVersion : Z) (i : WInstance) : bool :=
  (inst_Version i =? expectedVersion)%Z && String.eqb (inst_Status i) InstanceRunning.

Definition CancelInstance (ctx : Ctx) (tenantID applicationID id : string) (expectedVersion : Z)
    (reason actor : string) : M Event WInstance :=
  transaction "begin workflow instance cancellation: %w" "commit workflow instance cancellation: %w" (
    now ← get_now;
    _ ← affectedOne
          (exec (update_instance tenantID applicationID id (running_at expectedVersion)
                   (row_cancelled reason now actor)))
          "cancel workflow instance";
    instance ← getInstanceTx tenantID applicationID id;
    event ← build_event "build workflow instance cancellation event: %w"
              ctx (InstanceCancellationRequested instance reason);
    _ ← AddTx "enqueue workflow instance cancellation event: %w" event actor;
    mret (Committed instance)).

(** [status='running' AND current_node_id<>?] *)
Definition running_elsewhere (nodeID : string) (i : WInstance) : bool :=
  String.eqb (inst_Status i) InstanceRunning && negb (String.eqb (inst_CurrentNodeID i) nodeID).
Definition running_here (nodeID : string) (i : WInstance) : bool :=
  String.eqb (inst_Status i) InstanceRunning && String.eqb (inst_CurrentNodeID i) nodeID.

Definition UpdateInstanceNode (tenantID applicationID id nodeID actor : string) : M Event unit :=
  now ← get_now;
  result ← wrap_err "advance workflow instance node: %w" []
             (exec (update_instance tenantID applicationID id (running_elsewhere nodeID)
                      (row_advanced nodeID now actor)));
  count ← wrap_err "count advance workflow instance node: %w" [] (rows_affected result);
  if (count =? 1)%Z then mret tt
  else
    current ← GetInstance tenantID applicationID id;
    reject_if (negb (running_here nodeID current)) (Sentinel ErrConflict).

Definition is_running (i : WInstance) : bool := String.eqb (inst_Status i) InstanceRunning.

Definition FinishInstance (ctx : Ctx) (tenantID applicationID id status resultJSON errorMessage actor : string) :
  M Event WInstance :=
  transaction "begin workflow instance finish: %w" "commit workflow instance finish: %w" (
    previous ← or_not_found "select workflow instance status"
      (query (fun db => i ← select_instance tenantID applicationID id db; Ok (inst_Status i)));
    if String.eqb previous status then
      instance ← getInstanceTx tenantID applicationID id;
      mret (Rolled instance)
    else
      _ ← reject_if (negb (String.eqb previous InstanceRunning)) (Sentinel ErrConflict);
      now ← get_now;
      _ ← affectedOne
            (exec (update_instance tenantID applicationID id is_running
                     (row_finished status resultJSON errorMessage now actor)))
            "finish workflow instance";
      instance ← getInstanceTx tenantID applicationID id;
      event ← build_event "build workflow instance status event: %w"
                ctx (InstanceStatusChanged instance previous);
      _ ← AddTx "enqueue workflow instance status event: %w" event actor;
      mret (Committed instance)).

(** *** Tasks *)

Definition GetTask (tenantID applicationID id : string) : M Event Task :=
  or_not_found "select workflow task" (query (select_task tenantID applicationID id)).

(** The part of [CreateTask] after the lookup of an existing task. *)
Definition create_task_row (ctx : Ctx) (value : Task) : M Event (tx_end Task) :=
  now ← get_now;
  result ← wrap_err "advance workflow instance for task: %w" []
             (exec (update_instance (task_TenantID value) (task_ApplicationID value)
                      (task_InstanceID value) (running_elsewhere (task_NodeID value))
                      (row_advanced (task_NodeID value) now (task_CreatedBy value))));
  count ← wrap_err "count workflow instance task advance: %w" [] (rows_affected result);
  _ ← (if (count =? 0)%Z then
         state ← or_not_found "select workflow instance for task"
           (query (select_instance (task_TenantID value) (task_ApplicationID value)
                     (task_InstanceID value)));
         reject_if (negb (running_here (task_NodeID value) state)) (Sentinel ErrConflict)
       else mret tt);
  _ ← wrap_err "insert workflow task: %w" [] (exec (insert_task value));
  event ← build_event "build workflow task created event: %w"
            ctx (TaskCreated value);
  _ ← AddTx "enqueue workflow task created event: %w" event (task_CreatedBy value);
  mret (Committed value).

Definition CreateTask (ctx : Ctx) (value : Task) : M Event Task :=
  transaction "begin workflow task creation: %w" "commit workflow task creation: %w" (
    found_or
      (query (fun db => find_row (fun t => task_in (task_TenantID value) (task_ApplicationID value) t
                                           && same_node value t) (db_tasks db)))
      (fun existing => mret (Rolled existing))
      "select existing workflow task: %w"
      (create_task_row ctx value)).

Definition pending_at (applicationID : string) (expectedVersion : Z) (t : Task) : bool :=
  String.eqb (task_ApplicationID t) applicationID && (task_Version t =? expectedVersion)%Z
  && String.eqb (task_Status t) TaskPending.

Definition ClaimTask (tenantID applicationID id : string) (expectedVersion : Z) (actor : string) :
  M Event Task :=
  transaction "begin workflow task claim: %w" "commit workflow task claim: %w" (
    now ← get_now;
    _ ← affectedOne
          (exec (update_task tenantID id (pending_at applicationID expectedVersion)
                   (row_claimed now actor)))
          "claim workflow task";
    claimed ← getTaskTx tenantID applicationID id;
    history ← newRepositoryID;
    _ ← wrap_err "insert workflow task claim history: %w" []
          (exec (insert_history
             (mkTaskHistory history tenantID applicationID id (task_InstanceID claimed) "claim" actor
                TaskPending TaskClaimed "{}" 1 now now actor actor)));
    mret (Committed claimed)).

(** [version=? AND status IN ('pending','claimed') AND (claimed_by='' OR claimed_by=?)] *)
Definition open_for (expectedVersion : Z) (actor : string) (t : Task) : bool :=
  (task_Version t =? expectedVersion)%Z && oneOf (task_Status t) [TaskPending; TaskClaimed]
  && (str_empty (task_ClaimedBy t) || String.eqb (task_ClaimedBy t) actor).

(** [json.Marshal] of a [map[string]string]: the keys are sorted. *)
Definition detail_json (entries : list (string * string)) : string :=
  print (JObj (map (fun kv => (kv.1, JStr kv.2)) entries)).

Definition task_history (history : string) (current : Task) (action toStatus detail : string)
    (now : Z) (actor : string) : TaskHistory :=
  mkTaskHistory history (task_TenantID current) (task_ApplicationID current) (task_ID current)
    (task_InstanceID current) action actor (task_Status current) toStatus detail 1 now now actor actor.

Definition CompleteTask (ctx : Ctx) (current : Task) (decision comment outputJSON actor : string) :
  M Event Task :=
  transaction "begin workflow task completion: %w" "commit workflow task completion: %w" (
    now ← get_now;
    let status := if String.eqb decision DecisionReject then TaskRejected else TaskApproved in
    _ ← affectedOne
          (exec (update_task (task_TenantID current) (task_ID current)
                   (open_for (task_Version current) actor)
                   (row_completed status decision comment outputJSON now actor)))
          "complete workflow task";
    let detail := detail_json [("comment", comment); ("decision", decision)] in
    history ← newRepositoryID;
    _ ← wrap_err "insert workflow task history: %w" []
          (exec (insert_history (task_history history current "complete" status detail now actor)));
    completed ← getTaskTx (task_TenantID current) (task_ApplicationID current) (task_ID current);
    event ← build_event "build workflow task completed event: %w"
              ctx (TaskCompleted completed);
    _ ← AddTx "enqueue workflow task completed event: %w" event actor;
    mret (Committed completed)).

Definition DelegateTask (current : Task) (delegateTo reason actor : string) : M Event Task :=
  _ ← transaction "begin workflow task delegation: %w" "commit workflow task delegation: %w" (
    now ← get_now;
    _ ← affectedOne
          (exec (update_task (task_TenantID current) (task_ID current)
                   (open_for (task_Version current) actor)
                   (row_delegated delegateTo now actor)))
          "delegate workflow task";
    let detail := detail_json [("delegate_to", delegateTo); ("reason", reason)] in
    history ← newRepositoryID;
    _ ← wrap_err "insert workflow task delegation history: %w" []
          (exec (insert_history (task_history history current "delegate" TaskPending detail now actor)));
    mret (Committed tt));
  GetTask (task_TenantID current) (task_ApplicationID current) (task_ID current).
End methods.
