(* ===== verification/Queries.v ===== *)
(** * The repository's list queries and retention
    (internal/workflow/repository.go, the List methods and DeleteTaskHistoryBefore)

    A WHERE clause is a boolean test of a row, ORDER BY a sort of the rows that
    pass, LIMIT and OFFSET a slice. *)
From S2P Require Import Prelude GoStd Json Model GraphCodec Graph World WorldTheory Repository.
From Stdlib Require Import Ascii String.
From stdpp Require Import sorting.
Local Open Scope string_scope.
Local Open Scope list_scope.

(** ** Slices *)

(** Go's [int] is 64 bits wide and wraps around. *)
Definition wrap64 (z : Z) : Z := ((z + 9223372036854775808) mod 18446744073709551616 - 9223372036854775808)%Z.

(** [(filter.Page-1)*filter.PageSize] *)
Definition page_offset (page pageSize : Z) : Z := wrap64 (wrap64 (page - 1) * pageSize).

(** [LIMIT ? OFFSET ?]: PostgreSQL rejects negative values. *)
Definition limit_offset {R} (limit offset : Z) (rows : list R) : res (list R) :=
  if (limit <? 0)%Z then Err (Foreign (OutOfRange "LIMIT must not be negative"))
  else if (offset <? 0)%Z then Err (Foreign (OutOfRange "OFFSET must not be negative"))
  else
    let clip z := Z.to_nat (Z.min z (Z.of_nat (List.length rows))) in
    Ok (take (clip limit) (drop (clip offset) rows)).

Definition holds {R} (le : R -> R -> bool) (a b : R) : Prop := le a b = true.
#[global] Instance holds_dec {R} (le : R -> R -> bool) : RelDecision (holds le).
Proof. intros a b. unfold holds. apply _. Defined.

Definition order_by {R} (le : R -> R -> bool) (rows : list R) : list R := merge_sort (holds le) rows.

Definition table_rows {R} (t : gmap string R) : list R := (map_to_list t).*2.

Section queries.
Context {Event : Type} {SQL : SqlText} {E : Env}.
Implicit Types db : DB Event.

(** [ORDER BY a DESC,id] and its variants. *)
Definition time_desc (a b : Z) (otherwise : bool) : bool := (b <? a)%Z || ((a =? b)%Z && otherwise).
Definition text_asc (a b : string) (otherwise : bool) : bool :=
  if String.eqb a b then otherwise else collate_le a b.

(** [LOWER(column) LIKE '%' || lower(search) || '%'] for one of the columns. *)
Definition search_matches (search : string) (columns : list string) : bool :=
  str_empty search
  || existsb (fun c => sql_like (sql_lower c) ("%" +:+ go_lower search +:+ "%")) columns.

(** [column=?] for a filter that is set. *)
Definition equals_if_set (value column : string) : bool := str_empty value || String.eqb column value.

(** Rows that pass, counted and then sliced: two queries. *)
Definition list_page {R} (count_format list_format : string) (rows : DB Event -> list R)
    (le : R -> R -> bool) (page pageSize : Z) : M Event (Page R) :=
  total ← wrap_err count_format [] (query (fun db => Ok (Z.of_nat (List.length (rows db)))));
  items ← wrap_err list_format []
    (query (fun db => limit_offset pageSize (page_offset page pageSize) (order_by le (rows db))));
  mret (mkPage items total page pageSize).

(** ** Definitions *)

Definition definitionWhere (filter : DefinitionFilter) (d : WDefinition) : bool :=
  def_in (df_TenantID filter) (df_ApplicationID filter) d
  && equals_if_set (df_Status filter) (def_Status d)
  && search_matches (df_Search filter) [def_Name d; def_Key d].

Definition definition_order (a b : WDefinition) : bool :=
  time_desc (def_UpdatedAt a) (def_UpdatedAt b) (collate_le (def_ID a) (def_ID b)).

(** [for index := range items { value, err := hydrateDefinition(items[index]) ... }] *)
Fixpoint hydrate_all (items : list WDefinition) : res (list WDefinition) :=
  match items with
  | [] => Ok []
  | d :: items' => value ← hydrateDefinition d; rest ← hydrate_all items'; Ok (value :: rest)
  end.

Definition ListDefinitions (filter : DefinitionFilter) : M Event (Page WDefinition) :=
  page ← list_page "count workflow definitions: %w" "list workflow definitions: %w"
           (fun db => List.filter (definitionWhere filter) (table_rows (db_definitions db)))
           definition_order (df_Page filter) (df_PageSize filter);
  items ← lift (hydrate_all (page_Items page));
  mret (mkPage items (page_Total page) (df_Page filter) (df_PageSize filter)).

Definition candidate (d : WDefinition) : DefinitionCandidate :=
  mkDefinitionCandidate (def_ID d) (def_Key d) (def_Name d) (def_Status d) (def_PublishedRevision d).

Definition candidate_order (a b : DefinitionCandidate) : bool :=
  text_asc (dc_Name a) (dc_Name b) (collate_le (dc_ID a) (dc_ID b)).

Definition listDefinitionCandidates (cond : DB Event -> WDefinition -> bool) (filter : DefinitionFilter) :
  M Event (Page DefinitionCandidate) :=
  list_page "count workflow definition candidates: %w" "list workflow definition candidates: %w"
    (fun db => candidate <$> List.filter (cond db) (table_rows (db_definitions db)))
    candidate_order (df_Page filter) (df_PageSize filter).

Definition ListStartDefinitionCandidates (filter : DefinitionFilter) : M Event (Page DefinitionCandidate) :=
  listDefinitionCandidates (fun _ d =>
    def_in (df_TenantID filter) (df_ApplicationID filter) d
    && String.eqb (def_Status d) DefinitionPublished
    && search_matches (df_Search filter) [def_Name d; def_Key d]) filter.

(** The join keeps one row per definition (DISTINCT) that has an instance. *)
Definition ListInstanceDefinitionCandidates (filter : DefinitionFilter) : M Event (Page DefinitionCandidate) :=
  listDefinitionCandidates (fun db d =>
    def_in (df_TenantID filter) (df_ApplicationID filter) d
    && search_matches (df_Search filter) [def_Name d; def_Key d]
    && exists_row (fun i => String.eqb (inst_DefinitionID i) (def_ID d)
                            && inst_in (def_TenantID d) (def_ApplicationID d) i) (db_instances db)) filter.

(** ** Instances *)

Definition after_if_set (from : option Z) (t : Z) : bool :=
  match from with Some f => (f <=? t)%Z | None => true end.
Definition before_if_set (until : option Z) (t : Z) : bool :=
  match until with Some u => (t <? u)%Z | None => true end.

Definition instanceWhere (filter : InstanceFilter) (i : WInstance) : bool :=
  inst_in (if_TenantID filter) (if_ApplicationID filter) i
  && equals_if_set (if_DefinitionID filter) (inst_DefinitionID i)
  && equals_if_set (if_Status filter) (inst_Status i)
  && equals_if_set (if_StarterID filter) (inst_StarterID i)
  && search_matches (if_Search filter) [inst_Title i; inst_BusinessKey i]
  && after_if_set (if_StartedFrom filter) (inst_StartedAt i)
  && before_if_set (if_StartedUntil filter) (inst_StartedAt i).

Definition ListInstances (filter : InstanceFilter) : M Event (Page WInstance) :=
  list_page "count workflow instances: %w" "list workflow instances: %w"
    (fun db => List.filter (instanceWhere filter) (table_rows (db_instances db)))
    (fun a b => time_desc (inst_StartedAt a) (inst_StartedAt b) (collate_le (inst_ID a) (inst_ID b)))
    (if_Page filter) (if_PageSize filter).

(** ** Tasks *)

(** The assignment clause: none without a user. *)
Definition assigned_to (user : string) (roles : list string) (includeUnclaimed : bool) (t : Task) : bool :=
  str_empty user
  || (oneOf (task_AssigneeType t) [AssigneeUser; AssigneeStarter] && String.eqb (task_Assignee t) user)
  || (String.eqb (task_AssigneeType t) AssigneeRole && oneOf (task_Assignee t) roles)
  || (includeUnclaimed && String.eqb (task_ClaimedBy t) user).

Definition taskWhere (filter : TaskFilter) (t : Task) : bool :=
  task_in (tf_TenantID filter) (tf_ApplicationID filter) t
  && equals_if_set (tf_InstanceID filter) (task_InstanceID t)
  && equals_if_set (tf_Status filter) (task_Status t)
  && assigned_to (tf_AssigneeUserID filter) (tf_RoleIDs filter) (tf_IncludeUnclaimed filter) t
  && search_matches (tf_Search filter) [task_Name t].

Definition ListTasks (filter : TaskFilter) : M Event (Page Task) :=
  list_page "count workflow tasks: %w" "list workflow tasks: %w"
    (fun db => List.filter (taskWhere filter) (table_rows (db_tasks db)))
    (fun a b => time_desc (task_CreatedAt a) (task_CreatedAt b) (collate_le (task_ID a) (task_ID b)))
    (tf_Page filter) (tf_PageSize filter).

(** [WHERE i.id IN (SELECT instance_id FROM workflow_tasks ...)] *)
Definition instance_with_task (filter : TaskInstanceCandidateFilter) db (i : WInstance) : bool :=
  exists_row (fun t => String.eqb (task_InstanceID t) (inst_ID i)
    && taskWhere (mkTaskFilter (ticf_TenantID filter) (ticf_ApplicationID filter) "" ""
                    (ticf_AssigneeUserID filter) "" (ticf_RoleIDs filter)
                    (ticf_IncludeUnclaimed filter) 0 0) t) (db_tasks db)
  && search_matches (ticf_Search filter) [inst_Title i; inst_BusinessKey i].

Definition ListTaskInstanceCandidates (filter : TaskInstanceCandidateFilter) :
  M Event (Page TaskInstanceCandidate) :=
  page ← list_page "count workflow task instance candidates: %w" "list workflow task instance candidates: %w"
    (fun db => List.filter (instance_with_task filter db) (table_rows (db_instances db)))
    (fun a b => time_desc (inst_UpdatedAt a) (inst_UpdatedAt b) (collate_le (inst_ID a) (inst_ID b)))
    (ticf_Page filter) (ticf_PageSize filter);
  mret (mkPage ((fun i => mkTaskInstanceCandidate (inst_ID i) (inst_Title i) (inst_BusinessKey i)
                            (inst_Status i)) <$> page_Items page)
          (page_Total page) (ticf_Page filter) (ticf_PageSize filter)).

Definition historyWhere (filter : TaskHistoryFilter) (h : TaskHistory) : bool :=
  String.eqb (hist_TenantID h) (hf_TenantID filter)
  && String.eqb (hist_ApplicationID h) (hf_ApplicationID filter)
  && equals_if_set (hf_TaskID filter) (hist_TaskID h)
  && equals_if_set (hf_InstanceID filter) (hist_InstanceID h).

Definition ListTaskHistory (filter : TaskHistoryFilter) : M Event (Page TaskHistory) :=
  list_page "count workflow task history: %w" "list workflow task history: %w"
    (fun db => List.filter (historyWhere filter) (table_rows (db_history db)))
    (fun a b => time_desc (hist_CreatedAt a) (hist_CreatedAt b) (collate_le (hist_ID b) (hist_ID a)))
    (hf_Page filter) (hf_PageSize filter).

(** ** Retention *)

(** The join with the instance, and the WHERE clause. *)
Definition history_expired (before : Z) db (h : TaskHistory) : bool :=
  match db_instances db !! hist_InstanceID h with
  | Some i =>
      String.eqb (inst_TenantID i) (hist_TenantID h)
      && oneOf (inst_Status i) [InstanceCompleted; InstanceRejected; InstanceCancelled; InstanceFailed]
      && match inst_FinishedAt i with Some finished => (finished <? before)%Z | None => false end
  | None => false
  end.

Definition history_order (a b : TaskHistory) : bool :=
  time_desc (hist_CreatedAt b) (hist_CreatedAt a) (collate_le (hist_ID a) (hist_ID b)).

(** [DELETE ... WHERE id IN (?)]: the rows deleted. *)
Definition delete_history (ids : list string) db : res (Z * DB Event) :=
  let hit := List.filter (fun id => bool_decide (is_Some (db_history db !! id))) (remove_dups ids) in
  Ok (Z.of_nat (List.length hit), set_history (foldr delete (db_history db) ids) db).

Definition expired_ids (before limit : Z) db : res (list string) :=
  match limit_offset limit 0
          (order_by history_order (List.filter (history_expired before db) (table_rows (db_history db)))) with
  | Ok rows => Ok (hist_ID <$> rows)
  | Err e => Err e
  end.

Definition DeleteTaskHistoryBefore (before limit : Z) : M Event Z :=
  ids ← query (expired_ids before limit);
  if Nat.eqb (List.length ids) 0 then mret 0%Z
  else
    result ← exec (delete_history ids);
    rows_affected result.
End queries.
