(* ===== verification/Lifecycle.v ===== *)
(** * The abstract workflow store

    What the repository promises, without statements or failures: the changes a
    committed call can make to the tables, as a step relation.  [Invariants] proves
    what holds of every reachable state, [RepositoryTheory] that every method either
    leaves the tables alone or takes one of these steps. *)
From S2P Require Import Prelude GoStd Json Model GraphCodec Graph World Repository.
From Stdlib Require Import Ascii String.
From stdpp Require Import relations.
Local Open Scope string_scope.
Local Open Scope list_scope.

Section steps.
Context {Event : Type} {EF : EventFactory Event}.
Implicit Types db : DB Event.

Definition put_definition (d : WDefinition) db : DB Event :=
  set_definitions (<[def_ID d := d]> (db_definitions db)) db.
Definition put_instance (i : WInstance) db : DB Event :=
  set_instances (<[inst_ID i := i]> (db_instances db)) db.
Definition put_task (t : Task) db : DB Event := set_tasks (<[task_ID t := t]> (db_tasks db)) db.
Definition put_history (h : TaskHistory) db : DB Event :=
  set_history (<[hist_ID h := h]> (db_history db)) db.

(** The outbox gets an event the factory built for [d]. *)
Definition emits (d : DomainEvent) (actor : string) db db' : Prop :=
  exists ctx n event, ev_build ctx n d = Ok event /\
    db' = set_outbox (db_outbox db ++ [(event, actor)]) db.

(** *** Definitions: created as drafts, edited while drafts, published, disabled *)

Definition step_create (v : WDefinition) db db' : Prop :=
  db_definitions db !! def_ID v = None /\
  (forall id d, db_definitions db !! id = Some d -> same_key v d = false) /\
  def_Status v = DefinitionDraft /\ def_PublishedRevision v = 0%Z /\
  db' = put_definition (definition_row v) db.

(** A row [d] changes to [d'], which has the same identifier. *)
Definition definition_change (d d' : WDefinition) db db' : Prop :=
  db_definitions db !! def_ID d = Some d /\ db' = put_definition d' db.

Definition step_edit (v d d' : WDefinition) (now : Z) (actor : string) db db' : Prop :=
  def_Status d = DefinitionDraft /\ row_updated v now actor d = Ok d' /\ definition_change d d' db db'.

Definition step_publish (d d' : WDefinition) (now : Z) (actor : string) db db' : Prop :=
  let revision := uint32_incr (def_PublishedRevision d) in
  def_Status d = DefinitionDraft /\
  db_revisions db !! (def_ID d, revision) = None /\
  row_published revision now actor d = Ok d' /\
  db_definitions db !! def_ID d = Some d /\
  exists published, hydrateDefinition (publish_current d revision now actor) = Ok published /\
    emits (DefinitionPublished_ published) actor
      (put_definition d'
        (set_revisions (<[(def_ID d, revision) := revision_row d revision now actor]> (db_revisions db)) db))
      db'.

Definition step_disable (d d' : WDefinition) (now : Z) (actor : string) db db' : Prop :=
  def_Status d = DefinitionPublished /\ row_disabled now actor d = Ok d' /\ definition_change d d' db db'.

(** *** Instances: started running, advanced while running, then ended once *)

Definition step_start (v : WInstance) (definition : WDefinition) (actor : string) db db' : Prop :=
  db_instances db !! inst_ID v = None /\
  (forall id i, db_instances db !! id = Some i -> same_idempotency v i = false /\ same_business v i = false) /\
  is_Some (db_definitions db !! inst_DefinitionID v) /\
  inst_Status v = InstanceRunning /\ inst_FinishedAt v = None /\
  emits (InstanceStartRequested v definition) actor (put_instance (instance_row v) db) db'.

Definition instance_change (i i' : WInstance) db db' : Prop :=
  db_instances db !! inst_ID i = Some i /\ inst_Status i = InstanceRunning /\ db' = put_instance i' db.

Definition step_cancel (i i' : WInstance) (reason : string) (now : Z) (actor : string) db db' : Prop :=
  row_cancelled reason now actor i = Ok i' /\
  exists db1, instance_change i i' db db1 /\
    emits (InstanceCancellationRequested i' reason) actor db1 db'.

Definition step_advance (i i' : WInstance) (nodeID : string) (now : Z) (actor : string) db db' : Prop :=
  inst_CurrentNodeID i <> nodeID /\ row_advanced nodeID now actor i = Ok i' /\ instance_change i i' db db'.

(** The statuses the workflow ends an instance with. *)
Definition final_statuses : list string := [InstanceCompleted; InstanceRejected; InstanceFailed].

Definition step_finish (i i' : WInstance) (status resultJSON message : string) (now : Z) (actor : string)
    db db' : Prop :=
  row_finished status resultJSON message now actor i = Ok i' /\
  exists db1, instance_change i i' db db1 /\
    emits (InstanceStatusChanged i' InstanceRunning) actor db1 db'.

(** *** Tasks: one per instance and node, created pending, then decided once *)

(** The instance is at the task's node, or it is moved there. *)
Definition arrive (v : Task) (now : Z) (actor : string) db db' : Prop :=
  (exists i, db_instances db !! task_InstanceID v = Some i /\
     inst_in (task_TenantID v) (task_ApplicationID v) i = true /\
     inst_Status i = InstanceRunning /\ inst_CurrentNodeID i = task_NodeID v /\ db' = db) \/
  (exists i i', inst_ID i = task_InstanceID v /\
     inst_in (task_TenantID v) (task_ApplicationID v) i = true /\
     step_advance i i' (task_NodeID v) now actor db db').

Definition step_task (v : Task) (now : Z) (actor : string) db db' : Prop :=
  db_tasks db !! task_ID v = None /\
  (forall id t, db_tasks db !! id = Some t -> same_node v t = false) /\
  task_Status v = TaskPending /\ task_CompletedAt v = None /\
  exists db1, arrive v now actor db db1 /\ emits (TaskCreated v) actor (put_task (task_row v) db1) db'.

Definition task_change (t t' : Task) (h : TaskHistory) db db' : Prop :=
  db_tasks db !! task_ID t = Some t /\ db_history db !! hist_ID h = None /\
  hist_TaskID h = task_ID t /\ hist_FromStatus h = task_Status t /\ hist_ToStatus h = task_Status t' /\
  db' = put_history h (put_task t' db).

Definition step_claim (t t' : Task) (h : TaskHistory) (now : Z) (actor : string) db db' : Prop :=
  task_Status t = TaskPending /\ row_claimed now actor t = Ok t' /\ task_change t t' h db db'.

(** Still open, and not claimed by somebody else. *)
Definition open_to (actor : string) (t : Task) : Prop :=
  (task_Status t = TaskPending \/ task_Status t = TaskClaimed) /\
  (task_ClaimedBy t = "" \/ task_ClaimedBy t = actor).

Definition step_complete (t t' : Task) (h : TaskHistory) (status decision comment output : string)
    (now : Z) (actor : string) db db' : Prop :=
  open_to actor t /\ (status = TaskApproved \/ status = TaskRejected) /\
  row_completed status decision comment output now actor t = Ok t' /\
  exists db1, task_change t t' h db db1 /\ emits (TaskCompleted t') actor db1 db'.

Definition step_delegate (t t' : Task) (h : TaskHistory) (delegate : string) (now : Z) (actor : string)
    db db' : Prop :=
  open_to actor t /\ row_delegated delegate now actor t = Ok t' /\ task_change t t' h db db'.

(** *** Retention *)

(** History of instances that ended before the cutoff. *)
Definition expired (before : Z) db (h : TaskHistory) : Prop :=
  exists i finished, db_instances db !! hist_InstanceID h = Some i /\
    inst_TenantID i = hist_TenantID h /\
    inst_Status i ∈ [InstanceCompleted; InstanceRejected; InstanceCancelled; InstanceFailed] /\
    inst_FinishedAt i = Some finished /\ (finished < before)%Z.

Definition step_purge (before : Z) (ids : list string) db db' : Prop :=
  (forall id, id ∈ ids -> exists h, db_history db !! id = Some h /\ expired before db h) /\
  db' = set_history (foldr delete (db_history db) ids) db.

(** ** The step relation *)

Inductive step db db' : Prop :=
| st_create v : step_create v db db' -> step db db'
| st_edit v d d' now actor : step_edit v d d' now actor db db' -> step db db'
| st_publish d d' now actor : step_publish d d' now actor db db' -> step db db'
| st_disable d d' now actor : step_disable d d' now actor db db' -> step db db'
| st_start v definition actor : step_start v definition actor db db' -> step db db'
| st_cancel i i' reason now actor : step_cancel i i' reason now actor db db' -> step db db'
| st_advance i i' node now actor : step_advance i i' node now actor db db' -> step db db'
| st_finish i i' status result message now actor :
    status ∈ final_statuses -> step_finish i i' status result message now actor db db' -> step db db'
| st_task v now actor : step_task v now actor db db' -> step db db'
| st_claim t t' h now actor : step_claim t t' h now actor db db' -> step db db'
| st_complete t t' h status decision comment output now actor :
    step_complete t t' h status decision comment output now actor db db' -> step db db'
| st_delegate t t' h delegate now actor : step_delegate t t' h delegate now actor db db' -> step db db'
| st_purge before ids : step_purge before ids db db' -> step db db'.

(** The states a sequence of committed calls can reach from empty tables. *)
Definition reachable db : Prop := rtc step empty_db db.
End steps.
