(* ===== verification/RepositoryTheory.v ===== *)
(** * The repository refines the abstract store

    For every environment, a method of [Repository] either fails and leaves the
    tables unchanged (a method without a transaction can also fail after its one
    update), or takes the step of [Lifecycle] that its name promises and returns
    the rows of that step. *)
From S2P Require Import Prelude GoStd Json Model GraphCodec Graph World WorldTheory Repository.
From S2P Require Import Lifecycle.
From Stdlib Require Import Ascii String.
Local Open Scope string_scope.
Local Open Scope list_scope.

(** Rows are stored under their own identifiers. *)
Record keyed {Event} (db : DB Event) : Prop := {
  k_definitions : forall id d, db_definitions db !! id = Some d -> def_ID d = id;
  k_instances : forall id i, db_instances db !! id = Some i -> inst_ID i = id;
  k_tasks : forall id t, db_tasks db !! id = Some t -> task_ID t = id;
  k_history : forall id h, db_history db !! id = Some h -> hist_ID h = id
}.

Section theory.
Context {Event : Type} {EF : EventFactory Event} {E : Env}.
Implicit Types db : DB Event.

(** ** Rules for the repository's own combinators *)

Lemma wp_or_not_found {A} op (m : M Event A) Q db :
  wp m (fun r db' => match r with Ok a => Q (Ok a) db' | Err e => Q (Err (mapNotFound e op)) db' end) db ->
  wp (or_not_found op m) Q db.
Proof. intros Hm t. specialize (Hm t). unfold or_not_found. by destruct (m (mkWorld db t)) as [[a|e] w]. Qed.

Lemma wp_found_or {A B} (m : M Event A) found format (missing : M Event B) (Q : res B -> DB Event -> Prop) db :
  wp m (fun r db' => match r with
        | Ok a => wp (found a) Q db'
        | Err e => (errors_Is_foreign e NoRows = true -> wp missing Q db') /\
                   (errors_Is_foreign e NoRows = false -> Q (Err (Wrap format [] e)) db')
        end) db ->
  wp (found_or m found format missing) Q db.
Proof.
  intros Hm t. specialize (Hm t). unfold found_or. destruct (m (mkWorld db t)) as [[a|e] w]; simpl in *.
  - by apply wp_world.
  - destruct Hm as [Hy Hn]. destruct (errors_Is_foreign e NoRows); [|by apply Hn].
    apply wp_world. by apply Hy.
Qed.

Lemma mapNotFound_fault e op : fault_error e -> fault_error (mapNotFound e op).
Proof. intros [Hs Hn]. unfold mapNotFound. by rewrite Hn. Qed.

Lemma wp_build_event format ctx d (Q : res Event -> DB Event -> Prop) db :
  (forall e, fault_error e -> Q (Err e) db) ->
  (forall n event, ev_build ctx n d = Ok event -> Q (Ok event) db) ->
  wp (build_event format ctx d) Q db.
Proof.
  intros Hf Hok. apply wp_wrap_err. intros t. simpl.
  destruct (ev_build ctx t d) as [ev|e] eqn:Hb; [by eapply Hok|]. by eapply Hf, fault_error_wrap, ev_build_error.
Qed.

Lemma wp_AddTx format event actor (Q : res unit -> DB Event -> Prop) db :
  (forall e, fault_error e -> Q (Err e) db) ->
  Q (Ok tt) (set_outbox (db_outbox db ++ [(event, actor)]) db) ->
  wp (AddTx format event actor) Q db.
Proof.
  intros Hf Hok. apply wp_wrap_err, wp_exec; [intros e He; by apply Hf, fault_error_wrap|done].
Qed.

(** The last two calls of a transaction that publishes an event. *)
Lemma wp_emit {A} bformat aformat ctx d actor (a : A) (Q : res (tx_end A) -> DB Event -> Prop) db :
  (forall e db', fault_error e -> Q (Err e) db') ->
  (forall db', emits d actor db db' -> Q (Ok (Committed a)) db') ->
  wp (event ← build_event bformat ctx d; _ ← AddTx aformat event actor; mret (Committed a)) Q db.
Proof.
  intros Hf Hok. apply wp_bind, wp_build_event; [by auto|]. intros n event Hb.
  apply wp_bind, wp_AddTx; [by auto|]. apply wp_ret, Hok. by exists ctx, n, event.
Qed.

(** ** What the conditions of the updates mean *)

Lemma def_in_spec t a d : def_in t a d = true <-> def_TenantID d = t /\ def_ApplicationID d = a.
Proof. unfold def_in. by rewrite andb_true_iff, !String.eqb_eq. Qed.
Lemma inst_in_spec t a i : inst_in t a i = true <-> inst_TenantID i = t /\ inst_ApplicationID i = a.
Proof. unfold inst_in. by rewrite andb_true_iff, !String.eqb_eq. Qed.
Lemma task_in_spec t a k : task_in t a k = true <-> task_TenantID k = t /\ task_ApplicationID k = a.
Proof. unfold task_in. by rewrite andb_true_iff, !String.eqb_eq. Qed.

Lemma update_definition_one t a id cond upd db db' :
  update_definition t a id cond upd db = Ok (1%Z, db') ->
  exists d d', db_definitions db !! id = Some d /\ def_in t a d = true /\ cond d = true /\
    upd d = Ok d' /\ db' = set_definitions (<[id := d']> (db_definitions db)) db.
Proof.
  unfold update_definition. destruct (update_row _ _ _ _) as [[n tb]|] eqn:Hu; [|discriminate].
  simpl. intros [= -> <-]. apply update_row_one in Hu as (d & d' & ? & [? ?]%andb_prop & ? & ->).
  by exists d, d'.
Qed.

Lemma update_instance_one t a id cond upd db db' :
  update_instance t a id cond upd db = Ok (1%Z, db') ->
  exists i i', db_instances db !! id = Some i /\ inst_in t a i = true /\ cond i = true /\
    upd i = Ok i' /\ db' = set_instances (<[id := i']> (db_instances db)) db.
Proof.
  unfold update_instance. destruct (update_row _ _ _ _) as [[n tb]|] eqn:Hu; [|discriminate].
  simpl. intros [= -> <-]. apply update_row_one in Hu as (i & i' & ? & [? ?]%andb_prop & ? & ->).
  by exists i, i'.
Qed.

Lemma update_task_one t id cond upd db db' :
  update_task t id cond upd db = Ok (1%Z, db') ->
  exists k k', db_tasks db !! id = Some k /\ task_TenantID k = t /\ cond k = true /\
    upd k = Ok k' /\ db' = set_tasks (<[id := k']> (db_tasks db)) db.
Proof.
  unfold update_task. destruct (update_row _ _ _ _) as [[n tb]|] eqn:Hu; [|discriminate].
  simpl. intros [= -> <-]. apply update_row_one in Hu as (k & k' & ? & [? ?]%andb_prop & ? & ->).
  exists k, k'. by rewrite <- String.eqb_eq.
Qed.

(** ** How a method fails *)

(** A failure of the environment or of a constraint, or one of the domain's errors
    with the condition that causes it. *)
Definition fails (not_found stale conflict : Prop) (e : error) : Prop :=
  fault_error e \/ (e = Sentinel ErrNotFound /\ not_found) \/
  (e = Sentinel ErrVersionConflict /\ stale) \/ (e = Sentinel ErrConflict /\ conflict).

Lemma fails_fault nf st cf e : fault_error e -> fails nf st cf e.
Proof. by left. Qed.

Lemma fault_foreign f : f <> NoRows -> fault_error (Foreign f).
Proof. intros Hf. split; [done|]. simpl. by apply bool_decide_eq_false_2. Qed.

Lemma fault_wrap_foreign format args f : f <> NoRows -> fault_error (Wrap format args (Foreign f)).
Proof. intros Hf. by apply fault_error_wrap, fault_foreign. Qed.

Lemma select_fails {R} id cond (t : gmap string R) op e st cf :
  select_row id cond t = Err e ->
  fails (forall r, t !! id = Some r -> cond r = false) st cf (mapNotFound e op).
Proof. intros [-> Hn]%select_row_Err. right; left. split; [done|exact Hn]. Qed.

Lemma bigint_incr_fault v e : bigint_incr v = Err e -> fault_error e.
Proof.
  unfold bigint_incr. destruct (_ <? _)%Z; [done|]. intros [= <-]. by apply fault_foreign.
Qed.

Lemma hydrate_fault v e : hydrateDefinition v = Err e -> fault_error e.
Proof. unfold hydrateDefinition. repeat case_match; intros [= <-]; done. Qed.

Lemma insert_revision_fault d revision now actor db e :
  insert_revision d revision now actor db = Err e -> fault_error e.
Proof. unfold insert_revision. repeat case_match; intros [= <-]; by apply fault_foreign. Qed.
Lemma insert_definition_fault v db e : insert_definition v db = Err e -> fault_error e.
Proof. unfold insert_definition. repeat case_match; intros [= <-]; by apply fault_foreign. Qed.
Lemma insert_instance_fault v db e : insert_instance v db = Err e -> fault_error e.
Proof. unfold insert_instance. repeat case_match; intros [= <-]; by apply fault_foreign. Qed.
Lemma insert_task_fault v db e : insert_task v db = Err e -> fault_error e.
Proof. unfold insert_task. repeat case_match; intros [= <-]; by apply fault_foreign. Qed.
Lemma insert_history_fault h db e : insert_history h db = Err e -> fault_error e.
Proof. unfold insert_history. repeat case_match; intros [= <-]; by apply fault_foreign. Qed.

(** An update of one row, all cases. *)
Lemma update_row_cases {R} id cond (upd : R -> res R) t :
  (forall r e, upd r = Err e -> fault_error e) ->
  match update_row id cond upd t with
  | Ok (n, t') => (n = 1%Z /\ exists r r', t !! id = Some r /\ cond r = true /\ upd r = Ok r' /\ t' = <[id := r']> t)
                  \/ (n = 0%Z /\ t' = t /\ forall r, t !! id = Some r -> cond r = false)
  | Err e => fault_error e
  end.
Proof.
  intros Hupd. destruct (update_row id cond upd t) as [[n t']|e] eqn:Hu.
  - apply update_row_count in Hu as [[-> Hu]|?]; [left|by right]. split; [done|]. by apply update_row_one in Hu.
  - unfold update_row in Hu. destruct (t !! id) as [r|]; [|discriminate].
    destruct (cond r); [|discriminate]. destruct (upd r) eqn:Hr; [discriminate|].
    simpl in Hu. injection Hu as <-. by eapply Hupd.
Qed.

(** An update of one table whose row count the method looks at. *)
Lemma wp_counted_update {R A} (get : DB Event -> gmap string R) (set : gmap string R -> DB Event -> DB Event)
    id cond upd f1 a1 f2 a2 (k : Z -> M Event A) (Q : res A -> DB Event -> Prop) db :
  (forall r e, upd r = Err e -> fault_error e) -> (forall db, set (get db) db = db) ->
  (forall e, fault_error e -> Q (Err e) db) ->
  ((forall r, get db !! id = Some r -> cond r = false) -> wp (k 0%Z) Q db) ->
  (forall r r', get db !! id = Some r -> cond r = true -> upd r = Ok r' ->
     let db' := set (<[id := r']> (get db)) db in
     wp (k 1%Z) Q db' /\ forall e, fault_error e -> Q (Err e) db') ->
  wp (result ← wrap_err f1 a1 (exec (fun db => '(n, t) ← update_row id cond upd (get db); Ok (n, set t db)));
      count ← wrap_err f2 a2 (rows_affected result); k count) Q db.
Proof.
  intros Hupd Hset Hf Hno Hyes. pose proof (update_row_cases id cond upd (get db) Hupd) as Hc.
  apply wp_bind, wp_wrap_err, wp_exec; [by auto with wf|].
  destruct (update_row id cond upd (get db)) as [[n t']|e]; simpl; [|by apply Hf, fault_error_wrap].
  apply wp_bind, wp_wrap_err, wp_rows_affected.
  - intros e He. destruct Hc as [(-> & r & r' & Hr & Hcr & Hu & ->)|(-> & -> & Hn)];
      [by apply (Hyes r r')|rewrite Hset; by apply Hf].
  - destruct Hc as [(-> & r & r' & Hr & Hcr & Hu & ->)|(-> & -> & Hn)];
      [by apply (Hyes r r')|rewrite Hset; by apply Hno].
Qed.

Lemma wp_update {R} (get : DB Event -> gmap string R) (set : gmap string R -> DB Event -> DB Event)
    id cond upd op (Q : res unit -> DB Event -> Prop) db :
  (forall r e, upd r = Err e -> fault_error e) -> (forall db, set (get db) db = db) ->
  (forall e, fault_error e -> Q (Err e) db) ->
  ((forall r, get db !! id = Some r -> cond r = false) -> Q (Err (Sentinel ErrVersionConflict)) db) ->
  (forall r r', get db !! id = Some r -> cond r = true -> upd r = Ok r' ->
     let db' := set (<[id := r']> (get db)) db in
     Q (Ok tt) db' /\ forall e, fault_error e -> Q (Err e) db') ->
  wp (affectedOne (exec (fun db => '(n, t) ← update_row id cond upd (get db); Ok (n, set t db))) op) Q db.
Proof.
  intros Hupd Hset Hf Hno Hyes. apply (wp_counted_update get set); [done..| |].
  - intros Hn. by apply wp_reject_if; [intros _; apply Hno|].
  - intros r r' Hr Hc Hu. destruct (Hyes r r' Hr Hc Hu) as [HQ He]. split; [|done].
    by apply wp_reject_if.
Qed.

Lemma set_definitions_same db : set_definitions (db_definitions db) db = db.
Proof. by destruct db. Qed.
Lemma set_instances_same db : set_instances (db_instances db) db = db.
Proof. by destruct db. Qed.
Lemma set_tasks_same db : set_tasks (db_tasks db) db = db.
Proof. by destruct db. Qed.
End theory.
#[export] Hint Resolve fails_fault fault_wrap_foreign bigint_incr_fault hydrate_fault : wf.

(** A row keeps its identity; one unfolding for all the row functions. *)
Ltac row_inv H :=
  unfold row_updated, row_published, row_disabled, row_cancelled, row_advanced, row_finished,
    row_claimed, row_completed, row_delegated in H;
  match type of H with
  | (bigint_incr ?v ≫= _) = Ok _ =>
      let n := fresh "version" in let Hn := fresh "Hversion" in
      destruct (bigint_incr v) as [n|] eqn:Hn; [|discriminate H];
      apply bigint_incr_Ok in Hn as [-> Hn]; simpl in H;
      repeat match type of H with
      | (if ?c then _ else _) = Ok _ => let Hc := fresh "Hcheck" in destruct c eqn:Hc; try discriminate H
      end;
      injection H as <-
  end.

(** The row functions fail only by overflow or a constraint. *)
Ltac row_fault :=
  unfold row_updated, row_published, row_disabled, row_cancelled, row_advanced, row_finished,
    row_claimed, row_completed, row_delegated;
  let r := fresh "r" in let e := fresh "e" in let H := fresh "H" in
  intros r e H;
  match type of H with
  | (bigint_incr ?v ≫= _) = Err _ =>
      let Hn := fresh "Hn" in
      destruct (bigint_incr v) as [?|] eqn:Hn; simpl in H;
      [ repeat case_match; try discriminate H; injection H as <-; by apply fault_foreign
      | injection H as <-; by apply (bigint_incr_fault _ _ Hn) ]
  end.

Section specs.
Context {Event : Type} {EF : EventFactory Event} {E : Env}.
Implicit Types db : DB Event.

(** ** Definitions *)

Lemma row_published_id revision now actor d d' :
  row_published revision now actor d = Ok d' -> def_ID d' = def_ID d.
Proof. intros H. by row_inv H. Qed.

Lemma draft_at_spec ev d :
  draft_at ev d = true <-> def_Version d = ev /\ def_Status d = DefinitionDraft.
Proof. unfold draft_at. by rewrite andb_true_iff, Z.eqb_eq, String.eqb_eq. Qed.

Lemma insert_revision_Ok d revision now actor db n db' :
  insert_revision d revision now actor db = Ok (n, db') ->
  db_revisions db !! (def_ID d, revision) = None /\
  db' = set_revisions (<[(def_ID d, revision) := revision_row d revision now actor]> (db_revisions db)) db.
Proof.
  unfold insert_revision. repeat case_match; try discriminate. intros [= <- <-]. split; [|done].
  bool_to_prop. by apply eq_None_not_Some.
Qed.

Lemma wp_PublishDefinition ctx t a id ev actor db :
  keyed db ->
  wp (PublishDefinition ctx t a id ev actor) (fun r db' =>
    match r with
    | Ok v => exists d d' now, def_ID d = id /\ def_in t a d = true /\ def_Version d = ev /\
        step_publish d d' now actor db db' /\
        hydrateDefinition (publish_current d (uint32_incr (def_PublishedRevision d)) now actor) = Ok v
    | Err e => db' = db /\
        fails (forall d, db_definitions db !! id = Some d -> def_in t a d = false)
              (exists d, db_definitions db !! id = Some d /\ def_in t a d = true /\ draft_at ev d = false)
              False e
    end) db.
Proof.
  intros Hk. apply wp_transaction; [by auto with wf|]. apply wp_bind, wp_or_not_found, wp_query.
  { intros e He. split; [done|]. by apply fails_fault, mapNotFound_fault. }
  destruct (select_row id (def_in t a) (db_definitions db)) as [d|e] eqn:Hsel.
  2: { split; [done|]. by apply select_fails. }
  apply select_row_Ok in Hsel as [Hd Hin]. pose proof (k_definitions _ Hk _ _ Hd) as Hid.
  apply wp_bind, wp_reject_if.
  { intros Hc. split; [done|]. right; right; left. split; [done|]. exists d. split_and!; [done..|].
    unfold draft_at. apply orb_true_iff in Hc as [Hc|Hc]; apply negb_true_iff in Hc; rewrite Hc; [done|].
    by rewrite andb_false_r. }
  intros [Hver Hst]%orb_false_iff. rewrite negb_false_iff in Hver, Hst.
  assert (Hdraft : draft_at ev d = true) by (unfold draft_at; by rewrite Hver, Hst).
  apply draft_at_spec in Hdraft as [Hv Hs].
  apply wp_bind, wp_now. intros now. apply wp_bind, wp_wrap_err, wp_exec; [by auto with wf|].
  destruct (insert_revision _ _ _ _ db) as [[n db1]|e] eqn:Hins.
  2: { split; [done|]. by eapply fails_fault, fault_error_wrap, insert_revision_fault. }
  apply insert_revision_Ok in Hins as [Hfresh ->].
  apply wp_bind, (wp_update db_definitions set_definitions);
    [row_fault|apply set_definitions_same|by auto with wf|..].
  { intros Hno. exfalso. specialize (Hno d Hd). unfold draft_at in Hno. by rewrite Hin, Hver, Hst in Hno. }
  intros d0 d' Hd0 _ Hrow. simpl in Hd0. rewrite Hd in Hd0. injection Hd0 as <-.
  split; [|by auto with wf]. apply wp_bind, wp_lift.
  destruct (hydrateDefinition _) as [v|e] eqn:Hhyd; [|by eauto with wf].
  apply wp_emit; [by auto with wf|]. intros db' Hemit. exists d, d', now. split_and!; [done..| |done].
  split; [done|]. split; [done|]. split; [done|]. split; [by rewrite Hid|]. exists v. split; [done|].
  unfold put_definition. rewrite (row_published_id _ _ _ _ _ Hrow), Hid. by rewrite Hid in Hemit.
Qed.

(** The definition a read returns: the current row, or a published revision. *)
Definition stored (t a id : string) (revision : Z) db (d : WDefinition) : Prop :=
  def_in t a d = true /\
  if (revision =? 0)%Z then db_definitions db !! id = Some d
  else exists row, db_revisions db !! (id, revision) = Some row /\ d = rev_Definition row.

Lemma wp_GetDefinition t a id revision db :
  wp (GetDefinition t a id revision) (fun r db' => db' = db /\
    match r with
    | Ok v => exists d, stored t a id revision db d /\ hydrateDefinition d = Ok v
    | Err e => fails (forall d, ~ stored t a id revision db d) False False e
    end) db.
Proof.
  unfold GetDefinition, stored. apply wp_bind.
  destruct (revision =? 0)%Z; apply wp_or_not_found, wp_query;
    try (intros e He; split; [done|by apply fails_fault, mapNotFound_fault]).
  - destruct (select_row id (def_in t a) (db_definitions db)) as [d|e] eqn:Hsel.
    + apply select_row_Ok in Hsel as [Hd Hin]. apply wp_lift. split; [done|].
      destruct (hydrateDefinition d) eqn:Hh; [by exists d|by eauto with wf].
    + split; [done|]. apply select_row_Err in Hsel as [-> Hno]. right; left. split; [done|].
      intros d [Hin Hd]. by rewrite (Hno d Hd) in Hin.
  - unfold revision_definition. destruct (db_revisions db !! (id, revision)) as [row|] eqn:Hrow.
    + destruct (def_in t a (rev_Definition row)) eqn:Hin.
      * apply wp_lift. split; [done|].
        destruct (hydrateDefinition _) eqn:Hh; [|by eauto with wf].
        exists (rev_Definition row). split; [|done]. split; [done|]. by exists row.
      * split; [done|]. right; left. split; [done|]. intros d (Hin' & row' & [= <-] & ->). congruence.
    + split; [done|]. right; left. split; [done|]. by intros d (_ & row' & ? & _).
Qed.

(** The read that follows an update without a transaction. *)
Lemma wp_reread t a id db (d : WDefinition) :
  db_definitions db !! id = Some d -> def_in t a d = true ->
  wp (GetDefinition t a id 0) (fun r db' => db' = db /\
    match r with Ok v => hydrateDefinition d = Ok v | Err e => fault_error e end) db.
Proof.
  intros Hd Hin. eapply wp_mono; [apply wp_GetDefinition|]. intros [v|e] db' [-> Hr]; (split; [done|]).
  - destruct Hr as (d0 & [_ Hd0] & Hh). simpl in Hd0. congruence.
  - destruct Hr as [Hf|[[_ Hno]|[[_ []]|[_ []]]]]; [done|]. exfalso. by apply (Hno d).
Qed.

(** A method with one guarded update of a definition, then a read. *)
Lemma wp_change_definition t a id cond upd op db :
  (forall d e, upd d = Err e -> fault_error e) ->
  (forall d d', upd d = Ok d' -> def_ID d' = def_ID d /\ (def_in t a d = true -> def_in t a d' = true)) ->
  keyed db ->
  wp (_ ← affectedOne (exec (update_definition t a id cond upd)) op; GetDefinition t a id 0)
    (fun r db' =>
      let changed d d' := def_ID d = id /\ def_in t a d = true /\ cond d = true /\
        upd d = Ok d' /\ definition_change d d' db db' in
      match r with
      | Ok v => exists d d', changed d d' /\ hydrateDefinition d' = Ok v
      | Err e => (db' = db /\ fails False (forall d, db_definitions db !! id = Some d ->
                    def_in t a d && cond d = false) False e)
                 \/ ((exists d d', changed d d') /\ fault_error e)
      end) db.
Proof.
  intros Hupd Hid Hk. apply wp_bind, (wp_update db_definitions set_definitions);
    [done|apply set_definitions_same|by eauto with wf| |].
  { intros Hno. left. split; [done|]. right; right; left. by split. }
  intros d d' Hd [Hin Hc]%andb_prop Hrow. destruct (Hid d d' Hrow) as [Heq Hin'].
  pose proof (k_definitions _ Hk _ _ Hd) as Hdid.
  assert (Hch : definition_change d d' db (set_definitions (<[id := d']> (db_definitions db)) db)).
  { split; [by rewrite Hdid|]. unfold put_definition. by rewrite Heq, Hdid. }
  split.
  - eapply wp_mono; [apply (wp_reread t a id _ d'); [|by apply Hin']|].
    + apply lookup_insert_eq.
    + intros [v|e] db' [-> Hr]; [by exists d, d'|right]. split; [by exists d, d'|done].
  - intros e He. right. split; [by exists d, d'|done].
Qed.

Lemma wp_UpdateDefinition v ev actor db :
  keyed db ->
  wp (UpdateDefinition v ev actor) (fun r db' =>
    let edited now d d' := def_ID d = def_ID v /\ def_in (def_TenantID v) (def_ApplicationID v) d = true /\
      def_Version d = ev /\ step_edit v d d' now actor db db' in
    match r with
    | Ok v' => exists now d d', edited now d d' /\ hydrateDefinition d' = Ok v'
    | Err e => (db' = db /\ fails False (forall d, db_definitions db !! def_ID v = Some d ->
                  def_in (def_TenantID v) (def_ApplicationID v) d && draft_at ev d = false) False e)
               \/ ((exists now d d', edited now d d') /\ fault_error e)
    end) db.
Proof.
  intros Hk. apply wp_bind, wp_now. intros now. eapply wp_mono.
  - apply (wp_change_definition _ _ _ _ _ _); [row_fault| |done].
    intros d d' H. by row_inv H.
  - intros [v'|e] db'; simpl.
    + intros (d & d' & (Hid & Hin & [Hv Hs]%draft_at_spec & Hrow & Hch) & Hh).
      exists now, d, d'. split_and!; done.
    + intros [?|[(d & d' & Hid & Hin & [Hv Hs]%draft_at_spec & Hrow & Hch) He]]; [by left|right].
      split; [|done]. exists now, d, d'. split_and!; done.
Qed.

Lemma published_at_spec ev d :
  published_at ev d = true <-> def_Version d = ev /\ def_Status d = DefinitionPublished.
Proof. unfold published_at. by rewrite andb_true_iff, Z.eqb_eq, String.eqb_eq. Qed.

Lemma wp_DisableDefinition t a id ev actor db :
  keyed db ->
  wp (DisableDefinition t a id ev actor) (fun r db' =>
    let disabled now d d' := def_ID d = id /\ def_in t a d = true /\
      def_Version d = ev /\ step_disable d d' now actor db db' in
    match r with
    | Ok v' => exists now d d', disabled now d d' /\ hydrateDefinition d' = Ok v'
    | Err e => (db' = db /\ fails False (forall d, db_definitions db !! id = Some d ->
                  def_in t a d && published_at ev d = false) False e)
               \/ ((exists now d d', disabled now d d') /\ fault_error e)
    end) db.
Proof.
  intros Hk. apply wp_bind, wp_now. intros now. eapply wp_mono.
  - apply (wp_change_definition _ _ _ _ _ _); [row_fault| |done].
    intros d d' H. by row_inv H.
  - intros [v'|e] db'; simpl.
    + intros (d & d' & (Hid & Hin & [Hv Hs]%published_at_spec & Hrow & Hch) & Hh).
      exists now, d, d'. split_and!; done.
    + intros [?|[(d & d' & Hid & Hin & [Hv Hs]%published_at_spec & Hrow & Hch) He]]; [by left|right].
      split; [|done]. exists now, d, d'. split_and!; done.
Qed.

Lemma insert_definition_Ok v db n db' :
  insert_definition v db = Ok (n, db') ->
  db_definitions db !! def_ID v = None /\
  (forall id d, db_definitions db !! id = Some d -> same_key v d = false) /\
  db' = put_definition (definition_row v) db.
Proof.
  unfold insert_definition. repeat case_match; try discriminate. intros [= <- <-]. bool_to_prop.
  split_and!; [by apply eq_None_not_Some|by apply exists_row_false|done].
Qed.

Lemma wp_CreateDefinition v db :
  def_Status v = DefinitionDraft -> def_PublishedRevision v = 0%Z ->
  wp (CreateDefinition v) (fun r db' =>
    match r with
    | Ok v' => step_create v db db' /\ hydrateDefinition (definition_row v) = Ok v'
    | Err e => fault_error e /\ (db' = db \/ step_create v db db')
    end) db.
Proof.
  intros Hs Hr. apply wp_bind, wp_wrap_err, wp_exec; [by auto|].
  destruct (insert_definition v db) as [[n db1]|e] eqn:Hins.
  2: { split; [|by left]. by eapply fault_error_wrap, insert_definition_fault. }
  apply insert_definition_Ok in Hins as (Hfresh & Hkey & ->).
  eapply wp_mono; [apply (wp_reread _ _ _ _ (definition_row v))|].
  - apply lookup_insert_eq.
  - by apply def_in_spec.
  - assert (step_create v db (put_definition (definition_row v) db)) by (by split_and!).
    intros [v'|e] db' [-> Hh]; [done|]. split; [done|by right].
Qed.

(** ** Instances *)

Lemma insert_instance_Ok v db n db' :
  insert_instance v db = Ok (n, db') ->
  db_instances db !! inst_ID v = None /\
  (forall id i, db_instances db !! id = Some i -> same_idempotency v i = false /\ same_business v i = false) /\
  is_Some (db_definitions db !! inst_DefinitionID v) /\
  db' = put_instance (instance_row v) db.
Proof.
  unfold insert_instance. repeat case_match; try discriminate. intros [= <- <-]. bool_to_prop.
  split; [by apply eq_None_not_Some|]. split; [|done]. intros id i Hi.
  split; [by eapply (proj1 (exists_row_false _ _))|by eapply (proj1 (exists_row_false _ _))].
Qed.

Lemma wp_CreateInstance ctx v definition db :
  inst_Status v = InstanceRunning -> inst_FinishedAt v = None ->
  wp (CreateInstance ctx v definition) (fun r db' =>
    match r with
    | Ok v' => v' = v /\ step_start v definition (inst_CreatedBy v) db db'
    | Err e => db' = db /\ fault_error e
    end) db.
Proof.
  intros Hs Hf. apply wp_transaction; [done|]. apply wp_bind, wp_wrap_err, wp_exec; [done|].
  destruct (insert_instance v db) as [[n db1]|e] eqn:Hins.
  2: { split; [done|]. by eapply fault_error_wrap, insert_instance_fault. }
  apply insert_instance_Ok in Hins as (Hfresh & Hkeys & Hdef & ->).
  apply wp_emit; [done|]. intros db' Hemit. by split_and!.
Qed.

Lemma running_at_spec ev i :
  running_at ev i = true <-> inst_Version i = ev /\ inst_Status i = InstanceRunning.
Proof. unfold running_at. by rewrite andb_true_iff, Z.eqb_eq, String.eqb_eq. Qed.

(** A read inside the transaction finds the row just written. *)
Lemma wp_getInstanceTx t a id i (Q : res WInstance -> DB Event -> Prop) db :
  db_instances db !! id = Some i -> inst_in t a i = true ->
  (forall e, fault_error e -> Q (Err e) db) -> Q (Ok i) db -> wp (getInstanceTx t a id) Q db.
Proof.
  intros Hi Hin Hf HQ. apply wp_or_not_found, wp_query; [intros e He; by apply Hf, mapNotFound_fault|].
  unfold select_instance. by rewrite (proj2 (select_row_Ok id (inst_in t a) _ i)).
Qed.

Lemma instance_put id i i' db :
  keyed db -> db_instances db !! id = Some i -> inst_ID i' = inst_ID i -> inst_Status i = InstanceRunning ->
  instance_change i i' db (set_instances (<[id := i']> (db_instances db)) db).
Proof.
  intros Hk Hi Heq Hs. pose proof (k_instances _ Hk _ _ Hi) as Hid.
  split; [by rewrite Hid|]. split; [done|]. unfold put_instance. by rewrite Heq, Hid.
Qed.

Lemma wp_CancelInstance ctx t a id ev reason actor db :
  keyed db ->
  wp (CancelInstance ctx t a id ev reason actor) (fun r db' =>
    match r with
    | Ok i' => exists i now, inst_ID i = id /\ inst_in t a i = true /\ inst_Version i = ev /\
        step_cancel i i' reason now actor db db'
    | Err e => db' = db /\ fails False (forall i, db_instances db !! id = Some i ->
                              inst_in t a i && running_at ev i = false) False e
    end) db.
Proof.
  intros Hk. apply wp_transaction; [by auto with wf|]. apply wp_bind, wp_now. intros now.
  apply wp_bind, (wp_update db_instances set_instances);
    [row_fault|apply set_instances_same|by auto with wf| |].
  { intros Hno. split; [done|]. right; right; left. by split. }
  intros i i' Hi [Hin [Hv Hs]%running_at_spec]%andb_prop Hrow. split; [|by auto with wf].
  assert (inst_ID i' = inst_ID i /\ inst_in t a i' = true) as [Heq Hin'] by (by row_inv Hrow).
  apply wp_bind, (wp_getInstanceTx _ _ _ i'); [apply lookup_insert_eq|done|by auto with wf|].
  apply wp_emit; [by auto with wf|]. intros db' Hemit. exists i, now.
  split_and!; [by eapply k_instances|done..|]. split; [done|]. eexists. split; [|done].
  by apply instance_put.
Qed.

Lemma running_elsewhere_spec node i :
  running_elsewhere node i = true <-> inst_Status i = InstanceRunning /\ inst_CurrentNodeID i <> node.
Proof. unfold running_elsewhere. by rewrite andb_true_iff, negb_true_iff, String.eqb_eq, String.eqb_neq. Qed.
Lemma running_here_spec node i :
  running_here node i = true <-> inst_Status i = InstanceRunning /\ inst_CurrentNodeID i = node.
Proof. unfold running_here. by rewrite andb_true_iff, !String.eqb_eq. Qed.

Lemma not_running node i :
  running_elsewhere node i = false -> running_here node i = false -> inst_Status i <> InstanceRunning.
Proof.
  unfold running_elsewhere, running_here.
  destruct (String.eqb_spec (inst_Status i) InstanceRunning); [|done].
  by destruct (String.eqb (inst_CurrentNodeID i) node).
Qed.

Lemma row_advanced_same node now actor i i' t a :
  row_advanced node now actor i = Ok i' -> inst_ID i' = inst_ID i /\ (inst_in t a i = true -> inst_in t a i' = true).
Proof. intros H. by row_inv H. Qed.

Lemma wp_UpdateInstanceNode t a id node actor db :
  keyed db ->
  wp (UpdateInstanceNode t a id node actor) (fun r db' =>
    let advanced := exists i i' now, inst_ID i = id /\ inst_in t a i = true /\
      step_advance i i' node now actor db db' in
    match r with
    | Ok _ => advanced \/ (db' = db /\ exists i, db_instances db !! id = Some i /\ inst_in t a i = true /\
                             inst_Status i = InstanceRunning /\ inst_CurrentNodeID i = node)
    | Err e => (db' = db /\ fails (forall i, db_instances db !! id = Some i -> inst_in t a i = false) False
                  (exists i, db_instances db !! id = Some i /\ inst_in t a i = true /\
                             inst_Status i <> InstanceRunning) e)
               \/ (advanced /\ fault_error e)
    end) db.
Proof.
  intros Hk. apply wp_bind, wp_now. intros now.
  apply (wp_counted_update db_instances set_instances); [row_fault|apply set_instances_same|by auto with wf| |].
  - intros Hno. simpl. apply wp_bind, wp_or_not_found, wp_query.
    { intros e He. left. split; [done|]. by apply fails_fault, mapNotFound_fault. }
    unfold select_instance. destruct (select_row id (inst_in t a) _) as [i|e] eqn:Hsel.
    + apply select_row_Ok in Hsel as [Hi Hin]. specialize (Hno i Hi). rewrite Hin in Hno.
      apply wp_reject_if; intros Hc; [apply negb_true_iff in Hc|apply negb_false_iff in Hc].
      * left. split; [done|]. right; right; right. split; [done|]. exists i. split_and!; [done..|].
        by eapply not_running.
      * apply running_here_spec in Hc as [? ?]. right. split; [done|]. by exists i.
    + left. split; [done|]. by apply select_fails.
  - intros i i' Hi [Hin [Hs Hn]%running_elsewhere_spec]%andb_prop Hrow. simpl.
    destruct (row_advanced_same _ _ _ _ _ t a Hrow) as [Heq _].
    assert (Hadv : exists i0 i1 now', inst_ID i0 = id /\ inst_in t a i0 = true /\
      step_advance i0 i1 node now' actor db (set_instances (<[id := i']> (db_instances db)) db)).
    { exists i, i', now. split; [by eapply k_instances|]. split; [done|]. split; [done|]. split; [done|].
      by apply instance_put. }
    split; [|intros e He; by right]. apply wp_ret. by left.
Qed.

Lemma wp_FinishInstance ctx t a id status result message actor db :
  keyed db ->
  wp (FinishInstance ctx t a id status result message actor) (fun r db' =>
    match r with
    | Ok i' => (exists i now, inst_ID i = id /\ inst_in t a i = true /\
                  step_finish i i' status result message now actor db db')
               \/ (db' = db /\ db_instances db !! id = Some i' /\ inst_in t a i' = true /\ inst_Status i' = status)
    | Err e => db' = db /\
        fails (forall i, db_instances db !! id = Some i -> inst_in t a i = false) False
              (exists i, db_instances db !! id = Some i /\ inst_in t a i = true /\
                 inst_Status i <> InstanceRunning /\ inst_Status i <> status) e
    end) db.
Proof.
  intros Hk. apply wp_transaction; [by auto with wf|]. apply wp_bind, wp_or_not_found, wp_query.
  { intros e He. split; [done|]. by apply fails_fault, mapNotFound_fault. }
  unfold select_instance at 1. destruct (select_row id (inst_in t a) _) as [i|e] eqn:Hsel; simpl.
  2: { split; [done|]. by apply select_fails. }
  apply select_row_Ok in Hsel as [Hi Hin]. destruct (String.eqb_spec (inst_Status i) status) as [Hst|Hst].
  { apply wp_bind, (wp_getInstanceTx _ _ _ i); [done..|by auto with wf|]. apply wp_ret. by right. }
  apply wp_bind, wp_reject_if.
  { intros Hc%negb_true_iff%String.eqb_neq. split; [done|]. right; right; right. split; [done|]. by exists i. }
  intros Hs%negb_false_iff%String.eqb_eq. apply wp_bind, wp_now. intros now.
  apply wp_bind, (wp_update db_instances set_instances);
    [row_fault|apply set_instances_same|by auto with wf| |].
  { intros Hno. exfalso. specialize (Hno i Hi). unfold is_running in Hno. by rewrite Hin, Hs in Hno. }
  intros i0 i' Hi0 _ Hrow. rewrite Hi in Hi0. injection Hi0 as <-. split; [|by auto with wf].
  assert (inst_ID i' = inst_ID i /\ inst_in t a i' = true) as [Heq Hin'] by (by row_inv Hrow).
  apply wp_bind, (wp_getInstanceTx _ _ _ i'); [apply lookup_insert_eq|done|by auto with wf|].
  apply wp_emit; [by auto with wf|]. intros db' Hemit. left. exists i, now.
  rewrite Hs in Hemit. split_and!; [by eapply k_instances|done..|]. split; [done|]. eexists. split; [|done].
  by apply instance_put.
Qed.

(** ** Tasks *)

Lemma find_row_cases {R} (cond : R -> bool) (t : gmap string R) :
  match find_row cond t with
  | Ok r => exists k, t !! k = Some r /\ cond r = true
  | Err e => e = Foreign NoRows /\ forall k r, t !! k = Some r -> cond r = false
  end.
Proof.
  unfold find_row. destruct (List.find _ (map_to_list t)) as [[k r]|] eqn:Hf.
  - apply find_some in Hf as [Hin Hc]. exists k. split; [|done].
    by apply elem_of_map_to_list, list_elem_of_In.
  - split; [done|]. intros k r Hr. apply (find_none _ _ Hf (k, r)).
    by apply list_elem_of_In, elem_of_map_to_list.
Qed.

Lemma insert_task_Ok v db n db' :
  insert_task v db = Ok (n, db') ->
  db_tasks db !! task_ID v = None /\
  (forall id t, db_tasks db !! id = Some t -> same_node v t = false) /\ db' = put_task (task_row v) db.
Proof.
  unfold insert_task. repeat case_match; try discriminate. intros [= <- <-]. bool_to_prop.
  split; [by apply eq_None_not_Some|]. split; [by apply exists_row_false|done].
Qed.

(** After the instance is at the node: the row and its event. *)
Lemma wp_put_task ctx v now db db1 (Q : res (tx_end Task) -> DB Event -> Prop) :
  task_Status v = TaskPending -> task_CompletedAt v = None ->
  arrive v now (task_CreatedBy v) db db1 -> db_tasks db1 = db_tasks db ->
  (forall e db', fault_error e -> Q (Err e) db') ->
  (forall db', step_task v now (task_CreatedBy v) db db' -> Q (Ok (Committed v)) db') ->
  wp (_ ← wrap_err "insert workflow task: %w" [] (exec (insert_task v));
      event ← build_event "build workflow task created event: %w" ctx (TaskCreated v);
      _ ← AddTx "enqueue workflow task created event: %w" event (task_CreatedBy v);
      mret (Committed v)) Q db1.
Proof.
  intros Hs Hc Harr Htasks Hf HQ. apply wp_bind, wp_wrap_err, wp_exec; [by auto|].
  destruct (insert_task v db1) as [[n db2]|e] eqn:Hins.
  2: { by eapply Hf, fault_error_wrap, insert_task_fault. }
  apply insert_task_Ok in Hins as (Hfresh & Hnode & ->). rewrite Htasks in Hfresh, Hnode.
  apply wp_emit; [done|]. intros db' Hemit. apply HQ. split_and!; [done..|]. by exists db1.
Qed.

Lemma wp_CreateTask ctx v db :
  keyed db -> task_Status v = TaskPending -> task_CompletedAt v = None ->
  wp (CreateTask ctx v) (fun r db' =>
    let t := task_TenantID v in let a := task_ApplicationID v in
    match r with
    | Ok v' => (v' = v /\ exists now, step_task v now (task_CreatedBy v) db db')
               \/ (db' = db /\ exists k, db_tasks db !! k = Some v' /\
                     task_in t a v' = true /\ same_node v v' = true)
    | Err e => db' = db /\
        fails (forall i, db_instances db !! task_InstanceID v = Some i -> inst_in t a i = false) False
              (exists i, db_instances db !! task_InstanceID v = Some i /\ inst_in t a i = true /\
                 inst_Status i <> InstanceRunning) e
    end) db.
Proof.
  intros Hk Hs Hc. apply wp_transaction; [by auto with wf|]. apply wp_found_or, wp_query.
  { intros e He. rewrite (proj2 He). split; [done|]. intros _. split; [done|]. by apply fails_fault. }
  pose proof (find_row_cases (fun k => task_in (task_TenantID v) (task_ApplicationID v) k && same_node v k)
    (db_tasks db)) as Hfind.
  destruct (find_row _ (db_tasks db)) as [k|e].
  { apply wp_ret. destruct Hfind as (id & Hid & [? ?]%andb_prop). right. split; [done|]. by exists id. }
  destruct Hfind as [-> _]. split; [intros _|done]. apply wp_bind, wp_now. intros now.
  apply (wp_counted_update db_instances set_instances); [row_fault|apply set_instances_same|by auto with wf| |].
  - intros Hno. apply wp_bind. simpl. apply wp_bind, wp_or_not_found, wp_query.
    { intros e He. split; [done|]. by apply fails_fault, mapNotFound_fault. }
    unfold select_instance. destruct (select_row _ _ (db_instances db)) as [i|e] eqn:Hsel.
    2: { split; [done|]. by apply select_fails. }
    apply select_row_Ok in Hsel as [Hi Hin]. specialize (Hno i Hi). rewrite Hin in Hno.
    apply wp_reject_if; intros Hcond; [apply negb_true_iff in Hcond|apply negb_false_iff in Hcond].
    + split; [done|]. right; right; right. split; [done|]. exists i. split_and!; [done..|]. by eapply not_running.
    + apply running_here_spec in Hcond as [? ?]. apply (wp_put_task ctx v now db); [done..| |done|by auto with wf|].
      * left. by exists i.
      * intros db' Hstep. left. split; [done|]. by exists now.
  - intros i i' Hi [Hin [Hrun Hn]%running_elsewhere_spec]%andb_prop Hrow. split; [|by auto with wf].
    apply wp_bind, wp_ret.
    destruct (row_advanced_same _ _ _ _ _ (task_TenantID v) (task_ApplicationID v) Hrow) as [Heq _].
    apply (wp_put_task ctx v now db); [done..| |done|by auto with wf|].
    + right. exists i, i'. split; [by eapply k_instances|]. split; [done|]. split; [done|]. split; [done|].
      by apply instance_put.
    + intros db' Hstep. left. split; [done|]. by exists now.
Qed.

Lemma wp_getTaskTx t a id k (Q : res Task -> DB Event -> Prop) db :
  db_tasks db !! id = Some k -> task_in t a k = true ->
  (forall e, fault_error e -> Q (Err e) db) -> Q (Ok k) db -> wp (getTaskTx t a id) Q db.
Proof.
  intros Hi Hin Hf HQ. apply wp_or_not_found, wp_query; [intros e He; by apply Hf, mapNotFound_fault|].
  unfold select_task. by rewrite (proj2 (select_row_Ok id (task_in t a) _ k)).
Qed.

Lemma insert_history_Ok h db n db' :
  insert_history h db = Ok (n, db') -> db_history db !! hist_ID h = None /\ db' = put_history h db.
Proof.
  unfold insert_history. repeat case_match; try discriminate. intros [= <- <-]. bool_to_prop.
  split; [by apply eq_None_not_Some|done].
Qed.

(** A task row and its history row. *)
Lemma task_put id k k' h db :
  keyed db -> db_tasks db !! id = Some k -> task_ID k' = task_ID k ->
  db_history db !! hist_ID h = None -> hist_TaskID h = id ->
  hist_FromStatus h = task_Status k -> hist_ToStatus h = task_Status k' ->
  task_change k k' h db (put_history h (set_tasks (<[id := k']> (db_tasks db)) db)).
Proof.
  intros Hk Hi Heq Hh Hid Hfrom Hto. pose proof (k_tasks _ Hk _ _ Hi) as Hkid.
  split_and!; [by rewrite Hkid|done|by rewrite Hid|done|done|]. unfold put_task. by rewrite Heq, Hkid.
Qed.

Lemma pending_at_spec a ev k :
  pending_at a ev k = true <-> task_ApplicationID k = a /\ task_Version k = ev /\ task_Status k = TaskPending.
Proof. unfold pending_at. rewrite !andb_true_iff, Z.eqb_eq, !String.eqb_eq. tauto. Qed.

Lemma open_for_spec ev actor k : open_for ev actor k = true <-> task_Version k = ev /\ open_to actor k.
Proof.
  unfold open_for, open_to, oneOf, str_empty. simpl.
  rewrite !andb_true_iff, !orb_true_iff, Z.eqb_eq, !String.eqb_eq. intuition congruence.
Qed.

Lemma wp_ClaimTask t a id ev actor db :
  keyed db ->
  wp (ClaimTask t a id ev actor) (fun r db' =>
    match r with
    | Ok k' => exists k h now, task_ID k = id /\ task_in t a k = true /\ task_Version k = ev /\
        step_claim k k' h now actor db db'
    | Err e => db' = db /\ fails False (forall k, db_tasks db !! id = Some k ->
                 String.eqb (task_TenantID k) t && pending_at a ev k = false) False e
    end) db.
Proof.
  intros Hk. apply wp_transaction; [by auto with wf|]. apply wp_bind, wp_now. intros now.
  apply wp_bind, (wp_update db_tasks set_tasks); [row_fault|apply set_tasks_same|by auto with wf| |].
  { intros Hno. split; [done|]. right; right; left. by split. }
  intros k k' Hi [Ht%String.eqb_eq (Ha & Hv & Hs)%pending_at_spec]%andb_prop Hrow. split; [|by auto with wf].
  assert (Hin : task_in t a k = true) by (by apply task_in_spec).
  assert (task_ID k' = task_ID k /\ task_in t a k' = true /\ task_Status k' = TaskClaimed)
    as (Heq & Hin' & Hs') by (by row_inv Hrow).
  apply wp_bind, (wp_getTaskTx _ _ _ k'); [apply lookup_insert_eq|done|by auto with wf|].
  apply wp_bind, wp_new_id. intros hid. apply wp_bind, wp_wrap_err, wp_exec; [by auto with wf|].
  destruct (insert_history _ _) as [[n db1]|e] eqn:Hins.
  2: { split; [done|]. by eapply fails_fault, fault_error_wrap, insert_history_fault. }
  apply insert_history_Ok in Hins as [Hh ->]. apply wp_ret. eexists k, _, now.
  split; [by eapply k_tasks|]. split; [done|]. split; [done|]. split; [done|]. split; [done|].
  by apply task_put.
Qed.

(** The value a method works from is what a read of the row returned. *)
Definition current_read (current : Task) db : Prop :=
  forall k, db_tasks db !! task_ID current = Some k -> task_Version k = task_Version current -> k = current.

Definition decided_status (decision : string) : string :=
  if String.eqb decision DecisionReject then TaskRejected else TaskApproved.

Lemma wp_CompleteTask ctx current decision comment output actor db :
  keyed db -> current_read current db ->
  wp (CompleteTask ctx current decision comment output actor) (fun r db' =>
    match r with
    | Ok k' => exists h now, step_complete current k' h (decided_status decision) decision comment output
                               now actor db db'
    | Err e => db' = db /\ fails False (forall k, db_tasks db !! task_ID current = Some k ->
                 String.eqb (task_TenantID k) (task_TenantID current)
                 && open_for (task_Version current) actor k = false) False e
    end) db.
Proof.
  intros Hk Hread. apply wp_transaction; [by auto with wf|]. apply wp_bind, wp_now. intros now.
  apply wp_bind, (wp_update db_tasks set_tasks); [row_fault|apply set_tasks_same|by auto with wf| |].
  { intros Hno. split; [done|]. right; right; left. by split. }
  intros k k' Hi [_ [Hv Hopen]%open_for_spec]%andb_prop Hrow. split; [|by auto with wf].
  pose proof (Hread k Hi Hv) as ->. fold (decided_status decision) in Hrow |- *.
  assert (task_ID k' = task_ID current /\
          task_in (task_TenantID current) (task_ApplicationID current) k' = true /\
          task_Status k' = decided_status decision) as (Heq & Hin' & Hs').
  { row_inv Hrow. split; [done|]. split; [by apply task_in_spec|done]. }
  apply wp_bind, wp_new_id. intros hid. apply wp_bind, wp_wrap_err, wp_exec; [by auto with wf|].
  destruct (insert_history _ _) as [[n db1]|e] eqn:Hins.
  2: { split; [done|]. by eapply fails_fault, fault_error_wrap, insert_history_fault. }
  apply insert_history_Ok in Hins as [Hh ->].
  apply wp_bind, (wp_getTaskTx _ _ _ k'); [apply lookup_insert_eq|done|by auto with wf|].
  apply wp_emit; [by auto with wf|]. intros db' Hemit. eexists _, now. split; [done|].
  split; [unfold decided_status; case_match; auto|]. split; [done|]. eexists. split; [|exact Hemit].
  by apply task_put.
Qed.

Lemma wp_DelegateTask current delegate reason actor db :
  keyed db -> current_read current db ->
  wp (DelegateTask current delegate reason actor) (fun r db' =>
    match r with
    | Ok k' => exists h now, step_delegate current k' h delegate now actor db db'
    | Err e => (db' = db /\ fails False (forall k, db_tasks db !! task_ID current = Some k ->
                  String.eqb (task_TenantID k) (task_TenantID current)
                  && open_for (task_Version current) actor k = false) False e)
               \/ ((exists k' h now, step_delegate current k' h delegate now actor db db') /\ fault_error e)
    end) db.
Proof.
  intros Hk Hread. apply wp_bind. apply wp_transaction; [intros f e He; left; by auto with wf|].
  apply wp_bind, wp_now. intros now.
  apply wp_bind, (wp_update db_tasks set_tasks);
    [row_fault|apply set_tasks_same|intros e He; left; by auto with wf| |].
  { intros Hno. left. split; [done|]. right; right; left. by split. }
  intros k k' Hi [_ [Hv Hopen]%open_for_spec]%andb_prop Hrow. split; [|intros e He; left; by auto with wf].
  pose proof (Hread k Hi Hv) as ->.
  assert (task_ID k' = task_ID current /\
          task_in (task_TenantID current) (task_ApplicationID current) k' = true /\
          task_Status k' = TaskPending) as (Heq & Hin' & Hs').
  { row_inv Hrow. split; [done|]. split; [by apply task_in_spec|done]. }
  apply wp_bind, wp_new_id. intros hid. apply wp_bind, wp_wrap_err, wp_exec; [intros e He; left; by auto with wf|].
  destruct (insert_history _ _) as [[n db1]|e] eqn:Hins.
  2: { left. split; [done|]. by eapply fails_fault, fault_error_wrap, insert_history_fault. }
  apply insert_history_Ok in Hins as [Hh ->]. apply wp_ret.
  match goal with |- wp _ _ ?d => assert (Hstep : exists h, step_delegate current k' h delegate now actor db d) end.
  { eexists. split; [done|]. split; [done|]. by apply task_put. }
  destruct Hstep as [h Hstep]. apply wp_or_not_found, wp_query.
  { intros e He. right. split; [by exists k', h, now|]. by apply mapNotFound_fault. }
  unfold select_task.
  match goal with |- context [select_row ?i ?c ?tb] => rewrite (proj2 (select_row_Ok i c tb k')) end.
  - by exists h, now.
  - split; [apply lookup_insert_eq|done].
Qed.
End specs.
