(* ===== verification/Invariants.v ===== *)
(** * What holds of every reachable store

    How one step changes a row, and, by induction over the steps, what no sequence
    of calls can undo: finished instances and decided tasks are frozen, published
    revisions are immutable, a version identifies a row's content, and every status
    has exactly the outbox events it should have. *)
From S2P Require Import Prelude GoStd Json Model GraphCodec Graph World WorldTheory Repository.
From S2P Require Import Lifecycle RepositoryTheory.
From Stdlib Require Import Ascii String.
From stdpp Require Import relations.
Local Open Scope string_scope.
Local Open Scope list_scope.

(** ** Changes of one row *)

(** The columns no statement updates. *)
Definition definition_identity (d : WDefinition) :=
  (def_ID d, def_TenantID d, def_ApplicationID d, def_Key d, def_CreatedAt d, def_CreatedBy d).
Definition definition_content (d : WDefinition) :=
  (def_Name d, def_Description d, def_NodesJSON d, def_EdgesJSON d).
Definition instance_identity (i : WInstance) :=
  (inst_ID i, inst_TenantID i, inst_ApplicationID i, inst_DefinitionID i, inst_DefinitionRevision i,
   inst_BusinessKey i, inst_IdempotencyKey i, inst_Title i, inst_StarterID i, inst_VariablesJSON i,
   inst_TemporalWorkflowID i, inst_StartedAt i, inst_CreatedAt i, inst_CreatedBy i).
Definition task_identity (t : Task) :=
  (task_ID t, task_TenantID t, task_ApplicationID t, task_InstanceID t, task_NodeID t, task_Name t,
   task_InputJSON t, task_DueAt t, task_CreatedAt t, task_CreatedBy t).

Inductive definition_evolves (d d' : WDefinition) : Prop :=
| de_edit : def_Status d = DefinitionDraft -> def_Status d' = DefinitionDraft ->
    def_PublishedRevision d' = def_PublishedRevision d -> definition_evolves d d'
| de_publish : def_Status d = DefinitionDraft -> def_Status d' = DefinitionPublished ->
    definition_content d' = definition_content d ->
    def_PublishedRevision d' = uint32_incr (def_PublishedRevision d) -> definition_evolves d d'
| de_disable : def_Status d = DefinitionPublished -> def_Status d' = DefinitionDisabled ->
    definition_content d' = definition_content d ->
    def_PublishedRevision d' = def_PublishedRevision d -> definition_evolves d d'.

Inductive instance_evolves (i i' : WInstance) : Prop :=
| ie_advance : inst_Status i = InstanceRunning -> inst_Status i' = InstanceRunning ->
    inst_FinishedAt i' = inst_FinishedAt i -> inst_CurrentNodeID i' <> inst_CurrentNodeID i -> instance_evolves i i'
| ie_end now : inst_Status i = InstanceRunning -> inst_Status i' ∈ InstanceCancelled :: final_statuses ->
    inst_FinishedAt i' = Some now -> inst_CurrentNodeID i' = inst_CurrentNodeID i -> instance_evolves i i'.

Inductive task_evolves (t t' : Task) : Prop :=
| te_claim : task_Status t = TaskPending -> task_Status t' = TaskClaimed ->
    task_CompletedAt t' = task_CompletedAt t -> task_evolves t t'
| te_decide now : task_Status t ∈ [TaskPending; TaskClaimed] -> task_Status t' ∈ [TaskApproved; TaskRejected] ->
    task_CompletedAt t' = Some now -> task_evolves t t'
| te_delegate : task_Status t ∈ [TaskPending; TaskClaimed] -> task_Status t' = TaskPending ->
    task_ClaimedBy t' = "" -> task_CompletedAt t' = task_CompletedAt t -> task_evolves t t'.

(** Unchanged, or one versioned change. *)
Definition definition_next (d d' : WDefinition) : Prop :=
  d' = d \/ (definition_identity d' = definition_identity d /\ def_Version d' = (def_Version d + 1)%Z /\
             definition_evolves d d').
Definition instance_next (i i' : WInstance) : Prop :=
  i' = i \/ (instance_identity i' = instance_identity i /\ inst_Version i' = (inst_Version i + 1)%Z /\
             instance_evolves i i').
Definition task_next (t t' : Task) : Prop :=
  t' = t \/ (task_identity t' = task_identity t /\ task_Version t' = (task_Version t + 1)%Z /\
             task_evolves t t').

Section steps.
Context {Event : Type} {EF : EventFactory Event}.
Implicit Types db : DB Event.

(** Every row of a table is still there, changed at most as [next] says. *)
Definition table_next {K R} `{Countable K} (next : R -> R -> Prop) (t t' : gmap K R) : Prop :=
  forall id r, t !! id = Some r -> exists r', t' !! id = Some r' /\ next r r'.

Lemma table_next_refl {K R} `{Countable K} (next : R -> R -> Prop) (t : gmap K R) :
  (forall r, next r r) -> table_next next t t.
Proof. intros Hr id r Hid. by exists r. Qed.

Lemma table_next_insert {K R} `{Countable K} (next : R -> R -> Prop) (t : gmap K R) k r' :
  (forall r, next r r) -> (forall r, t !! k = Some r -> next r r') -> table_next next t (<[k := r']> t).
Proof.
  intros Hrefl Hk id r Hid. rewrite lookup_insert. case_decide as Heq; [|by exists r].
  exists r'. split; [done|]. apply Hk. by rewrite Heq.
Qed.

Lemma definition_next_refl d : definition_next d d. Proof. by left. Qed.
Lemma instance_next_refl i : instance_next i i. Proof. by left. Qed.
Lemma task_next_refl t : task_next t t. Proof. by left. Qed.

(** One step, table by table. *)
Record evolves db db' : Prop := {
  ev_definitions : table_next definition_next (db_definitions db) (db_definitions db');
  ev_revisions : table_next eq (db_revisions db) (db_revisions db');
  ev_instances : table_next instance_next (db_instances db) (db_instances db');
  ev_tasks : table_next task_next (db_tasks db) (db_tasks db');
  ev_outbox : exists events, db_outbox db' = db_outbox db ++ events
}.

#[local] Hint Resolve definition_next_refl instance_next_refl task_next_refl : core.
#[local] Hint Extern 2 (table_next _ ?t ?t) => (apply table_next_refl; auto) : core.

Lemma evolves_put_definition d' db :
  (forall d, db_definitions db !! def_ID d' = Some d -> definition_next d d') ->
  evolves db (put_definition d' db).
Proof.
  intros Hd. split; simpl; auto; [by apply table_next_insert|exists []; by rewrite app_nil_r].
Qed.
Lemma evolves_put_instance i' db :
  (forall i, db_instances db !! inst_ID i' = Some i -> instance_next i i') ->
  evolves db (put_instance i' db).
Proof.
  intros Hd. split; simpl; auto; [by apply table_next_insert|exists []; by rewrite app_nil_r].
Qed.
Lemma evolves_put_task t' db :
  (forall t, db_tasks db !! task_ID t' = Some t -> task_next t t') -> evolves db (put_task t' db).
Proof.
  intros Hd. split; simpl; auto; [by apply table_next_insert|exists []; by rewrite app_nil_r].
Qed.
Lemma evolves_refl db : evolves db db.
Proof. split; simpl; auto. exists []; by rewrite app_nil_r. Qed.
Lemma evolves_history t db : evolves db (set_history t db).
Proof. split; simpl; auto. exists []; by rewrite app_nil_r. Qed.
Lemma evolves_emits d actor db db1 db' : evolves db db1 -> emits d actor db1 db' -> evolves db db'.
Proof.
  intros [? ? ? ? [evs Hev]] (ctx & n & event & _ & ->). split; simpl; auto.
  exists (evs ++ [(event, actor)]). by rewrite app_assoc, Hev.
Qed.

Lemma evolves_put_task_after t' db db1 :
  evolves db db1 -> db_tasks db1 = db_tasks db ->
  (forall t, db_tasks db !! task_ID t' = Some t -> task_next t t') -> evolves db (put_task t' db1).
Proof.
  intros [? ? ? ? ?] Heq Hd. split; simpl; auto. rewrite Heq. by apply table_next_insert.
Qed.
Lemma evolves_history_after t db db1 : evolves db db1 -> evolves db (set_history t db1).
Proof. intros [? ? ? ? ?]. by split. Qed.

Lemma definition_change_evolves d d' db db' :
  definition_change d d' db db' -> def_ID d' = def_ID d -> definition_next d d' -> evolves db db'.
Proof.
  intros [Hd ->] Heq Hn. apply evolves_put_definition. intros d0 Hd0. rewrite Heq in Hd0. congruence.
Qed.
Lemma instance_change_evolves i i' db db' :
  instance_change i i' db db' -> inst_ID i' = inst_ID i -> instance_next i i' -> evolves db db'.
Proof.
  intros (Hd & _ & ->) Heq Hn. apply evolves_put_instance. intros d0 Hd0. rewrite Heq in Hd0. congruence.
Qed.
Lemma task_change_evolves t t' h db db' :
  task_change t t' h db db' -> task_ID t' = task_ID t -> task_next t t' -> evolves db db'.
Proof.
  intros (Hd & _ & _ & _ & _ & ->) Heq Hn. apply evolves_history_after, evolves_put_task.
  intros d0 Hd0. rewrite Heq in Hd0. congruence.
Qed.

Lemma advance_evolves i i' node now actor db db' :
  step_advance i i' node now actor db db' -> evolves db db' /\ db_tasks db' = db_tasks db.
Proof.
  intros (Hn & Hrow & Hch). pose proof Hch as (_ & Hs & ->). split; [|done].
  row_inv Hrow. eapply instance_change_evolves; [exact Hch|done|]. right. split; [done|]. split; [done|].
  by apply ie_advance.
Qed.

Lemma arrive_evolves v now actor db db' :
  arrive v now actor db db' -> evolves db db' /\ db_tasks db' = db_tasks db.
Proof.
  intros [(i & _ & _ & _ & _ & ->)|(i & i' & _ & _ & Hadv)]; [|by eapply advance_evolves].
  split; [|done]. apply evolves_refl.
Qed.

Lemma open_to_status actor t : open_to actor t -> task_Status t ∈ [TaskPending; TaskClaimed].
Proof. intros [[->| ->] _]; set_solver. Qed.

(** Every step changes rows one version at a time, as their life cycles allow, and
    only appends to the outbox. *)
Lemma step_evolves db db' : step db db' -> evolves db db'.
Proof.
  intros [v Hs|v d d' now actor Hs|d d' now actor Hs|d d' now actor Hs|v def actor Hs
         |i i' reason now actor Hs|i i' node now actor Hs|i i' status result msg now actor Hfin Hs
         |v now actor Hs|t t' h now actor Hs|t t' h status dec com out now actor Hs
         |t t' h del now actor Hs|before ids Hs].
  - destruct Hs as (Hf & _ & _ & _ & ->). apply evolves_put_definition. simpl. intros d. by rewrite Hf.
  - destruct Hs as (Hd & Hrow & Hch). row_inv Hrow. eapply definition_change_evolves; [done..|].
    right. split; [done|]. split; [done|]. by apply de_edit.
  - destruct Hs as (Hd & Hf & Hrow & Hl & p & _ & Hem). row_inv Hrow. eapply evolves_emits; [|exact Hem].
    split; simpl; auto; [| |exists []; by rewrite app_nil_r].
    + apply table_next_insert; [auto|]. simpl. intros d0 Hd0. rewrite Hl in Hd0. injection Hd0 as <-.
      right. split; [done|]. split; [done|]. by apply de_publish.
    + apply table_next_insert; [done|]. intros r. by rewrite Hf.
  - destruct Hs as (Hd & Hrow & Hch). row_inv Hrow. eapply definition_change_evolves; [done..|].
    right. split; [done|]. split; [done|]. by apply de_disable.
  - destruct Hs as (Hf & _ & _ & _ & _ & Hem). eapply evolves_emits; [|exact Hem].
    apply evolves_put_instance. simpl. intros d. by rewrite Hf.
  - destruct Hs as (Hrow & db1 & Hch & Hem). eapply evolves_emits; [|exact Hem]. pose proof Hch as (_ & Hs & _).
    row_inv Hrow. eapply instance_change_evolves; [done..|].
    right. split; [done|]. split; [done|]. by apply (ie_end _ _ now); [|left|..].
  - by apply advance_evolves in Hs as [? _].
  - destruct Hs as (Hrow & db1 & Hch & Hem). eapply evolves_emits; [|exact Hem]. pose proof Hch as (_ & Hs & _).
    row_inv Hrow. eapply instance_change_evolves; [done..|].
    right. split; [done|]. split; [done|]. by apply (ie_end _ _ now); [|right|..].
  - destruct Hs as (Hf & _ & _ & _ & db1 & Harr & Hem). eapply evolves_emits; [|exact Hem].
    apply arrive_evolves in Harr as [Hev Ht]. apply evolves_put_task_after; [done..|]. simpl.
    intros t. by rewrite Hf.
  - destruct Hs as (Hst & Hrow & Hch). row_inv Hrow. eapply task_change_evolves; [done..|].
    right. split; [done|]. split; [done|]. by apply te_claim.
  - destruct Hs as (Hop & Hst & Hrow & db1 & Hch & Hem). eapply evolves_emits; [|exact Hem]. row_inv Hrow.
    eapply task_change_evolves; [done..|]. right. split; [done|]. split; [done|].
    apply (te_decide _ _ now); [by eapply open_to_status| |done]. destruct Hst as [-> | ->]; set_solver.
  - destruct Hs as (Hop & Hrow & Hch). row_inv Hrow. eapply task_change_evolves; [done..|].
    right. split; [done|]. split; [done|]. apply te_delegate; [by eapply open_to_status|done..].
  - destruct Hs as (_ & ->). apply evolves_history.
Qed.

(** ** Many steps *)

Lemma rtc_rows {K R} `{Countable K} (get : DB Event -> gmap K R) (next : R -> R -> Prop) db db' :
  (forall db db', step db db' -> table_next next (get db) (get db')) ->
  rtc step db db' -> table_next (rtc next) (get db) (get db').
Proof.
  intros Hstep Hrtc. induction Hrtc as [db|db db1 db' Hs _ IH].
  - apply table_next_refl. intros r. apply rtc_refl.
  - intros id r Hid. destruct (Hstep _ _ Hs id r Hid) as (r1 & Hr1 & Hn).
    destruct (IH id r1 Hr1) as (r' & Hr' & Hrtc'). exists r'. split; [done|]. by eapply rtc_l.
Qed.

Lemma rtc_definitions db db' :
  rtc step db db' -> table_next (rtc definition_next) (db_definitions db) (db_definitions db').
Proof. apply rtc_rows. intros. by apply ev_definitions, step_evolves. Qed.
Lemma rtc_instances db db' :
  rtc step db db' -> table_next (rtc instance_next) (db_instances db) (db_instances db').
Proof. apply rtc_rows. intros. by apply ev_instances, step_evolves. Qed.
Lemma rtc_tasks db db' : rtc step db db' -> table_next (rtc task_next) (db_tasks db) (db_tasks db').
Proof. apply rtc_rows. intros. by apply ev_tasks, step_evolves. Qed.
Lemma rtc_revisions db db' :
  rtc step db db' -> table_next (rtc eq) (db_revisions db) (db_revisions db').
Proof. apply rtc_rows. intros. by apply ev_revisions, step_evolves. Qed.

(** A row that nothing changes any more. *)
Lemma rtc_frozen {R} (next : R -> R -> Prop) r r' :
  (forall r', next r r' -> r' = r) -> rtc next r r' -> r' = r.
Proof.
  intros Hf Hrtc. induction Hrtc as [r|r r1 r' Hn _ IH]; [done|].
  pose proof (Hf r1 Hn) as ->. by apply IH.
Qed.

Lemma instance_ended_next i i' : inst_Status i <> InstanceRunning -> instance_next i i' -> i' = i.
Proof. intros Hs [->|(_ & _ & [?|? ?])]; [done|congruence..]. Qed.

Lemma task_decided_next t t' : task_Status t ∉ [TaskPending; TaskClaimed] -> task_next t t' -> t' = t.
Proof. intros Hs [->|(_ & _ & [Ht|? ?|?])]; [done| |done..]. rewrite Ht in Hs. set_solver. Qed.

(** Versions only grow, and a row that keeps its version keeps its content. *)
Lemma rtc_version {R} (next : R -> R -> Prop) (version : R -> Z) r r' :
  (forall r r', next r r' -> r' = r \/ version r' = (version r + 1)%Z) ->
  rtc next r r' -> r' = r \/ (version r < version r')%Z.
Proof.
  intros Hv Hrtc. induction Hrtc as [r|r r1 r' Hn _ IH]; [by left|].
  destruct (Hv r r1 Hn) as [->|Hv1]; [done|]. right. destruct IH as [->|?]; lia.
Qed.

Lemma definition_next_version d d' : definition_next d d' -> d' = d \/ def_Version d' = (def_Version d + 1)%Z.
Proof. intros [?|(_ & ? & _)]; auto. Qed.
Lemma instance_next_version i i' : instance_next i i' -> i' = i \/ inst_Version i' = (inst_Version i + 1)%Z.
Proof. intros [?|(_ & ? & _)]; auto. Qed.
Lemma task_next_version t t' : task_next t t' -> t' = t \/ task_Version t' = (task_Version t + 1)%Z.
Proof. intros [?|(_ & ? & _)]; auto. Qed.

(** Leaving the draft status is for good. *)
Lemma definition_left_draft d d' :
  rtc definition_next d d' -> def_Status d <> DefinitionDraft ->
  def_Status d' <> DefinitionDraft /\ definition_content d' = definition_content d /\
  def_PublishedRevision d' = def_PublishedRevision d /\ definition_identity d' = definition_identity d /\
  (def_Status d = DefinitionDisabled -> d' = d).
Proof.
  intros Hrtc. induction Hrtc as [d|d d1 d' Hn _ IH]; [done|]. intros Hs.
  destruct Hn as [->|(Hid & _ & [?|?|Hp Hd Hc Hr])]; [by apply IH|done|done|].
  destruct IH as (H1 & H2 & H3 & H4 & H5); [by rewrite Hd|].
  split; [done|]. split; [by rewrite H2|]. split; [by rewrite H3|]. split; [by rewrite H4|].
  intros Hdis. by rewrite Hp in Hdis.
Qed.

(** ** The outbox records every change of status, once and in order *)

(** The subjects of the events about [id] among those in [subjects]. *)
Definition about (subjects : list string) (id : string) (row : Event * string) : bool :=
  bool_decide ((ev_key row.1).2 = id /\ (ev_key row.1).1 ∈ subjects).
Definition emitted (subjects : list string) (id : string) (outbox : list (Event * string)) : list string :=
  (fun row => (ev_key row.1).1) <$> List.filter (about subjects id) outbox.

Definition definition_subjects : list string := ["platform.workflow.definition.published.v1"].
Definition instance_subjects : list string :=
  ["platform.workflow.instance.start-requested.v1"; "platform.workflow.instance.cancellation-requested.v1";
   "platform.workflow.instance.status-changed.v1"].
Definition task_subjects : list string :=
  ["platform.workflow.task.created.v1"; "platform.workflow.task.completed.v1"].

(** The events a row must have caused, by its status. *)
Definition definition_events (d : WDefinition) : list string :=
  if decide (def_Status d = DefinitionDraft) then [] else ["platform.workflow.definition.published.v1"].
Definition instance_events (i : WInstance) : list string :=
  "platform.workflow.instance.start-requested.v1" ::
  (if decide (inst_Status i = InstanceCancelled) then ["platform.workflow.instance.cancellation-requested.v1"]
   else if decide (inst_Status i = InstanceRunning) then []
   else ["platform.workflow.instance.status-changed.v1"]).
Definition task_events (t : Task) : list string :=
  "platform.workflow.task.created.v1" ::
  (if decide (task_Status t ∈ [TaskPending; TaskClaimed]) then []
   else ["platform.workflow.task.completed.v1"]).

Definition logs {R} (subjects : list string) (events : R -> list string) (t : gmap string R)
    (outbox : list (Event * string)) : Prop :=
  forall id, emitted subjects id outbox = from_option events [] (t !! id).

Record outbox_exact db : Prop := {
  oe_definitions : logs definition_subjects definition_events (db_definitions db) (db_outbox db);
  oe_instances : logs instance_subjects instance_events (db_instances db) (db_outbox db);
  oe_tasks : logs task_subjects task_events (db_tasks db) (db_outbox db)
}.

Lemma emitted_snoc subjects id outbox row :
  emitted subjects id (outbox ++ [row])
  = emitted subjects id outbox ++ (if about subjects id row then [(ev_key row.1).1] else []).
Proof. unfold emitted. rewrite List.filter_app, fmap_app. simpl. by destruct (about subjects id row). Qed.

(** The three ways a step treats one table and the outbox. *)
Lemma logs_put {R} subjects (events : R -> list string) t outbox id r' :
  logs subjects events t outbox -> events r' = from_option events [] (t !! id) ->
  logs subjects events (<[id := r']> t) outbox.
Proof. intros Hl He k. rewrite lookup_insert, Hl. case_decide as Hk; [by rewrite <- Hk|done]. Qed.

Lemma logs_other {R} subjects (events : R -> list string) t outbox row :
  logs subjects events t outbox -> (ev_key row.1).1 ∉ subjects -> logs subjects events t (outbox ++ [row]).
Proof.
  intros Hl He k. rewrite emitted_snoc, Hl. unfold about. rewrite bool_decide_eq_false_2; [|by intros [_ ?]].
  by rewrite app_nil_r.
Qed.

Lemma logs_emit {R} subjects (events : R -> list string) t outbox row id subject r' :
  logs subjects events t outbox -> ev_key row.1 = (subject, id) -> subject ∈ subjects ->
  events r' = from_option events [] (t !! id) ++ [subject] ->
  logs subjects events (<[id := r']> t) (outbox ++ [row]).
Proof.
  intros Hl Hk Hs He k. rewrite emitted_snoc, Hl, lookup_insert. unfold about. rewrite Hk. simpl.
  case_decide as Heq.
  - rewrite bool_decide_eq_true_2 by done. simpl. by rewrite He, Heq.
  - rewrite bool_decide_eq_false_2 by (by intros [? _]). by rewrite app_nil_r.
Qed.

Lemma step_outbox_advance i i' node now actor db db' :
  step_advance i i' node now actor db db' -> outbox_exact db -> outbox_exact db'.
Proof.
  intros (_ & Hrow & Hi & Hs & ->) [Hd Hin Ht]. row_inv Hrow. split; simpl; [done| |done].
  apply logs_put; [done|]. rewrite Hi. done.
Qed.

Lemma step_outbox_task t t' h db db' :
  task_change t t' h db db' -> task_ID t' = task_ID t -> task_events t' = task_events t ->
  outbox_exact db -> outbox_exact db'.
Proof.
  intros (Hl & _ & _ & _ & _ & ->) Hid He [Hd Hin Ht]. split; simpl; [done..|].
  apply logs_put; [done|]. by rewrite Hid, Hl.
Qed.

Lemma step_outbox_definition d d' db db' :
  definition_change d d' db db' -> def_ID d' = def_ID d -> definition_events d' = definition_events d ->
  outbox_exact db -> outbox_exact db'.
Proof.
  intros (Hl & ->) Hid He [Hd Hin Ht]. split; simpl; [|done..].
  apply logs_put; [done|]. by rewrite Hid, Hl.
Qed.

(** The end of an instance, with its event. *)
Lemma step_outbox_instance i i' dom subject actor db db1 db' :
  instance_change i i' db db1 -> inst_ID i' = inst_ID i -> domain_key dom = (subject, inst_ID i) ->
  subject ∈ instance_subjects -> instance_events i' = instance_events i ++ [subject] ->
  emits dom actor db1 db' -> outbox_exact db -> outbox_exact db'.
Proof.
  intros (Hi & _ & ->) Hid Hdom Hs He (ctx & n & event & Hb & ->) [Hd Hin Ht].
  apply ev_build_key in Hb. rewrite Hdom in Hb. split; simpl.
  - apply logs_other; [done|]. simpl. rewrite Hb. unfold instance_subjects, definition_subjects in *. set_solver.
  - eapply logs_emit; [done|by rewrite Hid|done|]. by rewrite Hid, Hi.
  - apply logs_other; [done|]. simpl. rewrite Hb. unfold instance_subjects, task_subjects in *. set_solver.
Qed.

(** A new or decided task, with its event; the rest of the tables is as good. *)
Lemma step_outbox_task_event t' dom subject actor db1 db' :
  outbox_exact db1 -> domain_key dom = (subject, task_ID t') -> subject ∈ task_subjects ->
  task_events t' = from_option task_events [] (db_tasks db1 !! task_ID t') ++ [subject] ->
  emits dom actor (put_task t' db1) db' -> outbox_exact db'.
Proof.
  intros [Hd Hin Ht] Hdom Hs He (ctx & n & event & Hb & ->).
  apply ev_build_key in Hb. rewrite Hdom in Hb. split; simpl.
  - apply logs_other; [done|]. simpl. rewrite Hb. unfold task_subjects, definition_subjects in *. set_solver.
  - apply logs_other; [done|]. simpl. rewrite Hb. unfold task_subjects, instance_subjects in *. set_solver.
  - by eapply logs_emit.
Qed.

Lemma outbox_history t db : outbox_exact db -> outbox_exact (set_history t db).
Proof. by intros [? ? ?]. Qed.

Lemma step_outbox_publish d d' now actor db db' :
  step_publish d d' now actor db db' -> outbox_exact db -> outbox_exact db'.
Proof.
  intros (Hd & Hf & Hrow & Hl & p & Hh & ctx & n & event & Hb & ->) [Hdd Hin Ht]. row_inv Hrow.
  apply ev_build_key in Hb. simpl in Hb.
  assert (Hp : def_ID p = def_ID d).
  { unfold hydrateDefinition in Hh. repeat case_match; try discriminate. by injection Hh as <-. }
  rewrite Hp in Hb. split; simpl.
  - eapply logs_emit; [done|exact Hb|by left|]. rewrite Hl. simpl. unfold definition_events. simpl.
    by rewrite (decide_True _ _ Hd).
  - apply logs_other; [done|]. simpl. rewrite Hb. unfold instance_subjects. set_solver.
  - apply logs_other; [done|]. simpl. rewrite Hb. unfold task_subjects. set_solver.
Qed.

Lemma step_outbox_start v def actor db db' :
  step_start v def actor db db' -> outbox_exact db -> outbox_exact db'.
Proof.
  intros (Hf & _ & _ & Hs & _ & ctx & n & event & Hb & ->) [Hdd Hin Ht]. apply ev_build_key in Hb. simpl in Hb.
  split; simpl.
  - apply logs_other; [done|]. simpl. rewrite Hb. unfold definition_subjects. set_solver.
  - eapply logs_emit; [done|exact Hb|by left|]. rewrite Hf. simpl. unfold instance_events. simpl. by rewrite Hs.
  - apply logs_other; [done|]. simpl. rewrite Hb. unfold task_subjects. set_solver.
Qed.

Lemma step_outbox_cancel i i' reason now actor db db' :
  step_cancel i i' reason now actor db db' -> outbox_exact db -> outbox_exact db'.
Proof.
  intros (Hrow & db1 & Hch & Hem). pose proof Hch as (_ & Hs & _). row_inv Hrow.
  eapply step_outbox_instance; [exact Hch|..|exact Hem]; [done|reflexivity|..].
  - unfold instance_subjects. set_solver.
  - unfold instance_events. simpl. by rewrite Hs.
Qed.

Lemma step_outbox_finish i i' status result msg now actor db db' :
  status ∈ final_statuses ->
  step_finish i i' status result msg now actor db db' -> outbox_exact db -> outbox_exact db'.
Proof.
  intros Hfin (Hrow & db1 & Hch & Hem). pose proof Hch as (_ & Hs & _). row_inv Hrow.
  eapply step_outbox_instance; [exact Hch|..|exact Hem]; [done|reflexivity|..].
  - unfold instance_subjects. set_solver.
  - unfold instance_events. simpl. rewrite Hs. unfold final_statuses in Hfin.
    rewrite !elem_of_cons in Hfin. by destruct Hfin as [->|[->|[->|?%not_elem_of_nil]]].
Qed.

Lemma step_outbox_create_task v now actor db db' :
  step_task v now actor db db' -> outbox_exact db -> outbox_exact db'.
Proof.
  intros (Hf & _ & Hs & _ & db1 & Harr & Hem) Hok. pose proof (arrive_evolves _ _ _ _ _ Harr) as [_ Htasks].
  assert (Hok1 : outbox_exact db1).
  { destruct Harr as [(? & _ & _ & _ & _ & ->)|(? & ? & _ & _ & Hadv)]; [done|by eapply step_outbox_advance]. }
  eapply step_outbox_task_event; [exact Hok1|..|exact Hem]; [reflexivity|by left|].
  rewrite Htasks. simpl. rewrite Hf. unfold task_events. simpl. rewrite Hs. done.
Qed.

Lemma step_outbox_complete t t' h status dec com out now actor db db' :
  step_complete t t' h status dec com out now actor db db' -> outbox_exact db -> outbox_exact db'.
Proof.
  intros (Hop & Hst & Hrow & db1 & (Hl & _ & _ & _ & _ & ->) & Hem) Hok. row_inv Hrow.
  change (put_history h (put_task ?t db)) with (put_task t (put_history h db)) in Hem.
  eapply step_outbox_task_event; [by apply outbox_history|..|exact Hem];
    [reflexivity|unfold task_subjects; set_solver|].
  simpl. rewrite Hl. unfold task_events. simpl. apply open_to_status in Hop. rewrite (decide_True _ _ Hop).
  by destruct Hst as [-> | ->].
Qed.

Lemma step_outbox db db' : step db db' -> outbox_exact db -> outbox_exact db'.
Proof.
  intros [v Hs|v d d' now actor Hs|d d' now actor Hs|d d' now actor Hs|v def actor Hs
         |i i' reason now actor Hs|i i' node now actor Hs|i i' status result msg now actor Hfin Hs
         |v now actor Hs|t t' h now actor Hs|t t' h status dec com out now actor Hs
         |t t' h del now actor Hs|before ids Hs].
  - destruct Hs as (Hf & _ & Hd & _ & ->). intros [Hdd Hin Ht]. split; simpl; [|done..].
    apply logs_put; [done|]. simpl. rewrite Hf. unfold definition_events. simpl. by rewrite Hd.
  - destruct Hs as (Hd & Hrow & Hch). row_inv Hrow. by eapply step_outbox_definition.
  - by eapply step_outbox_publish.
  - destruct Hs as (Hd & Hrow & Hch). row_inv Hrow. eapply step_outbox_definition; [done..|].
    unfold definition_events. simpl. by rewrite Hd.
  - by eapply step_outbox_start.
  - by eapply step_outbox_cancel.
  - by eapply step_outbox_advance.
  - by eapply step_outbox_finish.
  - by eapply step_outbox_create_task.
  - destruct Hs as (Hst & Hrow & Hch). row_inv Hrow. eapply step_outbox_task; [done..|].
    unfold task_events. simpl. by rewrite Hst.
  - by eapply step_outbox_complete.
  - destruct Hs as (Hop%open_to_status & Hrow & Hch). row_inv Hrow. eapply step_outbox_task; [done..|].
    unfold task_events. simpl. by rewrite (decide_True _ _ Hop).
  - destruct Hs as (_ & ->). apply outbox_history.
Qed.
End steps.

(** ** The tables fit together *)

Section consistent.
Context {Event : Type} {EF : EventFactory Event}.
Implicit Types db : DB Event.

(** A draft has no revision; once published, a definition has revision 1, with its
    own content, and no other. *)
Definition revisions_of (revisions : gmap (string * Z) DefinitionRevision) (d : WDefinition) : Prop :=
  (def_Status d = DefinitionDraft /\ def_PublishedRevision d = 0%Z /\
   forall n, revisions !! (def_ID d, n) = None) \/
  (def_Status d ∈ [DefinitionPublished; DefinitionDisabled] /\ def_PublishedRevision d = 1%Z /\
   exists r, revisions !! (def_ID d, 1%Z) = Some r /\
     definition_content (rev_Definition r) = definition_content d /\
     def_PublishedRevision (rev_Definition r) = 1%Z /\ def_Status (rev_Definition r) = DefinitionPublished /\
     def_ID (rev_Definition r) = def_ID d /\ def_Key (rev_Definition r) = def_Key d /\
     def_TenantID (rev_Definition r) = def_TenantID d /\
     def_ApplicationID (rev_Definition r) = def_ApplicationID d /\
     forall n, is_Some (revisions !! (def_ID d, n)) -> n = 1%Z).

Record store_ok db : Prop := {
  ok_keyed : keyed db;
  ok_key : forall id id' d d', db_definitions db !! id = Some d -> db_definitions db !! id' = Some d' ->
    same_key d d' = true -> id = id';
  ok_revisions : forall id d, db_definitions db !! id = Some d -> revisions_of (db_revisions db) d;
  ok_revision_owner : forall id n r, db_revisions db !! (id, n) = Some r -> is_Some (db_definitions db !! id);
  ok_idempotency : forall id id' i i', db_instances db !! id = Some i -> db_instances db !! id' = Some i' ->
    same_idempotency i i' = true -> id = id';
  ok_business : forall id id' i i', db_instances db !! id = Some i -> db_instances db !! id' = Some i' ->
    same_business i i' = true -> id = id';
  ok_instance : forall id i, db_instances db !! id = Some i ->
    is_Some (db_definitions db !! inst_DefinitionID i) /\ inst_Status i ∈ instance_statuses /\
    (inst_Status i = InstanceRunning <-> inst_FinishedAt i = None);
  ok_node : forall id id' t t', db_tasks db !! id = Some t -> db_tasks db !! id' = Some t' ->
    same_node t t' = true -> id = id';
  ok_task : forall id t, db_tasks db !! id = Some t ->
    is_Some (db_instances db !! task_InstanceID t) /\
    (task_Status t ∈ [TaskPending; TaskClaimed] <-> task_CompletedAt t = None)
}.

(** *** Putting a row into a table with a unique key *)

Definition unique {R} (same : R -> R -> bool) (t : gmap string R) : Prop :=
  forall id id' r r', t !! id = Some r -> t !! id' = Some r' -> same r r' = true -> id = id'.

(** The condition compares a projection of the rows. *)
Definition by_columns {R C} (columns : R -> C) (same : R -> R -> bool) : Prop :=
  forall r r', same r r' = true <-> columns r' = columns r.

Lemma unique_put {R C} (columns : R -> C) same (t : gmap string R) k r1 :
  by_columns columns same -> unique same t ->
  (forall id r, t !! id = Some r -> id <> k -> same r1 r = false) -> unique same (<[k := r1]> t).
Proof.
  intros Hc Hu Hnew id id' r r'. rewrite !lookup_insert. repeat case_decide; subst; try done.
  - intros [= <-] Hr' Hs. rewrite (Hnew id' r') in Hs; done.
  - intros Hr [= <-] Hs%Hc. assert (Hs' : same r1 r = true) by (by apply Hc).
    rewrite (Hnew id r Hr) in Hs'; done.
  - intros Hr Hr' Hs. by eapply Hu.
Qed.

(** A row that changes but keeps its key. *)
Lemma unique_change {R C} (columns : R -> C) same (t : gmap string R) k r r1 :
  by_columns columns same -> unique same t -> t !! k = Some r -> columns r1 = columns r ->
  unique same (<[k := r1]> t).
Proof.
  intros Hc Hu Hk Heq. eapply unique_put; [done..|]. intros id r' Hr' Hne.
  destruct (same r1 r') eqn:Hs; [|done]. apply Hc in Hs. exfalso. apply Hne.
  apply (Hu id k r' r Hr' Hk). apply Hc. congruence.
Qed.

Lemma same_key_columns :
  by_columns (fun d => (def_TenantID d, def_ApplicationID d, def_Key d)) same_key.
Proof.
  intros d d'. unfold same_key. rewrite andb_true_iff, def_in_spec, String.eqb_eq.
  split; [intros [[-> ->] ->]; done|intros [= -> -> ->]; done].
Qed.
Lemma same_idempotency_columns :
  by_columns (fun i => (inst_TenantID i, inst_ApplicationID i, inst_IdempotencyKey i)) same_idempotency.
Proof.
  intros i i'. unfold same_idempotency. rewrite andb_true_iff, inst_in_spec, String.eqb_eq.
  split; [intros [[-> ->] ->]; done|intros [= -> -> ->]; done].
Qed.
Lemma same_business_columns :
  by_columns (fun i => (inst_TenantID i, inst_DefinitionID i, inst_BusinessKey i)) same_business.
Proof.
  intros i i'. unfold same_business. rewrite !andb_true_iff, !String.eqb_eq.
  split; [intros [[-> ->] ->]; done|intros [= -> -> ->]; done].
Qed.
Lemma same_node_columns : by_columns (fun t => (task_InstanceID t, task_NodeID t)) same_node.
Proof.
  intros t t'. unfold same_node. rewrite andb_true_iff, !String.eqb_eq.
  split; [intros [-> ->]; done|intros [= -> ->]; done].
Qed.

(** *** Preservation *)

Lemma keyed_insert {R} (id_of : R -> string) (t : gmap string R) r1 :
  (forall id r, t !! id = Some r -> id_of r = id) ->
  forall id r, <[id_of r1 := r1]> t !! id = Some r -> id_of r = id.
Proof. intros Ht id r. rewrite lookup_insert. case_decide; [by intros [= <-]|apply Ht]. Qed.

Lemma is_Some_insert {R} (t : gmap string R) k r1 id : is_Some (t !! id) -> is_Some (<[k := r1]> t !! id).
Proof. rewrite lookup_insert. by case_decide. Qed.

Lemma ok_same_tables db db' :
  db_definitions db' = db_definitions db -> db_revisions db' = db_revisions db ->
  db_instances db' = db_instances db -> db_tasks db' = db_tasks db ->
  (forall id h, db_history db' !! id = Some h -> hist_ID h = id) -> store_ok db -> store_ok db'.
Proof.
  intros Hd Hr Hi Ht Hh [[Kd Ki Kt _] ? ? ? ? ? ? ? ?].
  split; [split; rewrite ?Hd, ?Hi, ?Ht; done|rewrite ?Hd, ?Hr, ?Hi, ?Ht; done..].
Qed.

Lemma ok_emits d actor db db' : emits d actor db db' -> store_ok db -> store_ok db'.
Proof.
  intros (? & ? & ? & _ & ->) Hok. apply (ok_same_tables db); [done..|apply Hok|done].
Qed.

Lemma ok_put_history h db : store_ok db -> store_ok (put_history h db).
Proof.
  intros Hok. apply (ok_same_tables db); [done..|simpl; apply keyed_insert, Hok|done].
Qed.

(** A changed definition row together with the revisions it now has. *)
Lemma ok_put_definition d d' revisions db :
  store_ok db -> db_definitions db !! def_ID d = Some d -> definition_identity d' = definition_identity d ->
  revisions_of revisions d' ->
  (forall id n, id <> def_ID d -> revisions !! (id, n) = db_revisions db !! (id, n)) ->
  (forall id n r, revisions !! (id, n) = Some r -> is_Some (db_definitions db !! id)) ->
  store_ok (put_definition d' (set_revisions revisions db)).
Proof.
  intros [[Kd Ki Kt Kh] Hk Hr Ho Hid Hb Hi Hn Ht] Hl Heq Hrev Hother Howner.
  assert (Hids : def_ID d' = def_ID d) by (unfold definition_identity in Heq; congruence).
  split; simpl; [split; simpl; [by apply keyed_insert|done..]|..]; try done.
  - rewrite Hids. eapply unique_change; [apply same_key_columns|done|done|].
    unfold definition_identity in Heq. congruence.
  - rewrite Hids. intros id r. rewrite lookup_insert. case_decide as Hc; [by intros [= <-]|].
    intros Hr0. pose proof (Kd _ _ Hr0) as Hid0. specialize (Hr _ _ Hr0). unfold revisions_of in *.
    rewrite Hid0 in *. setoid_rewrite Hother; [done|done..].
  - intros id n r Hr0. by eapply is_Some_insert, Howner.
  - intros id i Hi0. destruct (Hi id i Hi0) as (? & ? & ?). split_and!; [by apply is_Some_insert|done..].
Qed.

Lemma ok_create v db db' : step_create v db db' -> store_ok db -> store_ok db'.
Proof.
  intros (Hf & Hkey & Hs & Hr0 & ->) [[Kd Ki Kt Kh] Hk Hr Ho Hid Hb Hi Hn Ht].
  split; simpl; [split; simpl; [by apply (keyed_insert def_ID _ (definition_row v))|done..]|..]; try done.
  - eapply unique_put; [apply same_key_columns|done|]. intros id d Hd _. by apply (Hkey id).
  - intros id d. rewrite lookup_insert. case_decide as Hc; [|apply Hr]. intros [= <-]. left.
    split; [done|]. split; [done|]. intros n. simpl. apply eq_None_not_Some. intros [r Hr1].
    apply Ho in Hr1. rewrite Hf in Hr1. by destruct Hr1.
  - intros id n r Hr1. eapply is_Some_insert, Ho, Hr1.
  - intros id i Hi0. destruct (Hi id i Hi0) as (? & ? & ?). split_and!; [by apply is_Some_insert|done..].
Qed.

Lemma revisions_of_same revisions d d' :
  revisions_of revisions d -> def_ID d' = def_ID d -> def_PublishedRevision d' = def_PublishedRevision d ->
  (def_Status d' = DefinitionDraft /\ def_Status d = DefinitionDraft \/
   def_Status d <> DefinitionDraft /\ def_Status d' ∈ [DefinitionPublished; DefinitionDisabled] /\
   definition_content d' = definition_content d /\ def_Key d' = def_Key d /\
   def_TenantID d' = def_TenantID d /\ def_ApplicationID d' = def_ApplicationID d) ->
  revisions_of revisions d'.
Proof.
  unfold revisions_of. intros Hrev -> -> [[Hs' Hs]|(Hs & Hs' & -> & -> & -> & ->)].
  - destruct Hrev as [(_ & ? & ?)|(Hin & _)]; [by left|]. rewrite Hs in Hin. set_solver.
  - destruct Hrev as [(? & _)|(_ & ? & ?)]; [done|by right].
Qed.

Lemma ok_change_definition d d' db db' :
  definition_change d d' db db' -> definition_identity d' = definition_identity d ->
  (forall revisions, revisions_of revisions d -> revisions_of revisions d') -> store_ok db -> store_ok db'.
Proof.
  intros (Hl & ->) Heq Hrev Hok.
  pose proof (ok_put_definition d d' (db_revisions db) db Hok Hl Heq) as Hput.
  eapply (ok_same_tables (put_definition d' (set_revisions (db_revisions db) db))); [done..|apply Hok|].
  apply Hput; [|done|apply (ok_revision_owner _ Hok)]. by eapply Hrev, ok_revisions.
Qed.

Lemma ok_publish d d' now actor db db' : step_publish d d' now actor db db' -> store_ok db -> store_ok db'.
Proof.
  intros (Hs & Hf & Hrow & Hl & p & _ & Hem) Hok. eapply ok_emits; [exact Hem|].
  destruct (ok_revisions _ Hok _ _ Hl) as [(_ & Hr0 & Hnone)|(Hin & _)].
  2: { rewrite Hs in Hin. set_solver. }
  row_inv Hrow. rewrite Hr0 in *. change (uint32_incr 0) with 1%Z in *.
  apply (ok_put_definition d); [done..| | |].
  - right. split; [left|]. split; [done|]. exists (revision_row d 1 now actor). simpl.
    rewrite lookup_insert_eq. split_and!; [done..|]. intros n [r Hr].
    rewrite lookup_insert in Hr. case_decide as Hc; [by injection Hc|]. by rewrite Hnone in Hr.
  - intros id n Hne. rewrite lookup_insert. case_decide as Hc; [|done]. by injection Hc as Hc _.
  - intros id n r. rewrite lookup_insert. case_decide as Hc; [injection Hc as <- _; by eauto|].
    apply (ok_revision_owner _ Hok).
Qed.

Lemma ok_put_instance i i' db :
  store_ok db -> db_instances db !! inst_ID i = Some i -> instance_identity i' = instance_identity i ->
  inst_Status i' ∈ instance_statuses -> (inst_Status i' = InstanceRunning <-> inst_FinishedAt i' = None) ->
  store_ok (put_instance i' db).
Proof.
  intros [[Kd Ki Kt Kh] Hk Hr Ho Hid Hb Hi Hn Ht] Hl Heq Hst Hfin.
  destruct (Hi _ _ Hl) as (Hdef & _ & _).
  unfold instance_identity in Heq. injection Heq as Hids Htn Hap Hdf Hrv Hbk Hik _ _ _ _ _ _ _.
  split; simpl; [split; simpl; [done|by apply keyed_insert|done..]|..]; try done.
  - rewrite Hids. eapply unique_change; [apply same_idempotency_columns|done|done|congruence].
  - rewrite Hids. eapply unique_change; [apply same_business_columns|done|done|congruence].
  - rewrite Hids. intros id r. rewrite lookup_insert. case_decide as Hc; [|apply Hi].
    intros [= <-]. by rewrite Hdf.
  - intros id t Ht0. destruct (Ht id t Ht0) as (? & ?). split; [by apply is_Some_insert|done].
Qed.

Lemma ok_instance_change i i' db db' :
  instance_change i i' db db' -> instance_identity i' = instance_identity i ->
  (inst_Status i' = InstanceRunning /\ inst_FinishedAt i' = inst_FinishedAt i \/
   inst_Status i' ∈ InstanceCancelled :: final_statuses /\ is_Some (inst_FinishedAt i')) ->
  store_ok db -> store_ok db'.
Proof.
  intros (Hl & Hrun & ->) Heq Hst Hok. apply (ok_put_instance i); [done..| |].
  - destruct Hst as [[-> _]|[Hin _]]; [by left|]. unfold instance_statuses, final_statuses in *. set_solver.
  - destruct (ok_instance _ Hok _ _ Hl) as (_ & _ & Hfin). destruct Hst as [[-> ->]|[Hin [now ->]]].
    + by rewrite <- Hfin.
    + split; [|done]. intros Hr. rewrite Hr in Hin. unfold final_statuses in Hin. set_solver.
Qed.

Lemma ok_advance i i' node now actor db db' :
  step_advance i i' node now actor db db' -> store_ok db -> store_ok db'.
Proof.
  intros (_ & Hrow & Hch). pose proof Hch as (_ & Hs & _). row_inv Hrow.
  eapply ok_instance_change; [exact Hch|done|]. by left.
Qed.

Lemma ok_start v def actor db db' : step_start v def actor db db' -> store_ok db -> store_ok db'.
Proof.
  intros (Hf & Huniq & Hdef & Hs & Hfin & Hem) Hok. eapply ok_emits; [exact Hem|].
  destruct Hok as [[Kd Ki Kt Kh] Hk Hr Ho Hid Hb Hi Hn Ht].
  split; simpl; [split; simpl; [done|by apply (keyed_insert inst_ID _ (instance_row v))|done..]|..]; try done.
  - eapply unique_put; [apply same_idempotency_columns|done|]. intros id i Hi0 _. by apply (Huniq id).
  - eapply unique_put; [apply same_business_columns|done|]. intros id i Hi0 _. by apply (Huniq id).
  - intros id i. rewrite lookup_insert. case_decide as Hc; [|apply Hi]. intros [= <-].
    split; [done|]. simpl. rewrite Hs, Hfin. split; [by left|done].
  - intros id t Ht0. destruct (Ht id t Ht0) as (? & ?). split; [by apply is_Some_insert|done].
Qed.

Lemma ok_put_task t t' db :
  store_ok db -> db_tasks db !! task_ID t = Some t -> task_identity t' = task_identity t ->
  (task_Status t' ∈ [TaskPending; TaskClaimed] <-> task_CompletedAt t' = None) ->
  store_ok (put_task t' db).
Proof.
  intros [[Kd Ki Kt Kh] Hk Hr Ho Hid Hb Hi Hn Ht] Hl Heq Hst.
  destruct (Ht _ _ Hl) as (Hinst & _).
  unfold task_identity in Heq. injection Heq as Hids _ _ Hin Hnode _ _ _ _ _.
  split; simpl; [split; simpl; [done|done|by apply keyed_insert|done]|..]; try done.
  - rewrite Hids. eapply unique_change; [apply same_node_columns|done|done|congruence].
  - rewrite Hids. intros id r. rewrite lookup_insert. case_decide as Hc; [|apply Ht].
    intros [= <-]. by rewrite Hin.
Qed.

Lemma ok_task_change t t' h db db' :
  task_change t t' h db db' -> task_identity t' = task_identity t -> task_Status t ∈ [TaskPending; TaskClaimed] ->
  (task_Status t' ∈ [TaskPending; TaskClaimed] /\ task_CompletedAt t' = task_CompletedAt t \/
   task_Status t' ∉ [TaskPending; TaskClaimed] /\ is_Some (task_CompletedAt t')) ->
  store_ok db -> store_ok db'.
Proof.
  intros (Hl & _ & _ & _ & _ & ->) Heq Hopen Hst Hok. apply ok_put_history, (ok_put_task t); [done..|].
  destruct (ok_task _ Hok _ _ Hl) as (_ & Hc). destruct Hst as [[Hin ->]|[Hin [now ->]]].
  - split; intros _; [by apply Hc|done].
  - split; [by intros|done].
Qed.

Lemma ok_create_task v now actor db db' : step_task v now actor db db' -> store_ok db -> store_ok db'.
Proof.
  intros (Hf & Hnode & Hs & Hc & db1 & Harr & Hem) Hok. eapply ok_emits; [exact Hem|].
  pose proof (arrive_evolves _ _ _ _ _ Harr) as [_ Htasks].
  assert (store_ok db1 /\ is_Some (db_instances db1 !! task_InstanceID v)) as [Hok1 Hinst].
  { destruct Harr as [(i & Hi & _ & _ & _ & ->)|(i & i' & <- & _ & Hadv)]; [by eauto|].
    split; [by eapply ok_advance|]. destruct Hadv as (_ & Hrow & _ & _ & ->). row_inv Hrow. simpl.
    rewrite lookup_insert_eq. by eauto. }
  rewrite <- Htasks in Hf, Hnode. destruct Hok1 as [[Kd Ki Kt Kh] Hk Hr Ho Hid Hb Hi Hn Ht].
  split; simpl; [split; simpl; [done|done|by apply (keyed_insert task_ID _ (task_row v))|done]|..]; try done.
  - eapply unique_put; [apply same_node_columns|done|]. intros id t Ht0 _. by apply (Hnode id).
  - intros id t. rewrite lookup_insert. case_decide as Hd; [|apply Ht]. intros [= <-].
    split; [done|]. simpl. rewrite Hs, Hc. split; [done|]. intros _. by left.
Qed.

Lemma foldr_delete_lookup {R} (t : gmap string R) ids id r :
  foldr delete t ids !! id = Some r -> t !! id = Some r.
Proof.
  induction ids as [|k ids IH]; simpl; [done|]. rewrite lookup_delete. case_decide; [done|apply IH].
Qed.

Lemma step_ok db db' : step db db' -> store_ok db -> store_ok db'.
Proof.
  intros [v Hs|v d d' now actor Hs|d d' now actor Hs|d d' now actor Hs|v def actor Hs
         |i i' reason now actor Hs|i i' node now actor Hs|i i' status result msg now actor Hfin Hs
         |v now actor Hs|t t' h now actor Hs|t t' h status dec com out now actor Hs
         |t t' h del now actor Hs|before ids Hs].
  - by apply (ok_create v).
  - destruct Hs as (Hd & Hrow & Hch). row_inv Hrow. eapply ok_change_definition; [exact Hch|done|].
    intros revisions Hrev. eapply revisions_of_same; [exact Hrev|done|done|by left].
  - by eapply ok_publish.
  - destruct Hs as (Hd & Hrow & Hch). row_inv Hrow. eapply ok_change_definition; [exact Hch|done|].
    intros revisions Hrev. eapply revisions_of_same; [exact Hrev|done|done|right].
    split; [by rewrite Hd|]. split; [by right; left|done].
  - by eapply ok_start.
  - destruct Hs as (Hrow & db1 & Hch & Hem). intros Hok. eapply ok_emits; [exact Hem|]. row_inv Hrow.
    eapply ok_instance_change; [exact Hch|done| |done]. right. split; [by left|by eexists].
  - by eapply ok_advance.
  - destruct Hs as (Hrow & db1 & Hch & Hem). intros Hok. eapply ok_emits; [exact Hem|]. row_inv Hrow.
    eapply ok_instance_change; [exact Hch|done| |done]. right. split; [by right|by eexists].
  - by eapply ok_create_task.
  - destruct Hs as (Hst & Hrow & Hch). row_inv Hrow. eapply ok_task_change; [exact Hch|done|rewrite Hst; by left|].
    left. split; [by right; left|done].
  - destruct Hs as (Hop%open_to_status & Hst & Hrow & db1 & Hch & Hem). intros Hok. eapply ok_emits; [exact Hem|].
    row_inv Hrow. eapply ok_task_change; [exact Hch|done|done| |done]. right. simpl.
    split; [destruct Hst as [-> | ->]; set_solver|by eexists].
  - destruct Hs as (Hop%open_to_status & Hrow & Hch). row_inv Hrow. eapply ok_task_change; [exact Hch|done|done|].
    left. split; [by left|done].
  - destruct Hs as (_ & ->). intros Hok. apply (ok_same_tables db); [done..| |done]. simpl.
    intros id h Hh%foldr_delete_lookup. by apply (k_history _ (ok_keyed _ Hok)).
Qed.

Lemma empty_ok : store_ok empty_db.
Proof. split; [split|..]; intros; simpl in *; by rewrite ?lookup_empty in *. Qed.

Lemma reachable_ok db : reachable db -> store_ok db.
Proof.
  intros Hr. pose proof empty_ok as Hok. induction Hr as [db|db db1 db' Hs _ IH]; [done|].
  apply IH. by eapply step_ok.
Qed.

Lemma empty_outbox : outbox_exact empty_db.
Proof. by split; intros id. Qed.

Lemma reachable_outbox db : reachable db -> outbox_exact db.
Proof.
  intros Hr. pose proof empty_outbox as Hok. induction Hr as [db|db db1 db' Hs _ IH]; [done|].
  apply IH. by eapply step_outbox.
Qed.
(** *** Tasks and their instances *)

Lemma emits_tables d actor db db' : emits d actor db db' ->
  db_tasks db' = db_tasks db /\ db_instances db' = db_instances db.
Proof. by intros (? & ? & ? & _ & ->). Qed.

Lemma task_change_same t t' h db db' : task_ID t' = task_ID t -> task_change t t' h db db' ->
  forall id, is_Some (db_tasks db' !! id) -> is_Some (db_tasks db !! id).
Proof.
  intros Hid (Ht & _ & _ & _ & _ & ->) id. cbn. rewrite Hid. destruct (decide (id = task_ID t)) as [->|Hne]; [by eexists|].
  by rewrite lookup_insert_ne.
Qed.

(** A step creates at most one task, for a running instance of its tenant and
    application. *)
Lemma step_new_task db db' id t : step db db' -> db_tasks db' !! id = Some t ->
  is_Some (db_tasks db !! id) \/
  exists i : WInstance, db_instances db !! task_InstanceID t = Some i /\
    inst_in (task_TenantID t) (task_ApplicationID t) i = true /\ inst_Status i = InstanceRunning.
Proof.
  assert (Hemit : forall d actor db1 db2, emits d actor db1 db2 -> db_tasks db2 = db_tasks db1)
    by (intros; by apply (emits_tables d actor)).
  intros [v Hs|v d d' now actor Hs|d d' now actor Hs|d d' now actor Hs|v def actor Hs
         |i i' reason now actor Hs|i i' node now actor Hs|i i' status result msg now actor Hfin Hs
         |v now actor Hs|t0 t' h now actor Hs|t0 t' h status dec com out now actor Hs
         |t0 t' h del now actor Hs|before ids Hs] Ht.
  - destruct Hs as (_ & _ & _ & _ & ->). left. by exists t.
  - destruct Hs as (_ & _ & _ & ->). left. by exists t.
  - destruct Hs as (_ & _ & _ & _ & p & _ & Hem). rewrite (Hemit _ _ _ _ Hem) in Ht. left. by exists t.
  - destruct Hs as (_ & _ & _ & ->). left. by exists t.
  - destruct Hs as (_ & _ & _ & _ & _ & Hem). rewrite (Hemit _ _ _ _ Hem) in Ht. left. by exists t.
  - destruct Hs as (_ & db1 & (_ & _ & ->) & Hem). rewrite (Hemit _ _ _ _ Hem) in Ht. left. by exists t.
  - destruct Hs as (_ & _ & _ & _ & ->). left. by exists t.
  - destruct Hs as (_ & db1 & (_ & _ & ->) & Hem). rewrite (Hemit _ _ _ _ Hem) in Ht. left. by exists t.
  - destruct Hs as (_ & _ & _ & _ & db1 & Harr & Hem). rewrite (Hemit _ _ _ _ Hem) in Ht. cbn in Ht.
    destruct (decide (id = task_ID v)) as [->|Hne].
    + rewrite lookup_insert_eq in Ht. injection Ht as <-. right. cbn [task_InstanceID task_row].
      destruct Harr as [(i & Hi & Hin & Hrun & _)|(i & i' & Hid & Hin & _ & _ & Hi & Hrun & _)]; exists i; [done|].
      by rewrite <- Hid.
    + rewrite lookup_insert_ne in Ht by done. left. destruct Harr as [(i & _ & _ & _ & _ & ->)|(i & i' & _ & _ & _ & _ & _ & _ & ->)];
        by exists t.
  - destruct Hs as (_ & Hrow & Hch). left. eapply task_change_same; [|exact Hch|by exists t]. by row_inv Hrow.
  - destruct Hs as (_ & _ & Hrow & db1 & Hch & Hem). rewrite (Hemit _ _ _ _ Hem) in Ht. left.
    eapply task_change_same; [|exact Hch|by exists t]. by row_inv Hrow.
  - destruct Hs as (_ & Hrow & Hch). left. eapply task_change_same; [|exact Hch|by exists t]. by row_inv Hrow.
  - destruct Hs as (_ & ->). left. by exists t.
Qed.

(** A task belongs to the tenant and the application of its instance. *)
Definition tasks_within db : Prop :=
  forall k v i, db_tasks db !! k = Some v -> db_instances db !! task_InstanceID v = Some i ->
    inst_in (task_TenantID v) (task_ApplicationID v) i = true.

Lemma instance_next_in t a i i' : instance_next i i' -> inst_in t a i = true -> inst_in t a i' = true.
Proof.
  intros [->|[Hid _]]; [done|]. unfold instance_identity in Hid. injection Hid. intros. unfold inst_in in *. congruence.
Qed.

Lemma step_tasks_within db db' : store_ok db -> step db db' -> tasks_within db -> tasks_within db'.
Proof.
  intros Hok Hst Hw k v i' Hv Hi'. destruct (step_evolves _ _ Hst) as [_ _ Hinst Htask _].
  assert (Hsame : exists i, db_instances db !! task_InstanceID v = Some i /\
    inst_in (task_TenantID v) (task_ApplicationID v) i = true).
  { destruct (step_new_task db db' k v Hst Hv) as [[u Hu]|(i & Hi & Hin & _)]; [|by exists i].
    destruct (Htask k u Hu) as (v' & Hv' & Hn). assert (v' = v) as -> by congruence.
    destruct (ok_task _ Hok k u Hu) as [[i Hi] _].
    assert (Hid : (task_InstanceID v, task_TenantID v, task_ApplicationID v) = (task_InstanceID u, task_TenantID u, task_ApplicationID u)).
    { destruct Hn as [->|[Hid _]]; [done|]. unfold task_identity in Hid. injection Hid. congruence. }
    injection Hid as -> -> ->. exists i. split; [done|]. by eapply Hw. }
  destruct Hsame as (i & Hi & Hin). destruct (Hinst _ i Hi) as (i1 & Hi1 & Hn). assert (i1 = i') as -> by congruence.
  by eapply instance_next_in.
Qed.

Lemma reachable_tasks_within db : reachable db -> tasks_within db.
Proof.
  intros Hr. assert (H0 : tasks_within empty_db) by (intros k v i Hv; cbn in Hv; by rewrite lookup_empty in Hv).
  pose proof empty_ok as Hok. induction Hr as [db|db db1 db' Hs _ IH]; [done|].
  apply IH; [by eapply step_tasks_within|by eapply step_ok].
Qed.
End consistent.
