(* ===== verification/QueriesTheory.v ===== *)
(** * What the list queries and the retention query return

    A page is a slice of the sorted rows that match; the pages together are all of
    them; and retention removes only history of instances that ended before the
    cutoff. *)
From S2P Require Import Prelude GoStd Json Model GraphCodec Graph World WorldTheory Repository.
From S2P Require Import Queries Lifecycle RepositoryTheory Invariants.
From Stdlib Require Import Ascii String.
From stdpp Require Import sorting.
Local Open Scope string_scope.
Local Open Scope list_scope.

Lemma order_by_perm {R} (le : R -> R -> bool) rows : order_by le rows ≡ₚ rows.
Proof. apply merge_sort_Permutation. Qed.

Lemma clip_take {R} z (rows l : list R) :
  (0 <= z)%Z -> List.length l <= List.length rows ->
  take (Z.to_nat (Z.min z (Z.of_nat (List.length rows)))) l = take (Z.to_nat z) l.
Proof.
  intros Hz Hl. destruct (Z.min_spec z (Z.of_nat (List.length rows))) as [[_ ->]|[? ->]]; [done|].
  rewrite Nat2Z.id, !take_ge; [done|lia|lia].
Qed.

Lemma clip_drop {R} z (rows : list R) :
  (0 <= z)%Z -> drop (Z.to_nat (Z.min z (Z.of_nat (List.length rows)))) rows = drop (Z.to_nat z) rows.
Proof.
  intros Hz. destruct (Z.min_spec z (Z.of_nat (List.length rows))) as [[_ ->]|[? ->]]; [done|].
  rewrite Nat2Z.id, !drop_ge; [done|lia|lia].
Qed.

Lemma limit_offset_Ok {R} limit offset (rows rows' : list R) :
  limit_offset limit offset rows = Ok rows' ->
  (0 <= limit)%Z /\ (0 <= offset)%Z /\ rows' = take (Z.to_nat limit) (drop (Z.to_nat offset) rows).
Proof.
  unfold limit_offset. destruct (Z.ltb_spec limit 0); [discriminate|].
  destruct (Z.ltb_spec offset 0); [discriminate|]. intros [= <-]. split; [done|]. split; [done|].
  rewrite clip_drop, clip_take by (rewrite ?length_drop; lia). done.
Qed.

Lemma limit_offset_fault {R} limit offset (rows : list R) e :
  limit_offset limit offset rows = Err e -> fault_error e.
Proof. unfold limit_offset. repeat case_match; intros [= <-]; by apply fault_foreign. Qed.

Lemma limit_offset_total {R} limit offset (rows : list R) :
  (0 <= limit)%Z -> (0 <= offset)%Z ->
  limit_offset limit offset rows = Ok (take (Z.to_nat limit) (drop (Z.to_nat offset) rows)).
Proof.
  intros Hl Ho. destruct (limit_offset limit offset rows) as [rows'|e] eqn:H.
  - by apply limit_offset_Ok in H as (_ & _ & ->).
  - unfold limit_offset in H. destruct (Z.ltb_spec limit 0), (Z.ltb_spec offset 0); done || lia.
Qed.

(** No overflow, no change. *)
Lemma wrap64_small z : (- 9223372036854775808 <= z < 9223372036854775808)%Z -> wrap64 z = z.
Proof. intros Hz. unfold wrap64. rewrite Z.mod_small; lia. Qed.

Lemma page_offset_exact page pageSize :
  (1 <= page)%Z -> (1 <= pageSize)%Z -> ((page - 1) * pageSize < 9223372036854775808)%Z ->
  page_offset page pageSize = ((page - 1) * pageSize)%Z.
Proof. intros Hp Hs Hlt. unfold page_offset. rewrite (wrap64_small (page - 1)), wrap64_small; nia. Qed.

(** Consecutive slices make up the list. *)
Lemma slices_cover {R} (l : list R) s n :
  mjoin ((fun p => take s (drop (p * s) l)) <$> seq 0 n) = take (n * s) l.
Proof.
  induction n as [|n IH]; [done|].
  rewrite seq_S, fmap_app, join_app, IH. simpl. rewrite app_nil_r, Nat.add_comm.
  by rewrite <- (take_drop (n * s) (take (n * s + s) l)), take_take, skipn_firstn_comm,
    Nat.min_l, Nat.add_comm, Nat.add_sub by lia.
Qed.

Section theory.
Context {Event : Type} {EF : EventFactory Event} {SQL : SqlText} {E : Env}.
Implicit Types db : DB Event.

Definition page_slice {R} (le : R -> R -> bool) (rows : list R) (page pageSize : Z) : list R :=
  take (Z.to_nat pageSize) (drop (Z.to_nat (page_offset page pageSize)) (order_by le rows)).

Lemma wp_list_page {R} cf lf (rows : DB Event -> list R) le page pageSize db :
  wp (list_page cf lf rows le page pageSize) (fun r db' => db' = db /\
    match r with
    | Ok p => page_Total p = Z.of_nat (List.length (rows db)) /\ page_Page p = page /\
              page_PageSize p = pageSize /\ (0 <= pageSize)%Z /\ (0 <= page_offset page pageSize)%Z /\
              page_Items p = page_slice le (rows db) page pageSize
    | Err e => fault_error e
    end) db.
Proof.
  apply wp_bind, wp_wrap_err, wp_query; [by intros|]. simpl.
  apply wp_bind, wp_wrap_err, wp_query; [by intros|].
  destruct (limit_offset _ _ _) as [items|e] eqn:Hl.
  - apply wp_ret. split; [done|]. by apply limit_offset_Ok in Hl as (? & ? & ->).
  - split; [done|]. by eapply fault_error_wrap, limit_offset_fault.
Qed.

Lemma page_slice_in {R} le (rows : list R) page pageSize x :
  x ∈ page_slice le rows page pageSize -> x ∈ rows.
Proof.
  unfold page_slice. rewrite elem_of_take. intros (i & Hi & _). rewrite lookup_drop in Hi.
  apply list_elem_of_lookup_2 in Hi. by rewrite (order_by_perm le rows) in Hi.
Qed.

Lemma page_slice_length {R} le (rows : list R) page pageSize :
  (0 <= pageSize)%Z ->
  (Z.of_nat (List.length (page_slice le rows page pageSize)) <= Z.min pageSize (Z.of_nat (List.length rows)))%Z.
Proof.
  intros Hp. unfold page_slice. rewrite length_take, length_drop, (Permutation_length (order_by_perm le rows)). lia.
Qed.

Lemma hydrate_fields d v : hydrateDefinition d = Ok v ->
  def_TenantID v = def_TenantID d /\ def_ApplicationID v = def_ApplicationID d.
Proof. unfold hydrateDefinition. repeat case_match; intros [= <-]. done. Qed.

Lemma hydrate_all_Ok l items : hydrate_all l = Ok items -> Forall2 (fun d v => hydrateDefinition d = Ok v) l items.
Proof.
  revert items. induction l as [|d l IH]; intros items; simpl; [by intros [= <-]|].
  destruct (hydrateDefinition d) eqn:Hd; [|done]. simpl. destruct (hydrate_all l); [|done]. simpl.
  intros [= <-]. constructor; [done|by apply IH].
Qed.

Lemma elem_of_table_rows {R} (t : gmap string R) r : r ∈ table_rows t <-> exists id, t !! id = Some r.
Proof.
  unfold table_rows. rewrite list_elem_of_fmap. split.
  - intros ([id r'] & -> & Hin). exists id. by apply elem_of_map_to_list.
  - intros [id Hid]. exists (id, r). split; [done|]. by apply elem_of_map_to_list.
Qed.

Lemma elem_of_filter_rows {R} cond (t : gmap string R) r :
  r ∈ List.filter cond (table_rows t) <-> cond r = true /\ exists id, t !! id = Some r.
Proof. rewrite list_elem_of_In, filter_In, <- list_elem_of_In, elem_of_table_rows. tauto. Qed.

(** Every listed definition is a matching row with its graph decoded. *)
Lemma wp_ListDefinitions filter db :
  wp (ListDefinitions filter) (fun r db' => db' = db /\
    match r with
    | Ok p => (forall v, v ∈ page_Items p -> exists d, definitionWhere filter d = true /\
                 def_TenantID v = def_TenantID d /\ def_ApplicationID v = def_ApplicationID d) /\
              (Z.of_nat (List.length (page_Items p)) <= Z.min (df_PageSize filter) (page_Total p))%Z
    | Err _ => True
    end) db.
Proof.
  apply wp_bind. eapply wp_mono; [apply wp_list_page|]. intros [p|e] db' [-> Hp]; [|done].
  destruct Hp as (Htot & _ & _ & Hs & _ & Hitems). apply wp_bind, wp_lift.
  destruct (hydrate_all (page_Items p)) as [items|e] eqn:Hh; [|done]. apply wp_ret. split; [done|]. simpl.
  apply hydrate_all_Ok in Hh. split.
  - intros v [i Hi]%list_elem_of_lookup_1. destruct (Forall2_lookup_r _ _ _ _ _ Hh Hi) as (d & Hd & Hv).
    exists d. split; [|by apply hydrate_fields]. apply list_elem_of_lookup_2 in Hd.
    rewrite Hitems in Hd. by apply page_slice_in, elem_of_filter_rows in Hd as [? _].
  - rewrite <- (Forall2_length _ _ _ Hh), Hitems, Htot. by apply page_slice_length.
Qed.

(** ** Retention *)

Lemma history_expired_spec before db h : history_expired before db h = true <-> expired before db h.
Proof.
  unfold history_expired, expired. destruct (db_instances db !! hist_InstanceID h) as [i|].
  - rewrite !andb_true_iff, String.eqb_eq. unfold oneOf.
    assert (Hin : existsb (String.eqb (inst_Status i))
      [InstanceCompleted; InstanceRejected; InstanceCancelled; InstanceFailed] = true <->
      inst_Status i ∈ [InstanceCompleted; InstanceRejected; InstanceCancelled; InstanceFailed]).
    { rewrite existsb_exists, list_elem_of_In. setoid_rewrite String.eqb_eq.
      split; [by intros (x & ? & ->)|by exists (inst_Status i)]. }
    rewrite Hin. destruct (inst_FinishedAt i) as [f|] eqn:Hf.
    + rewrite Z.ltb_lt. split; [intros [[? ?] ?]; by exists i, f|].
      intros (i' & f' & [= <-] & ? & ? & Hf' & ?). rewrite Hf in Hf'. by injection Hf' as <-.
    + split; [by intros [_ ?]|]. intros (i' & f' & [= <-] & ? & ? & Hf' & ?). by rewrite Hf in Hf'.
  - split; [done|by intros (? & ? & ? & _)].
Qed.

Lemma NoDup_rows {R} (id_of : R -> string) (t : gmap string R) :
  (forall id r, t !! id = Some r -> id_of r = id) -> NoDup (id_of <$> table_rows t).
Proof.
  intros Hk. unfold table_rows. rewrite <- list_fmap_compose.
  rewrite (list_fmap_ext (id_of ∘ snd) fst); [apply NoDup_fst_map_to_list|].
  intros i [k r] Hi. simpl. apply Hk, elem_of_map_to_list. by eapply list_elem_of_lookup_2.
Qed.

Lemma NoDup_filter_fmap {R} (f : R -> string) (p : R -> bool) (l : list R) :
  NoDup (f <$> l) -> NoDup (f <$> List.filter p l).
Proof.
  induction l as [|x l IH]; simpl; [done|]. intros [Hx Hl]%NoDup_cons.
  destruct (p x); simpl; [|by apply IH]. apply NoDup_cons. split; [|by apply IH].
  rewrite list_elem_of_fmap in *. intros (y & Hy & Hin). apply Hx. exists y. split; [done|].
  apply list_elem_of_In, filter_In in Hin as [Hin _]. by apply list_elem_of_In.
Qed.

Lemma filter_all {R} (p : R -> bool) (l : list R) : (forall x, x ∈ l -> p x = true) -> List.filter p l = l.
Proof.
  induction l as [|x l IH]; simpl; intros Hp; [done|].
  rewrite (Hp x), IH; [done| |by left]. intros y Hy. apply Hp. by right.
Qed.

Lemma remove_dups_length (l : list string) : NoDup l -> List.length (remove_dups l) = List.length l.
Proof.
  intros Hl. apply Permutation_length, NoDup_Permutation; [apply NoDup_remove_dups|done|].
  intros x. apply elem_of_remove_dups.
Qed.

Lemma foldr_delete_None {R} (t : gmap string R) ids id : id ∈ ids -> foldr delete t ids !! id = None.
Proof.
  induction ids as [|k ids IH]; simpl; [by intros ?%not_elem_of_nil|].
  intros [->|Hin]%elem_of_cons; [apply lookup_delete_eq|].
  rewrite lookup_delete. case_decide; [done|by apply IH].
Qed.

(** The rows one call selects. *)
Definition oldest_expired before limit db : list TaskHistory :=
  take (Z.to_nat limit)
    (order_by history_order (List.filter (history_expired before db) (table_rows (db_history db)))).

Lemma oldest_expired_ids before limit db :
  keyed db -> NoDup (hist_ID <$> oldest_expired before limit db) /\
  forall id, id ∈ hist_ID <$> oldest_expired before limit db ->
    exists h, db_history db !! id = Some h /\ expired before db h.
Proof.
  intros Hk. unfold oldest_expired. split.
  - rewrite fmap_take. eapply sublist_NoDup; [|apply sublist_take].
    rewrite (order_by_perm _ _). apply NoDup_filter_fmap, NoDup_rows, Hk.
  - intros id (h & -> & Hin)%list_elem_of_fmap. apply elem_of_take in Hin as (i & Hi & _).
    apply list_elem_of_lookup_2 in Hi. rewrite (order_by_perm _ _) in Hi.
    apply elem_of_filter_rows in Hi as [He%history_expired_spec [id Hid]].
    exists h. by rewrite (k_history _ Hk _ _ Hid).
Qed.

Lemma wp_DeleteTaskHistoryBefore before limit db :
  keyed db ->
  wp (DeleteTaskHistoryBefore before limit) (fun r db' =>
    let ids := hist_ID <$> oldest_expired before limit db in
    match r with
    | Ok n => step_purge before ids db db' /\ n = Z.of_nat (List.length ids) /\ (0 <= limit)%Z
    | Err e => fault_error e /\ (db' = db \/ step_purge before ids db db')
    end) db.
Proof.
  intros Hk. destruct (oldest_expired_ids before limit db Hk) as [Hnd Hids].
  apply wp_bind, wp_query; [intros e He; split; [done|by left]|]. unfold expired_ids.
  destruct (limit_offset _ _ _) as [rows|e] eqn:Hl.
  2: { split; [by eapply limit_offset_fault|by left]. }
  apply limit_offset_Ok in Hl as (Hlim & _ & Hrows). rewrite drop_0 in Hrows.
  fold (oldest_expired before limit db) in Hrows. subst rows.
  destruct (Nat.eqb_spec (List.length (hist_ID <$> oldest_expired before limit db)) 0) as [Hz|Hz].
  { apply wp_ret. rewrite Hz. apply length_zero_iff_nil in Hz. rewrite Hz. split_and!; [|done..].
    split; [by intros id ?%not_elem_of_nil|]. by destruct db. }
  assert (Hstep : step_purge before (hist_ID <$> oldest_expired before limit db) db
    (set_history (foldr delete (db_history db) (hist_ID <$> oldest_expired before limit db)) db))
    by (by split).
  apply wp_bind, wp_exec; [intros e He; split; [done|by left]|]. simpl.
  apply wp_rows_affected; [intros e He; split; [done|by right]|].
  split; [done|]. split; [|done]. f_equal. rewrite filter_all; [by apply remove_dups_length|].
  intros id Hin. rewrite elem_of_remove_dups in Hin. destruct (Hids id Hin) as (h & Hh & _).
  apply bool_decide_eq_true_2. by exists h.
Qed.
End theory.
