(* ===== verification/RepositorySpec.v ===== *)
(** * The contract of the repository

    A sequence of calls to the repository, in any environment, takes the tables
    through states of the abstract store; so what [Invariants] proves of the store
    holds of the tables the code leaves behind. *)
From S2P Require Import Prelude GoStd Json Model GraphCodec Graph GraphSpec World WorldTheory.
From S2P Require Import Repository Queries Lifecycle RepositoryTheory Invariants QueriesTheory.
From Stdlib Require Import Ascii String.
From stdpp Require Import relations sorting.
Local Open Scope string_scope.
Local Open Scope list_scope.

(** ** Calls that change the tables *)

Inductive call : Type :=
| CallCreateDefinition (v : WDefinition)
| CallUpdateDefinition (v : WDefinition) (expectedVersion : Z) (actor : string)
| CallPublishDefinition (ctx : Ctx) (tenantID applicationID id : string) (expectedVersion : Z) (actor : string)
| CallDisableDefinition (tenantID applicationID id : string) (expectedVersion : Z) (actor : string)
| CallCreateInstance (ctx : Ctx) (v : WInstance) (definition : WDefinition)
| CallCancelInstance (ctx : Ctx) (tenantID applicationID id : string) (expectedVersion : Z) (reason actor : string)
| CallUpdateInstanceNode (tenantID applicationID id nodeID actor : string)
| CallFinishInstance (ctx : Ctx) (tenantID applicationID id status resultJSON errorMessage actor : string)
| CallCreateTask (ctx : Ctx) (v : Task)
| CallClaimTask (tenantID applicationID id : string) (expectedVersion : Z) (actor : string)
| CallCompleteTask (ctx : Ctx) (current : Task) (decision comment outputJSON actor : string)
| CallDelegateTask (current : Task) (delegateTo reason actor : string)
| CallDeleteTaskHistoryBefore (before limit : Z).

Section calls.
Context {Event : Type} {EF : EventFactory Event} {SQL : SqlText} {E : Env}.
Implicit Types db : DB Event.

Definition ignore {A} (m : M Event A) : M Event unit := _ ← m; mret tt.

Definition run (c : call) : M Event unit :=
  match c with
  | CallCreateDefinition v => ignore (CreateDefinition v)
  | CallUpdateDefinition v ev actor => ignore (UpdateDefinition v ev actor)
  | CallPublishDefinition ctx t a id ev actor => ignore (PublishDefinition ctx t a id ev actor)
  | CallDisableDefinition t a id ev actor => ignore (DisableDefinition t a id ev actor)
  | CallCreateInstance ctx v d => ignore (CreateInstance ctx v d)
  | CallCancelInstance ctx t a id ev reason actor => ignore (CancelInstance ctx t a id ev reason actor)
  | CallUpdateInstanceNode t a id node actor => ignore (UpdateInstanceNode t a id node actor)
  | CallFinishInstance ctx t a id status result message actor =>
      ignore (FinishInstance ctx t a id status result message actor)
  | CallCreateTask ctx v => ignore (CreateTask ctx v)
  | CallClaimTask t a id ev actor => ignore (ClaimTask t a id ev actor)
  | CallCompleteTask ctx current decision comment output actor =>
      ignore (CompleteTask ctx current decision comment output actor)
  | CallDelegateTask current delegate reason actor => ignore (DelegateTask current delegate reason actor)
  | CallDeleteTaskHistoryBefore before limit => ignore (DeleteTaskHistoryBefore before limit)
  end.

(** What the callers (the service, the activities, the cleaner) pass: new rows are
    drafts, running or pending; the workflow ends an instance with one of its three
    statuses; a task that is decided or delegated was read from its row. *)
Definition call_ok (c : call) db : Prop :=
  match c with
  | CallCreateDefinition v => def_Status v = DefinitionDraft /\ def_PublishedRevision v = 0%Z
  | CallCreateInstance _ v _ => inst_Status v = InstanceRunning /\ inst_FinishedAt v = None
  | CallFinishInstance _ _ _ _ status _ _ _ => status ∈ final_statuses
  | CallCreateTask _ v => task_Status v = TaskPending /\ task_CompletedAt v = None
  | CallCompleteTask _ current _ _ _ _ | CallDelegateTask current _ _ _ => current_read current db
  | _ => True
  end.

Lemma wp_ignore {A} (m : M Event A) (P : DB Event -> Prop) db :
  wp m (fun _ db' => P db') db -> wp (ignore m) (fun _ db' => P db') db.
Proof. intros Hm. apply wp_bind. eapply wp_mono; [exact Hm|]. intros [a|e] db' HP; [by apply wp_ret|done]. Qed.

Lemma run_refines c db :
  keyed db -> call_ok c db -> wp (run c) (fun _ db' => db' = db \/ step db db') db.
Proof.
  intros Hk Hok. destruct c; simpl in *; apply wp_ignore; eapply wp_mono.
  - destruct Hok. by apply wp_CreateDefinition.
  - intros [?|e] db'; [intros [? _]; right; by eapply st_create|].
    intros [_ [?|?]]; [by left|right; by eapply st_create].
  - by apply wp_UpdateDefinition.
  - intros [?|e] db'; simpl.
    + intros (now & d & d' & (_ & _ & _ & Hs) & _). right. by eapply st_edit.
    + intros [[? _]|[(now & d & d' & _ & _ & _ & Hs) _]]; [by left|right; by eapply st_edit].
  - by apply wp_PublishDefinition.
  - intros [?|e] db'; [|by intros [? _]; left].
    intros (d & d' & now & _ & _ & _ & Hs & _). right. by eapply st_publish.
  - by apply wp_DisableDefinition.
  - intros [?|e] db'; simpl.
    + intros (now & d & d' & (_ & _ & _ & Hs) & _). right. by eapply st_disable.
    + intros [[? _]|[(now & d & d' & _ & _ & _ & Hs) _]]; [by left|right; by eapply st_disable].
  - destruct Hok. by apply wp_CreateInstance.
  - intros [?|e] db'; [intros [_ Hs]; right; by eapply st_start|by intros [? _]; left].
  - by apply wp_CancelInstance.
  - intros [?|e] db'; [|by intros [? _]; left].
    intros (i & now & _ & _ & _ & Hs). right. by eapply st_cancel.
  - by apply wp_UpdateInstanceNode.
  - intros [?|e] db'; simpl.
    + intros [(i & i' & now & _ & _ & Hs)|[? _]]; [right; by eapply st_advance|by left].
    + intros [[? _]|[(i & i' & now & _ & _ & Hs) _]]; [by left|right; by eapply st_advance].
  - by apply wp_FinishInstance.
  - intros [?|e] db'; [|by intros [? _]; left].
    intros [(i & now & _ & _ & Hs)|[? _]]; [right; by eapply st_finish|by left].
  - destruct Hok. by apply wp_CreateTask.
  - intros [?|e] db'; [|by intros [? _]; left].
    intros [[_ [now Hs]]|[? _]]; [right; by eapply st_task|by left].
  - by apply wp_ClaimTask.
  - intros [?|e] db'; [|by intros [? _]; left].
    intros (k & h & now & _ & _ & _ & Hs). right. by eapply st_claim.
  - by apply wp_CompleteTask.
  - intros [?|e] db'; [|by intros [? _]; left].
    intros (h & now & Hs). right. by eapply st_complete.
  - by apply wp_DelegateTask.
  - intros [?|e] db'; simpl.
    + intros (h & now & Hs). right. by eapply st_delegate.
    + intros [[? _]|[(k' & h & now & Hs) _]]; [by left|right; by eapply st_delegate].
  - by apply wp_DeleteTaskHistoryBefore.
  - intros [?|e] db'; simpl; [intros [Hs _]; right; by eapply st_purge|].
    intros [_ [?|Hs]]; [by left|right; by eapply st_purge].
Qed.

(** ** Sequences of calls *)

Inductive run_step (w : World Event) : World Event -> Prop :=
| rs_call c : call_ok c (w_db w) -> run_step w (run c w).2
(** Time passes and other parts of the process read the clock or draw identifiers;
    the tables stay. *)
| rs_tick n : run_step w (mkWorld (w_db w) n).

(** Worlds that calls reach from empty tables. *)
Definition started (w : World Event) : Prop := exists n, rtc run_step (mkWorld empty_db n) w.

Lemma run_step_store w w' :
  store_ok (w_db w) -> run_step w w' -> w_db w' = w_db w \/ step (w_db w) (w_db w').
Proof.
  intros Hok [c Hc|n]; [|by left].
  apply (wp_world (run c) (fun _ db' => db' = w_db w \/ step (w_db w) db')).
  apply run_refines; [apply Hok|done].
Qed.

Lemma run_steps_store w w' :
  store_ok (w_db w) -> rtc run_step w w' -> rtc step (w_db w) (w_db w') /\ store_ok (w_db w').
Proof.
  intros Hok Hrtc. induction Hrtc as [w|w w1 w' Hs _ IH]; [done|].
  destruct (run_step_store w w1 Hok Hs) as [Heq|Hst].
  - rewrite Heq in IH. by apply IH.
  - destruct (IH (step_ok _ _ Hst Hok)) as [Hr Hok']. split; [by eapply rtc_l|done].
Qed.

Lemma started_reachable w : started w -> reachable (w_db w).
Proof. intros [n Hn]. by apply (run_steps_store (mkWorld empty_db n) w empty_ok) in Hn as [? _]. Qed.

Lemma started_steps w w' :
  started w -> rtc run_step w w' -> rtc step (w_db w) (w_db w').
Proof. intros Hs Hr. apply run_steps_store; [by apply reachable_ok, started_reachable|done]. Qed.

Lemma started_more w w' : started w -> rtc run_step w w' -> started w'.
Proof. intros [n Hn] Hr. exists n. by etrans. Qed.

Lemma ignore_world {A} (m : M Event A) w : (ignore m w).2 = (m w).2.
Proof. unfold ignore, mbind, stE_bind. by destruct (m w) as [[a|e] w']. Qed.

(** A method of the repository is a step of the sequence. *)
Lemma started_call {A} c (m : M Event A) r w w' :
  started w -> call_ok c (w_db w) -> (run c = ignore m) -> m w = (r, w') -> started w'.
Proof.
  intros Hs Hc Hrun Hm. apply (started_more w); [done|]. apply rtc_once.
  replace w' with (run c w).2; [by apply rs_call|]. by rewrite Hrun, ignore_world, Hm.
Qed.

Lemma task_identity_kept t t' : rtc task_next t t' -> task_identity t' = task_identity t.
Proof.
  induction 1 as [|t t1 t' Hn _ IH]; [done|]. rewrite IH. by destruct Hn as [->|[? _]].
Qed.

(** The row a successful [CreateTask] returns or leaves behind. *)
Lemma CreateTask_row ctx v t w w1 :
  started w -> task_Status v = TaskPending -> task_CompletedAt v = None ->
  CreateTask ctx v w = (Ok t, w1) ->
  exists id row, db_tasks (w_db w1) !! id = Some row /\ task_ID row = task_ID t /\ same_node v row = true.
Proof.
  intros Hs Hp Hc Hrun. pose proof (reachable_ok _ (started_reachable _ Hs)) as Hok.
  pose proof (wp_world _ _ _ (wp_CreateTask ctx v _ (ok_keyed _ Hok) Hp Hc)) as Hw.
  rewrite Hrun in Hw. destruct Hw as [[-> [now Hst]]|(Heq & k & Hk & _ & Hsame)]; simpl in *.
  - destruct Hst as (_ & _ & _ & _ & db1 & _ & (? & ? & ? & _ & ->)). simpl.
    exists (task_ID v), (task_row v). rewrite lookup_insert_eq. split; [done|]. split; [done|].
    by apply same_node_columns.
  - exists k, t. by rewrite Heq.
Qed.

Lemma CreateTask_again ctx ctx' (v v' t t' : Task) (w w1 w2 w3 : World Event) :
  started w -> task_Status v = TaskPending -> task_CompletedAt v = None ->
  CreateTask ctx v w = (Ok t, w1) -> rtc run_step w1 w2 ->
  task_TenantID v' = task_TenantID v -> task_ApplicationID v' = task_ApplicationID v ->
  task_InstanceID v' = task_InstanceID v -> task_NodeID v' = task_NodeID v ->
  task_Status v' = TaskPending -> task_CompletedAt v' = None ->
  CreateTask ctx' v' w2 = (Ok t', w3) ->
  task_ID t' = task_ID t /\ w_db w3 = w_db w2.
Proof.
  intros Hs Hp Hc Hrun Hr Ht Ha Hin Hno Hp' Hc' Hrun'.
  assert (Hs1 : started w1) by (by eapply (started_call (CallCreateTask ctx v))).
  destruct (CreateTask_row ctx v t w w1 Hs Hp Hc Hrun) as (id & row & Hrow & Hid & Hnode).
  destruct (rtc_tasks _ _ (started_steps _ _ Hs1 Hr) id row Hrow) as (row' & Hrow' & Hn).
  apply task_identity_kept in Hn. unfold task_identity in Hn. injection Hn as HID _ _ HI HN _ _ _ _ _.
  assert (Hnode' : same_node v' row' = true).
  { apply same_node_columns. apply same_node_columns in Hnode. congruence. }
  pose proof (reachable_ok _ (started_reachable _ (started_more _ _ Hs1 Hr))) as Hok.
  pose proof (wp_world _ _ _ (wp_CreateTask ctx' v' _ (ok_keyed _ Hok) Hp' Hc')) as Hw.
  rewrite Hrun' in Hw. destruct Hw as [[_ (now & _ & Hfresh & _)]|(Heq & k & Hk & _ & Hsame)]; simpl in *.
  - by rewrite (Hfresh id row' Hrow') in Hnode'.
  - split; [|done]. assert (k = id) as ->.
    { apply (ok_node _ Hok k id t' row' Hk Hrow'). apply same_node_columns.
      apply same_node_columns in Hnode', Hsame. congruence. }
    assert (t' = row') as -> by congruence. congruence.
Qed.

Lemma retention_batch before limit (w : World Event) :
  started w -> (1 <= limit)%Z ->
  match DeleteTaskHistoryBefore before limit w with
  | (Ok n, w') => exists ids,
      step_purge before ids (w_db w) (w_db w') /\ NoDup ids /\ n = Z.of_nat (List.length ids) /\ (n <= limit)%Z /\
      ((n < limit)%Z -> forall id h, db_history (w_db w') !! id = Some h -> ~ expired before (w_db w') h)
  | (Err e, w') => fault_error e /\
      (w_db w' = w_db w \/ exists ids, step_purge before ids (w_db w) (w_db w'))
  end.
Proof.
  intros Hs Hl. pose proof (reachable_ok _ (started_reachable _ Hs)) as Hok.
  pose proof (wp_world _ _ _ (wp_DeleteTaskHistoryBefore before limit _ (ok_keyed _ Hok))) as Hw.
  destruct (DeleteTaskHistoryBefore before limit w) as [[n|e] w']; simpl in Hw.
  - destruct Hw as (Hp & Hn & _). eexists. split; [exact Hp|]. split; [by apply oldest_expired_ids, Hok|]. split; [exact Hn|].
    rewrite length_fmap in Hn. unfold oldest_expired in Hn.
    rewrite length_take in Hn. split; [lia|].
    intros Hlt id h Hh Hex. destruct Hp as [_ Hp]. rewrite Hp in Hh. simpl in Hh.
    assert (Hex0 : expired before (w_db w) h) by (by rewrite Hp in Hex).
    pose proof (foldr_delete_lookup _ _ _ _ Hh) as Hh0.
    assert (Hin : id ∈ hist_ID <$> oldest_expired before limit (w_db w)).
    { apply list_elem_of_fmap. exists h. split; [by rewrite (k_history _ (ok_keyed _ Hok) _ _ Hh0)|].
      unfold oldest_expired. rewrite take_ge by lia. rewrite (order_by_perm _ _).
      apply elem_of_filter_rows. split; [by apply history_expired_spec|by exists id]. }
    by rewrite (foldr_delete_None _ _ _ Hin) in Hh.
  - destruct Hw as [? [?|?]]; (split; [done|]); [by left|right; by eexists].
Qed.

(** A list of calls, for concrete runs. *)
Definition run_all (cs : list call) (w : World Event) : World Event :=
  foldl (fun w c => (run c w).2) w cs.

Fixpoint calls_ok (cs : list call) (w : World Event) : Prop :=
  match cs with
  | [] => True
  | c :: cs' => call_ok c (w_db w) /\ calls_ok cs' (run c w).2
  end.

Lemma run_all_steps cs w : calls_ok cs w -> rtc run_step w (run_all cs w).
Proof.
  revert w. induction cs as [|c cs IH]; intros w; simpl; [done|].
  intros [Hc Hcs]. eapply rtc_l; [by apply rs_call|by apply IH].
Qed.
End calls.

(** ** A concrete environment

    No call fails, the clock ticks, identifiers are numbered, and the events are the
    domain events themselves. *)
Module Sample.
#[export, refine] Instance calm : Env := {|
  env_fault := fun _ => None;
  env_now := fun n => (1000 + Z.of_nat n)%Z;
  env_uuid := fun n => "id-" +:+ print_N (N.of_nat n)
|}.
Proof. done. Defined.

#[export, refine] Instance domain_events : EventFactory DomainEvent := {|
  ev_build := fun _ _ d => Ok d;
  ev_key := domain_key
|}.
Proof. - by intros _ _ d ev [= <-]. - done. Defined.

#[export] Instance ascii_text : SqlText := {|
  sql_lower := fun s => s;
  go_lower := fun s => s;
  sql_like := fun s p => String.eqb ("%" +:+ s +:+ "%") p;
  collate_le := String.leb
|}.

Definition ctx : Ctx := mkCtx (Some (mkPrincipal "alice" "acme" "member-1" TypeUser)) "req-1" "trace-1".

Definition definition : WDefinition :=
  let json := encodeGraph sample_nodes sample_edges in
  mkDefinition "def-1" "acme" "crm" "order" "Order" "" DefinitionDraft 0 json.1 json.2 1 5 5
    "alice" "alice" sample_nodes sample_edges.

Definition instance : WInstance :=
  mkInstance "inst-1" "acme" "crm" "def-1" 1 "order-77" "key-0001" "Order 77" "alice" InstanceRunning "" "{}"
    "{}" "" "" "workflow:acme:inst-1" "" 7 None 1 7 7 "alice" "alice".

Definition task : Task :=
  mkTask "task-1" "acme" "crm" "inst-1" "approve" "Approve" AssigneeRole "manager" "" TaskPending "" ""
    "{}" "{}" None None 1 8 8 "worker" "worker".

(** The calls of one run: publish, start, approve, finish. *)
Definition setup : list call := [
  CallCreateDefinition definition;
  CallPublishDefinition ctx "acme" "crm" "def-1" 1 "alice";
  CallCreateInstance ctx instance definition;
  CallCreateTask ctx task ].

Definition decide_and_finish : list call := [
  CallCompleteTask ctx task DecisionApprove "ok" "{}" "bob";
  CallFinishInstance ctx "acme" "crm" "inst-1" InstanceCompleted "{}" "" "worker" ].

Definition w0 : World DomainEvent := mkWorld empty_db 0.
Definition w1 : World DomainEvent := Eval vm_compute in run_all setup w0.
Definition w2 : World DomainEvent := Eval vm_compute in run_all decide_and_finish w1.

Lemma setup_ok : calls_ok setup w0.
Proof. vm_compute. repeat split. Qed.

Lemma task_read : current_read task (w_db w1).
Proof. intros k Hk _. vm_compute in Hk. by injection Hk as <-. Qed.

Lemma setup_run : run_all setup w0 = w1.
Proof. vm_compute. reflexivity. Qed.

Lemma started_w1 : started w1.
Proof. exists 0. rewrite <- setup_run. apply run_all_steps, setup_ok. Qed.

Lemma finish_run : run_all decide_and_finish w1 = w2.
Proof. vm_compute. reflexivity. Qed.

Lemma finish_steps : rtc run_step w1 w2.
Proof.
  rewrite <- finish_run. apply run_all_steps. split; [exact task_read|]. split; [|done].
  by left.
Qed.

Lemma started_w2 : started w2.
Proof. destruct started_w1 as [n Hn]. exists n. etrans; [exact Hn|apply finish_steps]. Qed.
End Sample.

(** ** Properties *)

Section properties.
Context {Event : Type} {EF : EventFactory Event} {SQL : SqlText} {E : Env}.

Lemma confined_list {R} cf lf (cond : R -> bool) (table : DB Event -> gmap string R) le page size
    (inside : R -> Prop) (w : World Event) :
  (forall r, cond r = true -> inside r) ->
  match list_page cf lf (fun db => List.filter cond (table_rows (table db))) le page size w with
  | (Ok p, w') => w_db w' = w_db w /\ (forall r, r ∈ page_Items p -> inside r) /\
      (Z.of_nat (List.length (page_Items p)) <= Z.min size (page_Total p))%Z
  | (Err _, w') => w_db w' = w_db w
  end.
Proof.
  intros Hin. pose proof (wp_world _ _ _ (wp_list_page cf lf
    (fun db => List.filter cond (table_rows (table db))) le page size (w_db w))) as Hw.
  destruct (list_page _ _ _ _ _ _ w) as [[p|e] w']; simpl in Hw; [|by destruct Hw].
  destruct Hw as (-> & -> & _ & _ & ? & _ & ->). split; [done|]. split; [|by apply page_slice_length].
  intros r Hr%page_slice_in. apply elem_of_filter_rows in Hr as [Hc _]. by apply Hin.
Qed.

(** C3. Refinement: whatever the environment does, one call to the repository from a
    state that earlier calls left behind either leaves the tables unchanged or takes
    exactly one step of the abstract store. *)
Theorem calls_refine_store (w : World Event) (c : call) :
  started w -> call_ok c (w_db w) ->
  w_db (run c w).2 = w_db w \/ step (w_db w) (w_db (run c w).2).
Proof.
  intros Hs Hc. apply run_step_store; [by apply reachable_ok, started_reachable|by apply rs_call].
Qed.


(** C5. An instance that is completed, rejected, cancelled or failed keeps its row
    for ever: no later sequence of calls changes any column of it. *)
Theorem finished_instance_frozen (w w' : World Event) id i :
  started w -> rtc run_step w w' ->
  db_instances (w_db w) !! id = Some i -> inst_Status i <> InstanceRunning ->
  db_instances (w_db w') !! id = Some i.
Proof.
  intros Hs Hr Hi Hst. destruct (rtc_instances _ _ (started_steps _ _ Hs Hr) id i Hi) as (i' & Hi' & Hn).
  by rewrite (rtc_frozen _ _ _ (fun i' => instance_ended_next i i' Hst) Hn) in Hi'.
Qed.

(** A task that was approved or rejected keeps its row for ever. *)
Theorem decided_task_frozen (w w' : World Event) id t :
  started w -> rtc run_step w w' ->
  db_tasks (w_db w) !! id = Some t -> task_Status t <> TaskPending -> task_Status t <> TaskClaimed ->
  db_tasks (w_db w') !! id = Some t.
Proof.
  intros Hs Hr Hi H1 H2. assert (Hst : task_Status t ∉ [TaskPending; TaskClaimed]) by set_solver.
  destruct (rtc_tasks _ _ (started_steps _ _ Hs Hr) id t Hi) as (t' & Ht' & Hn).
  by rewrite (rtc_frozen _ _ _ (fun t' => task_decided_next t t' Hst) Hn) in Ht'.
Qed.

(** C6. A definition that left the draft status never becomes a draft again and its
    name, description and graph never change; a disabled one never changes at all;
    and a published revision row is immutable. *)
Theorem published_definition_frozen (w w' : World Event) id d :
  started w -> rtc run_step w w' ->
  db_definitions (w_db w) !! id = Some d -> def_Status d <> DefinitionDraft ->
  (exists d', db_definitions (w_db w') !! id = Some d' /\ def_Status d' <> DefinitionDraft /\
     definition_content d' = definition_content d /\ def_PublishedRevision d' = def_PublishedRevision d /\
     (def_Status d = DefinitionDisabled -> d' = d)) /\
  (forall n r, db_revisions (w_db w) !! (id, n) = Some r -> db_revisions (w_db w') !! (id, n) = Some r).
Proof.
  intros Hs Hr Hd Hst. pose proof (started_steps _ _ Hs Hr) as Hsteps. split.
  - destruct (rtc_definitions _ _ Hsteps id d Hd) as (d' & Hd' & Hn). exists d'.
    by destruct (definition_left_draft _ _ Hn Hst) as (? & ? & ? & _ & ?).
  - intros n r Hrow. destruct (rtc_revisions _ _ Hsteps (id, n) r Hrow) as (r' & Hr' & Hn).
    rewrite Hr'. f_equal. clear -Hn. induction Hn as [|? ? ? -> _ IH]; [done|exact IH].
Qed.

(** Optimistic locking is sound: if a row still has the version it was read at,
    then no call has changed any of its columns in between. *)
Theorem version_identifies_row (w w' : World Event) id :
  started w -> rtc run_step w w' ->
  (forall d d', db_definitions (w_db w) !! id = Some d -> db_definitions (w_db w') !! id = Some d' ->
     def_Version d' = def_Version d -> d' = d) /\
  (forall i i', db_instances (w_db w) !! id = Some i -> db_instances (w_db w') !! id = Some i' ->
     inst_Version i' = inst_Version i -> i' = i) /\
  (forall t t', db_tasks (w_db w) !! id = Some t -> db_tasks (w_db w') !! id = Some t' ->
     task_Version t' = task_Version t -> t' = t).
Proof.
  intros Hs Hr. pose proof (started_steps _ _ Hs Hr) as Hsteps. split_and!.
  - intros d d' Hd Hd' Hv. destruct (rtc_definitions _ _ Hsteps id d Hd) as (d1 & Hd1 & Hn).
    rewrite Hd' in Hd1. injection Hd1 as <-.
    destruct (rtc_version _ def_Version _ _ definition_next_version Hn); [done|lia].
  - intros d d' Hd Hd' Hv. destruct (rtc_instances _ _ Hsteps id d Hd) as (d1 & Hd1 & Hn).
    rewrite Hd' in Hd1. injection Hd1 as <-.
    destruct (rtc_version _ inst_Version _ _ instance_next_version Hn); [done|lia].
  - intros d d' Hd Hd' Hv. destruct (rtc_tasks _ _ Hsteps id d Hd) as (d1 & Hd1 & Hn).
    rewrite Hd' in Hd1. injection Hd1 as <-.
    destruct (rtc_version _ task_Version _ _ task_next_version Hn); [done|lia].
Qed.

(** C7. The transactional outbox is exact: for every row, the events about it are
    those its status calls for, once each and in order - a definition is published
    once, an instance is started once and then cancelled or ended at most once, a
    task is created once and completed once when it is decided. *)
Theorem outbox_records_every_change (w : World Event) :
  started w -> outbox_exact (w_db w).
Proof. intros Hs. by apply reachable_outbox, started_reachable. Qed.

(** C8. The tables fit together after any calls: identifiers are keys; definition
    keys, idempotency keys, business keys and the node of a task are unique in
    their scope; a draft has no revision and any other definition has exactly
    revision 1, equal to its content; an instance is unfinished exactly while it
    runs and a task is undecided exactly while it is pending or claimed; and a task
    belongs to the tenant and the application of its instance. *)
Theorem tables_consistent (w : World Event) : started w -> store_ok (w_db w) /\ tasks_within (w_db w).
Proof. intros Hs. apply started_reachable in Hs. by split; [apply reachable_ok|apply reachable_tasks_within]. Qed.

(** Retrying [CreateTask] is idempotent: once a call returned a task for an
    instance and a node, a later call for the same instance and node, with whatever
    identifier and content, returns that task, changes nothing and emits nothing. *)
Theorem CreateTask_idempotent ctx ctx' (v v' t t' : Task) (w w1 w2 w3 : World Event) :
  started w -> task_Status v = TaskPending -> task_CompletedAt v = None ->
  CreateTask ctx v w = (Ok t, w1) -> rtc run_step w1 w2 ->
  task_TenantID v' = task_TenantID v -> task_ApplicationID v' = task_ApplicationID v ->
  task_InstanceID v' = task_InstanceID v -> task_NodeID v' = task_NodeID v ->
  task_Status v' = TaskPending -> task_CompletedAt v' = None ->
  CreateTask ctx' v' w2 = (Ok t', w3) ->
  task_ID t' = task_ID t /\ w_db w3 = w_db w2.
Proof. apply CreateTask_again. Qed.

(** C9. Claiming is exclusive: after one caller claimed a task at a version, every
    later claim at that version, by anybody, fails - with [ErrVersionConflict] unless
    the environment fails first - and changes nothing. *)
Theorem ClaimTask_exclusive t a id ev actor actor' k (w w1 w2 : World Event) :
  started w -> ClaimTask t a id ev actor w = (Ok k, w1) -> rtc run_step w1 w2 ->
  task_Status k = TaskClaimed /\ task_ClaimedBy k = actor /\
  match ClaimTask t a id ev actor' w2 with
  | (Ok _, _) => False
  | (Err e, w3) => w_db w3 = w_db w2 /\ (e = Sentinel ErrVersionConflict \/ fault_error e)
  end.
Proof.
  intros Hs Hrun Hr. pose proof (reachable_ok _ (started_reachable _ Hs)) as Hok.
  pose proof (wp_world _ _ _ (wp_ClaimTask t a id ev actor _ (ok_keyed _ Hok))) as Hw.
  rewrite Hrun in Hw. destruct Hw as (k0 & h & now & Hid & _ & Hv & _ & Hrow & Hch). simpl in Hch.
  assert (Hs1 : started w1) by (by eapply (started_call (CallClaimTask t a id ev actor))).
  assert (Hk1 : db_tasks (w_db w1) !! id = Some k).
  { destruct Hch as (_ & _ & _ & _ & _ & ->). row_inv Hrow. simpl. by rewrite Hid, lookup_insert_eq. }
  assert (Hk : task_Version k = (ev + 1)%Z /\ task_Status k = TaskClaimed /\ task_ClaimedBy k = actor)
    by (row_inv Hrow; simpl; by rewrite Hv).
  destruct Hk as (Hkv & Hks & Hkc). split; [done|]. split; [done|].
  destruct (rtc_tasks _ _ (started_steps _ _ Hs1 Hr) id k Hk1) as (k2 & Hk2 & Hn).
  apply (rtc_version _ task_Version) in Hn; [|apply task_next_version].
  assert (ev < task_Version k2)%Z by (destruct Hn as [->|?]; lia).
  pose proof (reachable_ok _ (started_reachable _ (started_more _ _ Hs1 Hr))) as Hok2.
  pose proof (wp_world _ _ _ (wp_ClaimTask t a id ev actor' _ (ok_keyed _ Hok2))) as Hw2.
  destruct (ClaimTask t a id ev actor' w2) as [[k'|e] w3]; simpl in Hw2.
  - destruct Hw2 as (k3 & ? & ? & Hid3 & _ & Hv3 & _ & _ & Hk3 & _). rewrite Hid3 in Hk3.
    assert (k3 = k2) as -> by congruence. lia.
  - destruct Hw2 as [-> [?|[[_ []]|[[-> _]|[_ []]]]]]; (split; [done|]); auto.
Qed.

(** [FinishInstance] ends an instance at most once: on an instance that is not
    running it changes nothing; asked for the status the instance has it returns the
    row, and asked for another one - a workflow that completes or fails after a user
    cancelled - it returns [ErrConflict], unless the environment fails first. *)
Theorem FinishInstance_once ctx t a id i status result message actor (w : World Event) :
  started w -> db_instances (w_db w) !! id = Some i -> inst_in t a i = true ->
  inst_Status i <> InstanceRunning ->
  match FinishInstance ctx t a id status result message actor w with
  | (Ok i', w') => w_db w' = w_db w /\ i' = i /\ inst_Status i = status
  | (Err e, w') => w_db w' = w_db w /\
      (fault_error e \/ (e = Sentinel ErrConflict /\ inst_Status i <> status))
  end.
Proof.
  intros Hs Hi Hin Hst. pose proof (reachable_ok _ (started_reachable _ Hs)) as Hok.
  pose proof (wp_world _ _ _ (wp_FinishInstance ctx t a id status result message actor _ (ok_keyed _ Hok))) as Hw.
  destruct (FinishInstance ctx t a id status result message actor w) as [[i'|e] w']; simpl in Hw.
  - destruct Hw as [(i0 & now & Hid & _ & _ & db1 & (Hl & Hrun & _) & _)|(-> & Hl & _ & Hs')].
    + rewrite Hid in Hl. congruence.
    + assert (i' = i) as -> by congruence. done.
  - destruct Hw as [-> [?|[[_ Hno]|[[_ []]|[-> (i0 & Hi0 & _ & _ & Hne)]]]]]; (split; [done|]).
    + by left.
    + rewrite (Hno i Hi) in Hin. discriminate.
    + right. split; [done|]. congruence.
Qed.

(** [PublishDefinition] on every branch: it returns [ErrNotFound] only when the
    tenant and application have no such definition, [ErrVersionConflict] only when
    the row is not a draft at the expected version, and any other error comes from
    the environment or a constraint; when it succeeds the row was a draft at that
    version, and the step is: revision row, status, revision number, version and
    event, returned with the decoded graph. *)
Theorem PublishDefinition_branches ctx t a id ev actor (w : World Event) :
  started w ->
  match PublishDefinition ctx t a id ev actor w with
  | (Ok v, w') => exists d d' now, def_ID d = id /\ def_in t a d = true /\ def_Version d = ev /\
      step_publish d d' now actor (w_db w) (w_db w') /\
      hydrateDefinition (publish_current d (uint32_incr (def_PublishedRevision d)) now actor) = Ok v
  | (Err e, w') => w_db w' = w_db w /\
      fails (forall d, db_definitions (w_db w) !! id = Some d -> def_in t a d = false)
            (exists d, db_definitions (w_db w) !! id = Some d /\ def_in t a d = true /\ draft_at ev d = false)
            False e
  end.
Proof.
  intros Hs. pose proof (reachable_ok _ (started_reachable _ Hs)) as Hok.
  pose proof (wp_world _ _ _ (wp_PublishDefinition ctx t a id ev actor _ (ok_keyed _ Hok))) as Hw.
  by destruct (PublishDefinition ctx t a id ev actor w) as [[v|e] w'].
Qed.

(** C10. [CompleteTask] on every branch: it succeeds only on an open task of the
    version that was read, unclaimed or claimed by the actor; then the task gets the
    status of the decision, one history row records the change and one event is
    queued, in one transaction; otherwise it returns [ErrVersionConflict] and
    nothing changes.  It does not look at the instance's status. *)
Theorem CompleteTask_branches ctx current decision comment output actor (w : World Event) :
  started w -> current_read current (w_db w) ->
  match CompleteTask ctx current decision comment output actor w with
  | (Ok t', w') => exists h now,
      step_complete current t' h (decided_status decision) decision comment output now actor
        (w_db w) (w_db w') /\
      db_instances (w_db w') = db_instances (w_db w)
  | (Err e, w') => w_db w' = w_db w /\
      fails False (forall k, db_tasks (w_db w) !! task_ID current = Some k ->
        String.eqb (task_TenantID k) (task_TenantID current)
        && open_for (task_Version current) actor k = false) False e
  end.
Proof.
  intros Hs Hread. pose proof (reachable_ok _ (started_reachable _ Hs)) as Hok.
  pose proof (wp_world _ _ _
    (wp_CompleteTask ctx current decision comment output actor _ (ok_keyed _ Hok) Hread)) as Hw.
  destruct (CompleteTask ctx current decision comment output actor w) as [[v|e] w']; [|done].
  simpl in Hw. destruct Hw as (h & now & Hstep). exists h, now. split; [done|].
  destruct Hstep as (_ & _ & _ & db1 & (_ & _ & _ & _ & _ & ->) & (? & ? & ? & _ & ->)). done.
Qed.

(** Retention deletes only history of instances that ended before the cutoff,
    at most [limit] rows and the oldest ones, and reports their number; when it
    reports fewer than [limit], no expired history is left. *)
Theorem retention_deletes_expired before limit (w : World Event) :
  started w -> (1 <= limit)%Z ->
  match DeleteTaskHistoryBefore before limit w with
  | (Ok n, w') => exists ids,
      step_purge before ids (w_db w) (w_db w') /\ n = Z.of_nat (List.length ids) /\ (n <= limit)%Z /\
      ((n < limit)%Z -> forall id h, db_history (w_db w') !! id = Some h -> ~ expired before (w_db w') h)
  | (Err e, w') => fault_error e /\
      (w_db w' = w_db w \/ exists ids, step_purge before ids (w_db w) (w_db w'))
  end.
Proof.
  intros Hs Hl. pose proof (retention_batch before limit w Hs Hl) as H.
  destruct (DeleteTaskHistoryBefore before limit w) as [[n|e] w']; [|exact H].
  destruct H as (ids & Hp & _ & H). by exists ids.
Qed.

(** C11. Lists are confined: whatever the filter, every definition, instance, task
    and history row that a list query returns belongs to the filter's tenant and
    application, the total counts all matches and a page holds at most the page
    size. *)
Theorem lists_confined df inf tf hf (w : World Event) :
  let confined {R} (m : M Event (Page R)) (inside : R -> Prop) (size : Z) :=
    match m w with
    | (Ok p, w') => w_db w' = w_db w /\ (forall r, r ∈ page_Items p -> inside r) /\
        (Z.of_nat (List.length (page_Items p)) <= Z.min size (page_Total p))%Z
    | (Err _, w') => w_db w' = w_db w
    end in
  confined (ListInstances inf)
    (fun i => inst_TenantID i = if_TenantID inf /\ inst_ApplicationID i = if_ApplicationID inf) (if_PageSize inf) /\
  confined (ListTasks tf)
    (fun t => task_TenantID t = tf_TenantID tf /\ task_ApplicationID t = tf_ApplicationID tf) (tf_PageSize tf) /\
  confined (ListTaskHistory hf)
    (fun h => hist_TenantID h = hf_TenantID hf /\ hist_ApplicationID h = hf_ApplicationID hf) (hf_PageSize hf) /\
  confined (ListDefinitions df)
    (fun d => def_TenantID d = df_TenantID df /\ def_ApplicationID d = df_ApplicationID df) (df_PageSize df).
Proof.
  split_and!.
  - apply confined_list. unfold instanceWhere. intros i Hi. bool_to_prop. by apply inst_in_spec.
  - apply confined_list. unfold taskWhere. intros t Ht. bool_to_prop. by apply task_in_spec.
  - apply confined_list. unfold historyWhere. intros h Hh. bool_to_prop. done.
  - pose proof (wp_world _ _ _ (wp_ListDefinitions df (w_db w))) as Hw.
    destruct (ListDefinitions df w) as [[p|e] w']; simpl in Hw; [|by destruct Hw].
    destruct Hw as (-> & Hall & Hlen). split; [done|]. split; [|done].
    intros d Hd. destruct (Hall d Hd) as (d0 & Hw0 & -> & ->). unfold definitionWhere in Hw0.
    bool_to_prop. by apply def_in_spec.
Qed.

(** C12. Pages partition the matches: with the tables at rest, the pages 1 to n of a
    query concatenate to the first n * size rows of the sorted matches - every match
    exactly once when n * size reaches the total - as long as the offset fits in 64
    bits. *)
Theorem pages_partition inf n size (w : World Event) :
  (1 <= size)%Z -> (Z.of_nat n * size < 9223372036854775808)%Z ->
  let rows := order_by (fun a b => time_desc (inst_StartedAt a) (inst_StartedAt b)
                                     (collate_le (inst_ID a) (inst_ID b)))
                (List.filter (instanceWhere inf) (table_rows (db_instances (w_db w)))) in
  let at_page p := mkInstanceFilter (if_TenantID inf) (if_ApplicationID inf) (if_DefinitionID inf)
    (if_Status inf) (if_StarterID inf) (if_Search inf) (if_StartedFrom inf) (if_StartedUntil inf) p size in
  forall pages, (forall k, k < n -> exists p w1 w2, pages !! k = Some (page_Items p) /\
      w_db w1 = w_db w /\ ListInstances (at_page (Z.of_nat k + 1)%Z) w1 = (Ok p, w2)) ->
  List.length pages = n ->
  mjoin pages = take (n * Z.to_nat size) rows.
Proof.
  intros Hsize Hfit rows at_page pages Hpages Hlen. rewrite <- (slices_cover rows). f_equal.
  apply list_eq. intros k. destruct (decide (k < n)) as [Hk|Hk].
  - destruct (Hpages k Hk) as (p & w1 & w2 & -> & Hw1 & Hrun). rewrite list_lookup_fmap, lookup_seq_lt by done.
    simpl. f_equal.
    pose proof (wp_world _ _ _ (wp_list_page "count workflow instances: %w" "list workflow instances: %w"
      (fun db => List.filter (instanceWhere (at_page (Z.of_nat k + 1)%Z)) (table_rows (db_instances db)))
      (fun a b => time_desc (inst_StartedAt a) (inst_StartedAt b) (collate_le (inst_ID a) (inst_ID b)))
      (Z.of_nat k + 1) size (w_db w1))) as Hw.
    unfold ListInstances in Hrun. simpl in Hrun. rewrite Hrun in Hw. simpl in Hw.
    destruct Hw as (_ & _ & _ & _ & _ & _ & ->). unfold page_slice.
    rewrite page_offset_exact by nia. rewrite Hw1.
    replace (Z.to_nat ((Z.of_nat k + 1 - 1) * size)) with (k * Z.to_nat size) by nia. done.
  - rewrite !lookup_ge_None_2; [done|rewrite length_fmap, length_seq; lia|lia].
Qed.
End properties.

(** ** The properties at work on the sample run *)

Module Witness.
Import Sample.

Definition cancel : call := CallCancelInstance ctx "acme" "crm" "inst-1" 3 "too late" "alice".
Definition late : World DomainEvent := Eval vm_compute in (run cancel w2).2.

Lemma late_steps : rtc run_step w2 late.
Proof. apply rtc_once. change late with (run cancel w2).2. by apply rs_call. Qed.

Lemma calls_refine_store_witness :
  w_db (run cancel w2).2 = w_db w2 \/ step (w_db w2) (w_db (run cancel w2).2).
Proof. apply (calls_refine_store w2 cancel); [apply started_w2|exact I]. Defined.

Lemma finished_instance_frozen_witness : exists i,
  db_instances (w_db w2) !! "inst-1" = Some i /\ inst_Status i = InstanceCompleted /\
  db_instances (w_db late) !! "inst-1" = Some i.
Proof.
  eexists. split; [vm_compute; reflexivity|]. split; [reflexivity|].
  apply (finished_instance_frozen w2 late "inst-1"); [apply started_w2|apply late_steps|vm_compute; reflexivity|discriminate].
Defined.

Lemma decided_task_frozen_witness : exists t,
  db_tasks (w_db w2) !! "task-1" = Some t /\ task_Status t = TaskApproved /\
  db_tasks (w_db late) !! "task-1" = Some t.
Proof.
  eexists. split; [vm_compute; reflexivity|]. split; [reflexivity|].
  apply (decided_task_frozen w2 late "task-1");
    [apply started_w2|apply late_steps|vm_compute; reflexivity|discriminate|discriminate].
Defined.

Lemma published_definition_frozen_witness : exists d,
  db_definitions (w_db w1) !! "def-1" = Some d /\ def_Status d = DefinitionPublished /\
  exists d', db_definitions (w_db w2) !! "def-1" = Some d' /\ def_Status d' <> DefinitionDraft.
Proof.
  eexists. split; [vm_compute; reflexivity|]. split; [reflexivity|].
  edestruct (published_definition_frozen w1 w2 "def-1") as [(d' & Hd' & Hs & _) _];
    [apply started_w1|apply finish_steps|vm_compute; reflexivity|discriminate|by exists d'].
Defined.

Lemma version_identifies_row_witness : exists d d',
  db_definitions (w_db w1) !! "def-1" = Some d /\ db_definitions (w_db w2) !! "def-1" = Some d' /\ d' = d.
Proof.
  eexists _, _. split; [vm_compute; reflexivity|]. split; [vm_compute; reflexivity|].
  apply (version_identifies_row w1 w2 "def-1" started_w1 finish_steps); vm_compute; reflexivity.
Defined.

Lemma outbox_records_every_change_witness :
  emitted instance_subjects "inst-1" (db_outbox (w_db w2))
  = ["platform.workflow.instance.start-requested.v1"; "platform.workflow.instance.status-changed.v1"].
Proof.
  destruct (outbox_records_every_change w2 started_w2) as [_ Hi _]. rewrite Hi. vm_compute. reflexivity.
Defined.

Lemma tables_consistent_witness : store_ok (w_db w2) /\ tasks_within (w_db w2).
Proof. exact (tables_consistent w2 started_w2). Defined.

(** The activity is retried with a fresh identifier after its first result was lost. *)
Definition before_task : World DomainEvent := Eval vm_compute in run_all (take 3 setup) w0.
Definition retried : Task := mkTask "task-2" "acme" "crm" "inst-1" "approve" "Approve" AssigneeRole "manager" ""
  TaskPending "" "" "{}" "{}" None None 1 9 9 "worker" "worker".

Lemma started_before : started before_task.
Proof.
  exists 0. replace before_task with (run_all (take 3 setup) w0) by (vm_compute; reflexivity).
  apply run_all_steps. vm_compute. repeat split.
Qed.

Lemma CreateTask_idempotent_witness :
  exists t' w3, CreateTask ctx retried w1 = (Ok t', w3) /\ task_ID t' = "task-1" /\ w_db w3 = w_db w1.
Proof.
  eexists _, _. split; [vm_compute; reflexivity|].
  eapply (CreateTask_idempotent ctx ctx task retried task _ before_task w1 w1);
    [apply started_before|reflexivity|reflexivity|vm_compute; reflexivity|apply rtc_refl
    |reflexivity|reflexivity|reflexivity|reflexivity|reflexivity|reflexivity|vm_compute; reflexivity].
Defined.

Lemma ClaimTask_exclusive_witness : exists k w,
  ClaimTask "acme" "crm" "task-1" 1 "bob" w1 = (Ok k, w) /\ task_ClaimedBy k = "bob" /\
  is_ok (ClaimTask "acme" "crm" "task-1" 1 "eve" w).1 = false.
Proof.
  destruct (ClaimTask "acme" "crm" "task-1" 1 "bob" w1) as [[k|e] w] eqn:Hclaim;
    [|vm_compute in Hclaim; discriminate Hclaim].
  exists k, w. split; [reflexivity|].
  destruct (ClaimTask_exclusive "acme" "crm" "task-1" 1 "bob" "eve" k w1 w w started_w1 Hclaim (rtc_refl _ _))
    as (_ & Hc & Hx).
  split; [exact Hc|]. destruct (ClaimTask _ _ _ _ "eve" w) as [[x|x] y]; [destruct Hx|reflexivity].
Defined.

Lemma FinishInstance_once_witness :
  w_db (FinishInstance ctx "acme" "crm" "inst-1" InstanceFailed "{}" "boom" "worker" w2).2 = w_db w2.
Proof.
  edestruct (db_instances (w_db w2) !! "inst-1") as [i|] eqn:Hi; [|discriminate Hi].
  pose proof (FinishInstance_once ctx "acme" "crm" "inst-1" i InstanceFailed "{}" "boom" "worker" w2 started_w2 Hi) as H.
  vm_compute in Hi. injection Hi as <-. specialize (H eq_refl ltac:(discriminate)).
  destruct (FinishInstance _ _ _ _ _ _ _ _ w2) as [[x|x] y]; apply H.
Defined.

Lemma PublishDefinition_branches_witness :
  w_db (PublishDefinition ctx "acme" "crm" "def-1" 1 "alice" w1).2 = w_db w1 \/
  is_ok (PublishDefinition ctx "acme" "crm" "def-1" 1 "alice" w1).1 = true.
Proof.
  pose proof (PublishDefinition_branches ctx "acme" "crm" "def-1" 1 "alice" w1 started_w1) as H.
  destruct (PublishDefinition _ _ _ _ _ _ w1) as [[x|x] y]; [by right|left; apply H].
Defined.

Lemma CompleteTask_branches_witness :
  db_instances (w_db (CompleteTask ctx task DecisionApprove "ok" "{}" "bob" w1).2) = db_instances (w_db w1).
Proof.
  pose proof (CompleteTask_branches ctx task DecisionApprove "ok" "{}" "bob" w1 started_w1 task_read) as H.
  destruct (CompleteTask _ _ _ _ _ _ w1) as [[x|x] y]; [by destruct H as (? & ? & _ & ?)|].
  destruct H as [H _]. simpl. by rewrite H.
Defined.

Lemma retention_deletes_expired_witness :
  (DeleteTaskHistoryBefore (Event := DomainEvent) 100000 10 w2).1 = Ok 1%Z /\
  exists ids, step_purge 100000 ids (w_db w2) (w_db (DeleteTaskHistoryBefore 100000 10 w2).2).
Proof.
  split; [vm_compute; reflexivity|].
  pose proof (retention_deletes_expired 100000 10 w2 started_w2 ltac:(lia)) as H.
  assert (Hok : is_ok (DeleteTaskHistoryBefore (Event := DomainEvent) 100000 10 w2).1 = true)
    by (vm_compute; reflexivity).
  destruct (DeleteTaskHistoryBefore 100000 10 w2) as [[x|x] y]; [|discriminate Hok].
  destruct H as (ids & Hp & _). exists ids. exact Hp.
Defined.

Definition all_instances : InstanceFilter := mkInstanceFilter "acme" "crm" "" "" "" "" None None 1 1.

Lemma pages_partition_witness : exists i, 
  mjoin [[i]] = take (1 * Z.to_nat 1) (order_by (fun a b => time_desc (inst_StartedAt a) (inst_StartedAt b)
                                     (collate_le (inst_ID a) (inst_ID b)))
                (List.filter (instanceWhere all_instances) (table_rows (db_instances (w_db w2))))).
Proof.
  eexists. apply (pages_partition all_instances 1 1 w2 ltac:(lia) ltac:(lia) [[_]]); [|reflexivity].
  intros k Hk. assert (k = 0) as -> by lia. eexists _, w2, _.
  split; [|split; [reflexivity|vm_compute; reflexivity]]. vm_compute. reflexivity.
Defined.
End Witness.
