(* ===== verification/Service.v ===== *)
(** * The application service (internal/workflow/service.go)

    Every operation of [Service], against the interfaces it is built from: the
    [Store], the [AssignmentResolver], the application verifier, the clock and the
    identifier source.  The state [W] is whatever those components keep. *)
From S2P Require Import Prelude GoStd Json Model GraphCodec Graph World.
From Stdlib Require Import Ascii String.
Local Open Scope string_scope.
Local Open Scope list_scope.

(** ** Interfaces *)

(** [Store] *)
Class Store (W : Type) := {
  st_CreateDefinition : Ctx -> WDefinition -> stE W error WDefinition;
  st_UpdateDefinition : Ctx -> WDefinition -> Z -> string -> stE W error WDefinition;
  st_PublishDefinition : Ctx -> string -> string -> string -> Z -> string -> stE W error WDefinition;
  st_DisableDefinition : Ctx -> string -> string -> string -> Z -> string -> stE W error WDefinition;
  st_GetDefinition : Ctx -> string -> string -> string -> Z -> stE W error WDefinition;
  st_GetPublishedDefinitionByKey : Ctx -> string -> string -> string -> stE W error WDefinition;
  st_ListDefinitions : Ctx -> DefinitionFilter -> stE W error (Page WDefinition);
  st_ListStartDefinitionCandidates : Ctx -> DefinitionFilter -> stE W error (Page DefinitionCandidate);
  st_ListInstanceDefinitionCandidates : Ctx -> DefinitionFilter -> stE W error (Page DefinitionCandidate);
  st_CreateInstance : Ctx -> WInstance -> WDefinition -> stE W error WInstance;
  st_GetInstance : Ctx -> string -> string -> string -> stE W error WInstance;
  st_CancelInstance : Ctx -> string -> string -> string -> Z -> string -> string -> stE W error WInstance;
  st_ListInstances : Ctx -> InstanceFilter -> stE W error (Page WInstance);
  st_GetTask : Ctx -> string -> string -> string -> stE W error Task;
  st_ListTasks : Ctx -> TaskFilter -> stE W error (Page Task);
  st_ListTaskInstanceCandidates :
    Ctx -> TaskInstanceCandidateFilter -> stE W error (Page TaskInstanceCandidate);
  st_ListTaskHistory : Ctx -> TaskHistoryFilter -> stE W error (Page TaskHistory);
  st_ClaimTask : Ctx -> string -> string -> string -> Z -> string -> stE W error Task;
  st_CompleteTask : Ctx -> Task -> string -> string -> string -> string -> stE W error Task;
  st_DelegateTask : Ctx -> Task -> string -> string -> string -> stE W error Task
}.

(** [AssignmentResolver] *)
Class AssignmentResolver (W : Type) := {
  as_RoleIDs : Ctx -> string -> string -> stE W error (list string);
  as_AuthorizeExpression : Ctx -> string -> string -> string -> stE W error unit
}.

(** [appaccess.Verifier] and the two function fields of [Service]. *)
Class ServiceEnv (W : Type) := {
  app_Verify : Ctx -> string -> string -> stE W error unit;
  sv_now : W -> Z * W;
  sv_newID : W -> string * W
}.

(** ** Pure helpers *)

(** [^[A-Za-z0-9._:-]{8,128}$] *)
Definition class_idempotency (c : ascii) : bool := is_letter c || is_digit c || byte_in "._:-" c.
Definition idempotencyPattern : regexp :=
  RSeq (RTimes 8 (RCls class_idempotency)) (RUpTo 120 (RCls class_idempotency)).

Definition invalid (message : string) : error := Wrap "%w: %s" [message] (Sentinel ErrInvalid).

Definition actorForTenant (ctx : Ctx) (tenantID : string) : res string :=
  match ctx_principal ctx with
  | None => Err (Sentinel ErrActorRequired)
  | Some value =>
      if negb (str_empty (pr_TenantID value)) && negb (String.eqb (pr_TenantID value) tenantID)
      then Err (Sentinel ErrForbidden)
      else Ok (pr_ID value)
  end.

Definition normalizePage (page pageSize : Z) : Z * Z :=
  let page := if (page <? 1)%Z then 1%Z else page in
  let pageSize := if (pageSize <? 1)%Z then 20%Z else pageSize in
  let pageSize := if (200 <? pageSize)%Z then 200%Z else pageSize in
  (page, pageSize).

Definition defaultJSONObject (value : string) : string := if blank value then "{}" else value.

(** ** Operations *)

(** [CreateDefinitionInput], [UpdateDefinitionInput], [StartInstanceInput] *)
Record CreateDefinitionInput : Type := mkCreateDefinitionInput {
  cd_TenantID : string; cd_ApplicationID : string; cd_Key : string; cd_Name : string;
  cd_Description : string; cd_Nodes : list Node; cd_Edges : list Edge
}.
Record UpdateDefinitionInput : Type := mkUpdateDefinitionInput {
  ud_ID : string; ud_TenantID : string; ud_ApplicationID : string; ud_Name : string;
  ud_Description : string; ud_Nodes : list Node; ud_Edges : list Edge; ud_ExpectedVersion : Z
}.
Record StartInstanceInput : Type := mkStartInstanceInput {
  si_TenantID : string; si_ApplicationID : string; si_DefinitionKey : string; si_BusinessKey : string;
  si_Title : string; si_VariablesJSON : string; si_IdempotencyKey : string
}.

Section service.
Context {W : Type} {ST : Store W} {AR : AssignmentResolver W} {SE : ServiceEnv W} {MR : MapRange}.
Abbreviation S := (stE W error).

Definition now : S Z := fun w => let '(t, w') := sv_now w in (Ok t, w').
Definition newID : S string := fun w => let '(id, w') := sv_newID w in (Ok id, w').

(** [if err != nil { return fmt.Errorf(format, err) }] *)
Definition wrapped {A} (format : string) (m : S A) : S A := fun w =>
  match m w with
  | (Ok a, w') => (Ok a, w')
  | (Err e, w') => (Err (Wrap format [] e), w')
  end.

(** [m == nil] for a call that returns only an error. *)
Definition tried {A} (m : S A) : S bool := fun w => let '(r, w') := m w in (Ok (is_ok r), w').

Definition verifyApplication (ctx : Ctx) (tenantID applicationID : string) : S unit := fun w =>
  match app_Verify ctx tenantID applicationID w with
  | (Ok _, w') => (Ok tt, w')
  | (Err e, w') =>
      (Err (if errors_Is_foreign e NotGranted then Sentinel ErrForbidden
            else Wrap "verify tenant application access: %w" [] e), w')
  end.

Definition CreateDefinition (ctx : Ctx) (input : CreateDefinitionInput) : S WDefinition :=
  actor ← lift (actorForTenant ctx (cd_TenantID input));
  _ ← reject_if (str_empty (cd_TenantID input) || str_empty (cd_ApplicationID input))
        (invalid "tenant and application are required");
  _ ← verifyApplication ctx (cd_TenantID input) (cd_ApplicationID input);
  _ ← lift (ValidateDefinition (cd_Key input) (cd_Name input) (cd_Nodes input) (cd_Edges input));
  let '(nodesJSON, edgesJSON) := encodeGraph (cd_Nodes input) (cd_Edges input) in
  now ← now;
  id ← newID;
  st_CreateDefinition ctx
    (mkDefinition id (cd_TenantID input) (cd_ApplicationID input) (cd_Key input)
       (TrimSpace (cd_Name input)) (TrimSpace (cd_Description input)) DefinitionDraft 0
       nodesJSON edgesJSON 1 now now actor actor (cd_Nodes input) (cd_Edges input)).

Definition UpdateDefinition (ctx : Ctx) (input : UpdateDefinitionInput) : S WDefinition :=
  actor ← lift (actorForTenant ctx (ud_TenantID input));
  _ ← reject_if (str_empty (ud_ID input) || str_empty (ud_TenantID input)
                 || str_empty (ud_ApplicationID input) || (ud_ExpectedVersion input <? 1)%Z)
        (invalid "definition identity and expected version are required");
  _ ← verifyApplication ctx (ud_TenantID input) (ud_ApplicationID input);
  current ← st_GetDefinition ctx (ud_TenantID input) (ud_ApplicationID input) (ud_ID input) 0;
  _ ← reject_if (negb (String.eqb (def_ApplicationID current) (ud_ApplicationID input)))
        (Sentinel ErrForbidden);
  _ ← lift (ValidateDefinition (def_Key current) (ud_Name input) (ud_Nodes input) (ud_Edges input));
  let '(nodesJSON, edgesJSON) := encodeGraph (ud_Nodes input) (ud_Edges input) in
  st_UpdateDefinition ctx
    (mkDefinition (ud_ID input) (ud_TenantID input) (ud_ApplicationID input) ""
       (TrimSpace (ud_Name input)) (TrimSpace (ud_Description input)) "" 0
       nodesJSON edgesJSON 0 0 0 "" "" [] [])
    (ud_ExpectedVersion input) actor.

(** The checks of [PublishDefinition] and [DisableDefinition]. *)
Definition definition_identity_required (tenantID applicationID id : string) (expectedVersion : Z) : S unit :=
  reject_if (str_empty tenantID || str_empty applicationID || str_empty id || (expectedVersion <? 1)%Z)
    (invalid "definition identity and expected version are required").

Definition PublishDefinition (ctx : Ctx) (tenantID applicationID id : string) (expectedVersion : Z) :
  S WDefinition :=
  actor ← lift (actorForTenant ctx tenantID);
  _ ← definition_identity_required tenantID applicationID id expectedVersion;
  _ ← verifyApplication ctx tenantID applicationID;
  current ← st_GetDefinition ctx tenantID applicationID id 0;
  _ ← lift (ValidateDefinition (def_Key current) (def_Name current) (def_Nodes current) (def_Edges current));
  st_PublishDefinition ctx tenantID applicationID id expectedVersion actor.

Definition DisableDefinition (ctx : Ctx) (tenantID applicationID id : string) (expectedVersion : Z) :
  S WDefinition :=
  actor ← lift (actorForTenant ctx tenantID);
  _ ← definition_identity_required tenantID applicationID id expectedVersion;
  _ ← verifyApplication ctx tenantID applicationID;
  st_DisableDefinition ctx tenantID applicationID id expectedVersion actor.

Definition GetDefinition (ctx : Ctx) (tenantID applicationID id : string) (revision : Z) : S WDefinition :=
  _ ← lift (actorForTenant ctx tenantID);
  _ ← reject_if (str_empty tenantID || str_empty applicationID || str_empty id)
        (invalid "tenant and definition IDs are required");
  _ ← verifyApplication ctx tenantID applicationID;
  st_GetDefinition ctx tenantID applicationID id revision.

Definition ListDefinitions (ctx : Ctx) (filter : DefinitionFilter) : S (Page WDefinition) :=
  _ ← lift (actorForTenant ctx (df_TenantID filter));
  _ ← reject_if (str_empty (df_TenantID filter) || str_empty (df_ApplicationID filter)
                 || (negb (str_empty (df_Status filter))
                     && negb (oneOf (df_Status filter)
                                [DefinitionDraft; DefinitionPublished; DefinitionDisabled])))
        (invalid "tenant and valid status are required");
  _ ← verifyApplication ctx (df_TenantID filter) (df_ApplicationID filter);
  let '(page, pageSize) := normalizePage (df_Page filter) (df_PageSize filter) in
  st_ListDefinitions ctx
    (mkDefinitionFilter (df_TenantID filter) (df_ApplicationID filter) (df_Status filter)
       (df_Search filter) page pageSize).

Definition validateDefinitionCandidateFilter (ctx : Ctx) (filter : DefinitionFilter) : S DefinitionFilter :=
  _ ← lift (actorForTenant ctx (df_TenantID filter));
  _ ← reject_if (str_empty (df_TenantID filter) || str_empty (df_ApplicationID filter))
        (invalid "tenant and application are required");
  _ ← verifyApplication ctx (df_TenantID filter) (df_ApplicationID filter);
  let '(page, pageSize) := normalizePage (df_Page filter) (df_PageSize filter) in
  mret (mkDefinitionFilter (df_TenantID filter) (df_ApplicationID filter) (df_Status filter)
          (TrimSpace (df_Search filter)) page pageSize).

Definition ListStartDefinitionCandidates (ctx : Ctx) (filter : DefinitionFilter) :
  S (Page DefinitionCandidate) :=
  filter ← validateDefinitionCandidateFilter ctx filter;
  st_ListStartDefinitionCandidates ctx filter.

Definition ListInstanceDefinitionCandidates (ctx : Ctx) (filter : DefinitionFilter) :
  S (Page DefinitionCandidate) :=
  filter ← validateDefinitionCandidateFilter ctx filter;
  st_ListInstanceDefinitionCandidates ctx filter.

(** *** Instances *)

(** [err != nil] *)
Definition is_err {A} (r : res A) : bool := negb (is_ok r).

Definition StartInstance (ctx : Ctx) (input : StartInstanceInput) : S WInstance :=
  actor ← lift (actorForTenant ctx (si_TenantID input));
  _ ← reject_if (str_empty (si_TenantID input) || str_empty (si_ApplicationID input)
                 || negb (MatchString identifierPattern (si_DefinitionKey input))
                 || blank (si_BusinessKey input) || blank (si_Title input)
                 || negb (MatchString idempotencyPattern (si_IdempotencyKey input)))
        (invalid "tenant, definition, business key, title, and idempotency key are required");
  _ ← verifyApplication ctx (si_TenantID input) (si_ApplicationID input);
  _ ← reject_if (is_err (validJSONObject (si_VariablesJSON input)))
        (invalid "variables_json must be a JSON object");
  definition ← st_GetPublishedDefinitionByKey ctx (si_TenantID input) (si_ApplicationID input)
                 (si_DefinitionKey input);
  now ← now;
  id ← newID;
  st_CreateInstance ctx
    (mkInstance id (si_TenantID input) (si_ApplicationID input) (def_ID definition)
       (def_PublishedRevision definition) (si_BusinessKey input) (si_IdempotencyKey input)
       (TrimSpace (si_Title input)) actor InstanceRunning ""
       (defaultJSONObject (si_VariablesJSON input)) "{}" "" ""
       ("workflow:" +:+ si_TenantID input +:+ ":" +:+ id) "" now None 1 now now actor actor)
    definition.

Definition CancelInstance (ctx : Ctx) (tenantID applicationID id reason : string) (expectedVersion : Z) :
  S WInstance :=
  actor ← lift (actorForTenant ctx tenantID);
  _ ← reject_if (str_empty tenantID || str_empty applicationID || str_empty id
                 || (expectedVersion <? 1)%Z || blank reason)
        (invalid "instance identity, reason, and expected version are required");
  _ ← verifyApplication ctx tenantID applicationID;
  st_CancelInstance ctx tenantID applicationID id expectedVersion (TrimSpace reason) actor.

Definition GetInstance (ctx : Ctx) (tenantID applicationID id : string) : S WInstance :=
  _ ← lift (actorForTenant ctx tenantID);
  _ ← reject_if (str_empty tenantID || str_empty applicationID || str_empty id)
        (invalid "tenant and instance IDs are required");
  _ ← verifyApplication ctx tenantID applicationID;
  st_GetInstance ctx tenantID applicationID id.

Definition ListInstances (ctx : Ctx) (filter : InstanceFilter) : S (Page WInstance) :=
  _ ← lift (actorForTenant ctx (if_TenantID filter));
  _ ← reject_if (str_empty (if_TenantID filter) || str_empty (if_ApplicationID filter)
                 || (negb (str_empty (if_Status filter))
                     && negb (oneOf (if_Status filter)
                                [InstanceRunning; InstanceCompleted; InstanceRejected;
                                 InstanceCancelled; InstanceFailed])))
        (invalid "tenant and valid status are required");
  _ ← verifyApplication ctx (if_TenantID filter) (if_ApplicationID filter);
  let '(page, pageSize) := normalizePage (if_Page filter) (if_PageSize filter) in
  st_ListInstances ctx
    (mkInstanceFilter (if_TenantID filter) (if_ApplicationID filter) (if_DefinitionID filter)
       (if_Status filter) (if_StarterID filter) (if_Search filter) (if_StartedFrom filter)
       (if_StartedUntil filter) page pageSize).

(** *** Tasks *)

(** The role and expression lookups of [authorizedTask]: whether the task is
    assigned to the actor. *)
Definition assignment_allowed (ctx : Ctx) (tenantID actor : string) (task : Task) : S bool :=
  let allowed := String.eqb (task_AssigneeType task) AssigneeUser
                 || String.eqb (task_AssigneeType task) AssigneeStarter in
  let allowed := if allowed && negb (String.eqb (task_Assignee task) actor) then false else allowed in
  allowed ← (if String.eqb (task_AssigneeType task) AssigneeRole then
               roles ← wrapped "resolve workflow task roles: %w" (as_RoleIDs ctx tenantID actor);
               mret (oneOf (task_Assignee task) roles)
             else mret allowed);
  if String.eqb (task_AssigneeType task) AssigneeExpression then
    tried (as_AuthorizeExpression ctx tenantID actor (task_Assignee task))
  else mret allowed.

Definition authorizedTask (ctx : Ctx) (tenantID applicationID id : string) : S (string * Task) :=
  actor ← lift (actorForTenant ctx tenantID);
  _ ← reject_if (str_empty tenantID || str_empty applicationID || str_empty id)
        (invalid "tenant and task IDs are required");
  _ ← verifyApplication ctx tenantID applicationID;
  task ← st_GetTask ctx tenantID applicationID id;
  _ ← reject_if (negb (str_empty (task_ClaimedBy task)) && negb (String.eqb (task_ClaimedBy task) actor))
        (Sentinel ErrForbidden);
  allowed ← assignment_allowed ctx tenantID actor task;
  _ ← reject_if (negb allowed) (Sentinel ErrForbidden);
  mret (actor, task).

Definition GetTask (ctx : Ctx) (tenantID applicationID id : string) : S Task :=
  '(_, task) ← authorizedTask ctx tenantID applicationID id; mret task.

Definition ListTaskHistory (ctx : Ctx) (filter : TaskHistoryFilter) : S (Page TaskHistory) :=
  _ ← reject_if ((str_empty (hf_TaskID filter) && str_empty (hf_InstanceID filter))
                 || (negb (str_empty (hf_TaskID filter)) && negb (str_empty (hf_InstanceID filter))))
        (invalid "exactly one task or instance ID is required");
  _ ← (if negb (str_empty (hf_TaskID filter)) then
         _ ← authorizedTask ctx (hf_TenantID filter) (hf_ApplicationID filter) (hf_TaskID filter); mret tt
       else
         _ ← GetInstance ctx (hf_TenantID filter) (hf_ApplicationID filter) (hf_InstanceID filter); mret tt);
  let '(page, pageSize) := normalizePage (hf_Page filter) (hf_PageSize filter) in
  st_ListTaskHistory ctx
    (mkTaskHistoryFilter (hf_TenantID filter) (hf_ApplicationID filter) (hf_TaskID filter)
       (hf_InstanceID filter) page pageSize).

Definition prepareMyTaskFilter (ctx : Ctx) (filter : TaskFilter) : S TaskFilter :=
  actor ← lift (actorForTenant ctx (tf_TenantID filter));
  _ ← reject_if (str_empty (tf_TenantID filter) || str_empty (tf_ApplicationID filter)
                 || (negb (str_empty (tf_Status filter))
                     && negb (oneOf (tf_Status filter)
                                [TaskPending; TaskClaimed; TaskApproved; TaskRejected;
                                 TaskCancelled; TaskExpired])))
        (invalid "tenant and valid task status are required");
  _ ← verifyApplication ctx (tf_TenantID filter) (tf_ApplicationID filter);
  roles ← wrapped "resolve workflow task assignments: %w" (as_RoleIDs ctx (tf_TenantID filter) actor);
  let '(page, pageSize) := normalizePage (tf_Page filter) (tf_PageSize filter) in
  mret (mkTaskFilter (tf_TenantID filter) (tf_ApplicationID filter) (tf_InstanceID filter)
          (tf_Status filter) actor (tf_Search filter) roles true page pageSize).

Definition ListMyTasks (ctx : Ctx) (filter : TaskFilter) : S (Page Task) :=
  prepared ← prepareMyTaskFilter ctx filter;
  st_ListTasks ctx prepared.

Definition ListMyTaskInstanceCandidates (ctx : Ctx) (filter : TaskInstanceCandidateFilter) :
  S (Page TaskInstanceCandidate) :=
  prepared ← prepareMyTaskFilter ctx
    (mkTaskFilter (ticf_TenantID filter) (ticf_ApplicationID filter) "" "" "" (ticf_Search filter) []
       false (ticf_Page filter) (ticf_PageSize filter));
  st_ListTaskInstanceCandidates ctx
    (mkTaskInstanceCandidateFilter (tf_TenantID prepared) (tf_ApplicationID prepared)
       (TrimSpace (ticf_Search filter)) (tf_AssigneeUserID prepared) (tf_RoleIDs prepared)
       (tf_IncludeUnclaimed prepared) (tf_Page prepared) (tf_PageSize prepared)).

Definition stale (expectedVersion : Z) (task : Task) : bool :=
  (expectedVersion <? 1)%Z || negb (task_Version task =? expectedVersion)%Z.

Definition ClaimTask (ctx : Ctx) (tenantID applicationID id : string) (expectedVersion : Z) : S Task :=
  '(actor, task) ← authorizedTask ctx tenantID applicationID id;
  _ ← reject_if (stale expectedVersion task) (Sentinel ErrVersionConflict);
  st_ClaimTask ctx tenantID applicationID id expectedVersion actor.

Definition CompleteTask (ctx : Ctx) (tenantID applicationID id decision comment outputJSON : string)
    (expectedVersion : Z) : S (Task * WInstance) :=
  '(actor, task) ← authorizedTask ctx tenantID applicationID id;
  _ ← reject_if (stale expectedVersion task
                 || negb (oneOf decision [DecisionApprove; DecisionReject])
                 || is_err (validJSONObject (defaultJSONObject outputJSON)))
        (invalid "decision, JSON output, and current version are required");
  completed ← st_CompleteTask ctx task decision (TrimSpace comment) (defaultJSONObject outputJSON) actor;
  instance ← st_GetInstance ctx tenantID applicationID (task_InstanceID task);
  mret (completed, instance).

Definition DelegateTask (ctx : Ctx) (tenantID applicationID id delegateTo reason : string)
    (expectedVersion : Z) : S Task :=
  '(actor, task) ← authorizedTask ctx tenantID applicationID id;
  _ ← reject_if (stale expectedVersion task || blank delegateTo || blank reason
                 || String.eqb delegateTo actor)
        (invalid "delegate, reason, and current version are required");
  st_DelegateTask ctx task (TrimSpace delegateTo) (TrimSpace reason) actor.
End service.
