(* ===== verification/Assignments.v ===== *)
(** * Assignment resolution (internal/workflowauth/resolver.go)

    [Resolver.RoleIDs] pages through the bindings of the caller's subject in the
    authorization service, [Resolver.AuthorizeExpression] asks it for a permission.
    The authorization client is a parameter; the loop over the pages carries fuel,
    and [RoleIDs_complete] shows how much is enough. *)
From S2P Require Import Prelude GoStd Json Model World Service.
From Stdlib Require Import Ascii String.
Local Open Scope string_scope.
Local Open Scope list_scope.

(** [authorizationv1.Subject] *)
Inductive subject_type : Type := SUBJECT_TYPE_MEMBERSHIP | SUBJECT_TYPE_SERVICE_ACCOUNT.
Record Subject : Type := mkSubject { sub_Id : string; sub_Type : subject_type }.

(** The parts of [ListBindingsResponse] the resolver reads; a response without a
    page has no total. *)
Record Binding : Type := mkBinding { bind_Status : string; bind_RoleId : string }.
Record BindingsPage : Type := mkBindingsPage { bp_Bindings : list Binding; bp_Total : option Z }.

(** [Client] *)
Class AuthorizationClient (W : Type) := {
  az_ListBindings : Ctx -> string -> Subject -> Z -> Z -> stE W error BindingsPage;
  az_Check : Ctx -> string -> Subject -> string -> string -> string -> stE W error bool
}.

Definition pageSize : Z := 200.

Definition subjectFromContext (ctx : Ctx) : res (Principal * Subject) :=
  match ctx_principal ctx with
  | None => Err (Sentinel ErrActorRequired)
  | Some identity =>
      let '(subjectID, subjectType) :=
        match pr_Type identity with
        | TypeServiceAccount | TypeSystem => (pr_ID identity, SUBJECT_TYPE_SERVICE_ACCOUNT)
        | TypeUser => (pr_MembershipID identity, SUBJECT_TYPE_MEMBERSHIP)
        end in
      if str_empty subjectID then Err (Sentinel ErrForbidden)
      else Ok (identity, mkSubject subjectID subjectType)
  end.

(** [identity.TenantID != "" && identity.TenantID != tenantID] *)
Definition other_tenant (identity : Principal) (tenantID : string) : bool :=
  negb (str_empty (pr_TenantID identity)) && negb (String.eqb (pr_TenantID identity) tenantID).

Definition active_roles (bindings : list Binding) : list string :=
  bind_RoleId <$> List.filter (fun b => String.eqb (bind_Status b) "active" && negb (str_empty (bind_RoleId b)))
                    bindings.

(** [page++] on [uint32], and the product on [uint64]. *)
Definition next_page (page : Z) : Z := ((page + 1) mod 4294967296)%Z.
Definition last_page (page : Z) (response : BindingsPage) : bool :=
  match bp_Total response with
  | None => true
  | Some total => (total <=? page * pageSize)%Z || Nat.eqb (List.length (bp_Bindings response)) 0
  end.

Section resolver.
Context {W : Type} {AZ : AuthorizationClient W}.

(** [for page := uint32(1); ; page++]: [None] only when the fuel runs out. *)
Fixpoint list_roles (fuel : nat) (ctx : Ctx) (tenantID : string) (subject : Subject) (page : Z)
    (roles : list string) (w : W) : option (res (list string) * W) :=
  match fuel with
  | O => None
  | S fuel =>
      match az_ListBindings ctx tenantID subject page pageSize w with
      | (Err e, w') => Some (Err (Wrap "list authorization bindings: %w" [] e), w')
      | (Ok response, w') =>
          let roles := roles ++ active_roles (bp_Bindings response) in
          if last_page page response then Some (Ok roles, w')
          else list_roles fuel ctx tenantID subject (next_page page) roles w'
      end
  end.

Definition RoleIDs (fuel : nat) (ctx : Ctx) (tenantID : string) (w : W) : option (res (list string) * W) :=
  match subjectFromContext ctx with
  | Err e => Some (Err e, w)
  | Ok (identity, subject) =>
      if other_tenant identity tenantID then Some (Err (Sentinel ErrForbidden), w)
      else list_roles fuel ctx tenantID subject 1 [] w
  end.

Definition AuthorizeExpression (ctx : Ctx) (tenantID permissionAction : string) : stE W error unit :=
  '(identity, subject) ← lift (subjectFromContext ctx);
  _ ← reject_if (other_tenant identity tenantID) (Sentinel ErrForbidden);
  allowed ← wrapped "check workflow assignment permission: %w"
              (az_Check ctx tenantID subject "workflow_task" "*" permissionAction);
  reject_if (negb allowed) (Sentinel ErrForbidden).
End resolver.

(** ** The loop collects every page *)

Lemma active_roles_app l l' : active_roles (l ++ l') = active_roles l ++ active_roles l'.
Proof. unfold active_roles. by rewrite List.filter_app, fmap_app. Qed.

Section complete.
Context {W : Type} {AZ : AuthorizationClient W}.
Context (ctx : Ctx) (tenantID : string) (subject : Subject) (all : list Binding) (w : W).

(** The service's documented paging: page [p] of size [s] is that slice of the
    bindings, with the number of all of them. *)
Hypothesis paged : forall p, (1 <= p)%Z ->
  az_ListBindings ctx tenantID subject p pageSize w
  = (Ok (mkBindingsPage (take 200 (drop (Z.to_nat (p - 1) * 200) all)) (Some (Z.of_nat (List.length all)))), w).
Hypothesis bounded : (Z.of_nat (List.length all) <= 200 * 4294967295)%Z.

Lemma list_roles_from n fuel p :
  (1 <= p)%Z -> List.length all <= (Z.to_nat (p - 1) + n) * 200 -> n < fuel -> (p + Z.of_nat n <= 4294967296)%Z ->
  list_roles fuel ctx tenantID subject p (active_roles (take (Z.to_nat (p - 1) * 200) all)) w
  = Some (Ok (active_roles all), w).
Proof.
  revert fuel p. induction n as [|n IH]; intros [|fuel] p Hp Hlen Hf Hb; try lia; cbn [list_roles];
    rewrite paged by done; cbn [bp_Bindings]; rewrite <- active_roles_app.
  - rewrite (take_ge all) by lia. rewrite drop_ge by lia. simpl. rewrite app_nil_r.
    unfold last_page. simpl. by rewrite orb_true_r.
  - assert (Htake : take (Z.to_nat (p - 1) * 200) all ++ take 200 (drop (Z.to_nat (p - 1) * 200) all)
                    = take (Z.to_nat (p + 1 - 1) * 200) all).
    { rewrite take_take_drop. f_equal. lia. }
    rewrite Htake. unfold last_page. cbn [bp_Total bp_Bindings].
    destruct (Z.leb_spec (Z.of_nat (List.length all)) (p * pageSize)) as [Hle|Hgt]; simpl.
    + rewrite take_ge; [done|]. unfold pageSize in *. lia.
    + destruct (Nat.eqb_spec (List.length (take 200 (drop (Z.to_nat (p - 1) * 200) all))) 0) as [Hz|Hz].
      { rewrite length_take, length_drop in Hz. unfold pageSize in *. lia. }
      assert (Hnext : next_page p = (p + 1)%Z) by (unfold next_page; rewrite Z.mod_small; unfold pageSize in *; lia).
      rewrite Hnext. apply IH; try lia.
Qed.
End complete.

Section terminates.
Context {W : Type} {AZ : AuthorizationClient W}.

(** Whatever else the service answers, the loop makes at most [k] calls when no
    answer claims more than [200 * k] bindings. *)
Lemma list_roles_stops ctx tenantID subject k p roles w :
  (forall page w, match (az_ListBindings ctx tenantID subject page pageSize w).1 with
                  | Ok r => match bp_Total r with Some t => (t <= 200 * (p - 1 + Z.of_nat k))%Z | None => True end
                  | Err _ => True
                  end) ->
  (1 <= p)%Z -> 0 < k -> (p + Z.of_nat k <= 4294967296)%Z ->
  is_Some (list_roles k ctx tenantID subject p roles w).
Proof.
  revert p roles w. induction k as [|k IH]; intros p roles w Hs Hp Hk Hb; [lia|]. cbn [list_roles].
  pose proof (Hs p w) as Ht. destruct (az_ListBindings _ _ _ _ _ w) as [[r|e] w']; [|by eexists].
  simpl in Ht. unfold last_page. destruct (bp_Total r) as [t|]; [|by eexists].
  destruct (Z.leb_spec t (p * pageSize)) as [|Hgt]; [by eexists|]. simpl.
  destruct (Nat.eqb _ 0); [by eexists|].
  unfold next_page. unfold pageSize in Hgt. rewrite Z.mod_small by lia.
  destruct k as [|k]; [lia|]. apply IH; try lia.
  intros page w0. specialize (Hs page w0). destruct (az_ListBindings _ _ _ _ _ w0) as [[r0|e0] w0']; simpl in *; [|done].
  destruct (bp_Total r0); [|done]. lia.
Qed.
End terminates.

(** ** Properties *)

(** Role resolution is complete: against an authorization service that pages
    through its bindings as documented, [RoleIDs] returns the role of every active
    binding of the caller's subject, in order and from all pages, with one call per
    started page; role identifiers of the request are never consulted. *)
Theorem RoleIDs_complete {W} {AZ : AuthorizationClient W} ctx tenantID identity subject all (w : W) :
  subjectFromContext ctx = Ok (identity, subject) -> other_tenant identity tenantID = false ->
  (forall p, (1 <= p)%Z ->
     az_ListBindings ctx tenantID subject p pageSize w
     = (Ok (mkBindingsPage (take 200 (drop (Z.to_nat (p - 1) * 200) all)) (Some (Z.of_nat (List.length all)))), w)) ->
  (Z.of_nat (List.length all) < 200 * 4294967295)%Z ->
  RoleIDs (S (S (List.length all / 200))) ctx tenantID w = Some (Ok (active_roles all), w).
Proof.
  intros Hsub Ht Hpaged Hb. unfold RoleIDs. rewrite Hsub, Ht.
  pose proof (Nat.div_mod_eq (List.length all) 200) as Hdm.
  pose proof (Nat.mod_upper_bound (List.length all) 200 ltac:(lia)) as Hmod.
  apply (list_roles_from ctx tenantID subject all w Hpaged ltac:(lia) (S (List.length all / 200)) _ 1); lia.
Qed.

(** The page loop of [RoleIDs] always ends: if no answer of the authorization
    service claims more than 200 * k bindings (k below 2^32), k calls suffice, for
    any bindings, errors and totals it answers with. *)
Theorem RoleIDs_terminates {W} {AZ : AuthorizationClient W} ctx tenantID k (w : W) :
  (forall subject page w, match (az_ListBindings ctx tenantID subject page pageSize w).1 with
     | Ok r => match bp_Total r with Some t => (t <= 200 * Z.of_nat k)%Z | None => True end
     | Err _ => True
     end) ->
  0 < k -> (Z.of_nat k < 4294967296)%Z ->
  is_Some (RoleIDs k ctx tenantID w).
Proof.
  intros Hs Hk Hb. unfold RoleIDs. destruct (subjectFromContext ctx) as [[identity subject]|e]; [|by eexists].
  destruct (other_tenant identity tenantID); [by eexists|].
  apply list_roles_stops; [|lia..]. intros page w0. specialize (Hs subject page w0).
  destruct (az_ListBindings _ _ _ _ _ w0) as [[r|e] w0']; simpl in *; [|done]. destruct (bp_Total r); [lia|done].
Qed.

(** *** A concrete authorization service: 201 bindings on two pages *)

Module Sample.
Definition all : list Binding :=
  repeat (mkBinding "active" "reviewer") 199 ++ [mkBinding "revoked" "auditor"; mkBinding "active" "manager"].

#[export] Instance two_pages : AuthorizationClient unit := {|
  az_ListBindings := fun _ _ _ p _ w =>
    (Ok (mkBindingsPage (take 200 (drop (Z.to_nat (p - 1) * 200) all)) (Some (Z.of_nat (List.length all)))), w);
  az_Check := fun _ _ _ _ _ _ w => (Ok true, w)
|}.

Definition ctx : Ctx := mkCtx (Some (mkPrincipal "alice" "acme" "member-1" TypeUser)) "" "".

Lemma RoleIDs_complete_witness :
  RoleIDs 3 ctx "acme" tt = Some (Ok (repeat "reviewer" 199 ++ ["manager"]), tt).
Proof.
  change (repeat "reviewer" 199 ++ ["manager"]) with (active_roles all).
  apply (RoleIDs_complete ctx "acme" (mkPrincipal "alice" "acme" "member-1" TypeUser)
           (mkSubject "member-1" SUBJECT_TYPE_MEMBERSHIP) all tt);
    [reflexivity|reflexivity|reflexivity|vm_compute; reflexivity].
Defined.

Lemma RoleIDs_terminates_witness : is_Some (RoleIDs 2 ctx "acme" tt).
Proof.
  apply (RoleIDs_terminates ctx "acme" 2 tt); [|lia|lia].
  intros subject page w. vm_compute. discriminate.
Defined.
End Sample.
