(* ===== verification/ServiceSpec.v ===== *)
(** * The contract of the service

    What [Service] guarantees against any store; and, with the repository as its
    store, that every operation is a sequence of well-formed repository calls, so
    the guarantees of [RepositorySpec] hold of everything the service does. *)
From S2P Require Import Prelude GoStd Json Model GraphCodec Graph GraphTheory GraphSpec World WorldTheory.
From S2P Require Import Repository Queries Lifecycle RepositoryTheory Invariants QueriesTheory RepositorySpec Service.
From Stdlib Require Import Ascii String.
From stdpp Require Import relations.
Local Open Scope string_scope.
Local Open Scope list_scope.

(** ** The repository is a store *)

Section instance.
Context {Event : Type} {EF : EventFactory Event} {SQL : SqlText} {E : Env}.

#[export] Instance repository_store : Store (World Event) := {|
  st_CreateDefinition := fun _ => Repository.CreateDefinition;
  st_UpdateDefinition := fun _ => Repository.UpdateDefinition;
  st_PublishDefinition := Repository.PublishDefinition;
  st_DisableDefinition := fun _ => Repository.DisableDefinition;
  st_GetDefinition := fun _ => Repository.GetDefinition;
  st_GetPublishedDefinitionByKey := fun _ => Repository.GetPublishedDefinitionByKey;
  st_ListDefinitions := fun _ => Queries.ListDefinitions;
  st_ListStartDefinitionCandidates := fun _ => Queries.ListStartDefinitionCandidates;
  st_ListInstanceDefinitionCandidates := fun _ => Queries.ListInstanceDefinitionCandidates;
  st_CreateInstance := Repository.CreateInstance;
  st_GetInstance := fun _ => Repository.GetInstance;
  st_CancelInstance := Repository.CancelInstance;
  st_ListInstances := fun _ => Queries.ListInstances;
  st_GetTask := fun _ => Repository.GetTask;
  st_ListTasks := fun _ => Queries.ListTasks;
  st_ListTaskInstanceCandidates := fun _ => Queries.ListTaskInstanceCandidates;
  st_ListTaskHistory := fun _ => Queries.ListTaskHistory;
  st_ClaimTask := fun _ => Repository.ClaimTask;
  st_CompleteTask := Repository.CompleteTask;
  st_DelegateTask := fun _ => Repository.DelegateTask
|}.
End instance.

(** ** Any store *)

Section any_store.
Context {W : Type} {ST : Store W} {AR : AssignmentResolver W} {SE : ServiceEnv W} {MR : MapRange}.

Lemma bind_Ok {A B} (m : stE W error A) (k : A -> stE W error B) w b w' :
  (m ≫= k) w = (Ok b, w') -> exists a w1, m w = (Ok a, w1) /\ k a w1 = (Ok b, w').
Proof. unfold mbind, stE_bind. destruct (m w) as [[a|e] w1]; [by exists a, w1|done]. Qed.

Lemma lift_Ok {A} (r : res A) (w : W) a w' : lift r w = (Ok a, w') -> r = Ok a /\ w' = w.
Proof. unfold lift. by intros [= -> ->]. Qed.

Lemma reject_if_Ok cond e (w : W) u w' :
  reject_if (E := error) cond e w = (Ok u, w') -> cond = false /\ w' = w.
Proof. unfold reject_if. destruct cond; [done|]. by intros [= _ ->]. Qed.

Lemma verifyApplication_Ok ctx t a w u w' :
  verifyApplication ctx t a w = (Ok u, w') -> app_Verify ctx t a w = (Ok tt, w').
Proof.
  unfold verifyApplication. destruct (app_Verify ctx t a w) as [[[]|e] w1]; [|done]. by intros [= _ ->].
Qed.

(** Why a task may be worked on by an actor. *)
Inductive assigned (ctx : Ctx) (tenantID actor : string) (task : Task) (w w' : W) : Prop :=
| as_direct : task_AssigneeType task ∈ [AssigneeUser; AssigneeStarter] -> task_Assignee task = actor ->
    w' = w -> assigned ctx tenantID actor task w w'
| as_role roles : task_AssigneeType task = AssigneeRole ->
    as_RoleIDs ctx tenantID actor w = (Ok roles, w') -> task_Assignee task ∈ roles ->
    assigned ctx tenantID actor task w w'
| as_expression : task_AssigneeType task = AssigneeExpression ->
    as_AuthorizeExpression ctx tenantID actor (task_Assignee task) w = (Ok tt, w') ->
    assigned ctx tenantID actor task w w'.

Lemma oneOf_spec v l : oneOf v l = true <-> v ∈ l.
Proof.
  unfold oneOf. rewrite existsb_exists, list_elem_of_In. setoid_rewrite String.eqb_eq.
  split; [by intros (x & ? & ->)|by exists v].
Qed.

Lemma assignment_allowed_sound ctx t actor task w w' :
  assignment_allowed ctx t actor task w = (Ok true, w') <-> assigned ctx t actor task w w'.
Proof.
  unfold assignment_allowed. split.
  - intros H. destruct (String.eqb_spec (task_AssigneeType task) AssigneeRole) as [Hr|Hr].
    + apply bind_Ok in H as (b & w1 & H1 & H2). rewrite Hr in H2. simpl in H2.
      apply bind_Ok in H1 as (roles & w2 & H1 & H3). unfold wrapped in H1.
      destruct (as_RoleIDs ctx t actor w) as [[r|e] w3] eqn:Hroles; [|done]. injection H1 as -> ->.
      injection H3 as Hb ->. injection H2 as Hb' ->. rewrite Hb' in Hb.
      by eapply as_role; [done|done|apply oneOf_spec].
    + simpl in H. destruct (String.eqb_spec (task_AssigneeType task) AssigneeExpression) as [He|He].
      * unfold tried in H. unfold mbind, stE_bind in H. simpl in H.
        destruct (as_AuthorizeExpression ctx t actor (task_Assignee task) w) as [[[]|e] w1] eqn:Hx; [|done].
        injection H as ->. by apply as_expression.
      * unfold mbind, stE_bind in H. simpl in H. injection H as H ->.
        apply as_direct; [| |done].
        -- destruct (String.eqb_spec (task_AssigneeType task) AssigneeUser) as [->|]; [by left|].
           destruct (String.eqb_spec (task_AssigneeType task) AssigneeStarter) as [->|]; [by right; left|done].
        -- destruct (String.eqb_spec (task_Assignee task) actor); [done|].
           by destruct (_ || _).
  - intros [Ht Ha ->|roles Hr Hroles Hin|He Hx].
    + rewrite Ha, String.eqb_refl. apply list_elem_of_In in Ht. simpl in Ht.
      by destruct Ht as [<-|[<-|[]]].
    + rewrite Hr. simpl. unfold mbind, stE_bind, wrapped. simpl. rewrite Hroles. simpl.
      by rewrite (proj2 (oneOf_spec _ _) Hin).
    + rewrite He. simpl. unfold mbind, stE_bind, tried. simpl. by rewrite Hx.
Qed.
End any_store.

(** ** Requests *)

Inductive request : Type :=
| RqCreateDefinition (input : CreateDefinitionInput)
| RqUpdateDefinition (input : UpdateDefinitionInput)
| RqPublishDefinition (tenantID applicationID id : string) (expectedVersion : Z)
| RqDisableDefinition (tenantID applicationID id : string) (expectedVersion : Z)
| RqGetDefinition (tenantID applicationID id : string) (revision : Z)
| RqListDefinitions (filter : DefinitionFilter)
| RqListStartDefinitionCandidates (filter : DefinitionFilter)
| RqListInstanceDefinitionCandidates (filter : DefinitionFilter)
| RqStartInstance (input : StartInstanceInput)
| RqCancelInstance (tenantID applicationID id reason : string) (expectedVersion : Z)
| RqGetInstance (tenantID applicationID id : string)
| RqListInstances (filter : InstanceFilter)
| RqGetTask (tenantID applicationID id : string)
| RqListTaskHistory (filter : TaskHistoryFilter)
| RqListMyTasks (filter : TaskFilter)
| RqListMyTaskInstanceCandidates (filter : TaskInstanceCandidateFilter)
| RqClaimTask (tenantID applicationID id : string) (expectedVersion : Z)
| RqCompleteTask (tenantID applicationID id decision comment outputJSON : string) (expectedVersion : Z)
| RqDelegateTask (tenantID applicationID id delegateTo reason : string) (expectedVersion : Z).

(** The tenant and the application a request is about. *)
Definition scope (q : request) : string * string :=
  match q with
  | RqCreateDefinition i => (cd_TenantID i, cd_ApplicationID i)
  | RqUpdateDefinition i => (ud_TenantID i, ud_ApplicationID i)
  | RqStartInstance i => (si_TenantID i, si_ApplicationID i)
  | RqListDefinitions f | RqListStartDefinitionCandidates f | RqListInstanceDefinitionCandidates f =>
      (df_TenantID f, df_ApplicationID f)
  | RqListInstances f => (if_TenantID f, if_ApplicationID f)
  | RqListTaskHistory f => (hf_TenantID f, hf_ApplicationID f)
  | RqListMyTasks f => (tf_TenantID f, tf_ApplicationID f)
  | RqListMyTaskInstanceCandidates f => (ticf_TenantID f, ticf_ApplicationID f)
  | RqPublishDefinition t a _ _ | RqDisableDefinition t a _ _ | RqGetDefinition t a _ _
  | RqCancelInstance t a _ _ _ | RqGetInstance t a _ | RqGetTask t a _ | RqClaimTask t a _ _
  | RqCompleteTask t a _ _ _ _ _ | RqDelegateTask t a _ _ _ _ => (t, a)
  end.

Section serve.
Context {W : Type} {ST : Store W} {AR : AssignmentResolver W} {SE : ServiceEnv W} {MR : MapRange}.

Definition answered {A} (m : stE W error A) : stE W error unit := _ ← m; mret tt.

Definition serve (ctx : Ctx) (q : request) : stE W error unit :=
  match q with
  | RqCreateDefinition i => answered (CreateDefinition ctx i)
  | RqUpdateDefinition i => answered (UpdateDefinition ctx i)
  | RqPublishDefinition t a id ev => answered (PublishDefinition ctx t a id ev)
  | RqDisableDefinition t a id ev => answered (DisableDefinition ctx t a id ev)
  | RqGetDefinition t a id r => answered (GetDefinition ctx t a id r)
  | RqListDefinitions f => answered (ListDefinitions ctx f)
  | RqListStartDefinitionCandidates f => answered (ListStartDefinitionCandidates ctx f)
  | RqListInstanceDefinitionCandidates f => answered (ListInstanceDefinitionCandidates ctx f)
  | RqStartInstance i => answered (StartInstance ctx i)
  | RqCancelInstance t a id reason ev => answered (CancelInstance ctx t a id reason ev)
  | RqGetInstance t a id => answered (GetInstance ctx t a id)
  | RqListInstances f => answered (ListInstances ctx f)
  | RqGetTask t a id => answered (GetTask ctx t a id)
  | RqListTaskHistory f => answered (ListTaskHistory ctx f)
  | RqListMyTasks f => answered (ListMyTasks ctx f)
  | RqListMyTaskInstanceCandidates f => answered (ListMyTaskInstanceCandidates ctx f)
  | RqClaimTask t a id ev => answered (ClaimTask ctx t a id ev)
  | RqCompleteTask t a id decision comment output ev =>
      answered (CompleteTask ctx t a id decision comment output ev)
  | RqDelegateTask t a id delegateTo reason ev => answered (DelegateTask ctx t a id delegateTo reason ev)
  end.

(** *** Access *)

Definition access_error (e : error) : error :=
  if errors_Is_foreign e NotGranted then Sentinel ErrForbidden
  else Wrap "verify tenant application access: %w" [] e.

(** A caller who is nobody, or of another tenant, gets an error and nothing else
    happens; the only call before the application check succeeds is that check. *)
Definition gated {A} (ctx : Ctx) (t a : string) (m : stE W error A) : Prop := forall w,
  match actorForTenant ctx t with
  | Err _ => exists e, m w = (Err e, w)
  | Ok _ =>
      (exists e, m w = (Err e, w)) \/
      match app_Verify ctx t a w with
      | (Err e, w1) => m w = (Err (access_error e), w1)
      | (Ok _, _) => t <> "" /\ a <> ""
      end
  end.

Lemma gated_bind {A B} ctx t a (m : stE W error A) (k : A -> stE W error B) :
  gated ctx t a m -> gated ctx t a (m ≫= k).
Proof.
  intros Hm w. specialize (Hm w). unfold mbind, stE_bind. destruct (actorForTenant ctx t) as [actor|e0].
  - destruct Hm as [[e Hm]|Hm]; [left; exists e; by rewrite Hm|right].
    destruct (app_Verify ctx t a w) as [[?|e1] w1]; [done|]. by rewrite Hm.
  - destruct Hm as [e Hm]. exists e. by rewrite Hm.
Qed.

Lemma gated_op {B} ctx t a cond e (k : string -> stE W error B) :
  (cond = false -> t <> "" /\ a <> "") ->
  gated ctx t a (actor ← lift (actorForTenant ctx t); _ ← reject_if cond e; _ ← verifyApplication ctx t a; k actor).
Proof.
  intros Hc w. unfold mbind, stE_bind, lift. destruct (actorForTenant ctx t) as [actor|e']; [|by exists e'].
  unfold reject_if. destruct cond; [left; by exists e|right]. unfold verifyApplication. simpl.
  destruct (app_Verify ctx t a w) as [[?|e1] w1]; [by apply Hc|done].
Qed.

Ltac gate :=
  first [ apply gated_op; intros; bool_to_prop; split; by apply str_empty_false
        | apply gated_bind; gate ].

Lemma gated_reject {A} ctx t a cond e (m : stE W error A) :
  gated ctx t a m -> gated ctx t a (_ ← reject_if cond e; m).
Proof.
  intros Hm w. unfold reject_if. destruct cond; [|apply Hm].
  unfold mbind, stE_bind. simpl. destruct (actorForTenant ctx t); [left|]; by exists e.
Qed.

Lemma gated_authorizedTask ctx t a id : gated ctx t a (authorizedTask ctx t a id).
Proof. unfold authorizedTask. gate. Qed.

Lemma gated_GetInstance ctx t a id : gated ctx t a (GetInstance ctx t a id).
Proof. unfold GetInstance. gate. Qed.

Lemma gated_ListTaskHistory ctx f : gated ctx (hf_TenantID f) (hf_ApplicationID f) (ListTaskHistory ctx f).
Proof.
  apply gated_reject, gated_bind.
  destruct (negb (str_empty (hf_TaskID f))); apply gated_bind; [apply gated_authorizedTask|apply gated_GetInstance].
Qed.

(** C13. Nothing happens before access is granted: for every request, a caller without
    a principal or with a principal of another tenant gets an error with no call to
    any component; otherwise the first call is the application check with the
    request's own tenant and application, and when that refuses, the answer is
    [ErrForbidden] (or the failure of the check) and nothing else was called. *)
Theorem requests_gated ctx q : gated ctx (scope q).1 (scope q).2 (serve ctx q).
Proof.
  destruct q; unfold serve, answered; apply gated_bind; cbn [scope fst snd];
    try gate; try apply gated_ListTaskHistory.
  all: unfold GetTask, ClaimTask, CompleteTask, DelegateTask; apply gated_bind, gated_authorizedTask.
Qed.

(** [authorizedTask] on success, exactly: the caller is of the tenant, the application
    is granted, the task exists, nobody else claimed it, and it is assigned to the
    caller - by name, by one of the roles the resolver returned for the caller, or by
    the permission the expression names. *)
Lemma authorizedTask_spec ctx t a id actor task w w' :
  authorizedTask ctx t a id w = (Ok (actor, task), w') <->
  actorForTenant ctx t = Ok actor /\ t <> "" /\ a <> "" /\ id <> "" /\
  exists w1 w2, app_Verify ctx t a w = (Ok tt, w1) /\ st_GetTask ctx t a id w1 = (Ok task, w2) /\
    (task_ClaimedBy task = "" \/ task_ClaimedBy task = actor) /\ assigned ctx t actor task w2 w'.
Proof.
  unfold authorizedTask. split.
  - intros H. apply bind_Ok in H as (actor0 & w0 & [Hactor ->]%lift_Ok & H).
    apply bind_Ok in H as ([] & w0 & [Hids ->]%reject_if_Ok & H).
    apply bind_Ok in H as ([] & w1 & Hv%verifyApplication_Ok & H).
    apply bind_Ok in H as (task0 & w2 & Hget & H).
    apply bind_Ok in H as ([] & w3 & [Hclaim ->]%reject_if_Ok & H).
    apply bind_Ok in H as (allowed & w4 & Hall & H).
    apply bind_Ok in H as ([] & w5 & [Hyes ->]%reject_if_Ok & H).
    injection H as -> -> ->. apply negb_false_iff in Hyes as ->. bool_to_prop.
    split; [done|]. split_and!; [by apply str_empty_false..|]. exists w1, w2. split_and!; [done..| |].
    + apply andb_false_iff in Hclaim as [Hc|Hc]; apply negb_false_iff in Hc; [left|right; by apply String.eqb_eq].
      by destruct (task_ClaimedBy task).
    + by apply assignment_allowed_sound.
  - intros (Hactor & Ht & Ha & Hid & w1 & w2 & Hv & Hget & Hclaim & Hall).
    unfold mbind, stE_bind, lift. rewrite Hactor.
    assert (He : forall s, s <> "" -> str_empty s = false) by (by intros []).
    rewrite !He by done. simpl. unfold verifyApplication. rewrite Hv, Hget.
    assert (Hc : negb (str_empty (task_ClaimedBy task)) && negb (String.eqb (task_ClaimedBy task) actor) = false).
    { destruct Hclaim as [->| ->]; [done|]. rewrite String.eqb_refl. apply andb_false_r. }
    rewrite Hc. simpl. apply assignment_allowed_sound in Hall. by rewrite Hall.
Qed.

End serve.

(** ** The service on the repository *)

Section on_repository.
Context {Event : Type} {EF : EventFactory Event} {SQL : SqlText} {E : Env} {MR : MapRange}.
Context {AR : AssignmentResolver (World Event)} {SE : ServiceEnv (World Event)}.
Implicit Types w : World Event.

(** The other components keep their hands off the workflow tables: the application
    verifier and the resolver ask other services, the clock and the identifier
    source have no tables. *)
Record quiet : Prop := {
  q_verify ctx t a w : w_db (app_Verify ctx t a w).2 = w_db w;
  q_roles ctx t u w : w_db (as_RoleIDs ctx t u w).2 = w_db w;
  q_expression ctx t u x w : w_db (as_AuthorizeExpression ctx t u x w).2 = w_db w;
  q_now w : w_db (sv_now w).2 = w_db w;
  q_newID w : w_db (sv_newID w).2 = w_db w
}.

Context (Hquiet : quiet).

(** [reads m]: [m] leaves the tables as they are. *)
Definition reads {A} (m : M Event A) : Prop := forall w, w_db (m w).2 = w_db w.

Lemma reads_bind {A B} (m : M Event A) (k : A -> M Event B) :
  reads m -> (forall a, reads (k a)) -> reads (m ≫= k).
Proof.
  intros Hm Hk w. unfold mbind, stE_bind. specialize (Hm w).
  destruct (m w) as [[a|e] w1]; simpl in *; [|done]. by rewrite Hk.
Qed.

Lemma reads_wp {A} (m : M Event A) (Q : DB Event -> res A -> DB Event -> Prop) :
  (forall db, wp m (fun r db' => db' = db /\ Q db r db') db) -> reads m.
Proof. intros Hm w. by destruct (wp_world m _ w (Hm (w_db w))). Qed.

Lemma reads_lift {A} (r : res A) : reads (lift r).
Proof. done. Qed.
Lemma reads_ret {A} (a : A) : reads (mret a).
Proof. done. Qed.
Lemma reads_reject cond e : reads (reject_if cond e).
Proof. by destruct cond. Qed.
Lemma reads_verify ctx t a : reads (verifyApplication ctx t a).
Proof.
  intros w. unfold verifyApplication. pose proof (q_verify Hquiet ctx t a w) as Hq.
  by destruct (app_Verify ctx t a w) as [[?|e] w1].
Qed.
Lemma reads_wrapped {A} format (m : M Event A) : reads m -> reads (wrapped format m).
Proof. intros Hm w. unfold wrapped. specialize (Hm w). by destruct (m w) as [[?|e] w1]. Qed.
Lemma reads_tried {A} (m : M Event A) : reads m -> reads (tried m).
Proof. intros Hm w. unfold tried. specialize (Hm w). by destruct (m w) as [r w1]. Qed.
Lemma reads_now : reads now.
Proof. intros w. unfold now. pose proof (q_now Hquiet w). by destruct (sv_now w). Qed.
Lemma reads_newID : reads newID.
Proof. intros w. unfold newID. pose proof (q_newID Hquiet w). by destruct (sv_newID w). Qed.
Lemma reads_query {A} (f : DB Event -> res A) : reads (query f).
Proof.
  intros w. unfold query, exec. destruct (env_fault _); [done|]. simpl. by destruct (f (w_db w)).
Qed.
Lemma reads_or_not_found {A} subject (m : M Event A) : reads m -> reads (or_not_found subject m).
Proof. intros Hm w. unfold or_not_found. specialize (Hm w). by destruct (m w) as [[?|e] w1]. Qed.
Lemma reads_wrap_err {A} format args (m : M Event A) : reads m -> reads (wrap_err format args m).
Proof. intros Hm w. unfold wrap_err. specialize (Hm w). by destruct (m w) as [[?|e] w1]. Qed.
Lemma reads_roles ctx t u : reads (as_RoleIDs ctx t u).
Proof. intros w. apply (q_roles Hquiet). Qed.
Lemma reads_expression ctx t u x : reads (as_AuthorizeExpression ctx t u x).
Proof. intros w. apply (q_expression Hquiet). Qed.
Lemma reads_list_page {R} cf lf (rows : DB Event -> list R) le p s : reads (list_page cf lf rows le p s).
Proof. eapply (reads_wp _ (fun db r db' => _)). intros db. apply wp_list_page. Qed.

Create HintDb reads.
#[local] Hint Resolve reads_lift reads_ret reads_reject reads_verify reads_wrapped reads_tried reads_now
  reads_newID reads_query reads_or_not_found reads_wrap_err reads_roles reads_expression reads_list_page : reads.

Ltac reads :=
  repeat (first [ solve [eauto with reads] | apply reads_bind; [|intros] | progress simpl
                | match goal with |- context [match ?x with _ => _ end] => destruct x end
                | match goal with |- context [if ?b then _ else _] => destruct b end ]).

Lemma reads_GetDefinition t a id r : reads (Repository.GetDefinition t a id r).
Proof. eapply (reads_wp _ (fun db r db' => _)). intros db. apply wp_GetDefinition. Qed.
Lemma reads_GetPublished t a key : reads (Repository.GetPublishedDefinitionByKey t a key).
Proof. apply reads_bind; [by auto with reads|]. intros. apply reads_GetDefinition. Qed.
Lemma reads_GetInstance_row t a id : reads (Repository.GetInstance t a id).
Proof. unfold Repository.GetInstance. reads. Qed.
Lemma reads_GetTask_row t a id : reads (Repository.GetTask t a id).
Proof. unfold Repository.GetTask. reads. Qed.
Lemma reads_ListDefinitions f : reads (Queries.ListDefinitions f).
Proof. eapply (reads_wp _ (fun db r db' => _)). intros db. apply wp_ListDefinitions. Qed.

#[local] Hint Resolve reads_GetDefinition reads_GetPublished reads_GetInstance_row reads_GetTask_row
  reads_ListDefinitions : reads.

Lemma reads_authorizedTask ctx t a id : reads (authorizedTask ctx t a id).
Proof. unfold authorizedTask, assignment_allowed. simpl. reads. Qed.
Lemma reads_prepare ctx f : reads (prepareMyTaskFilter ctx f).
Proof. unfold prepareMyTaskFilter. simpl. reads. Qed.
Lemma reads_candidate_filter ctx f : reads (validateDefinitionCandidateFilter ctx f).
Proof. unfold validateDefinitionCandidateFilter. simpl. reads. Qed.

#[local] Hint Resolve reads_authorizedTask reads_prepare reads_candidate_filter : reads.

Lemma reads_GetInstance ctx t a id : reads (GetInstance ctx t a id).
Proof. unfold GetInstance. simpl. reads. Qed.
#[local] Hint Resolve reads_GetInstance : reads.
Lemma reads_ListTaskHistory ctx f : reads (ListTaskHistory ctx f).
Proof.
  unfold ListTaskHistory. apply reads_bind; [reads|intros _].
  apply reads_bind; [destruct (negb _); reads|intros _]. apply reads_list_page.
Qed.
Lemma reads_ListMyTasks ctx f : reads (ListMyTasks ctx f).
Proof. apply reads_bind; [reads|]. intros. apply reads_list_page. Qed.
Lemma reads_ListMyTaskInstanceCandidates ctx f : reads (ListMyTaskInstanceCandidates ctx f).
Proof.
  apply reads_bind; [reads|]. intros. apply reads_bind; [apply reads_list_page|]. intros. apply reads_ret.
Qed.
Lemma reads_GetTask ctx t a id : reads (GetTask ctx t a id).
Proof. apply reads_bind; [reads|]. intros [actor task]. apply reads_ret. Qed.
Lemma reads_get_definition ctx t a id r : reads (GetDefinition ctx t a id r).
Proof. unfold GetDefinition. simpl. reads. Qed.
Lemma reads_list_definitions ctx f : reads (ListDefinitions ctx f).
Proof. unfold ListDefinitions. simpl. reads. Qed.
Lemma reads_ListInstances ctx f : reads (ListInstances ctx f).
Proof. unfold ListInstances. simpl. reads. Qed.
Lemma reads_ListStart ctx f : reads (ListStartDefinitionCandidates ctx f).
Proof. apply reads_bind; [reads|]. intros. apply reads_list_page. Qed.
Lemma reads_ListInstanceDefinitions ctx f : reads (ListInstanceDefinitionCandidates ctx f).
Proof. apply reads_bind; [reads|]. intros. apply reads_list_page. Qed.
#[local] Hint Resolve reads_ListTaskHistory reads_ListMyTasks reads_ListMyTaskInstanceCandidates reads_GetTask
  reads_get_definition reads_list_definitions reads_ListInstances reads_ListStart
  reads_ListInstanceDefinitions : reads.

(** [tracked m w]: running [m] is a sequence of well-formed repository calls. *)
Definition tracked {A} (m : M Event A) w : Prop := rtc run_step w (m w).2.

Lemma tracked_reads {A} (m : M Event A) w : reads m -> tracked m w.
Proof.
  intros Hm. apply rtc_once. specialize (Hm w). destruct (m w) as [r [db n]]; simpl in *. rewrite Hm.
  apply rs_tick.
Qed.

Lemma tracked_call {A} c (m : M Event A) w : run c = ignore m -> call_ok c (w_db w) -> tracked m w.
Proof. intros Hrun Hc. apply rtc_once. rewrite <- ignore_world, <- Hrun. by apply rs_call. Qed.

Lemma tracked_bind {A B} (m : M Event A) (k : A -> M Event B) w :
  tracked m w -> (forall a w1, m w = (Ok a, w1) -> tracked (k a) w1) -> tracked (m ≫= k) w.
Proof.
  intros Hm Hk. unfold tracked, mbind, stE_bind in *. destruct (m w) as [[a|e] w1]; simpl in *; [|done].
  etrans; [exact Hm|]. by apply Hk.
Qed.

Lemma authorizedTask_read ctx t a id w actor task w1 :
  started w -> authorizedTask ctx t a id w = (Ok (actor, task), w1) -> 
  w_db w1 = w_db w /\ db_tasks (w_db w) !! id = Some task /\ task_in t a task = true.
Proof.
  intros Hs H. pose proof (reads_authorizedTask ctx t a id w) as Hdb. rewrite H in Hdb. simpl in Hdb.
  split; [done|]. apply authorizedTask_spec in H as (_ & _ & _ & _ & w2 & w3 & Hv & Hget & _).
  pose proof (q_verify Hquiet ctx t a w) as Hw2. rewrite Hv in Hw2. simpl in Hw2, Hget.
  unfold Repository.GetTask, or_not_found, query, exec in Hget.
  destruct (env_fault (w_tick w2)); [done|]. simpl in Hget. unfold select_task in Hget. rewrite Hw2 in Hget.
  destruct (select_row id (task_in t a) (db_tasks (w_db w))) as [k|e] eqn:Hsel; simpl in Hget; [|done].
  injection Hget as -> _. by apply select_row_Ok in Hsel.
Qed.

Lemma authorized_current ctx t a id w actor task w1 :
  started w -> authorizedTask ctx t a id w = (Ok (actor, task), w1) -> current_read task (w_db w1).
Proof.
  intros Hs H. destruct (authorizedTask_read _ _ _ _ _ _ _ _ Hs H) as (-> & Hid & _).
  pose proof (reachable_ok _ (started_reachable _ Hs)) as Hok.
  intros k Hk _. rewrite (k_tasks _ (ok_keyed _ Hok) _ _ Hid) in Hk. congruence.
Qed.

(** *** One request, one call *)

(** What a request may call: a draft is written with the graph that was validated. *)
Definition request_call (q : request) (db : DB Event) (c : call) : Prop :=
  match q, c with
  | RqCreateDefinition i, CallCreateDefinition v =>
      (def_NodesJSON v, def_EdgesJSON v) = encodeGraph (cd_Nodes i) (cd_Edges i) /\ def_Name v = TrimSpace (cd_Name i) /\
      ValidateDefinition (def_Key v) (cd_Name i) (cd_Nodes i) (cd_Edges i) = Ok tt
  | RqUpdateDefinition i, CallUpdateDefinition v _ _ =>
      (def_NodesJSON v, def_EdgesJSON v) = encodeGraph (ud_Nodes i) (ud_Edges i) /\ def_Name v = TrimSpace (ud_Name i) /\
      exists d, db_definitions db !! def_ID v = Some d /\
        ValidateDefinition (def_Key d) (ud_Name i) (ud_Nodes i) (ud_Edges i) = Ok tt
  | (RqCreateDefinition _ | RqUpdateDefinition _), _ => False
  | _, (CallCreateDefinition _ | CallUpdateDefinition _ _ _) => False
  | _, _ => True
  end.

(** [m] changes the tables by at most one call, one of [R]. *)
Definition one_call {A} (R : DB Event -> call -> Prop) (m : M Event A) w : Prop :=
  w_db (m w).2 = w_db w \/
  exists c w1, w_db w1 = w_db w /\ call_ok c (w_db w) /\ R (w_db w) c /\ w_db (m w).2 = w_db (run c w1).2.

Lemma one_reads {A} R (m : M Event A) w : reads m -> one_call R m w.
Proof. left. apply H. Qed.

Lemma one_run {A} R c (m : M Event A) w : run c = ignore m -> call_ok c (w_db w) -> R (w_db w) c -> one_call R m w.
Proof. intros Hrun Hc HR. right. exists c, w. by rewrite Hrun, ignore_world. Qed.

Lemma one_before {A B} R (m : M Event A) (k : A -> M Event B) w :
  reads m -> (forall a w1, m w = (Ok a, w1) -> w_db w1 = w_db w -> one_call R (k a) w1) -> one_call R (m ≫= k) w.
Proof.
  intros Hm Hk. unfold one_call, mbind, stE_bind. specialize (Hm w). destruct (m w) as [[a|e] w1]; cbn in *; [|by left].
  specialize (Hk a w1 eq_refl Hm). unfold one_call in Hk. by rewrite Hm in Hk.
Qed.

Lemma one_after {A B} R (m : M Event A) (k : A -> M Event B) w :
  one_call R m w -> (forall a, reads (k a)) -> one_call R (m ≫= k) w.
Proof.
  intros Hm Hk. unfold one_call, mbind, stE_bind in *. destruct (m w) as [[a|e] w1]; cbn in *; [|done]. by rewrite (Hk a w1).
Qed.

Ltac one := repeat (apply one_before; [solve [reads]|intros ? ? ? ?]).

Lemma GetDefinition_current t a id w d w' : Repository.GetDefinition t a id 0 w = (Ok d, w') ->
  exists row, db_definitions (w_db w) !! id = Some row /\ hydrateDefinition row = Ok d.
Proof.
  intros H. pose proof (wp_world _ _ w (wp_GetDefinition t a id 0 (w_db w))) as Hg. rewrite H in Hg.
  destruct Hg as (_ & row & [_ Hrow] & Hh). by exists row.
Qed.

Lemma hydrate_columns d v : hydrateDefinition d = Ok v ->
  def_ID v = def_ID d /\ def_Key v = def_Key d /\ def_PublishedRevision v = def_PublishedRevision d /\
  def_Status v = def_Status d.
Proof. unfold hydrateDefinition. repeat case_match; intros [= <-]. done. Qed.

Lemma CreateDefinition_one_call ctx i w : one_call (request_call (RqCreateDefinition i)) (CreateDefinition ctx i) w.
Proof.
  unfold CreateDefinition. do 3 (apply one_before; [reads|intros ? ? _ _]).
  apply one_before; [reads|intros [] w' [Hv _]%lift_Ok _]. destruct (encodeGraph _ _) as [nodes edges] eqn:He.
  one. by eapply (one_run _ (CallCreateDefinition _)).
Qed.

Lemma UpdateDefinition_one_call ctx i w : one_call (request_call (RqUpdateDefinition i)) (UpdateDefinition ctx i) w.
Proof.
  unfold UpdateDefinition. do 3 (apply one_before; [reads|intros ? ? _ _]).
  apply one_before; [reads|intros d w3 Hd Hw3]. apply one_before; [reads|intros [] w4 _ Hw4].
  apply one_before; [reads|intros [] w5 [Hv ->]%lift_Ok _]. destruct (encodeGraph _ _) as [nodes edges] eqn:He.
  eapply (one_run _ (CallUpdateDefinition _ _ _)); [done..|]. split; [by rewrite He|]. split; [done|].
  apply GetDefinition_current in Hd as (row & Hrow & Hh). exists row. rewrite Hw4, Hw3. split; [exact Hrow|].
  apply hydrate_columns in Hh as (_ & <- & _). exact Hv.
Qed.

(** Every request changes the tables by at most one well-formed repository call. *)
Lemma serve_one_call ctx q w : started w -> one_call (request_call q) (serve ctx q) w.
Proof.
  intros Hs. destruct q; apply one_after; try (intros; apply reads_ret); try (apply one_reads; by auto with reads).
  - apply CreateDefinition_one_call.
  - apply UpdateDefinition_one_call.
  - unfold PublishDefinition, definition_identity_required. one. by eapply (one_run _ (CallPublishDefinition _ _ _ _ _ _)).
  - unfold DisableDefinition, definition_identity_required. one. by eapply (one_run _ (CallDisableDefinition _ _ _ _ _)).
  - unfold StartInstance. one. by eapply (one_run _ (CallCreateInstance _ _ _)).
  - unfold CancelInstance. one. by eapply (one_run _ (CallCancelInstance _ _ _ _ _ _ _)).
  - apply one_before; [apply reads_authorizedTask|]. intros [actor task] w1 _ _. one.
    by eapply (one_run _ (CallClaimTask _ _ _ _ _)).
  - apply one_before; [apply reads_authorizedTask|]. intros [actor task] w1 Hauth _.
    pose proof (authorized_current _ _ _ _ _ _ _ _ Hs Hauth) as Hread.
    apply one_before; [apply reads_reject|]. intros [] w2 [_ ->]%reject_if_Ok _.
    apply one_after; [by eapply (one_run _ (CallCompleteTask _ _ _ _ _ _))|]. intros. reads.
  - apply one_before; [apply reads_authorizedTask|]. intros [actor task] w1 Hauth _.
    pose proof (authorized_current _ _ _ _ _ _ _ _ Hs Hauth) as Hread.
    apply one_before; [apply reads_reject|]. intros [] w2 [_ ->]%reject_if_Ok _.
    by eapply (one_run _ (CallDelegateTask _ _ _ _)).
Qed.

Lemma one_call_steps {A} R (m : M Event A) w : one_call R m w -> rtc run_step w (m w).2.
Proof.
  assert (Htick : forall w1 w2, w_db w1 = w_db w2 -> run_step w2 w1) by (intros [db n] w2 Heq; cbn in Heq; rewrite Heq; apply rs_tick).
  intros [Hdb|(c & w1 & Hw1 & Hc & _ & Hdb)]; [by apply rtc_once, Htick|].
  eapply rtc_l; [by apply Htick|]. eapply rtc_l; [|by apply rtc_once, Htick]. apply rs_call. by rewrite Hw1.
Qed.

(** C14. Refinement of the service: every request, by anybody and with any content,
    changes the tables by at most one repository call, one whose arguments satisfy what
    the repository's guarantees assume, and a draft it writes has a graph that was
    validated - so the tables a server leaves behind after any requests are states of
    the abstract store. *)
Theorem serve_refines_calls ctx q w : started w ->
  one_call (request_call q) (serve ctx q) w /\ rtc run_step w (serve ctx q w).2.
Proof. intros Hs. pose proof (serve_one_call ctx q w Hs) as H. split; [done|]. by eapply one_call_steps. Qed.

(** *** What the calls return *)

Lemma reads_run {A} (m : M Event A) w r w' : reads m -> m w = (r, w') -> w_db w' = w_db w.
Proof. intros Hm Hrun. specialize (Hm w). by rewrite Hrun in Hm. Qed.

Lemma started_reads {A} (m : M Event A) w r w' : reads m -> started w -> m w = (r, w') -> started w'.
Proof.
  intros Hm Hs Hrun. pose proof (tracked_reads m w Hm) as Ht. unfold tracked in Ht. rewrite Hrun in Ht.
  by eapply started_more.
Qed.

Lemma hydrate_graph_eq d d' v v' :
  def_NodesJSON d' = def_NodesJSON d -> def_EdgesJSON d' = def_EdgesJSON d ->
  def_Key d' = def_Key d -> def_Name d' = def_Name d ->
  hydrateDefinition d = Ok v -> hydrateDefinition d' = Ok v' ->
  def_Key v' = def_Key v /\ def_Name v' = def_Name v /\ def_Nodes v' = def_Nodes v /\ def_Edges v' = def_Edges v.
Proof.
  unfold hydrateDefinition. intros -> -> Hk Hn. destruct (unmarshal_nodes _); [|done].
  destruct (unmarshal_edges _); [|done]. intros [= <-] [= <-]. simpl. by rewrite Hk, Hn.
Qed.

(** [keeps m]: when [m] fails, the tables are as before. *)
Definition keeps {A} (m : M Event A) : Prop := forall w,
  match m w with (Err _, w') => w_db w' = w_db w | _ => True end.

Lemma keeps_bind {A B} (m : M Event A) (k : A -> M Event B) :
  reads m -> (forall a, keeps (k a)) -> keeps (m ≫= k).
Proof.
  intros Hm Hk w. unfold mbind, stE_bind. specialize (Hm w). destruct (m w) as [[a|e] w1]; simpl in Hm; [|done].
  specialize (Hk a w1). destruct (k a w1) as [[?|?] ?]; [done|]. congruence.
Qed.

Lemma keeps_transaction {A} bf cf (body : M Event (tx_end A)) : keeps (transaction bf cf body).
Proof.
  intros w. unfold transaction, query, exec. simpl. destruct (env_fault (w_tick w)); [done|]. simpl.
  destruct (body _) as [[[x|x]|e] w2]; simpl; [done| |done]. by destruct (env_fault (w_tick w2)).
Qed.

Ltac keeps :=
  repeat (first [ apply keeps_transaction | apply keeps_bind; [solve [reads]|intros] ]).

Lemma keeps_PublishDefinition ctx t a id ev : keeps (PublishDefinition ctx t a id ev).
Proof. unfold PublishDefinition, definition_identity_required. keeps. Qed.
Lemma keeps_StartInstance ctx input : keeps (StartInstance ctx input).
Proof. unfold StartInstance. keeps. Qed.
Lemma keeps_ClaimTask ctx t a id ev : keeps (ClaimTask ctx t a id ev).
Proof. apply keeps_bind; [apply reads_authorizedTask|]. intros [actor task]. keeps. Qed.

(** What a service publishes was validated: the row a draft was read from is the row
    that is published. *)
Lemma publish_validated ctx t a id ev w v w' :
  started w -> PublishDefinition ctx t a id ev w = (Ok v, w') ->
  exists actor d d' now, actorForTenant ctx t = Ok actor /\ db_definitions (w_db w) !! id = Some d /\
    step_publish d d' now actor (w_db w) (w_db w') /\ def_Version d = ev /\
    def_ID v = id /\ def_Status v = DefinitionPublished /\
    ValidateDefinition (def_Key v) (def_Name v) (def_Nodes v) (def_Edges v) = Ok tt.
Proof.
  intros Hs H. unfold PublishDefinition, definition_identity_required in H.
  apply bind_Ok in H as (actor & w0 & [Hactor ->]%lift_Ok & H).
  apply bind_Ok in H as ([] & w0 & [_ ->]%reject_if_Ok & H).
  apply bind_Ok in H as ([] & w1 & Hv & H). apply reads_run in Hv as Hw1; [|apply reads_verify].
  apply bind_Ok in H as (current & w2 & Hget & H). apply reads_run in Hget as Hw2; [|apply reads_GetDefinition].
  apply bind_Ok in H as ([] & w3 & [Hvalid ->]%lift_Ok & H).
  pose proof (wp_world _ _ w1 (wp_GetDefinition t a id 0 (w_db w1))) as Hg. simpl in Hget.
  rewrite Hget in Hg. destruct Hg as (_ & d0 & [_ Hd0] & Hh0). simpl in Hd0.
  pose proof (reachable_ok _ (started_reachable _ Hs)) as Hok.
  assert (Hdb : w_db w2 = w_db w) by congruence. rewrite Hw1 in Hd0.
  pose proof (wp_world _ _ w2 (wp_PublishDefinition ctx t a id ev actor (w_db w2)
    ltac:(rewrite Hdb; apply Hok))) as Hp. simpl in H. rewrite H in Hp.
  destruct Hp as (d & d' & now & Hid & Hin & Hev & Hstep & Hh).
  rewrite Hdb in Hstep. pose proof Hstep as (_ & _ & _ & Hd & _). rewrite Hid in Hd.
  assert (d0 = d) as -> by congruence.
  destruct (hydrate_graph_eq d (publish_current d (uint32_incr (def_PublishedRevision d)) now actor) current v
    eq_refl eq_refl eq_refl eq_refl Hh0 Hh) as (-> & -> & -> & ->).
  apply hydrate_columns in Hh as (-> & _ & _ & ->). by exists actor, d, d', now.
Qed.

(** Only valid graphs are published: when [PublishDefinition] of the service
    succeeds, the graph it returns and put into the event passes
    [ValidateDefinition] - so it is acyclic and every node leads to an end - and the
    store took exactly the publication step of that definition at the expected
    version, by the caller. *)
Theorem published_graph_valid ctx t a id ev w :
  started w ->
  match PublishDefinition ctx t a id ev w with
  | (Ok v, w') =>
      ValidateDefinition (def_Key v) (def_Name v) (def_Nodes v) (def_Edges v) = Ok tt /\
      def_ID v = id /\ def_Status v = DefinitionPublished /\
      exists actor d d' now, actorForTenant ctx t = Ok actor /\ def_Version d = ev /\
        step_publish d d' now actor (w_db w) (w_db w')
  | (Err _, w') => w_db w' = w_db w
  end.
Proof.
  intros Hs. destruct (PublishDefinition ctx t a id ev w) as [[v|e] w'] eqn:Hrun.
  - destruct (publish_validated _ _ _ _ _ _ _ _ Hs Hrun) as (actor & d & d' & now & ? & ? & ? & ? & ? & ? & ?).
    split_and!; [done..|]. by exists actor, d, d', now.
  - by pose proof (keeps_PublishDefinition ctx t a id ev w) as Hk; rewrite Hrun in Hk.
Qed.

Lemma wp_GetPublishedDefinitionByKey t a key (db : DB Event) :
  wp (Repository.GetPublishedDefinitionByKey t a key) (fun r db' => db' = db /\
    match r with
    | Ok v => exists id d row, db_definitions db !! id = Some d /\ def_in t a d = true /\ def_Key d = key /\
        def_Status d = DefinitionPublished /\ stored t a (def_ID d) (def_PublishedRevision d) db row /\
        hydrateDefinition row = Ok v
    | Err e => True
    end) db.
Proof.
  apply wp_bind, wp_or_not_found, wp_query; [by intros|].
  pose proof (find_row_cases (fun d => def_in t a d && String.eqb (def_Key d) key
    && String.eqb (def_Status d) DefinitionPublished) (db_definitions db)) as Hf.
  destruct (find_row _ (db_definitions db)) as [d|e]; [|done].
  destruct Hf as (id & Hd & Hc). bool_to_prop. eapply wp_mono; [apply wp_GetDefinition|].
  intros [v|e] db' [-> Hr]; [|done]. split; [done|]. destruct Hr as (row & ? & ?). by exists id, d, row.
Qed.

(** A started instance is pinned: when [StartInstance] succeeds, the new instance
    runs the published definition of the requested key in the caller's tenant and
    application, at exactly its published revision, whose stored content is the
    definition's and (by [published_definition_frozen]) can never change; it was
    started by the caller, is running, and the store took the start step.  When it
    fails nothing was stored. *)
Theorem StartInstance_pins_revision ctx input w :
  started w ->
  match StartInstance ctx input w with
  | (Ok i, w') => exists actor d r published,
      actorForTenant ctx (si_TenantID input) = Ok actor /\
      db_definitions (w_db w) !! inst_DefinitionID i = Some d /\
      def_in (si_TenantID input) (si_ApplicationID input) d = true /\
      def_Key d = si_DefinitionKey input /\ def_Status d = DefinitionPublished /\
      inst_DefinitionRevision i = def_PublishedRevision d /\
      db_revisions (w_db w) !! (inst_DefinitionID i, inst_DefinitionRevision i) = Some r /\
      definition_content (rev_Definition r) = definition_content d /\
      inst_StarterID i = actor /\ inst_Status i = InstanceRunning /\
      inst_IdempotencyKey i = si_IdempotencyKey input /\ inst_BusinessKey i = si_BusinessKey input /\
      inst_in (si_TenantID input) (si_ApplicationID input) i = true /\
      si_TenantID input <> "" /\ si_ApplicationID input <> "" /\ (exists w0, inst_ID i = (sv_newID w0).1) /\
      hydrateDefinition (rev_Definition r) = Ok published /\
      step_start i published actor (w_db w) (w_db w')
  | (Err _, w') => w_db w' = w_db w
  end.
Proof.
  intros Hs. pose proof (keeps_StartInstance ctx input w) as Hkeep.
  destruct (StartInstance ctx input w) as [[i|e] w'] eqn:H; [clear Hkeep|done]. unfold StartInstance in H.
  apply bind_Ok in H as (actor & w0 & [Hactor ->]%lift_Ok & H).
  apply bind_Ok in H as ([] & w0 & [Hreq ->]%reject_if_Ok & H).
  apply bind_Ok in H as ([] & w1 & Hv & H). apply reads_run in Hv as Hw1; [|apply reads_verify].
  apply bind_Ok in H as ([] & w2 & [_ ->]%reject_if_Ok & H).
  apply bind_Ok in H as (v & w2 & Hget & H). apply reads_run in Hget as Hw2; [|apply reads_GetPublished].
  apply bind_Ok in H as (n & w3 & Hnow & H). apply reads_run in Hnow as Hw3; [|apply reads_now].
  apply bind_Ok in H as (id & w4 & Hnew & H). apply reads_run in Hnew as Hw4; [|apply reads_newID].
  assert (Hid : id = (sv_newID w3).1).
  { unfold newID in Hnew. destruct (sv_newID w3) as [id' w5]. by injection Hnew as <- _. }
  assert (Hdb : w_db w4 = w_db w) by congruence.
  pose proof (wp_world _ _ w1 (wp_GetPublishedDefinitionByKey (si_TenantID input) (si_ApplicationID input)
    (si_DefinitionKey input) (w_db w1))) as Hg. simpl in Hget. rewrite Hget, Hw1 in Hg.
  destruct Hg as (_ & k & d & row & Hd & Hin & Hkey & Hst & [_ Hrow] & Hh). pose proof Hh as Hhyd.
  pose proof (reachable_ok _ (started_reachable _ Hs)) as Hok.
  destruct (ok_revisions _ Hok _ _ Hd) as [(Hdraft & _)|(_ & Hone & r & Hr & Hcontent & Hrev & _ & Hrid & _)];
    [by rewrite Hst in Hdraft|].
  rewrite Hone in Hrow. simpl in Hrow. destruct Hrow as (r' & Hr' & ->). assert (r' = r) as -> by congruence.
  apply hydrate_columns in Hh as (Hvid & _ & Hvrev & _).
  pose proof (k_definitions _ (ok_keyed _ Hok) _ _ Hd) as Hk.
  match type of H with st_CreateInstance _ ?new _ _ = _ =>
    pose proof (wp_world _ _ w4 (wp_CreateInstance ctx new v (w_db w4) eq_refl eq_refl)) as Hc end.
  simpl in H. rewrite H in Hc. destruct Hc as [-> Hstep]. rewrite Hdb in Hstep. simpl.
  assert (Hv1 : def_ID v = k) by congruence. assert (Hv2 : def_PublishedRevision v = 1%Z) by congruence.
  exists actor, d, r, v. rewrite Hv1, Hv2, Hone in *. rewrite Hk in Hr.
  destruct (str_empty (si_TenantID input)) eqn:Ht; [done|]. destruct (str_empty (si_ApplicationID input)) eqn:Ha; [done|].
  split_and!; try done; [by apply inst_in_spec|by intros Hx; rewrite Hx in Ht|by intros Hx; rewrite Hx in Ha|by exists w3].
Qed.

(** The caller may act on the task at the expected version: the stored task is of the
    request's tenant and application and at that version, nobody else claimed it, and
    it is assigned to the caller. *)
Record may_act (ctx : Ctx) (t a id : string) (ev : Z) w (actor : string) (k : Task) : Prop := {
  ma_actor : actorForTenant ctx t = Ok actor;
  ma_stored : db_tasks (w_db w) !! id = Some k;
  ma_scope : task_in t a k = true;
  ma_version : task_Version k = ev /\ (1 <= ev)%Z;
  ma_claim : task_ClaimedBy k = "" \/ task_ClaimedBy k = actor;
  ma_assigned : exists w1 w2, w_db w1 = w_db w /\ assigned ctx t actor k w1 w2
}.

Lemma stale_false ev k : stale ev k = false -> task_Version k = ev /\ (1 <= ev)%Z.
Proof. unfold stale. intros Hst. bool_to_prop. apply Z.eqb_eq in H0. lia. Qed.

Lemma authorized_may_act ctx t a id ev w actor task w1 :
  started w -> authorizedTask ctx t a id w = (Ok (actor, task), w1) -> stale ev task = false ->
  may_act ctx t a id ev w actor task /\ w_db w1 = w_db w.
Proof.
  intros Hs H Hst. destruct (authorizedTask_read _ _ _ _ _ _ _ _ Hs H) as (Hdb & Hid & Hin).
  split; [|done]. apply authorizedTask_spec in H as (Ha & _ & _ & _ & w2 & w3 & Hv & Hget & Hclaim & Has).
  split; [done..|by apply stale_false|done|]. exists w3, w1. split; [|done].
  apply reads_run in Hget; [|apply reads_GetTask_row]. pose proof (q_verify Hquiet ctx t a w) as Hq.
  rewrite Hv in Hq. simpl in Hq. congruence.
Qed.

(** C17. Only the assignee changes a task, at the version it saw: a successful claim,
    decision or delegation was requested by a caller of the tenant to whom the stored
    task is assigned and whom no other claim excludes, at the stored version, and the
    store took exactly that step by that caller; for a decision the answer also has
    the stored instance, the decision is approve or reject and the output is a JSON
    object.  A claim that fails changes nothing. *)
Theorem task_changes_authorized ctx t a id ev decision comment output delegateTo reason w :
  started w ->
  match ClaimTask ctx t a id ev w with
  | (Ok k', w') => exists actor k h now, may_act ctx t a id ev w actor k /\
      step_claim k k' h now actor (w_db w) (w_db w')
  | (Err _, w') => w_db w' = w_db w
  end /\
  match CompleteTask ctx t a id decision comment output ev w with
  | (Ok (k', i), w') => exists actor k h now, may_act ctx t a id ev w actor k /\
      decision ∈ [DecisionApprove; DecisionReject] /\ validJSONObject (defaultJSONObject output) = Ok tt /\
      step_complete k k' h (decided_status decision) decision (TrimSpace comment) (defaultJSONObject output)
        now actor (w_db w) (w_db w') /\
      db_instances (w_db w') !! task_InstanceID k = Some i
  | (Err _, _) => True
  end /\
  match DelegateTask ctx t a id delegateTo reason ev w with
  | (Ok k', w') => exists actor k h now, may_act ctx t a id ev w actor k /\ delegateTo <> actor /\
      step_delegate k k' h (TrimSpace delegateTo) now actor (w_db w) (w_db w')
  | (Err _, _) => True
  end.
Proof.
  intros Hs. pose proof (reachable_ok _ (started_reachable _ Hs)) as Hok. split_and!.
  - pose proof (keeps_ClaimTask ctx t a id ev w) as Hkeep.
    destruct (ClaimTask ctx t a id ev w) as [[k'|e] w'] eqn:H; [clear Hkeep|done].
    apply bind_Ok in H as ([actor k] & w1 & Hauth & H).
    apply bind_Ok in H as ([] & w2 & [Hst ->]%reject_if_Ok & H).
    destruct (authorized_may_act _ _ _ _ _ _ _ _ _ Hs Hauth Hst) as [Hmay Hdb].
    pose proof (wp_world _ _ w1 (wp_ClaimTask t a id ev actor (w_db w1) ltac:(rewrite Hdb; apply Hok))) as Hc.
    simpl in H. rewrite H, Hdb in Hc. destruct Hc as (k0 & h & now & Hid & _ & _ & Hstep).
    exists actor, k, h, now. split; [done|]. pose proof Hstep as (_ & _ & Hl & _).
    rewrite Hid in Hl. pose proof (ma_stored _ _ _ _ _ _ _ _ Hmay). by assert (k0 = k) as <- by congruence.
  - destruct (CompleteTask ctx t a id decision comment output ev w) as [[[k' i]|e] w'] eqn:H; [|done].
    apply bind_Ok in H as ([actor k] & w1 & Hauth & H).
    apply bind_Ok in H as ([] & w2 & [Hst ->]%reject_if_Ok & H). bool_to_prop.
    destruct (authorized_may_act _ _ _ _ _ _ _ _ _ Hs Hauth H0) as [Hmay Hdb].
    pose proof (authorized_current _ _ _ _ _ _ _ _ Hs Hauth) as Hread.
    apply bind_Ok in H as (k1 & w2 & Hrun & H).
    pose proof (wp_world _ _ w1 (wp_CompleteTask ctx k decision (TrimSpace comment) (defaultJSONObject output) actor
      (w_db w1) ltac:(rewrite Hdb; apply Hok) Hread)) as Hc.
    simpl in Hrun. rewrite Hrun, Hdb in Hc. destruct Hc as (h & now & Hstep).
    apply bind_Ok in H as (i1 & w3 & Hget & H). injection H as -> -> ->.
    pose proof (reads_run _ _ _ _ (reads_GetInstance_row _ _ _) Hget) as Hw3.
    exists actor, k, h, now. rewrite Hw3. split; [done|]. split; [by apply oneOf_spec|]. split; [|split; [done|]].
    + unfold is_err in H2. bool_to_prop. by destruct (validJSONObject (defaultJSONObject output)) as [[]|e0].
    + simpl in Hget. unfold Repository.GetInstance, or_not_found, query, exec in Hget.
      destruct (env_fault (w_tick w2)); [done|]. simpl in Hget. unfold select_instance in Hget.
      destruct (select_row _ _ _) as [i0|e0] eqn:Hsel in Hget; simpl in Hget; [|done].
      injection Hget as -> _. by apply select_row_Ok in Hsel as [? _].
  - destruct (DelegateTask ctx t a id delegateTo reason ev w) as [[k'|e] w'] eqn:H; [|done].
    apply bind_Ok in H as ([actor k] & w1 & Hauth & H).
    apply bind_Ok in H as ([] & w2 & [Hst ->]%reject_if_Ok & H). bool_to_prop.
    destruct (authorized_may_act _ _ _ _ _ _ _ _ _ Hs Hauth H0) as [Hmay Hdb].
    pose proof (authorized_current _ _ _ _ _ _ _ _ Hs Hauth) as Hread.
    pose proof (wp_world _ _ w1 (wp_DelegateTask k (TrimSpace delegateTo) (TrimSpace reason) actor
      (w_db w1) ltac:(rewrite Hdb; apply Hok) Hread)) as Hc.
    simpl in H. rewrite H, Hdb in Hc. destruct Hc as (h & now & Hstep). by exists actor, k, h, now.
Qed.
End on_repository.

(** ** The properties at work: bob, a manager, approves the sample order *)

Module Served.
Import Sample.

#[export] Instance managers : AssignmentResolver (World DomainEvent) := {|
  as_RoleIDs := fun _ _ _ w => (Ok ["manager"], w);
  as_AuthorizeExpression := fun _ _ _ _ w => (Err (Sentinel ErrForbidden), w)
|}.

#[export] Instance granted : ServiceEnv (World DomainEvent) := {|
  app_Verify := fun _ t a w =>
    (if String.eqb t "acme" && String.eqb a "crm" then Ok tt else Err (Foreign NotGranted), w);
  sv_now := fun w => (1000%Z, w);
  sv_newID := fun w => ("fresh", w)
|}.

Lemma served_quiet : quiet (Event := DomainEvent).
Proof. by split. Qed.

Definition bob : Ctx := mkCtx (Some (mkPrincipal "bob" "acme" "member-2" TypeUser)) "req-2" "trace-2".

Lemma serve_refines_calls_witness :
  rtc run_step w1 (serve bob (RqCompleteTask "acme" "crm" "task-1" DecisionApprove "ok" "{}" 1) w1).2.
Proof.
  apply (serve_refines_calls served_quiet bob (RqCompleteTask "acme" "crm" "task-1" DecisionApprove "ok" "{}" 1) w1 started_w1).
Defined.

(** The draft of the sample run, before it is published. *)
Definition drafted : World DomainEvent := Eval vm_compute in run_all (take 1 setup) w0.

Lemma started_drafted : started drafted.
Proof.
  exists 0. replace drafted with (run_all (take 1 setup) w0) by (vm_compute; reflexivity).
  apply run_all_steps. vm_compute. repeat split.
Qed.

Lemma published_graph_valid_witness : exists v w',
  PublishDefinition bob "acme" "crm" "def-1" 1 drafted = (Ok v, w') /\
  ValidateDefinition (def_Key v) (def_Name v) (def_Nodes v) (def_Edges v) = Ok tt.
Proof.
  pose proof (published_graph_valid served_quiet bob "acme" "crm" "def-1" 1 drafted started_drafted) as H.
  destruct (PublishDefinition bob "acme" "crm" "def-1" 1 drafted) as [[v|e] w'] eqn:Hrun;
    [|vm_compute in Hrun; discriminate Hrun].
  exists v, w'. split; [reflexivity|apply H].
Defined.

Definition order : StartInstanceInput :=
  mkStartInstanceInput "acme" "crm" "order" "order-78" "Order 78" "{}" "key-0002".

Lemma StartInstance_pins_revision_witness : exists i w',
  StartInstance bob order w1 = (Ok i, w') /\ inst_StarterID i = "bob" /\
  inst_DefinitionRevision i = 1%Z /\ is_Some (db_revisions (w_db w1) !! (inst_DefinitionID i, 1%Z)).
Proof.
  pose proof (StartInstance_pins_revision served_quiet bob order w1 started_w1) as H.
  destruct (StartInstance bob order w1) as [[i|e] w'] eqn:Hrun; [|vm_compute in Hrun; discriminate Hrun].
  exists i, w'. destruct H as (actor & d & r & p & Ha & _ & _ & _ & _ & _ & Hr & _ & Hst & _).
  injection Ha as <-. vm_compute in Hrun. injection Hrun as Hi _.
  assert (Hrev : inst_DefinitionRevision i = 1%Z) by (rewrite <- Hi; reflexivity).
  rewrite Hrev in Hr. split; [reflexivity|]. split; [exact Hst|]. split; [exact Hrev|]. by exists r.
Defined.

Lemma task_changes_authorized_witness : exists k' i w',
  CompleteTask bob "acme" "crm" "task-1" DecisionApprove "ok" "{}" 1 w1 = (Ok (k', i), w') /\
  exists actor k, may_act bob "acme" "crm" "task-1" 1 w1 actor k.
Proof.
  destruct (task_changes_authorized served_quiet bob "acme" "crm" "task-1" 1 DecisionApprove "ok" "{}" "eve" "ill" w1
    started_w1) as (_ & H & _).
  destruct (CompleteTask bob "acme" "crm" "task-1" DecisionApprove "ok" "{}" 1 w1) as [[[k' i]|e] w'] eqn:Hrun;
    [|vm_compute in Hrun; discriminate Hrun].
  destruct H as (actor & k & h & now & Hmay & _). exists k', i, w'. split; [reflexivity|]. by exists actor, k.
Defined.

(** [DelegateTask] compares the delegate before it trims it: bob delegates to
    himself by adding a space. *)
Example delegate_to_self : exists k' w',
  DelegateTask bob "acme" "crm" "task-1" "bob " "later" 1 w1 = (Ok k', w') /\ task_Assignee k' = "bob".
Proof.
  destruct (DelegateTask bob "acme" "crm" "task-1" "bob " "later" 1 w1) as [[k'|e] w'] eqn:Hrun;
    vm_compute in Hrun; [|discriminate Hrun].
  injection Hrun as <- <-. by eexists _, _.
Qed.
End Served.
