(* ===== verification/DraftsSpec.v ===== *)
(** * The graphs in the tables

    What a caller drafts is what is stored, read, published and started: the response
    to a draft and every later reading of its row carry the graph that was sent, and
    every graph in the tables passes [ValidateDefinition]. *)
From S2P Require Import Prelude GoStd Json Model GraphCodec CodecSpec Graph GraphTheory GraphSpec World WorldTheory.
From S2P Require Import Repository Queries Lifecycle RepositoryTheory Invariants QueriesTheory RepositorySpec Service.
From S2P Require Import ServiceSpec.
From Stdlib Require Import Ascii String.
From stdpp Require Import relations.
Local Open Scope string_scope.
Local Open Scope list_scope.

Section drafts.
Context {Event : Type} {EF : EventFactory Event} {SQL : SqlText} {E : Env} {MR : MapRange}.
Implicit Types db : DB Event.

(** A row whose graph can be read and passes the validation under the row's key and name. *)
Definition valid_row (d : WDefinition) : Prop := exists v, hydrateDefinition d = Ok v /\
  ValidateDefinition (def_Key v) (def_Name v) (def_Nodes v) (def_Edges v) = Ok tt.

Definition graph_columns (d : WDefinition) := (def_Key d, def_Name d, def_NodesJSON d, def_EdgesJSON d).

Lemma valid_row_columns d d' : graph_columns d' = graph_columns d -> valid_row d -> valid_row d'.
Proof.
  unfold graph_columns, valid_row, hydrateDefinition. intros [= Hk Hn Ho He] (v & Hh & Hv). rewrite Ho, He.
  destruct (unmarshal_nodes _) as [nodes|]; [|done]. destruct (unmarshal_edges _) as [edges|]; [|done].
  eexists. split; [done|]. injection Hh as <-. cbn in *. by rewrite Hk, Hn.
Qed.

(** Trimming a name does not change whether a definition is valid. *)
Lemma ValidateDefinition_trimmed key name nodes edges :
  ValidateDefinition key (TrimSpace name) nodes edges = ValidateDefinition key name nodes edges.
Proof. unfold ValidateDefinition. by rewrite blank_TrimSpace. Qed.

Lemma encoded_row_valid d name nodes edges : graph_wide nodes edges -> graph_utf8 nodes edges ->
  def_NodesJSON d = (encodeGraph nodes edges).1 -> def_EdgesJSON d = (encodeGraph nodes edges).2 ->
  def_Name d = TrimSpace name -> ValidateDefinition (def_Key d) name nodes edges = Ok tt -> valid_row d.
Proof.
  intros Hw Hu H1 H2 Hn Hv. eexists. split; [by apply (hydrate_encoded_utf8 d nodes edges)|]. cbn.
  by rewrite Hn, ValidateDefinition_trimmed.
Qed.

(** Every graph in the tables is valid. *)
Record graphs_valid db : Prop := {
  gv_definitions id d : db_definitions db !! id = Some d -> valid_row d;
  gv_revisions k r : db_revisions db !! k = Some r -> valid_row (rev_Definition r)
}.

(** The definition tables did not change. *)
Definition same_graphs db db' : Prop :=
  db_definitions db' = db_definitions db /\ db_revisions db' = db_revisions db.

Lemma graphs_valid_same db db' : same_graphs db db' -> graphs_valid db -> graphs_valid db'.
Proof. intros [Hd Hr] [H1 H2]. split; rewrite ?Hd, ?Hr; eauto. Qed.

Lemma graphs_valid_put d db : valid_row d -> graphs_valid db -> graphs_valid (put_definition d db).
Proof.
  intros Hd [H1 H2]. split; [|exact H2]. intros id d'. cbn. rewrite lookup_insert_Some. intros [[_ <-]|[_ H]]; eauto.
Qed.

Lemma emits_graphs e actor db db' : emits (EF := EF) e actor db db' -> same_graphs db db'.
Proof. intros (ctx & n & event & _ & ->). done. Qed.

(** The steps about instances, tasks and history leave the definition tables alone. *)
Lemma step_start_graphs v d actor db db' : step_start v d actor db db' -> same_graphs db db'.
Proof. intros (_ & _ & _ & _ & _ & He). by apply emits_graphs in He. Qed.
Lemma step_cancel_graphs i i' reason now actor db db' : step_cancel i i' reason now actor db db' -> same_graphs db db'.
Proof. intros (_ & db1 & (_ & _ & ->) & He). by apply emits_graphs in He. Qed.
Lemma step_advance_graphs i i' node now actor db db' : step_advance i i' node now actor db db' -> same_graphs db db'.
Proof. by intros (_ & _ & _ & _ & ->). Qed.
Lemma step_finish_graphs i i' s r m now actor db db' : step_finish i i' s r m now actor db db' -> same_graphs db db'.
Proof. intros (_ & db1 & (_ & _ & ->) & He). by apply emits_graphs in He. Qed.
Lemma step_task_graphs v now actor db db' : step_task v now actor db db' -> same_graphs db db'.
Proof.
  intros (_ & _ & _ & _ & db1 & [(i & _ & _ & _ & _ & ->)|(i & i' & _ & _ & Ha)] & He); apply emits_graphs in He; [done|].
  apply step_advance_graphs in Ha as [Hd Hr]. destruct He as [Hd' Hr']. cbn in *. split; congruence.
Qed.
Lemma step_claim_graphs t t' h now actor db db' : step_claim t t' h now actor db db' -> same_graphs db db'.
Proof. by intros (_ & _ & _ & _ & _ & _ & _ & ->). Qed.
Lemma step_complete_graphs t t' h s d c o now actor db db' : step_complete t t' h s d c o now actor db db' -> same_graphs db db'.
Proof. intros (_ & _ & _ & db1 & (_ & _ & _ & _ & _ & ->) & He). by apply emits_graphs in He. Qed.
Lemma step_delegate_graphs t t' h d now actor db db' : step_delegate t t' h d now actor db db' -> same_graphs db db'.
Proof. by intros (_ & _ & _ & _ & _ & _ & _ & ->). Qed.
Lemma step_purge_graphs before ids db db' : step_purge before ids db db' -> same_graphs db db'.
Proof. by intros [_ ->]. Qed.

Lemma graphs_valid_publish d d' now actor db db' :
  step_publish (EF := EF) d d' now actor db db' -> graphs_valid db -> graphs_valid db'.
Proof.
  intros (_ & _ & Hrow & Hd & v & _ & He) Hg. apply emits_graphs in He. eapply graphs_valid_same; [exact He|].
  pose proof (gv_definitions _ Hg _ _ Hd) as Hvd. apply graphs_valid_put.
  - eapply valid_row_columns; [|exact Hvd]. by row_inv Hrow.
  - split; [apply Hg|]. intros k r. cbn. rewrite lookup_insert_Some. intros [[_ <-]|[_ H]]; [|by eapply gv_revisions].
    by apply (valid_row_columns d).
Qed.

Lemma graphs_valid_disable d d' now actor db db' : step_disable d d' now actor db db' -> graphs_valid db -> graphs_valid db'.
Proof.
  intros (_ & Hrow & Hd & ->) Hg. apply graphs_valid_put; [|done].
  eapply valid_row_columns; [|exact (gv_definitions _ Hg _ _ Hd)]. by row_inv Hrow.
Qed.

(** The graphs a call brings in are valid. *)
Definition call_graphs (c : call) db : Prop :=
  match c with
  | CallCreateDefinition v => valid_row (definition_row v)
  | CallUpdateDefinition v _ actor => forall d now d', db_definitions db !! def_ID v = Some d ->
      row_updated v now actor d = Ok d' -> valid_row d'
  | _ => True
  end.

Create HintDb graphs.
#[local] Hint Resolve step_start_graphs step_cancel_graphs step_advance_graphs step_finish_graphs step_task_graphs
  step_claim_graphs step_complete_graphs step_delegate_graphs step_purge_graphs : graphs.

(** The calls about definitions. *)
Definition definition_call (c : call) : bool :=
  match c with
  | CallCreateDefinition _ | CallUpdateDefinition _ _ _ | CallPublishDefinition _ _ _ _ _ _ | CallDisableDefinition _ _ _ _ _ => true
  | _ => false
  end.

Lemma run_same_graphs c db : keyed db -> call_ok c db -> definition_call c = false ->
  wp (run c) (fun _ db' => db' = db \/ same_graphs db db') db.
Proof.
  intros Hk Hok Hc. destruct c; try discriminate Hc; cbn [run call_ok] in *; apply wp_ignore.
  { destruct Hok. eapply wp_mono; [by apply wp_CreateInstance|].
       intros [?|?] db'; [intros [_ Hs]; eauto with graphs|intros [-> _]; by left]. }
  { eapply wp_mono; [by apply wp_CancelInstance|].
       intros [?|?] db'; [intros (i & now & _ & _ & _ & Hs); eauto with graphs|intros [-> _]; by left]. }
  { eapply wp_mono; [by apply wp_UpdateInstanceNode|].
       intros [?|?] db'; cbn; [intros [(i & i' & now & _ & _ & Hs)|[-> _]]|intros [[-> _]|[(i & i' & now & _ & _ & Hs) _]]]; eauto with graphs. }
  { eapply wp_mono; [by apply wp_FinishInstance|].
       intros [?|?] db'; [intros [(i & now & _ & _ & Hs)|[-> _]]|intros [-> _]]; eauto with graphs. }
  { destruct Hok. eapply wp_mono; [by apply wp_CreateTask|].
       intros [?|?] db'; [intros [[_ [now Hs]]|[-> _]]|intros [-> _]]; eauto with graphs. }
  { eapply wp_mono; [by apply wp_ClaimTask|].
       intros [?|?] db'; [intros (k & h & now & _ & _ & _ & Hs)|intros [-> _]]; eauto with graphs. }
  { eapply wp_mono; [by apply wp_CompleteTask|].
       intros [?|?] db'; [intros (h & now & Hs)|intros [-> _]]; eauto with graphs. }
  { eapply wp_mono; [by apply wp_DelegateTask|].
       intros [?|?] db'; [intros (h & now & Hs)|intros [[-> _]|[(k & h & now & Hs) _]]]; eauto with graphs. }
  { eapply wp_mono; [by apply wp_DeleteTaskHistoryBefore|].
       intros [?|?] db'; cbn; [intros [Hs _]|intros [_ [->|Hs]]]; eauto with graphs. }
Qed.

Lemma run_graphs c db : keyed db -> call_ok c db -> call_graphs c db -> graphs_valid db ->
  wp (run c) (fun _ db' => graphs_valid db') db.
Proof.
  intros Hk Hok Hc Hg. destruct (definition_call c) eqn:Hdef.
  2: { eapply wp_mono; [by apply run_same_graphs|]. intros _ db' [->|Hs]; [done|]. by eapply graphs_valid_same. }
  destruct c; try discriminate Hdef; cbn [run call_ok call_graphs] in *; apply wp_ignore; eapply wp_mono.
  - destruct Hok. by apply wp_CreateDefinition.
  - assert (Hnew : forall db', step_create v db db' -> graphs_valid db')
      by (intros db' (_ & _ & _ & _ & ->); by apply graphs_valid_put).
    intros [?|e] db'; [intros [Hs _]; by apply Hnew|intros [_ [->|Hs]]; [done|by apply Hnew]].
  - by apply wp_UpdateDefinition.
  - assert (Hnew : forall now d d' db', def_ID d = def_ID v -> step_edit v d d' now actor db db' -> graphs_valid db').
    { intros now d d' db' Hid (_ & Hrow & Hd & ->). apply graphs_valid_put; [|done]. rewrite Hid in Hd. by eapply Hc. }
    intros [?|e] db'; cbn; [intros (now & d & d' & (Hid & _ & _ & Hs) & _); by eapply Hnew|].
    intros [[-> _]|[(now & d & d' & Hid & _ & _ & Hs) _]]; [done|by eapply Hnew].
  - by apply wp_PublishDefinition.
  - intros [?|e] db'; [|by intros [-> _]]. intros (d & d' & now & _ & _ & _ & Hs & _). by eapply graphs_valid_publish.
  - by apply wp_DisableDefinition.
  - intros [?|e] db'; cbn.
    + intros (now & d & d' & (_ & _ & _ & Hs) & _). by eapply graphs_valid_disable.
    + intros [[-> _]|[(now & d & d' & _ & _ & _ & Hs) _]]; [done|by eapply graphs_valid_disable].
Qed.
End drafts.

(** ** Requests *)

Section requests.
Context {Event : Type} {EF : EventFactory Event} {SQL : SqlText} {E : Env} {MR : MapRange}.
Context {AR : AssignmentResolver (World Event)} {SE : ServiceEnv (World Event)} (Hquiet : quiet (Event := Event)).
Implicit Types w : World Event.

(** The transports pass UTF-8 strings and integers of the declared widths. *)
Definition request_graphs (q : request) : Prop :=
  match q with
  | RqCreateDefinition i => graph_wide (cd_Nodes i) (cd_Edges i) /\ graph_utf8 (cd_Nodes i) (cd_Edges i)
  | RqUpdateDefinition i => graph_wide (ud_Nodes i) (ud_Edges i) /\ graph_utf8 (ud_Nodes i) (ud_Edges i)
  | _ => True
  end.

Lemma request_call_graphs q (db : DB Event) c : request_graphs q -> request_call q db c -> call_graphs c db.
Proof.
  destruct q, c; try done; cbn [request_graphs request_call call_graphs].
  - intros [Hw Hu] (He & Hn & Hv). eapply (encoded_row_valid _ _ _ _ Hw Hu); rewrite <- ?He; try done.
  - intros [Hw Hu] (He & Hn & d0 & Hd0 & Hv) d now d' Hd Hrow. rewrite Hd in Hd0. injection Hd0 as <-.
    eapply (encoded_row_valid _ _ _ _ Hw Hu); rewrite <- ?He; by row_inv Hrow.
Qed.

(** What happens to the tables of a running service: requests, and the calls of the
    workers and the cleaner, in any order. *)
Inductive served w : World Event -> Prop :=
| sd_request ctx q : request_graphs q -> served w (serve ctx q w).2
| sd_call c : call_ok c (w_db w) -> definition_call c = false -> served w (run c w).2
| sd_tick n : served w (mkWorld (w_db w) n).

Lemma served_run w w' : started w -> served w w' -> rtc run_step w w'.
Proof.
  intros Hs [ctx q _|c Hc _|n]; [|by apply rtc_once, rs_call|by apply rtc_once, rs_tick].
  by eapply one_call_steps, serve_one_call.
Qed.

Lemma served_graphs w w' : started w -> served w w' -> graphs_valid (w_db w) -> graphs_valid (w_db w').
Proof.
  intros Hs Hd Hg. pose proof (ok_keyed _ (reachable_ok _ (started_reachable _ Hs))) as Hk.
  assert (Hrun : forall c w1, w_db w1 = w_db w -> call_ok c (w_db w) -> call_graphs c (w_db w) -> graphs_valid (w_db (run c w1).2)).
  { intros c w1 Hw1 Hok Hc. apply (wp_world (run c) (fun _ db' => graphs_valid db')). rewrite Hw1. by apply run_graphs. }
  destruct Hd as [ctx q Hq|c Hok Hc|n]; [|apply Hrun; [done..|by destruct c]|done].
  destruct (serve_one_call Hquiet ctx q w Hs) as [->|(c & w1 & Hw1 & Hok & Hc & ->)]; [done|].
  apply Hrun; [done..|]. by apply (request_call_graphs q).
Qed.

Lemma served_all n w : rtc served (mkWorld empty_db n) w -> started w /\ graphs_valid (w_db w).
Proof.
  assert (H0 : started (mkWorld (Event := Event) empty_db n)) by (by exists n).
  assert (Hg : graphs_valid (Event := Event) empty_db) by (split; intros ? ?; cbn; by rewrite lookup_empty).
  change (empty_db) with (w_db (mkWorld (Event := Event) empty_db n)) in Hg. revert H0 Hg.
  generalize (mkWorld (Event := Event) empty_db n). intros w0 H0 Hg Hrtc. induction Hrtc as [w|w w1 w' Hs _ IH]; [done|].
  apply IH; [|by eapply served_graphs]. by eapply started_more, served_run.
Qed.

(** C16. Every graph in the tables is valid: after any requests whose drafts are UTF-8
    and within the widths of their fields, and any calls of the workers in between,
    each definition and each published revision decodes, and what [GetDefinition]
    returns passes [ValidateDefinition] - so publishing a stored draft is never refused
    for its graph, and an instance is only started with a graph that can be run. *)
Theorem stored_graphs_valid n w : rtc served (mkWorld empty_db n) w ->
  graphs_valid (w_db w) /\
  forall t a id revision v w', Repository.GetDefinition t a id revision w = (Ok v, w') ->
    ValidateDefinition (def_Key v) (def_Name v) (def_Nodes v) (def_Edges v) = Ok tt.
Proof.
  intros Hr. destruct (served_all n w Hr) as [_ Hg]. split; [done|]. intros t a id revision v w' Hget.
  pose proof (wp_world _ _ w (wp_GetDefinition t a id revision (w_db w))) as Hw. rewrite Hget in Hw.
  destruct Hw as (_ & d & [_ Hd] & Hh). assert (Hv : valid_row d).
  { destruct (revision =? 0)%Z; [by eapply gv_definitions|]. destruct Hd as (row & Hrow & ->). by eapply gv_revisions. }
  destruct Hv as (v' & Hh' & Hv). rewrite Hh in Hh'. by injection Hh' as <-.
Qed.

(** *** What is sent is what is read *)

(** [v] carries the graph, and so does every reading of its row while nobody changes it. *)
Definition carries (nodes : list Node) (edges : list Edge) (v : WDefinition) w : Prop :=
  def_Nodes v = map node_to_valid nodes /\ def_Edges v = map edge_to_valid edges /\
  (graph_utf8 nodes edges -> def_Nodes v = nodes /\ def_Edges v = edges) /\
  forall w1, db_definitions (w_db w1) !! def_ID v = db_definitions (w_db w) !! def_ID v ->
    match (Repository.GetDefinition (def_TenantID v) (def_ApplicationID v) (def_ID v) 0 w1).1 with
    | Ok v' => v' = v
    | Err e => fault_error e
    end.

Lemma hydrated_carries nodes edges d v w : graph_wide nodes edges ->
  (def_NodesJSON d, def_EdgesJSON d) = encodeGraph nodes edges -> hydrateDefinition d = Ok v ->
  db_definitions (w_db w) !! def_ID d = Some d -> carries nodes edges v w.
Proof.
  intros Hw He Hh Hd. pose proof Hh as Hv. rewrite (hydrate_encoded d nodes edges Hw) in Hv by (by rewrite <- He).
  injection Hv as <-. split; [done|]. split; [done|]. split.
  - intros [Hn Hed]. cbn. by rewrite (map_fixed _ _ Hn), (map_fixed _ _ Hed).
  - cbn [def_ID def_TenantID def_ApplicationID def_set_graph]. intros w1 Hsame. rewrite Hd in Hsame.
    assert (Hin : def_in (def_TenantID d) (def_ApplicationID d) d = true) by (by apply def_in_spec).
    destruct (wp_world _ _ w1 (wp_reread _ _ _ (w_db w1) d Hsame Hin)) as [_ Hr].
    destruct (Repository.GetDefinition _ _ _ 0 w1) as [[v'|e] w2]; [|exact Hr].
    cbn [fst] in *. rewrite Hh in Hr. by injection Hr as ->.
Qed.

Lemma CreateDefinition_row ctx input v w w' : CreateDefinition ctx input w = (Ok v, w') -> exists d,
  (def_NodesJSON d, def_EdgesJSON d) = encodeGraph (cd_Nodes input) (cd_Edges input) /\
  hydrateDefinition d = Ok v /\ db_definitions (w_db w') !! def_ID d = Some d.
Proof.
  unfold CreateDefinition. intros H. do 3 (apply bind_Ok in H as (? & ? & _ & H)).
  apply bind_Ok in H as (? & ? & _ & H). destruct (encodeGraph _ _) as [nodes edges] eqn:He.
  apply bind_Ok in H as (now & ? & _ & H). apply bind_Ok in H as (id & w1 & _ & H). cbn [st_CreateDefinition repository_store] in H.
  match type of H with Repository.CreateDefinition ?d w1 = _ =>
    pose proof (wp_world _ _ w1 (wp_CreateDefinition d (w_db w1) eq_refl eq_refl)) as Hc; rewrite H in Hc; cbn [fst snd] in Hc;
    exists (definition_row d) end.
  destruct Hc as [(_ & _ & _ & _ & ->) Hh]. split; [done|]. split; [done|]. apply lookup_insert_eq.
Qed.

Lemma UpdateDefinition_row ctx input v w w' : keyed (w_db w) -> UpdateDefinition ctx input w = (Ok v, w') -> exists d,
  (def_NodesJSON d, def_EdgesJSON d) = encodeGraph (ud_Nodes input) (ud_Edges input) /\
  hydrateDefinition d = Ok v /\ db_definitions (w_db w') !! def_ID d = Some d.
Proof.
  unfold UpdateDefinition. intros Hk H. apply bind_Ok in H as (? & ? & [_ ->]%lift_Ok & H).
  apply bind_Ok in H as ([] & ? & [_ ->]%reject_if_Ok & H).
  apply bind_Ok in H as ([] & w1 & Hv%(reads_run _ _ _ _ (reads_verify Hquiet _ _ _)) & H).
  apply bind_Ok in H as (current & w2 & Hget%(reads_run _ _ _ _ (reads_GetDefinition _ _ _ _)) & H).
  apply bind_Ok in H as ([] & ? & [_ ->]%reject_if_Ok & H). apply bind_Ok in H as ([] & ? & [_ ->]%lift_Ok & H).
  destruct (encodeGraph _ _) as [nodes edges] eqn:He. cbn [st_UpdateDefinition repository_store] in H.
  match type of H with Repository.UpdateDefinition ?d ?ev ?actor w2 = _ =>
    pose proof (wp_world _ _ w2 (wp_UpdateDefinition d ev actor (w_db w2) ltac:(by rewrite Hget, Hv))) as Hc end.
  rewrite H in Hc. cbn [fst snd] in Hc. destruct Hc as (now & d & d' & (Hid & _ & _ & (_ & Hrow & _ & ->)) & Hh). exists d'.
  split; [by row_inv Hrow|]. split; [done|]. apply lookup_insert_eq.
Qed.

(** C15. A draft survives the store: when a definition is created or updated, the
    answer carries the nodes and edges of the request - with the bytes that are not
    UTF-8 replaced, hence exactly if there are none - and as long as the row is not
    changed, reading it again gives the same definition or fails for reasons of the
    environment, never because the stored text could not be decoded. *)
Theorem draft_roundtrip ctx w : started w ->
  (forall input v w', graph_wide (cd_Nodes input) (cd_Edges input) ->
     CreateDefinition ctx input w = (Ok v, w') -> carries (cd_Nodes input) (cd_Edges input) v w') /\
  (forall input v w', graph_wide (ud_Nodes input) (ud_Edges input) ->
     UpdateDefinition ctx input w = (Ok v, w') -> carries (ud_Nodes input) (ud_Edges input) v w').
Proof.
  intros Hs. pose proof (ok_keyed _ (reachable_ok _ (started_reachable _ Hs))) as Hk. split; intros input v w' Hw H.
  - destruct (CreateDefinition_row ctx input v w w' H) as (d & He & Hh & Hd). by eapply hydrated_carries.
  - destruct (UpdateDefinition_row ctx input v w w' Hk H) as (d & He & Hh & Hd). by eapply hydrated_carries.
Qed.
End requests.

Module Drafted.
Import Sample Served.

(** A name with a rune beyond ASCII and characters that JSON escapes. *)
Definition nodes : list Node :=
  mkNode "start" ("Anfang <" +:+ encode_rune 252 +:+ encode_rune 8232 +:+ ">") NodeStart "" "" 0 "" "" "" "" 0 "" :: tail sample_nodes.
Definition input : CreateDefinitionInput := mkCreateDefinitionInput "acme" "crm" "order" " Order " "" nodes sample_edges.
Definition requests : list request := [RqCreateDefinition input; RqPublishDefinition "acme" "crm" "fresh" 1].

Lemma input_graphs : request_graphs (RqCreateDefinition input).
Proof. split; split; repeat (constructor; try done). Qed.

Lemma draft_roundtrip_witness : exists v w', CreateDefinition bob input w0 = (Ok v, w') /\ def_Nodes v = nodes.
Proof.
  destruct (CreateDefinition bob input w0) as [[v|e] w'] eqn:Hrun; [|vm_compute in Hrun; discriminate Hrun].
  exists v, w'. split; [reflexivity|].
  destruct (draft_roundtrip served_quiet bob w0 (ex_intro _ 0 (rtc_refl _ _))) as [H _].
  destruct (H input v w' (proj1 input_graphs) Hrun) as (_ & _ & Hu & _). exact (proj1 (Hu (proj2 input_graphs))).
Defined.

Definition after : World DomainEvent := (serve bob (RqPublishDefinition "acme" "crm" "fresh" 1) (serve bob (RqCreateDefinition input) w0).2).2.

Lemma stored_graphs_valid_witness : exists r, db_revisions (w_db after) !! ("fresh", 1%Z) = Some r /\ valid_row (rev_Definition r).
Proof.
  assert (Hr : rtc served (mkWorld empty_db 0) after).
  { eapply rtc_l; [exact (sd_request w0 bob (RqCreateDefinition input) input_graphs)|].
    apply rtc_once. exact (sd_request _ bob (RqPublishDefinition "acme" "crm" "fresh" 1) I). }
  destruct (stored_graphs_valid served_quiet 0 after Hr) as [Hg _].
  destruct (db_revisions (w_db after) !! ("fresh", 1%Z)) as [r|] eqn:Hrev; [|vm_compute in Hrev; discriminate Hrev].
  exists r. split; [reflexivity|]. exact (gv_revisions _ Hg _ _ Hrev).
Defined.
End Drafted.
