(* ===== verification/Execute.v ===== *)
(** * The workflow (internal/workflowruntime/workflow.go)

    [Execute] is deterministic code whose every effect is a command to Temporal: an
    activity, a timer or an await.  Temporal and the activities are the parameter
    [Runtime]: what a command answers may depend on everything that happened before.
    The state of a run is the log of its commands together with the two variables
    the deferred compensation reads; [Execute] returns the log, so theorems speak
    about the order of the effects. *)
From S2P Require Import Prelude GoStd Json Model GraphCodec Graph.
From Stdlib Require Import Ascii String.
From stdpp Require Import sorting.
Local Open Scope string_scope.
Local Open Scope list_scope.

(** ** Messages *)

Record Input : Type := mkInput {
  in_InstanceID : string;
  in_TenantID : string;
  in_ApplicationID : string;
  in_StarterID : string;
  in_VariablesJSON : string;
  in_Nodes : list Node;
  in_Edges : list Edge
}.

Record Result : Type := mkResult { res_Status : string; res_ResultJSON : string }.

Record ApprovalTaskInput : Type := mkApprovalTaskInput {
  ap_InstanceID : string; ap_TenantID : string; ap_ApplicationID : string; ap_StarterID : string;
  ap_VariablesJSON : string;
  ap_Node : Node
}.

Record TaskSignal : Type := mkTaskSignal {
  sig_TaskID : string; sig_NodeID : string; sig_Decision : string; sig_OutputJSON : string
}.

Record ServiceTaskInput : Type := mkServiceTaskInput {
  sti_InstanceID : string; sti_TenantID : string; sti_ApplicationID : string; sti_VariablesJSON : string;
  sti_Node : Node
}.

Record ServiceTaskResult : Type := mkServiceTaskResult { str_OutputJSON : string }.

Record ConditionInput : Type := mkConditionInput {
  ci_Expression : string; ci_VariablesJSON : string; ci_LastOutputJSON : string
}.

Record FinishInput : Type := mkFinishInput {
  fi_InstanceID : string; fi_TenantID : string; fi_ApplicationID : string; fi_Status : string;
  fi_ResultJSON : string; fi_ErrorMessage : string
}.

(** ** Commands *)

(** A [time.Duration] counts nanoseconds in 64 bits. *)
Definition Second : Z := 1000000000.
Definition Minute : Z := 60 * Second.
Definition Hour : Z := 60 * Minute.
Definition int64_wrap (z : Z) : Z := ((z + 2 ^ 63) mod 2 ^ 64 - 2 ^ 63)%Z.
(** [time.Duration(seconds) * time.Second] *)
Definition seconds_duration (seconds : Z) : Z := int64_wrap (seconds * Second).

(** [workflow.ActivityOptions] with its retry policy; 0 where the source sets
    nothing. *)
Record ActivityOptions : Type := mkActivityOptions {
  StartToCloseTimeout : Z;
  InitialInterval : Z;
  BackoffCoefficient : Z;
  MaximumInterval : Z;
  MaximumAttempts : Z
}.

Inductive command : Type :=
| CreateApprovalTask (options : ActivityOptions) (input : ApprovalTaskInput)
| InvokeServiceTask (options : ActivityOptions) (input : ServiceTaskInput)
| CompensateServiceTask (options : ActivityOptions) (input : ServiceTaskInput)
| EvaluateCondition (options : ActivityOptions) (input : ConditionInput)
| FinishInstance (options : ActivityOptions) (input : FinishInput)
| AwaitTaskCompleted (timeout : Z) (nodeID : string)
| Sleep (duration : Z).

(** A command and whether it succeeded. *)
Definition entry : Type := command * bool.
Abbreviation history := (list entry).

(** Temporal, its workers and the signals it delivers.  [rt_await] is
    [AwaitWithTimeout] of a condition that receives a signal and compares its node:
    [Some s] when the condition became true with [s] in the signal variable, [None]
    when the timer fired first.  The disconnected context of the compensation is
    never cancelled; nothing else is known about the answers. *)
Class Runtime := {
  rt_activity : history -> command -> res unit;
  rt_invoke : history -> ActivityOptions -> ServiceTaskInput -> res ServiceTaskResult;
  rt_evaluate : history -> ActivityOptions -> ConditionInput -> res bool;
  rt_await : history -> Z -> (TaskSignal -> bool) -> res (option TaskSignal);
  rt_sleep : history -> Z -> res unit;
  rt_await_true : forall h d cond s, rt_await h d cond = Ok (Some s) -> cond s = true
}.

(** [sort.Slice] by priority: a permutation of its argument in ascending order of
    priority; edges of the same priority may come in any order. *)
Class EdgeSort := {
  sort_edges : list Edge -> list Edge;
  sort_edges_perm : forall l, sort_edges l ≡ₚ l;
  sort_edges_sorted : forall l, StronglySorted (fun a b => (edge_Priority a <= edge_Priority b)%Z) (sort_edges l)
}.

(** [err.Error()], which the workflow only passes on. *)
Class ErrorText := { error_text : error -> string }.

(** ** The workflow *)

Definition defaultJSON (value : string) : string := if str_empty value then "{}" else value.

Definition durationOrDefault (seconds fallback : Z) : Z :=
  if (seconds =? 0)%Z then fallback else seconds_duration seconds.

Definition withNodeTimeout (options : ActivityOptions) (seconds : Z) : ActivityOptions :=
  if (seconds =? 0)%Z then options
  else mkActivityOptions (seconds_duration seconds) (InitialInterval options) (BackoffCoefficient options)
         (MaximumInterval options) (MaximumAttempts options).

(** [activityCtx] and the options of the disconnected context. *)
Definition activityCtx : ActivityOptions := mkActivityOptions (30 * Second) Second 2 Minute 5.
Definition disconnectedCtx : ActivityOptions := mkActivityOptions (30 * Second) 0 0 0 3.

(** [nodes] and [current] after the first loop; [current] stays the zero node when
    there is no start node. *)
Definition index_input (nodes : list Node) : gmap string Node * Node :=
  foldl (fun '(m, current) node =>
           (<[node_ID node := node]> m, if String.eqb (node_Type node) NodeStart then node else current))
        (∅, zero_node) nodes.

(** The variables that outlive an error: the log and what the deferred function
    reads. *)
Record run_state : Type := mkRunState {
  rs_log : history;
  rs_completed : list ServiceTaskInput;
  rs_lastOutput : string
}.

Section workflow.
Context {RT : Runtime} {ES : EdgeSort} {ET : ErrorText}.
Abbreviation R := (stE run_state error).

(** Issue a command and log it. *)
Definition issue {A} (c : command) (answer : history -> res A) : R A := fun st =>
  let r := answer (rs_log st) in
  (r, mkRunState (rs_log st ++ [(c, is_ok r)]) (rs_completed st) (rs_lastOutput st)).

Definition ExecuteActivity (c : command) : R unit := issue c (fun h => rt_activity h c).
Definition ExecuteInvoke (options : ActivityOptions) (input : ServiceTaskInput) : R ServiceTaskResult :=
  issue (InvokeServiceTask options input) (fun h => rt_invoke h options input).
Definition ExecuteEvaluate (options : ActivityOptions) (input : ConditionInput) : R bool :=
  issue (EvaluateCondition options input) (fun h => rt_evaluate h options input).
Definition AwaitWithTimeout (timeout : Z) (nodeID : string) : R (option TaskSignal) :=
  issue (AwaitTaskCompleted timeout nodeID)
    (fun h => rt_await h timeout (fun signal => String.eqb (sig_NodeID signal) nodeID)).
Definition SleepFor (duration : Z) : R unit := issue (Sleep duration) (fun h => rt_sleep h duration).

Definition set_lastOutput (value : string) : R unit := fun st =>
  (Ok tt, mkRunState (rs_log st) (rs_completed st) value).
Definition append_completed (input : ServiceTaskInput) : R unit := fun st =>
  (Ok tt, mkRunState (rs_log st) (rs_completed st ++ [input]) (rs_lastOutput st)).
Definition get_lastOutput : R string := fun st => (Ok (rs_lastOutput st), st).

(** [if err := ...; err != nil { return fmt.Errorf(format, args..., err) }] *)
Definition wrapping {A} (format : string) (args : list string) (m : R A) : R A := fun st =>
  match m st with
  | (Ok a, st') => (Ok a, st')
  | (Err e, st') => (Err (Wrap format args e), st')
  end.

Definition finish (options : ActivityOptions) (input : Input) (status resultJSON message : string) : R unit :=
  wrapping "finish workflow instance: %w" []
    (ExecuteActivity (FinishInstance options
       (mkFinishInput (in_InstanceID input) (in_TenantID input) (in_ApplicationID input) status resultJSON message))).

(** The loop of [selectNext] over the sorted candidates. *)
Fixpoint select_candidate (options : ActivityOptions) (candidates : list Edge)
    (variablesJSON outputJSON defaultTarget : string) : R string :=
  match candidates with
  | [] => if negb (str_empty defaultTarget) then mret defaultTarget
          else throw (NonRetryable "no workflow edge matched" "NO_MATCHING_EDGE")
  | edge :: candidates' =>
      if str_empty (edge_ConditionExpression edge) then
        select_candidate options candidates' variablesJSON outputJSON
          (if str_empty defaultTarget then edge_ToNodeID edge else defaultTarget)
      else
        matched ← wrapping "evaluate workflow edge condition: %w" []
                    (ExecuteEvaluate options
                       (mkConditionInput (edge_ConditionExpression edge) variablesJSON outputJSON));
        if (matched : bool) then mret (edge_ToNodeID edge)
        else select_candidate options candidates' variablesJSON outputJSON defaultTarget
  end.

Definition selectNext (options : ActivityOptions) (nodeID : string) (edges : list Edge)
    (variablesJSON outputJSON : string) : R string :=
  let candidates := sort_edges (List.filter (fun edge => String.eqb (edge_FromNodeID edge) nodeID) edges) in
  select_candidate options candidates variablesJSON outputJSON "".

Definition service_input (input : Input) (current : Node) : ServiceTaskInput :=
  mkServiceTaskInput (in_InstanceID input) (in_TenantID input) (in_ApplicationID input)
    (in_VariablesJSON input) current.

(** The switch on the node's type: [Some result] returns from [Execute], [None] goes
    on to the next node. *)
Definition visit_node (input : Input) (current : Node) : R (option Result) :=
  let id := node_ID current in
  if String.eqb (node_Type current) NodeStart then mret None
  else if String.eqb (node_Type current) NodeApproval then
    let approvalCtx := withNodeTimeout activityCtx (node_TimeoutSeconds current) in
    _ ← wrapping "create approval task %q: %w" [id]
          (ExecuteActivity (CreateApprovalTask approvalCtx
             (mkApprovalTaskInput (in_InstanceID input) (in_TenantID input) (in_ApplicationID input)
                (in_StarterID input) (in_VariablesJSON input) current)));
    ok ← wrapping "await approval task %q: %w" [id]
           (AwaitWithTimeout (durationOrDefault (node_TimeoutSeconds current) (24 * Hour)) id);
    match ok with
    | None => throw (NonRetryable "approval task timed out" "APPROVAL_TIMEOUT")
    | Some signal =>
        _ ← set_lastOutput (defaultJSON (sig_OutputJSON signal));
        lastOutput ← get_lastOutput;
        if String.eqb (sig_Decision signal) DecisionReject then
          _ ← finish activityCtx input InstanceRejected lastOutput "";
          mret (Some (mkResult InstanceRejected lastOutput))
        else if negb (String.eqb (sig_Decision signal) DecisionApprove) then
          throw (NonRetryable "unknown approval decision" "INVALID_DECISION")
        else mret None
    end
  else if String.eqb (node_Type current) NodeServiceTask then
    let serviceCtx := withNodeTimeout activityCtx (node_TimeoutSeconds current) in
    let activityInput := service_input input current in
    serviceResult ← wrapping "invoke service task %q: %w" [id] (ExecuteInvoke serviceCtx activityInput);
    _ ← set_lastOutput (defaultJSON (str_OutputJSON serviceResult));
    _ ← append_completed activityInput;
    mret None
  else if String.eqb (node_Type current) NodeTimer then
    _ ← wrapping "wait timer node %q: %w" [id] (SleepFor (seconds_duration (node_TimerSeconds current)));
    mret None
  else if String.eqb (node_Type current) NodeEnd then
    lastOutput ← get_lastOutput;
    _ ← finish activityCtx input InstanceCompleted lastOutput "";
    mret (Some (mkResult InstanceCompleted lastOutput))
  else throw (NonRetryable "unknown workflow node type" "INVALID_NODE").

(** [for steps := 0; steps <= len(nodes); steps++], with the iterations left. *)
Fixpoint run_steps (steps_left : nat) (input : Input) (nodes : gmap string Node) (current : Node) : R Result :=
  match steps_left with
  | O => throw (NonRetryable "workflow exceeded graph step limit" "INVALID_GRAPH")
  | S steps_left =>
      returned ← visit_node input current;
      match returned with
      | Some result => mret result
      | None =>
          lastOutput ← get_lastOutput;
          nextID ← selectNext activityCtx (node_ID current) (in_Edges input) (in_VariablesJSON input) lastOutput;
          match nodes !! nextID with
          | None => throw (NonRetryable "workflow edge points to an unknown node" "INVALID_EDGE")
          | Some next => run_steps steps_left input nodes next
          end
      end
  end.

(** The loop of the deferred function, last service first; the errors are dropped. *)
Fixpoint compensate (services : list ServiceTaskInput) : R unit :=
  match services with
  | [] => mret tt
  | service :: services' => fun st =>
      let st1 := if str_empty (node_CompensationMethod (sti_Node service)) then st
                 else (ExecuteActivity (CompensateServiceTask disconnectedCtx service) st).2 in
      compensate services' st1
  end.

(** The deferred function, run when [Execute] returns [returnErr]. *)
Definition deferred (input : Input) (returnErr : error) (st : run_state) : run_state :=
  let st1 := (compensate (rev (rs_completed st)) st).2 in
  (ExecuteActivity (FinishInstance disconnectedCtx
     (mkFinishInput (in_InstanceID input) (in_TenantID input) (in_ApplicationID input) InstanceFailed
        (rs_lastOutput st1) (error_text returnErr))) st1).2.

Definition Execute (input : Input) : res Result * history :=
  if str_empty (in_InstanceID input) || str_empty (in_TenantID input) || str_empty (in_ApplicationID input)
  then (Err (NonRetryable "workflow identity is required" "INVALID_WORKFLOW"), [])
  else
    let '(nodes, current) := index_input (in_Nodes input) in
    if str_empty (node_ID current)
    then (Err (NonRetryable "start node is required" "INVALID_WORKFLOW"), [])
    else
      match run_steps (S (size nodes)) input nodes current (mkRunState [] [] "{}") with
      | (Ok result, st) => (Ok result, rs_log st)
      | (Err e, st) => (Err e, rs_log (deferred input e st))
      end.
End workflow.
