(* ===== verification/ExecuteSpec.v ===== *)
(** * The contract of the workflow

    What every run of [Execute] does, whatever Temporal and the activities answer:
    success ends with one successful report of the final status; failure compensates
    the completed services in reverse order and then reports the failure; a graph
    that [ValidateDefinition] accepts is walked along its edges, visiting no node
    twice and never reaching one of the "invalid graph" errors. *)
From S2P Require Import Prelude GoStd Json Model GraphCodec Graph GraphTheory GraphSpec Execute.
From Stdlib Require Import Ascii String.
From stdpp Require Import sorting relations.
Local Open Scope string_scope.
Local Open Scope list_scope.

(** ** Reading a log *)

(** The services that were invoked successfully, in order. *)
Definition invoked_service (e : entry) : option ServiceTaskInput :=
  match e with (InvokeServiceTask _ i, true) => Some i | _ => None end.
Definition invoked_services (h : history) : list ServiceTaskInput := omap invoked_service h.

Definition has_compensation (i : ServiceTaskInput) : Prop := node_CompensationMethod (sti_Node i) <> "".
#[global] Instance has_compensation_dec i : Decision (has_compensation i).
Proof. apply _. Defined.

(** The node a task or a service call was issued for. *)
Definition acted_node (e : entry) : option string :=
  match e.1 with
  | CreateApprovalTask _ i => Some (node_ID (ap_Node i))
  | InvokeServiceTask _ i => Some (node_ID (sti_Node i))
  | _ => None
  end.
Definition acted_nodes (h : history) : list string := omap acted_node h.

(** Commands of a run before it ends: no compensation, no final report. *)
Definition progress_entry (e : entry) : Prop :=
  match e.1 with CompensateServiceTask _ _ | FinishInstance _ _ => False | _ => True end.

(** The report of a final status. *)
Definition report (input : Input) (status resultJSON : string) : command :=
  FinishInstance activityCtx
    (mkFinishInput (in_InstanceID input) (in_TenantID input) (in_ApplicationID input) status resultJSON "").

Definition success_statuses : list string := [InstanceCompleted; InstanceRejected].

(** A run that failed: progress, and at most one report that did not get through. *)
Definition failed_body (input : Input) (l : history) : Prop :=
  exists p, Forall progress_entry p /\
    (l = p \/ exists status out, status ∈ success_statuses /\ l = p ++ [(report input status out, false)]).

Lemma omap_app_entries {B} (f : entry -> option B) l l' : omap f (l ++ l') = omap f l ++ omap f l'.
Proof. apply omap_app. Qed.

Section log.
Context {RT : Runtime} {ES : EdgeSort} {ET : ErrorText}.
Implicit Types st : run_state.

(** From [st] to [st'] the log grew by [l] and the completed services by those
    invoked in [l]. *)
Definition grew (l : history) st st' : Prop :=
  rs_log st' = rs_log st ++ l /\ rs_completed st' = rs_completed st ++ invoked_services l.

Lemma grew_nil st : grew [] st st.
Proof. split; simpl; by rewrite app_nil_r. Qed.

Lemma grew_trans l l' st st1 st' : grew l st st1 -> grew l' st1 st' -> grew (l ++ l') st st'.
Proof.
  intros [H1 H2] [H3 H4]. split; [by rewrite H3, H1, app_assoc|].
  unfold invoked_services. by rewrite omap_app, H4, H2, app_assoc.
Qed.

(** Any command but a successful service call. *)
Lemma grew_issue {A} c (answer : history -> res A) st r st' :
  issue c answer st = (r, st') -> invoked_service (c, is_ok r) = None -> grew [(c, is_ok r)] st st'.
Proof. intros [= <- <-] Hc. split; [done|]. simpl in *. by rewrite Hc, app_nil_r. Qed.

Lemma grew_output v st r st' : set_lastOutput v st = (r, st') -> grew [] st st'.
Proof. intros [= _ <-]. split; simpl; by rewrite app_nil_r. Qed.

Lemma bind_cases {A B} (m : stE run_state error A) (k : A -> stE run_state error B) st :
  (exists a st1, m st = (Ok a, st1) /\ (m ≫= k) st = k a st1) \/
  (exists e st1, m st = (Err e, st1) /\ (m ≫= k) st = (Err e, st1)).
Proof. unfold mbind, stE_bind. destruct (m st) as [[a|e] st1]; [left; by exists a, st1|right; by exists e, st1]. Qed.

Lemma wrapping_run {A} format args (m : stE run_state error A) st :
  wrapping format args m st =
  (match (m st).1 with Ok a => Ok a | Err e => Err (Wrap format args e) end, (m st).2).
Proof. unfold wrapping. by destruct (m st) as [[a|e] st1]. Qed.

(** *** Choosing the next node *)

(** Conditions are evaluated; nothing else happens. *)
Definition evaluations (l : history) : Prop :=
  Forall (fun e => exists options input, e.1 = EvaluateCondition options input) l.

Lemma select_candidate_log options candidates vars out default st :
  exists l, grew l st (select_candidate options candidates vars out default st).2 /\ evaluations l.
Proof.
  revert default st. induction candidates as [|e cs IH]; intros default st; simpl.
  - exists []. split; [|constructor]. destruct (negb (str_empty default)); apply grew_nil.
  - destruct (str_empty (edge_ConditionExpression e)); [apply IH|].
    set (ci := mkConditionInput _ _ _).
    destruct (bind_cases (wrapping "evaluate workflow edge condition: %w" [] (ExecuteEvaluate options ci))
      (fun matched : bool => if matched then mret (edge_ToNodeID e) else select_candidate options cs vars out default) st)
      as [(m & st1 & Hm & ->)|(err & st1 & Hm & ->)]; rewrite wrapping_run in Hm; injection Hm as Hr <-.
    + set (ent := (EvaluateCondition options ci, true)).
      assert (Hg : grew [ent] st (ExecuteEvaluate options ci st).2).
      { unfold ExecuteEvaluate, issue in *. simpl in *. destruct (rt_evaluate _ _ _); [|done].
        split; [done|]. simpl. by rewrite app_nil_r. }
      destruct m; simpl.
      * exists [ent]. split; [done|]. repeat constructor. by eexists _, _.
      * destruct (IH default (ExecuteEvaluate options ci st).2) as (l & Hl & He).
        exists (ent :: l). split; [by apply (grew_trans [ent] l _ _ _ Hg)|]. constructor; [by eexists _, _|done].
    + exists [(EvaluateCondition options ci, false)]. split.
      * unfold ExecuteEvaluate, issue in *. simpl in *. destruct (rt_evaluate _ _ _); [done|].
        split; [done|]. simpl. by rewrite app_nil_r.
      * repeat constructor. by eexists _, _.
Qed.

Lemma select_candidate_target options candidates vars out default st id st' :
  select_candidate options candidates vars out default st = (Ok id, st') ->
  (id = default /\ id <> "") \/ exists e, e ∈ candidates /\ edge_ToNodeID e = id.
Proof.
  revert default st. induction candidates as [|e cs IH]; intros default st; simpl.
  - destruct (str_empty default) eqn:Hd; simpl; [done|]. intros [= <- _]. left. split; [done|]. by destruct default.
  - destruct (str_empty (edge_ConditionExpression e)).
    + intros H. apply IH in H as [[-> Hne]|(e' & ? & ?)]; [|right; exists e'; split; [by right|done]].
      destruct (str_empty default); [right; exists e; split; [by left|done]|by left].
    + unfold mbind, stE_bind. destruct (wrapping _ _ _ st) as [[[]|err] st1]; [|intros H|done].
      * intros [= <- _]. right. exists e. split; [by left|done].
      * apply IH in H as [?|(e' & ? & ?)]; [by left|right; exists e'; split; [by right|done]].
Qed.

Lemma selectNext_edge options id edges vars out st next st' :
  selectNext options id edges vars out st = (Ok next, st') -> edge_rel edges id next.
Proof.
  unfold selectNext. intros H. apply select_candidate_target in H as [[-> ?]|(e & He & Ht)]; [done|].
  rewrite sort_edges_perm in He. apply list_elem_of_In, filter_In in He as [He Hf].
  apply String.eqb_eq in Hf. exists e. by apply list_elem_of_In in He.
Qed.

Lemma evaluations_progress l : evaluations l -> Forall progress_entry l /\ acted_nodes l = [].
Proof.
  intros He. split.
  - eapply Forall_impl; [exact He|]. intros [c b] (? & ? & Hc). simpl in Hc. by subst.
  - unfold acted_nodes. induction He as [|[c b] l (? & ? & Hc) _ IH]; [done|]. simpl in Hc. subst. simpl. exact IH.
Qed.

(** *** One node *)

(** What the visit of a node adds to the log when it goes on or fails. *)
Definition visited (current : Node) (l : history) : Prop :=
  Forall progress_entry l /\ (acted_nodes l = [] \/ acted_nodes l = [node_ID current]).

(** A command that is not a service call, followed by the rest. *)
Lemma issue_cases {A B} format args c (answer : history -> res A) (k : A -> stE run_state error B) st :
  (forall b, invoked_service (c, b) = None) ->
  (exists a st1, grew [(c, true)] st st1 /\ (wrapping format args (issue c answer) ≫= k) st = k a st1) \/
  (exists e st1, grew [(c, false)] st st1 /\ (wrapping format args (issue c answer) ≫= k) st = (Err e, st1)).
Proof.
  intros Hc. unfold mbind, stE_bind. rewrite wrapping_run.
  assert (Hg : grew [(c, is_ok (answer (rs_log st)))] st (issue c answer st).2).
  { eapply grew_issue; [reflexivity|apply Hc]. }
  unfold issue in *. simpl in *. destruct (answer (rs_log st)) as [a|e]; simpl in *.
  - left. by eexists a, _.
  - right. by eexists _, _.
Qed.

(** A final report: it succeeds and is the last entry, or it fails. *)
Lemma finish_grew input status out st :
  let r := finish activityCtx input status out "" st in
  grew [(report input status out, is_ok r.1)] st r.2.
Proof.
  cbv zeta. unfold finish. rewrite wrapping_run. cbn [fst snd].
  pose proof (grew_issue (report input status out) (fun h => rt_activity h (report input status out)) st
    _ _ eq_refl eq_refl) as Hg. unfold ExecuteActivity, issue in *. simpl in *. by destruct (rt_activity _ _).
Qed.

Definition node_outcome (input : Input) (current : Node) st (o : res (option Result) * run_state) : Prop :=
  match o with
  | (Ok None, st') => exists l, grew l st st' /\ visited current l
  | (Ok (Some r), st') => exists l, grew (l ++ [(report input (res_Status r) (res_ResultJSON r), true)]) st st' /\
      visited current l /\ res_Status r ∈ success_statuses
  | (Err e, st') => exists l l', grew (l ++ l') st st' /\ visited current l /\
      (l' = [] \/ exists status out, status ∈ success_statuses /\ l' = [(report input status out, false)])
  end.

Lemma node_outcome_ok input current l st st' :
  grew l st st' -> visited current l -> node_outcome input current st (Ok None, st').
Proof. intros Hg Hv. by exists l. Qed.

Lemma node_outcome_err input current l st e st' :
  grew l st st' -> visited current l -> node_outcome input current st (Err e, st').
Proof. intros Hg Hv. exists l, []. rewrite app_nil_r. split; [done|]. split; [done|]. by left. Qed.

(** A node that ends the run. *)
Lemma node_outcome_finish input current l st st1 status out :
  grew l st st1 -> visited current l -> status ∈ success_statuses ->
  node_outcome input current st
    ((_ ← finish activityCtx input status out ""; mret (Some (mkResult status out))) st1).
Proof.
  intros Hg Hv Hs. pose proof (finish_grew input status out st1) as Hf. unfold mbind, stE_bind. simpl in Hf.
  destruct (finish activityCtx input status out "" st1) as [[[]|e] st']; simpl in *.
  - exists l. split; [by eapply grew_trans|done].
  - exists l, [(report input status out, false)]. split; [by eapply grew_trans|]. split; [done|].
    right. by exists status, out.
Qed.

Lemma visited_one current c b :
  progress_entry (c, b) -> (acted_node (c, b) = None \/ acted_node (c, b) = Some (node_ID current)) ->
  visited current [(c, b)].
Proof.
  intros Hp Ha. split; [by constructor|]. unfold acted_nodes. cbn [omap list_omap].
  destruct Ha as [-> | ->]; [by left|by right].
Qed.

Lemma visited_two current c b c' b' :
  progress_entry (c, b) -> acted_node (c, b) = Some (node_ID current) ->
  progress_entry (c', b') -> acted_node (c', b') = None -> visited current [(c, b); (c', b')].
Proof.
  intros Hp Ha Hp' Ha'. split; [by repeat constructor|]. right. unfold acted_nodes. cbn [omap list_omap].
  by rewrite Ha, Ha'.
Qed.

Lemma visit_approval input current st :
  node_Type current = NodeApproval -> node_outcome input current st (visit_node input current st).
Proof.
  intros Ht. unfold visit_node. rewrite Ht. cbn [String.eqb].
  change (String.eqb NodeApproval NodeStart) with false. change (String.eqb NodeApproval NodeApproval) with true.
  cbv iota. set (c := CreateApprovalTask _ _).
  unfold ExecuteActivity at 1.
  match goal with |- context [(wrapping ?f ?a (issue c ?an) ≫= ?k) st] =>
    destruct (issue_cases f a c an k st) as [(u & st1 & Hg & Hrun)|(e & st1 & Hg & Hrun)] end; [done| |]; rewrite Hrun.
  2: { apply (node_outcome_err _ _ _ _ _ _ Hg). apply visited_one; [done|by right]. }
  clear Hrun. unfold AwaitWithTimeout. set (c' := AwaitTaskCompleted _ _).
  match goal with |- context [(wrapping ?f ?a (issue c' ?an) ≫= ?k) st1] =>
    destruct (issue_cases f a c' an k st1) as [(ok & st2 & Hg2 & Hrun)|(e & st2 & Hg2 & Hrun)] end; [done| |]; rewrite Hrun.
  2: { apply (node_outcome_err _ _ _ _ _ _ (grew_trans _ _ _ _ _ Hg Hg2)). by apply visited_two. }
  clear Hrun. pose proof (grew_trans _ _ _ _ _ Hg Hg2) as Hg3. simpl in Hg3.
  assert (Hv : visited current [(c, true); (c', true)]) by (by apply visited_two).
  destruct ok as [signal|]; [|by apply (node_outcome_err _ _ _ _ _ _ Hg3)].
  unfold mbind at 1, stE_bind at 1. simpl. unfold mbind at 1, stE_bind at 1. simpl.
  set (st3 := mkRunState _ _ _).
  assert (Hg4 : grew [(c, true); (c', true)] st st3) by (destruct Hg3; by split).
  destruct (String.eqb (sig_Decision signal) DecisionReject).
  - apply (node_outcome_finish _ _ _ _ _ _ _ Hg4 Hv). by right; left.
  - destruct (negb _); [by apply (node_outcome_err _ _ _ _ _ _ Hg4)|by apply (node_outcome_ok _ _ _ _ _ Hg4)].
Qed.

Lemma visited_nil current : visited current [].
Proof. split; [constructor|by left]. Qed.

Lemma visit_service input current st :
  node_Type current = NodeServiceTask -> node_outcome input current st (visit_node input current st).
Proof.
  intros Ht. unfold visit_node. rewrite Ht. change (String.eqb NodeServiceTask NodeStart) with false.
  change (String.eqb NodeServiceTask NodeApproval) with false.
  change (String.eqb NodeServiceTask NodeServiceTask) with true. cbv iota.
  set (options := withNodeTimeout _ _). set (i := service_input input current).
  unfold mbind, stE_bind. rewrite wrapping_run. unfold ExecuteInvoke, issue. cbn [fst snd].
  destruct (rt_invoke (rs_log st) options i) as [r|e]; cbn [is_ok].
  - apply (node_outcome_ok _ _ [(InvokeServiceTask options i, true)]); [by split|]. apply visited_one; [done|by right].
  - apply (node_outcome_err _ _ [(InvokeServiceTask options i, false)]).
    + split; simpl; [done|by rewrite app_nil_r].
    + apply visited_one; [done|by right].
Qed.

Lemma visit_timer input current st :
  node_Type current = NodeTimer -> node_outcome input current st (visit_node input current st).
Proof.
  intros Ht. unfold visit_node. rewrite Ht. change (String.eqb NodeTimer NodeStart) with false.
  change (String.eqb NodeTimer NodeApproval) with false. change (String.eqb NodeTimer NodeServiceTask) with false.
  change (String.eqb NodeTimer NodeTimer) with true. cbv iota. unfold SleepFor. set (c := Sleep _).
  match goal with |- context [(wrapping ?f ?a (issue c ?an) ≫= ?k) st] =>
    destruct (issue_cases f a c an k st) as [(u & st1 & Hg & Hrun)|(e & st1 & Hg & Hrun)] end; [done| |]; rewrite Hrun.
  - apply (node_outcome_ok _ _ _ _ _ Hg). apply visited_one; [done|by left].
  - apply (node_outcome_err _ _ _ _ _ _ Hg). apply visited_one; [done|by left].
Qed.

Definition known_types : list string := [NodeStart; NodeApproval; NodeServiceTask; NodeTimer; NodeEnd].

Lemma visit_node_outcome input current st : node_outcome input current st (visit_node input current st).
Proof.
  destruct (decide (node_Type current = NodeApproval)); [by apply visit_approval|].
  destruct (decide (node_Type current = NodeServiceTask)); [by apply visit_service|].
  destruct (decide (node_Type current = NodeTimer)); [by apply visit_timer|].
  unfold visit_node. destruct (String.eqb_spec (node_Type current) NodeStart).
  { apply (node_outcome_ok _ _ _ _ _ (grew_nil st)), visited_nil. }
  rewrite !(proj2 (String.eqb_neq _ _)) by done.
  destruct (String.eqb (node_Type current) NodeEnd).
  - apply (node_outcome_finish input current [] st st); [apply grew_nil|apply visited_nil|by left].
  - apply (node_outcome_err _ _ _ _ _ _ (grew_nil st)), visited_nil.
Qed.

(** The errors that say the graph was not one the validation accepts. *)
Definition graph_errors : list string := ["INVALID_NODE"; "INVALID_EDGE"; "INVALID_GRAPH"; "INVALID_WORKFLOW"].
Definition graph_error (e : error) : Prop := exists m t, e = NonRetryable m t /\ t ∈ graph_errors.

Lemma wrapping_error {A} format args (m : stE run_state error A) st e st' :
  wrapping format args m st = (Err e, st') -> exists w, e = Wrap format args w.
Proof. rewrite wrapping_run. destruct (m st).1; [done|]. intros [= <- _]. by eexists. Qed.

Lemma not_graph_error_wrap format args w : ~ graph_error (Wrap format args w).
Proof. by intros (? & ? & ? & _). Qed.

Lemma not_graph_error m t : t ∉ graph_errors -> ~ graph_error (NonRetryable m t).
Proof. by intros Ht (m' & t' & [= <- <-] & ?). Qed.

Lemma wrapped_bind_error {A B} format args (m : stE run_state error A) (k : A -> stE run_state error B) st e st' :
  (wrapping format args m ≫= k) st = (Err e, st') ->
  ~ graph_error e \/ exists a st1, k a st1 = (Err e, st').
Proof.
  unfold mbind, stE_bind. destruct (wrapping format args m st) as [[a|e1] st1] eqn:H; [by right; exists a, st1|].
  intros [= <- <-]. left. apply wrapping_error in H as [w ->]. apply not_graph_error_wrap.
Qed.

Lemma visit_node_error input current st e st' :
  node_Type current ∈ known_types -> visit_node input current st = (Err e, st') -> ~ graph_error e.
Proof.
  intros Ht. unfold visit_node.
  destruct (String.eqb_spec (node_Type current) NodeStart); [done|].
  destruct (String.eqb_spec (node_Type current) NodeApproval).
  { intros [?|(u & st1 & H)]%wrapped_bind_error; [done|].
    apply wrapped_bind_error in H as [?|([signal|] & st2 & H)]; [done| |].
    2: { injection H as <- _. apply not_graph_error. unfold graph_errors. set_solver. }
    unfold mbind at 1, stE_bind at 1 in H. simpl in H. unfold mbind at 1, stE_bind at 1 in H. simpl in H.
    destruct (String.eqb (sig_Decision signal) DecisionReject).
    - apply wrapped_bind_error in H as [?|(v & st3 & H)]; done.
    - destruct (negb _); [|done]. injection H as <- _. apply not_graph_error. unfold graph_errors. set_solver. }
  destruct (String.eqb_spec (node_Type current) NodeServiceTask).
  { intros [?|(r & st1 & H)]%wrapped_bind_error; done. }
  destruct (String.eqb_spec (node_Type current) NodeTimer).
  { intros [?|(r & st1 & H)]%wrapped_bind_error; done. }
  destruct (String.eqb_spec (node_Type current) NodeEnd).
  { unfold mbind at 1, stE_bind at 1. simpl. intros [?|(r & st1 & H)]%wrapped_bind_error; done. }
  unfold known_types in Ht. set_solver.
Qed.

Lemma select_candidate_error options candidates vars out default st e st' :
  select_candidate options candidates vars out default st = (Err e, st') -> ~ graph_error e.
Proof.
  revert default st. induction candidates as [|c cs IH]; intros default st; simpl.
  - destruct (negb _); [done|]. intros [= <- _]. apply not_graph_error. unfold graph_errors. set_solver.
  - destruct (str_empty _); [apply IH|]. intros [?|(m & st1 & H)]%wrapped_bind_error; [done|].
    destruct m; [done|by apply IH in H].
Qed.

(** *** The loop *)

Lemma report_not_acted input status out b : acted_nodes [(report input status out, b)] = [].
Proof. done. Qed.

(** Going on from a node: the choice adds evaluations only. *)
Lemma choose_next input current nodes n st :
  let k := lastOutput ← get_lastOutput;
    nextID ← selectNext activityCtx (node_ID current) (in_Edges input) (in_VariablesJSON input) lastOutput;
    match nodes !! nextID with
    | None => throw (NonRetryable "workflow edge points to an unknown node" "INVALID_EDGE")
    | Some next => run_steps n input nodes next
    end in
  exists l, evaluations l /\
    ((exists e st1, k st = (Err e, st1) /\ grew l st st1 /\
        (~ graph_error e \/ exists id, edge_rel (in_Edges input) (node_ID current) id /\ nodes !! id = None)) \/
     (exists next id st1, grew l st st1 /\ k st = run_steps n input nodes next st1 /\
        edge_rel (in_Edges input) (node_ID current) id /\ nodes !! id = Some next)).
Proof.
  intros k.
  assert (Hk : k st = match selectNext activityCtx (node_ID current) (in_Edges input) (in_VariablesJSON input)
      (rs_lastOutput st) st with
    | (Ok id, st1) => match nodes !! id with
        | None => throw (NonRetryable "workflow edge points to an unknown node" "INVALID_EDGE")
        | Some next => run_steps n input nodes next
        end st1
    | (Err e, st1) => (Err e, st1)
    end) by reflexivity.
  rewrite Hk. clear k Hk.
  destruct (select_candidate_log activityCtx
    (sort_edges (List.filter (fun edge => String.eqb (edge_FromNodeID edge) (node_ID current)) (in_Edges input)))
    (in_VariablesJSON input) (rs_lastOutput st) "" st) as (l & Hg & He).
  exists l. split; [done|].
  destruct (selectNext activityCtx (node_ID current) (in_Edges input) (in_VariablesJSON input) (rs_lastOutput st) st)
    as [[id|e] st1] eqn:Hsel; unfold selectNext in Hsel; rewrite Hsel in Hg; simpl in Hg.
  - apply selectNext_edge in Hsel. destruct (nodes !! id) as [next|] eqn:Hn.
    + right. by exists next, id, st1.
    + left. eexists _, st1. split; [done|]. split; [done|]. right. by exists id.
  - left. exists e, st1. split; [done|]. split; [done|]. left. by eapply select_candidate_error.
Qed.

Definition run_outcome (input : Input) st (o : res Result * run_state) : Prop :=
  match o with
  | (Ok r, st') => exists l, grew (l ++ [(report input (res_Status r) (res_ResultJSON r), true)]) st st' /\
      Forall progress_entry l /\ res_Status r ∈ success_statuses
  | (Err e, st') => exists l, grew l st st' /\ failed_body input l
  end.

Lemma failed_body_progress input l : Forall progress_entry l -> failed_body input l.
Proof. intros Hl. exists l. split; [done|by left]. Qed.

Lemma run_outcome_after input l st st1 o :
  grew l st st1 -> Forall progress_entry l -> run_outcome input st1 o -> run_outcome input st o.
Proof.
  intros Hg Hl. destruct o as [[r|e] st']; simpl.
  - intros (l' & Hg' & Hl' & Hs). exists (l ++ l'). rewrite <- app_assoc.
    split; [by eapply grew_trans|]. split; [by apply Forall_app|done].
  - intros (l' & Hg' & p & Hp & Hf). exists (l ++ l'). split; [by eapply grew_trans|]. exists (l ++ p).
    split; [by apply Forall_app|]. destruct Hf as [->|(status & out & Hs & ->)]; [by left|right].
    exists status, out. by rewrite app_assoc.
Qed.

Lemma run_steps_outcome n input nodes current st :
  run_outcome input st (run_steps n input nodes current st).
Proof.
  revert current st. induction n as [|n IH]; intros current st; cbn [run_steps].
  { exists []. split; [apply grew_nil|by apply failed_body_progress]. }
  pose proof (visit_node_outcome input current st) as Hv. unfold mbind at 1, stE_bind at 1.
  destruct (visit_node input current st) as [[[r|]|e] st1]; simpl in Hv.
  - destruct Hv as (l & Hg & [Hp _] & Hs). by exists l.
  - destruct Hv as (l & Hg & [Hp _]). apply (run_outcome_after _ _ _ _ _ Hg Hp).
    destruct (choose_next input current nodes n st1) as
      (l1 & [Hp1 _]%evaluations_progress & [(e & st2 & -> & Hg1 & _)|(next & id & st2 & Hg1 & -> & _)]).
    + exists l1. split; [done|by apply failed_body_progress].
    + apply (run_outcome_after _ _ _ _ _ Hg1 Hp1), IH.
  - destruct Hv as (l & l' & Hg & [Hp _] & Hl'). exists (l ++ l'). split; [done|]. exists l. split; [done|].
    destruct Hl' as [->|(status & out & Hs & ->)]; [left; by rewrite app_nil_r|right; by exists status, out].
Qed.

(** *** Compensation *)

Lemma compensate_log services st :
  exists l, (compensate services st).2 = mkRunState (rs_log st ++ l) (rs_completed st) (rs_lastOutput st) /\
    l.*1 = CompensateServiceTask disconnectedCtx <$> filter has_compensation services.
Proof.
  revert st. induction services as [|i services IH]; intros st; cbn [compensate].
  - exists []. split; [destruct st; simpl; by rewrite app_nil_r|done].
  - destruct (str_empty (node_CompensationMethod (sti_Node i))) eqn:He.
    + destruct (IH st) as (l & -> & Hl). exists l. split; [done|].
      rewrite filter_cons_False; [done|]. intros Hc. unfold has_compensation in Hc.
      by destruct (node_CompensationMethod (sti_Node i)).
    + set (c := CompensateServiceTask disconnectedCtx i).
      destruct (IH (ExecuteActivity c st).2) as (l & -> & Hl).
      exists ((c, is_ok (rt_activity (rs_log st) c)) :: l). split; [simpl; by rewrite <- app_assoc|].
      rewrite filter_cons_True, !fmap_cons, Hl; [done|]. intros Hc. by rewrite Hc in He.
Qed.

Lemma deferred_log input e st :
  exists comp out ok, rs_log (deferred input e st) = rs_log st ++ comp ++
      [(FinishInstance disconnectedCtx (mkFinishInput (in_InstanceID input) (in_TenantID input)
          (in_ApplicationID input) InstanceFailed out (error_text e)), ok)] /\
    comp.*1 = CompensateServiceTask disconnectedCtx <$> filter has_compensation (rev (rs_completed st)).
Proof.
  unfold deferred. destruct (compensate_log (rev (rs_completed st)) st) as (l & -> & Hl).
  exists l. simpl. eexists _, _. split; [by rewrite <- app_assoc|done].
Qed.

(** ** Runs of a validated graph *)

Record indexed_input (nodes : list Node) (m : gmap string Node) (current : Node) : Prop := {
  ii_key k n : m !! k = Some n -> n ∈ nodes /\ node_ID n = k;
  ii_node n : n ∈ nodes -> is_Some (m !! node_ID n);
  ii_start : (exists n, n ∈ nodes /\ is_start n) -> current ∈ nodes /\ is_start current
}.

Lemma index_input_spec nodes : indexed_input nodes (index_input nodes).1 (index_input nodes).2.
Proof.
  unfold index_input. induction nodes as [|n nodes IH] using rev_ind.
  { split; simpl; [by intros k n|by intros n Hn; apply not_elem_of_nil in Hn|].
    intros (n & Hn & _). by apply not_elem_of_nil in Hn. }
  rewrite foldl_app. simpl. destruct (foldl _ _ nodes) as [m current]. simpl in *.
  destruct IH as [Hk Hn Hs]. split; simpl.
  - intros k n'. rewrite lookup_insert. case_decide as Hc.
    + intros [= <-]. split; [by apply elem_of_app; right; left|done].
    + intros Hl. destruct (Hk k n' Hl). split; [by apply elem_of_app; left|done].
  - intros n' [Hin| ->%list_elem_of_singleton]%elem_of_app.
    + rewrite lookup_insert. case_decide; [by eexists|by apply Hn].
    + rewrite lookup_insert_eq. by eexists.
  - destruct (String.eqb_spec (node_Type n) NodeStart) as [Ht|Ht].
    + intros _. split; [by apply elem_of_app; right; left|done].
    + intros (n' & [Hin| ->%list_elem_of_singleton]%elem_of_app & Hst); [|done].
      destruct Hs as [? ?]; [by exists n'|]. split; [by apply elem_of_app; left|done].
Qed.

Lemma index_input_current nodes :
  (index_input nodes).2 <> zero_node -> (index_input nodes).2 ∈ nodes.
Proof.
  unfold index_input. induction nodes as [|n nodes IH] using rev_ind; [done|].
  rewrite foldl_app. simpl. destruct (foldl _ _ nodes) as [m current]. simpl in *.
  destruct (String.eqb _ _); intros Hne; apply elem_of_app; [right; by left|left; by apply IH].
Qed.

Section graph.
Context (input : Input) (nodes : gmap string Node) (P : list string).
Hypothesis Htopo : topological (in_Edges input) P.
Hypothesis Hnd : NoDup P.
Hypothesis Hkey : forall k n, nodes !! k = Some n -> node_ID n = k /\ node_Type n ∈ known_types.
Hypothesis Hedge : forall u v, edge_rel (in_Edges input) u v -> is_Some (nodes !! v) /\ v ∈ P.

Lemma next_position current id i :
  P !! i = Some (node_ID current) -> edge_rel (in_Edges input) (node_ID current) id ->
  exists j, P !! j = Some id /\ i < j.
Proof.
  intros Hi Hr. destruct (Hedge _ _ Hr) as [_ [j Hj]%list_elem_of_lookup_1]. exists j. split; [done|].
  by eapply (order_lt (in_Edges input) P Hnd Htopo).
Qed.

Lemma run_steps_no_graph_error n current i st e st' :
  P !! i = Some (node_ID current) -> node_Type current ∈ known_types -> List.length P < n + i ->
  run_steps n input nodes current st = (Err e, st') -> ~ graph_error e.
Proof.
  revert current i st. induction n as [|n IH]; intros current i st Hi Ht Hn; cbn [run_steps].
  { apply lookup_lt_Some in Hi. lia. }
  unfold mbind at 1, stE_bind at 1.
  destruct (visit_node input current st) as [[[r|]|e1] st1] eqn:Hv; [done| |].
  - destruct (choose_next input current nodes n st1) as
      (l1 & _ & [(e2 & st2 & Hk & _ & Hne)|(next & id & st2 & _ & Hk & Hr & Hl)]); cbv zeta in Hk; intros H.
    + assert (e2 = e) as <- by congruence. destruct Hne as [?|(id & Hr & Hl)]; [done|].
      destruct (Hedge _ _ Hr) as [[? Hs] _]. congruence.
    + destruct (next_position _ _ _ Hi Hr) as (j & Hj & Hlt). destruct (Hkey _ _ Hl) as [Hid Hty].
      rewrite <- Hid in Hj. eapply (IH next j st2); [done|done|lia|]. by rewrite <- Hk.
  - intros [= <- <-]. by eapply visit_node_error.
Qed.

(** The nodes a run acts on come in the order of [P], each at most once. *)
Lemma run_steps_acted n current i st :
  P !! i = Some (node_ID current) ->
  exists l, grew l st (run_steps n input nodes current st).2 /\ NoDup (acted_nodes l) /\
    forall x, x ∈ acted_nodes l -> exists j, P !! j = Some x /\ i <= j.
Proof.
  revert current i st. induction n as [|n IH]; intros current i st Hi; cbn [run_steps].
  { exists []. split; [apply grew_nil|]. split; [constructor|]. intros x Hx. by apply not_elem_of_nil in Hx. }
  pose proof (visit_node_outcome input current st) as Hv. unfold mbind at 1, stE_bind at 1.
  assert (Hone : forall l, visited current l -> NoDup (acted_nodes l) /\
    forall x, x ∈ acted_nodes l -> exists j, P !! j = Some x /\ i <= j).
  { intros l [_ [-> | ->]].
    - split; [constructor|]. intros x Hx. by apply not_elem_of_nil in Hx.
    - split; [apply NoDup_singleton|]. intros x ->%list_elem_of_singleton. by exists i. }
  destruct (visit_node input current st) as [[[r|]|e1] st1]; simpl in Hv.
  - destruct Hv as (l & Hg & Hl & _). eexists. split; [exact Hg|]. unfold acted_nodes. rewrite omap_app.
    simpl. rewrite app_nil_r. by apply Hone.
  - destruct Hv as (l & Hg & Hl). pose proof (Hone l Hl) as [Hnd1 Hpos1].
    destruct (choose_next input current nodes n st1) as
      (l1 & [_ Ha]%evaluations_progress & [(e2 & st2 & Hk & Hg1 & _)|(next & id & st2 & Hg1 & Hk & Hr & Hn)]);
      cbv zeta in Hk; rewrite Hk; pose proof (grew_trans _ _ _ _ _ Hg Hg1) as Hg2.
    + exists (l ++ l1). split; [done|]. unfold acted_nodes in *. rewrite omap_app, Ha, app_nil_r. by split.
    + destruct (next_position _ _ _ Hi Hr) as (j & Hj & Hlt). destruct (Hkey _ _ Hn) as [Hid _].
      rewrite <- Hid in Hj. destruct (IH next j st2 Hj) as (l2 & Hg3 & Hnd2 & Hpos2).
      exists ((l ++ l1) ++ l2). split; [by eapply grew_trans|].
      unfold acted_nodes in *. rewrite !omap_app, Ha, app_nil_r. split.
      * apply NoDup_app. split; [done|]. split; [|done]. intros x Hx1 Hx2.
        destruct (Hpos2 x Hx2) as (k2 & Hk2 & ?). destruct Hl as [_ [Hl|Hl]]; unfold acted_nodes in Hl; rewrite Hl in Hx1.
        -- by apply not_elem_of_nil in Hx1.
        -- apply list_elem_of_singleton in Hx1 as ->. pose proof (NoDup_lookup _ _ _ _ Hnd Hi Hk2). lia.
      * intros x [Hx|Hx]%elem_of_app; [by apply Hpos1|]. destruct (Hpos2 x Hx) as (k & ? & ?). exists k. split; [done|lia].
  - destruct Hv as (l & l' & Hg & Hl & Hl'). exists (l ++ l'). split; [done|].
    unfold acted_nodes. rewrite omap_app.
    replace (omap acted_node l') with (@nil string) by (by destruct Hl' as [->|(? & ? & _ & ->)]).
    rewrite app_nil_r. by apply Hone.
Qed.
End graph.

(** ** Choosing by priority *)

Section choice.
Context (eval : string -> bool).

Definition taken (e : Edge) : bool :=
  negb (str_empty (edge_ConditionExpression e)) && eval (edge_ConditionExpression e).
Definition unconditional (e : Edge) : bool := str_empty (edge_ConditionExpression e).

Lemma select_candidate_result options candidates vars out default st :
  (forall h o e, rt_evaluate h o (mkConditionInput e vars out) = Ok (eval e)) ->
  (forall e, e ∈ candidates -> edge_ToNodeID e <> "") ->
  (select_candidate options candidates vars out default st).1 =
  match List.find taken candidates with
  | Some e => Ok (edge_ToNodeID e)
  | None =>
      if negb (str_empty default) then Ok default
      else match List.find unconditional candidates with
           | Some e => Ok (edge_ToNodeID e)
           | None => Err (NonRetryable "no workflow edge matched" "NO_MATCHING_EDGE")
           end
  end.
Proof.
  intros Heval. revert default st. induction candidates as [|e cs IH]; intros default st Hto; simpl.
  { by destruct default. }
  assert (Hto' : forall e0, e0 ∈ cs -> edge_ToNodeID e0 <> "") by (intros e0 ?; apply Hto; by right).
  unfold taken at 1, unconditional at 1. destruct (str_empty (edge_ConditionExpression e)) eqn:Hc; simpl.
  - rewrite IH by done. destruct (find taken cs); [done|]. destruct default; simpl; [|done].
    specialize (Hto e ltac:(by left)). by destruct (edge_ToNodeID e).
  - unfold mbind, stE_bind. rewrite wrapping_run. unfold ExecuteEvaluate, issue. cbn [fst snd].
    rewrite Heval. destruct (eval (edge_ConditionExpression e)); [done|]. by apply IH.
Qed.

Lemma find_first_sorted (f : Edge -> bool) l e :
  StronglySorted (fun a b => (edge_Priority a <= edge_Priority b)%Z) l -> List.find f l = Some e ->
  e ∈ l /\ f e = true /\ forall e', e' ∈ l -> f e' = true -> (edge_Priority e <= edge_Priority e')%Z.
Proof.
  induction 1 as [|a l Hs IH Hall]; simpl; [done|]. destruct (f a) eqn:Hf.
  - intros [= <-]. split; [by left|]. split; [done|]. intros e' [->|He']%elem_of_cons Hf'; [lia|].
    by eapply Forall_forall in Hall.
  - intros Hfind. destruct (IH Hfind) as (? & ? & Hmin). split; [by right|]. split; [done|].
    intros e' [->|He']%elem_of_cons Hf'; [congruence|by apply Hmin].
Qed.
End choice.

(** ** Every command of a run *)

(** A service call that is one of [input]'s nodes. *)
Definition call_of (input : Input) (i : ServiceTaskInput) : Prop :=
  exists n, n ∈ in_Nodes input /\ i = service_input input n.

Definition approval_input (input : Input) (n : Node) : ApprovalTaskInput :=
  mkApprovalTaskInput (in_InstanceID input) (in_TenantID input) (in_ApplicationID input)
    (in_StarterID input) (in_VariablesJSON input) n.
Definition finish_input (input : Input) (status out message : string) : FinishInput :=
  mkFinishInput (in_InstanceID input) (in_TenantID input) (in_ApplicationID input) status out message.

(** [Q] holds of each command [Execute] can issue for [input], whatever it answers. *)
Record covers (input : Input) (Q : entry -> Prop) : Prop := {
  cv_approval n b : n ∈ in_Nodes input -> node_Type n = NodeApproval ->
    Q (CreateApprovalTask (withNodeTimeout activityCtx (node_TimeoutSeconds n)) (approval_input input n), b);
  cv_await n b : n ∈ in_Nodes input ->
    Q (AwaitTaskCompleted (durationOrDefault (node_TimeoutSeconds n) (24 * Hour)) (node_ID n), b);
  cv_invoke n b : n ∈ in_Nodes input ->
    Q (InvokeServiceTask (withNodeTimeout activityCtx (node_TimeoutSeconds n)) (service_input input n), b);
  cv_sleep n b : n ∈ in_Nodes input -> Q (Sleep (seconds_duration (node_TimerSeconds n)), b);
  cv_condition c b : Q (EvaluateCondition activityCtx c, b);
  cv_compensate i b : call_of input i -> Q (CompensateServiceTask disconnectedCtx i, b);
  cv_success status out b : status ∈ success_statuses -> Q (FinishInstance activityCtx (finish_input input status out ""), b);
  cv_failure out message b : Q (FinishInstance disconnectedCtx (finish_input input InstanceFailed out message), b)
}.

Section every_command.
Context (input : Input) (Q : entry -> Prop) (Hcov : covers input Q).

(** What holds of the state of a run at all times. *)
Definition covered (st : run_state) : Prop := Forall Q (rs_log st) /\ Forall (call_of input) (rs_completed st).
Definition logs {A} (m : stE run_state error A) : Prop := forall st, covered st -> covered (m st).2.

Lemma logs_bind {A B} (m : stE run_state error A) (k : A -> stE run_state error B) :
  logs m -> (forall a, logs (k a)) -> logs (m ≫= k).
Proof.
  intros Hm Hk st Hst. unfold mbind, stE_bind. specialize (Hm st Hst).
  destruct (m st) as [[a|e] st1]; [by apply Hk|done].
Qed.
Lemma logs_issue {A} c (answer : history -> res A) : (forall b, Q (c, b)) -> logs (issue c answer).
Proof. intros Hc st [Hl Hd]. split; [|done]. apply Forall_app. split; [done|]. by constructor. Qed.
Lemma logs_wrapping {A} format args (m : stE run_state error A) : logs m -> logs (wrapping format args m).
Proof. intros Hm st Hst. rewrite wrapping_run. by apply Hm. Qed.
Lemma logs_ret {A} (a : A) : logs (mret a).
Proof. by intros st. Qed.
Lemma logs_throw {A} e : logs (throw (A := A) e).
Proof. by intros st. Qed.
Lemma logs_output v : logs (set_lastOutput v).
Proof. by intros st. Qed.
Lemma logs_append i : call_of input i -> logs (append_completed i).
Proof. intros Hi st [Hl Hd]. split; [done|]. apply Forall_app. split; [done|]. by constructor. Qed.
Lemma logs_get : logs get_lastOutput.
Proof. by intros st. Qed.

Lemma logs_finish status out : status ∈ success_statuses -> logs (finish activityCtx input status out "").
Proof. intros Hs. apply logs_wrapping, logs_issue. intros b. by apply (cv_success _ _ Hcov). Qed.

Lemma logs_visit_node n : n ∈ in_Nodes input -> logs (visit_node input n).
Proof.
  intros Hn. unfold visit_node. destruct (String.eqb _ NodeStart); [apply logs_ret|].
  destruct (String.eqb_spec (node_Type n) NodeApproval).
  { apply logs_bind; [apply logs_wrapping, logs_issue; intros b; by apply (cv_approval _ _ Hcov)|intros _].
    apply logs_bind; [apply logs_wrapping, logs_issue; intros b; by apply (cv_await _ _ Hcov)|].
    intros [signal|]; [|apply logs_throw]. apply logs_bind; [apply logs_output|intros _].
    apply logs_bind; [apply logs_get|intros out]. destruct (String.eqb _ DecisionReject).
    - apply logs_bind; [apply logs_finish; by right; left|intros; apply logs_ret].
    - destruct (negb _); [apply logs_throw|apply logs_ret]. }
  destruct (String.eqb _ NodeServiceTask).
  { apply logs_bind; [apply logs_wrapping, logs_issue; intros b; by apply (cv_invoke _ _ Hcov)|intros r].
    apply logs_bind; [apply logs_output|intros _].
    apply logs_bind; [apply logs_append; by exists n|intros; apply logs_ret]. }
  destruct (String.eqb _ NodeTimer).
  { apply logs_bind; [|intros; apply logs_ret]. apply logs_wrapping, logs_issue. intros b. by apply (cv_sleep _ _ Hcov). }
  destruct (String.eqb _ NodeEnd); [|apply logs_throw].
  apply logs_bind; [apply logs_get|intros out]. apply logs_bind; [apply logs_finish; by left|intros; apply logs_ret].
Qed.

Lemma logs_select cs vars out default : logs (select_candidate activityCtx cs vars out default).
Proof.
  revert default. induction cs as [|e cs IH]; intros default; simpl; [destruct (negb _); [apply logs_ret|apply logs_throw]|].
  destruct (str_empty _); [apply IH|].
  apply logs_bind; [apply logs_wrapping, logs_issue; intros b; by apply (cv_condition _ _ Hcov)|].
  intros []; [apply logs_ret|apply IH].
Qed.

Lemma logs_run_steps n nodes current :
  (forall k v, nodes !! k = Some v -> v ∈ in_Nodes input) -> current ∈ in_Nodes input ->
  logs (run_steps n input nodes current).
Proof.
  intros Hin. revert current. induction n as [|n IH]; intros current Hc; cbn [run_steps]; [apply logs_throw|].
  apply logs_bind; [by apply logs_visit_node|]. intros [r|]; [apply logs_ret|].
  apply logs_bind; [apply logs_get|intros out]. apply logs_bind; [apply logs_select|intros id].
  destruct (nodes !! id) eqn:Hn; [by eapply IH, Hin|apply logs_throw].
Qed.

Lemma logs_compensate l : Forall (call_of input) l -> logs (compensate l).
Proof.
  induction 1 as [|i l Hi _ IH]; [apply logs_ret|]. intros st Hst. cbn [compensate]. apply IH.
  destruct (str_empty _); [done|]. apply logs_issue; [|done]. intros b. by apply (cv_compensate _ _ Hcov).
Qed.

Lemma Execute_covered : Forall Q (Execute input).2.
Proof.
  unfold Execute. destruct (_ || _); [constructor|].
  pose proof (index_input_spec (in_Nodes input)) as [Hk _ _].
  pose proof (fun H => index_input_current (in_Nodes input) H) as Hcur.
  destruct (index_input (in_Nodes input)) as [m current]. cbn [fst snd] in *.
  destruct (str_empty (node_ID current)) eqn:He; [constructor|].
  assert (Hc : current ∈ in_Nodes input) by (apply Hcur; by intros ->).
  pose proof (logs_run_steps (S (size m)) m current (fun k v Hl => proj1 (Hk k v Hl)) Hc
    (mkRunState [] [] "{}") (conj (List.Forall_nil _) (List.Forall_nil _))) as Hl.
  destruct (run_steps (S (size m)) input m current (mkRunState [] [] "{}")) as [[r|e] st]; [apply Hl|].
  cbn [fst snd] in *. unfold deferred.
  assert (Hcs : covered (compensate (rev (rs_completed st)) st).2).
  { apply logs_compensate; [|done]. destruct Hl as [_ Hd]. rewrite Forall_forall in *. intros i Hi.
    apply Hd, list_elem_of_In, in_rev. by apply list_elem_of_In. }
  destruct (compensate (rev (rs_completed st)) st) as [u st1]. cbn [fst snd] in *.
  eapply logs_issue; [|exact Hcs]. intros b. by apply (cv_failure _ _ Hcov).
Qed.
End every_command.

(** ** Timeouts *)

(** The timeout of a node, or the default, without wrap-around. *)
Definition timeout_or (fallback : Z) (n : Node) : Z :=
  if (node_TimeoutSeconds n =? 0)%Z then fallback else (node_TimeoutSeconds n * Second)%Z.

(** The timeouts of a command are those of its node. *)
Definition timed (nodes : list Node) (e : entry) : Prop :=
  match e.1 with
  | CreateApprovalTask o i => ap_Node i ∈ nodes /\ StartToCloseTimeout o = timeout_or (30 * Second) (ap_Node i)
  | InvokeServiceTask o i => sti_Node i ∈ nodes /\ StartToCloseTimeout o = timeout_or (30 * Second) (sti_Node i)
  | AwaitTaskCompleted d id => exists n, n ∈ nodes /\ node_ID n = id /\ d = timeout_or (24 * Hour) n
  | Sleep d => exists n, n ∈ nodes /\ d = (node_TimerSeconds n * Second)%Z
  | CompensateServiceTask o _ | EvaluateCondition o _ | FinishInstance o _ => StartToCloseTimeout o = (30 * Second)%Z
  end.

(** A [uint32]. *)
Definition uint32 (z : Z) : Prop := (0 <= z < 4294967296)%Z.

Lemma seconds_duration_exact z : uint32 z -> seconds_duration z = (z * Second)%Z.
Proof.
  unfold uint32, seconds_duration, int64_wrap, Second. intros Hz.
  rewrite Z.mod_small by lia. lia.
Qed.

Lemma node_timeout_exact n : uint32 (node_TimeoutSeconds n) ->
  StartToCloseTimeout (withNodeTimeout activityCtx (node_TimeoutSeconds n)) = timeout_or (30 * Second) n /\
  durationOrDefault (node_TimeoutSeconds n) (24 * Hour) = timeout_or (24 * Hour) n.
Proof.
  intros Hu. unfold withNodeTimeout, durationOrDefault, timeout_or. destruct (node_TimeoutSeconds n =? 0)%Z; [done|].
  simpl. by rewrite seconds_duration_exact.
Qed.

Lemma covers_timed input :
  (forall n, n ∈ in_Nodes input -> uint32 (node_TimeoutSeconds n) /\ uint32 (node_TimerSeconds n)) ->
  covers input (timed (in_Nodes input)).
Proof.
  intros Hu. split; try done; intros n b Hn; destruct (Hu n Hn) as [Ht Hs]; destruct (node_timeout_exact n Ht) as [Ho Hd].
  - by split.
  - by exists n.
  - by split.
  - exists n. by rewrite seconds_duration_exact.
Qed.
End log.

(** ** Properties *)

Section properties.
Context {RT : Runtime} {ES : EdgeSort} {ET : ErrorText} {MR : MapRange}.

(** Success is reported last and exactly once: when [Execute] returns a result,
    whatever Temporal and the activities answered on the way, its last command was
    the report of exactly that status and result for that instance, it succeeded,
    the status is completed or rejected, and no earlier command was a report or a
    compensation. *)
Theorem Execute_success_reported input :
  match Execute input with
  | (Ok r, h) => exists l, h = l ++ [(report input (res_Status r) (res_ResultJSON r), true)] /\
      Forall progress_entry l /\ res_Status r ∈ [InstanceCompleted; InstanceRejected]
  | (Err _, _) => True
  end.
Proof.
  unfold Execute. destruct (_ || _); [done|]. destruct (index_input (in_Nodes input)) as [m current].
  destruct (str_empty _); [done|].
  pose proof (run_steps_outcome (S (size m)) input m current (mkRunState [] [] "{}")) as Hrun.
  destruct (run_steps _ _ _ _ _) as [[r|e] st]; [|done]. destruct Hrun as (l & [Hlog _] & Hp & Hs). by exists l.
Qed.

(** C21. Failure compensates in reverse: when [Execute] returns an error after it
    started, the commands are those of the failed run, then one compensation for
    each service that was invoked successfully and has a compensation method, the
    last invoked first and each exactly once whatever the compensations answer, and
    then one report that the instance failed with the text of that error; there was
    no compensation and no successful report before. *)
Theorem Execute_failure_compensates input :
  match Execute input with
  | (Ok _, _) => True
  | (Err e, h) =>
      (h = [] /\ exists message, e = NonRetryable message "INVALID_WORKFLOW") \/
      exists body comp out ok,
        h = body ++ comp ++ [(FinishInstance disconnectedCtx (mkFinishInput (in_InstanceID input)
              (in_TenantID input) (in_ApplicationID input) InstanceFailed out (error_text e)), ok)] /\
        failed_body input body /\
        comp.*1 = CompensateServiceTask disconnectedCtx <$> filter has_compensation (rev (invoked_services body))
  end.
Proof.
  unfold Execute. destruct (_ || _); [left; by eauto|]. destruct (index_input (in_Nodes input)) as [m current].
  destruct (str_empty _); [left; by eauto|].
  pose proof (run_steps_outcome (S (size m)) input m current (mkRunState [] [] "{}")) as Hrun.
  destruct (run_steps _ _ _ _ _) as [[r|e] st]; [done|]. destruct Hrun as (l & [Hlog Hc] & Hf). right.
  destruct (deferred_log input e st) as (comp & out & ok & -> & Hcomp). simpl in Hlog, Hc.
  exists l, comp, out, ok. by rewrite Hlog, <- Hc.
Qed.

Lemma validateNode_type n : validateNode n = Ok tt -> node_Type n ∈ known_types.
Proof.
  unfold validateNode. destruct (_ || _); [done|]. unfold oneOf. simpl existsb. unfold known_types.
  destruct (String.eqb_spec NodeStart (node_Type n)) as [<-|]; [intros _; set_solver|].
  destruct (String.eqb_spec NodeEnd (node_Type n)) as [<-|]; [intros _; set_solver|].
  destruct (String.eqb_spec (node_Type n) NodeStart) as [->|]; [intros _; set_solver|].
  destruct (String.eqb_spec (node_Type n) NodeEnd) as [->|]; [intros _; set_solver|]. simpl.
  destruct (String.eqb_spec (node_Type n) NodeApproval) as [->|]; [intros _; set_solver|].
  destruct (String.eqb_spec (node_Type n) NodeServiceTask) as [->|]; [intros _; set_solver|].
  destruct (String.eqb_spec (node_Type n) NodeTimer) as [->|]; [intros _; set_solver|]. done.
Qed.

Lemma identifier_nonempty s : MatchString identifierPattern s = true -> s <> "".
Proof. by intros H ->. Qed.

Lemma size_index nodes m current : indexed_input nodes m current -> NoDup (node_ID <$> nodes) ->
  List.length nodes <= size m.
Proof.
  intros [_ Hn _] Hnd. rewrite <- (length_fmap node_ID nodes), <- (size_list_to_set (C := gset string)) by done.
  rewrite <- (size_dom m). apply subseteq_size. intros k Hk. apply elem_of_list_to_set, list_elem_of_fmap in Hk as (n & -> & Hin).
  apply elem_of_dom. by apply Hn.
Qed.

Lemma accepted_run input :
  accepted (in_Nodes input) (in_Edges input) ->
  let m := (index_input (in_Nodes input)).1 in let current := (index_input (in_Nodes input)).2 in
  node_ID current <> "" /\ node_Type current ∈ known_types /\
  (forall k n, m !! k = Some n -> node_ID n = k /\ node_Type n ∈ known_types) /\
  exists P i, topological (in_Edges input) P /\ NoDup P /\
    (forall u v, edge_rel (in_Edges input) u v -> is_Some (m !! v) /\ v ∈ P) /\
    P !! i = Some (node_ID current) /\ List.length P <= size m.
Proof.
  intros Hacc m current. destruct (accepted_order _ _ Hacc) as (P & Hnd & Htopo & Hmem & HP).
  pose proof (index_input_spec (in_Nodes input)) as Hix. pose proof Hix as [Hk Hn Hs].
  destruct (start_unique _ (acc_ids _ _ Hacc) (acc_start _ _ Hacc)) as (s & Hsin & Hstart & _).
  destruct Hs as [Hcin Hcs]; [by exists s|]. fold m current in Hk, Hn, Hcin, Hcs.
  split; [by apply identifier_nonempty, validateNode_id, (acc_valid _ _ Hacc)|].
  split; [by apply validateNode_type, (acc_valid _ _ Hacc)|]. split.
  { intros k n Hl. destruct (Hk k n Hl) as [Hin ?]. split; [done|]. by apply validateNode_type, (acc_valid _ _ Hacc). }
  assert (Hc : node_ID current ∈ P) by (apply Hmem, list_elem_of_fmap; by exists current).
  apply list_elem_of_lookup_1 in Hc as [i Hi]. exists P, i. split_and!; [done..| |done|].
  - intros u v (e & He & _ & <-). destruct (acc_edges _ _ Hacc e He) as (f & t & _ & Ht & _ & <- & _).
    split; [by apply Hn|]. apply Hmem, list_elem_of_fmap. by exists t.
  - rewrite HP. by apply (size_index _ _ _ Hix), (acc_ids _ _ Hacc).
Qed.

(** C23. A validated graph runs: if [ValidateDefinition] accepted the graph (under any
    key and name), no run of it, whatever Temporal and the activities answer, ends
    with one of the errors that say that the graph is broken - no start node, an
    unknown node type, an edge to an unknown node, more steps than nodes. *)
Theorem Execute_validated_graph key name input :
  ValidateDefinition key name (in_Nodes input) (in_Edges input) = Ok tt ->
  in_InstanceID input <> "" -> in_TenantID input <> "" -> in_ApplicationID input <> "" ->
  match Execute input with
  | (Err (NonRetryable _ t), _) => t ∉ ["INVALID_WORKFLOW"; "INVALID_NODE"; "INVALID_EDGE"; "INVALID_GRAPH"]
  | _ => True
  end.
Proof.
  intros [_ Hacc]%ValidateDefinition_accepted Hi Ht Ha.
  destruct (accepted_run input Hacc) as (Hid & Hty & Hkey & P & i & Htopo & Hnd & Hedge & Hpos & Hsize).
  assert (He : forall s, s <> "" -> str_empty s = false) by (by intros []).
  unfold Execute. rewrite (He _ Hi), (He _ Ht), (He _ Ha). simpl orb.
  destruct (index_input (in_Nodes input)) as [m current]. cbn [fst snd] in *. rewrite (He _ Hid).
  destruct (run_steps (S (size m)) input m current (mkRunState [] [] "{}")) as [[r|e] st] eqn:Hrun; [done|].
  assert (Hne : ~ graph_error e).
  { eapply (run_steps_no_graph_error input m P Htopo Hnd Hkey Hedge); [done|done| |exact Hrun]. lia. }
  destruct e; try done. intros Hin. apply Hne. exists message, type. split; [done|]. unfold graph_errors. set_solver.
Qed.

(** C24. A run acts on a node at most once: for a validated graph, the approval tasks
    created and the services invoked in one run are for pairwise different nodes. *)
Theorem Execute_acts_once key name input :
  ValidateDefinition key name (in_Nodes input) (in_Edges input) = Ok tt ->
  NoDup (acted_nodes (Execute input).2).
Proof.
  intros [_ Hacc]%ValidateDefinition_accepted.
  destruct (accepted_run input Hacc) as (_ & _ & Hkey & P & i & Htopo & Hnd & Hedge & Hpos & _).
  unfold Execute. destruct (_ || _); [constructor|]. destruct (index_input (in_Nodes input)) as [m current]. cbn [fst snd] in *.
  destruct (str_empty _); [constructor|].
  destruct (run_steps_acted input m P Htopo Hnd Hkey Hedge (S (size m)) current i (mkRunState [] [] "{}") Hpos)
    as (l & [Hlog _] & Hl & _).
  destruct (run_steps (S (size m)) input m current (mkRunState [] [] "{}")) as [[r|e] st]; cbn [fst snd rs_log] in *; [by rewrite Hlog|].
  destruct (deferred_log input e st) as (comp & out & ok & -> & Hcomp). rewrite Hlog. unfold acted_nodes in *.
  rewrite !omap_app. simpl.
  replace (omap acted_node comp) with (@nil string); [by rewrite !app_nil_r|].
  clear -Hcomp. revert Hcomp. generalize (filter has_compensation (rev (rs_completed st))) as services.
  induction comp as [|[c b] comp IH]; intros [|i services]; simpl; try done.
  intros [= -> Hc]. simpl. by apply (IH services).
Qed.

(** The next node is chosen by priority: when every condition has a value, the
    choice is an edge of the node whose condition holds and that has the least
    priority of those; only if no condition holds, an edge without condition of the
    least priority; and the run fails only if there is neither. *)
Theorem selectNext_by_priority options id edges vars out st (eval : string -> bool) :
  (forall h o e, rt_evaluate h o (mkConditionInput e vars out) = Ok (eval e)) ->
  (forall e, e ∈ edges -> edge_ToNodeID e <> "") ->
  let leaving := filter (fun e => edge_FromNodeID e = id) edges in
  let least (f : Edge -> bool) e := e ∈ leaving /\ f e = true /\
    forall e', e' ∈ leaving -> f e' = true -> (edge_Priority e <= edge_Priority e')%Z in
  match (selectNext options id edges vars out st).1 with
  | Ok next => exists e, edge_ToNodeID e = next /\
      (least (taken eval) e \/
       (least unconditional e /\ forall e', e' ∈ leaving -> taken eval e' = false))
  | Err err => err = NonRetryable "no workflow edge matched" "NO_MATCHING_EDGE" /\
      forall e, e ∈ leaving -> taken eval e = false /\ unconditional e = false
  end.
Proof.
  intros Heval Hto leaving least. unfold selectNext. set (cs := sort_edges _).
  assert (Hcs : forall e, e ∈ cs <-> e ∈ leaving).
  { intros e. unfold cs, leaving. rewrite sort_edges_perm, list_elem_of_In, filter_In, list_elem_of_filter,
      String.eqb_eq, list_elem_of_In. tauto. }
  assert (Hleast : forall f e, List.find f cs = Some e -> least f e).
  { intros f e Hf. destruct (find_first_sorted f cs e (sort_edges_sorted _) Hf) as (Hin & Hfe & Hmin).
    split; [by apply Hcs|]. split; [done|]. intros e' He'. by apply Hmin, Hcs. }
  assert (Hnone : forall f, List.find f cs = None -> forall e, e ∈ leaving -> f e = false).
  { intros f Hf e He. by apply (find_none _ _ Hf), list_elem_of_In, Hcs. }
  rewrite (select_candidate_result eval); [|done|].
  - destruct (List.find (taken eval) cs) as [e|] eqn:Ht; [exists e; split; [done|left; by apply Hleast]|]. simpl.
    destruct (List.find unconditional cs) as [e|] eqn:Hu.
    + exists e. split; [done|]. right. split; [by apply Hleast|]. by apply Hnone.
    + split; [done|]. intros e He. split; [by eapply Hnone in Ht|by eapply Hnone in Hu].
  - intros e He. apply Hcs in He. unfold leaving in He. apply list_elem_of_filter in He as [_ He]. by apply Hto.
Qed.

(** Timeouts are exact: with node timeouts and timers that are 32-bit unsigned
    integers, every command of a run carries the timeout its node asks for - in
    nanoseconds, computed in 64 bits without overflow - or the documented default of
    30 seconds for an activity and 24 hours for an approval. *)
Theorem Execute_timeouts_exact input :
  (forall n, n ∈ in_Nodes input -> uint32 (node_TimeoutSeconds n) /\ uint32 (node_TimerSeconds n)) ->
  Forall (timed (in_Nodes input)) (Execute input).2.
Proof. intros Hu. by apply Execute_covered, covers_timed. Qed.
End properties.

(** ** The properties at work

    Everything succeeds, approvals are granted, no condition holds, and the report of
    success is refused: the run fails after the charge, which is refunded. *)
Module Sample.

#[export] Instance priority_decision : RelDecision (fun a b : Edge => (edge_Priority a <= edge_Priority b)%Z).
Proof. intros a b. apply Z_le_dec. Defined.

#[export] Instance sorted_edges : EdgeSort.
Proof.
  refine {| sort_edges := merge_sort (fun a b => (edge_Priority a <= edge_Priority b)%Z) |}.
  - intros l. apply merge_sort_Permutation.
  - intros l. apply StronglySorted_merge_sort; [intros a b c; lia|]. intros a b. lia.
Defined.

#[export] Instance text : ErrorText := {| error_text := fun _ => "failed" |}.

Definition refused (c : command) : bool :=
  match c with FinishInstance _ i => String.eqb (fi_Status i) InstanceCompleted | _ => false end.

#[export, refine] Instance refusing : Runtime := {|
  rt_activity := fun _ c => if refused c then Err (ErrorNew "refused") else Ok tt;
  rt_invoke := fun _ _ _ => Ok (mkServiceTaskResult "{}");
  rt_evaluate := fun _ _ _ => Ok false;
  rt_await := fun _ _ cond =>
    let s := mkTaskSignal "task-1" "approve" DecisionApprove "" in
    if cond s then Ok (Some s) else Ok None;
  rt_sleep := fun _ _ => Ok tt
|}.
Proof. intros h d cond s. simpl. destruct (cond _) eqn:Hc; [by intros [= <-]|done]. Defined.

Definition input : Input := mkInput "inst-1" "acme" "crm" "alice" "{}" sample_nodes sample_edges.

Definition charge : ServiceTaskInput :=
  service_input input (mkNode "charge" "Charge" NodeServiceTask "" "" 30 "billing" "/billing.v1.Billing/Charge"
    "{}" "/billing.v1.Billing/Refund" 0 "").

Example refunded : (CompensateServiceTask disconnectedCtx charge, true) ∈ (Execute input).2.
Proof. apply list_elem_of_In. vm_compute. auto 20. Qed.

Lemma Execute_validated_graph_witness : exists e h, Execute input = (Err e, h) /\
  match e with NonRetryable _ t => t ∉ ["INVALID_WORKFLOW"; "INVALID_NODE"; "INVALID_EDGE"; "INVALID_GRAPH"] | _ => True end.
Proof.
  pose proof (Execute_validated_graph "order" "Order" input sample_accepted ltac:(done) ltac:(done) ltac:(done)) as H.
  destruct (Execute input) as [[r|e] h] eqn:Hrun; [vm_compute in Hrun; discriminate Hrun|].
  exists e, h. split; [reflexivity|exact H].
Defined.

Lemma Execute_acts_once_witness :
  acted_nodes (Execute input).2 = ["approve"; "charge"] /\ NoDup (acted_nodes (Execute input).2).
Proof. split; [vm_compute; reflexivity|]. apply (Execute_acts_once "order" "Order" input sample_accepted). Defined.

Lemma selectNext_by_priority_witness :
  (selectNext activityCtx "approve" sample_edges "{}" "{}" (mkRunState [] [] "{}")).1 = Ok "charge" /\
  exists e, edge_ToNodeID e = "charge" /\ unconditional e = true.
Proof.
  pose proof (selectNext_by_priority activityCtx "approve" sample_edges "{}" "{}" (mkRunState [] [] "{}")
    (fun _ => false) ltac:(done)) as H.
  assert (Hto : forall e, e ∈ sample_edges -> edge_ToNodeID e <> "") by (by apply Forall_forall; repeat constructor).
  specialize (H Hto). split; [vm_compute; reflexivity|].
  destruct (selectNext activityCtx "approve" sample_edges "{}" "{}" (mkRunState [] [] "{}")) as [[next|e] st] eqn:Hrun;
    vm_compute in Hrun; [|discriminate Hrun]. injection Hrun as <- _.
  destruct H as (e & He & [(_ & Ht & _)|[(_ & Hu & _) _]]); exists e.
  - unfold taken in Ht. rewrite andb_false_r in Ht. discriminate Ht.
  - split; [exact He|exact Hu].
Defined.

Lemma Execute_timeouts_exact_witness : Forall (timed sample_nodes) (Execute input).2.
Proof.
  apply (Execute_timeouts_exact input). apply Forall_forall. repeat constructor; simpl; lia.
Defined.
End Sample.
