(* ===== verification/ExecuteWalk.v ===== *)
(** * The graph a run walks

    A reference semantics of a workflow graph, without the interpreter's loop, its
    maps or its log: [walk] says which commands a graph asks for and how it ends,
    when services, conditions and decisions have given answers.  [Execute] on a
    reliable Temporal implements it - on every validated graph it ends, with the
    commands and the outcome of a walk. *)
From S2P Require Import Prelude GoStd Json Model GraphCodec Graph GraphTheory GraphSpec Execute ExecuteSpec.
From Stdlib Require Import Ascii String.
From stdpp Require Import sorting.
Local Open Scope string_scope.
Local Open Scope list_scope.

(** ** The answers of the world *)

(** Who decides what: the signal an approval node gets before it times out, if any,
    the output of a service and the value of a condition. *)
Record Answers : Type := mkAnswers {
  an_signal : string -> option TaskSignal;
  an_service : ServiceTaskInput -> string;
  an_condition : ConditionInput -> bool
}.

(** Temporal and the activities give these answers and never fail. *)
Record reliable {RT : Runtime} (A : Answers) : Prop := {
  rl_activity h c : rt_activity h c = Ok tt;
  rl_invoke h o i : rt_invoke h o i = Ok (mkServiceTaskResult (an_service A i));
  rl_evaluate h o ci : rt_evaluate h o ci = Ok (an_condition A ci);
  rl_await h d id : rt_await h d (fun signal => String.eqb (sig_NodeID signal) id) = Ok (an_signal A id);
  rl_sleep h d : rt_sleep h d = Ok tt
}.

(** ** Walks *)

Section walks.
Context (A : Answers) (input : Input).

(** What a node asks for. *)
Definition actions (n : Node) : list command :=
  if String.eqb (node_Type n) NodeApproval then
    [CreateApprovalTask (withNodeTimeout activityCtx (node_TimeoutSeconds n)) (approval_input input n);
     AwaitTaskCompleted (durationOrDefault (node_TimeoutSeconds n) (24 * Hour)) (node_ID n)]
  else if String.eqb (node_Type n) NodeServiceTask then
    [InvokeServiceTask (withNodeTimeout activityCtx (node_TimeoutSeconds n)) (service_input input n)]
  else if String.eqb (node_Type n) NodeTimer then [Sleep (seconds_duration (node_TimerSeconds n))]
  else [].

(** How a node is left: with an output for its successor, or with the run's end. *)
Inductive leaves (n : Node) (out : string) : string -> option (result error Result) -> Prop :=
| lv_start : node_Type n = NodeStart -> leaves n out out None
| lv_timer : node_Type n = NodeTimer -> leaves n out out None
| lv_service : node_Type n = NodeServiceTask ->
    leaves n out (defaultJSON (an_service A (service_input input n))) None
| lv_timeout : node_Type n = NodeApproval -> an_signal A (node_ID n) = None ->
    leaves n out out (Some (Err (NonRetryable "approval task timed out" "APPROVAL_TIMEOUT")))
| lv_approved s : node_Type n = NodeApproval -> an_signal A (node_ID n) = Some s -> sig_Decision s = DecisionApprove ->
    leaves n out (defaultJSON (sig_OutputJSON s)) None
| lv_rejected s : node_Type n = NodeApproval -> an_signal A (node_ID n) = Some s -> sig_Decision s = DecisionReject ->
    leaves n out (defaultJSON (sig_OutputJSON s)) (Some (Ok (mkResult InstanceRejected (defaultJSON (sig_OutputJSON s)))))
| lv_undecided s : node_Type n = NodeApproval -> an_signal A (node_ID n) = Some s ->
    sig_Decision s <> DecisionApprove -> sig_Decision s <> DecisionReject ->
    leaves n out (defaultJSON (sig_OutputJSON s))
      (Some (Err (NonRetryable "unknown approval decision" "INVALID_DECISION")))
| lv_end : node_Type n = NodeEnd -> leaves n out out (Some (Ok (mkResult InstanceCompleted out))).

(** The final report of a run that ends by itself. *)
Definition closing (r : result error Result) : list command :=
  match r with Ok r => [report input (res_Status r) (res_ResultJSON r)] | Err _ => [] end.

Definition leaving (n : Node) : list Edge := filter (fun e => edge_FromNodeID e = node_ID n) (in_Edges input).

(** The condition of an edge, on the output of the node it leaves. *)
Definition holds (out : string) (expression : string) : bool :=
  an_condition A (mkConditionInput expression (in_VariablesJSON input) out).

(** The edges whose condition holds come first, by priority; without any, the
    unconditional ones, by priority. *)
Definition least (n : Node) (f : Edge -> bool) (e : Edge) : Prop :=
  e ∈ leaving n /\ f e = true /\ forall e', e' ∈ leaving n -> f e' = true -> (edge_Priority e <= edge_Priority e')%Z.
Definition chosen (n : Node) (out : string) (e : Edge) : Prop :=
  least n (taken (holds out)) e \/
  (least n unconditional e /\ forall e', e' ∈ leaving n -> taken (holds out) e' = false).
Definition stuck (n : Node) (out : string) : Prop :=
  forall e, e ∈ leaving n -> taken (holds out) e = false /\ unconditional e = false.

Definition no_matching_edge : error := NonRetryable "no workflow edge matched" "NO_MATCHING_EDGE".

(** From a node with an output: the commands, the last output and the end. *)
Inductive walk : Node -> string -> list command -> string -> result error Result -> Prop :=
| walk_ends n out out' r : leaves n out out' (Some r) -> walk n out (actions n ++ closing r) out' r
| walk_stuck n out out' : leaves n out out' None -> stuck n out' -> walk n out (actions n) out' (Err no_matching_edge)
| walk_edge n out out' e n' l out'' r : leaves n out out' None -> chosen n out' e ->
    n' ∈ in_Nodes input -> node_ID n' = edge_ToNodeID e -> walk n' out' l out'' r ->
    walk n out (actions n ++ l) out'' r.
End walks.

(** The commands of a history, without the conditions it evaluated. *)
Definition is_evaluation (c : command) : bool := match c with EvaluateCondition _ _ => true | _ => false end.
Definition visible (h : history) : list command := List.filter (fun c => negb (is_evaluation c)) h.*1.
Definition succeeded (h : history) : Prop := Forall (fun e => e.2 = true) h.

Lemma visible_app h h' : visible (h ++ h') = visible h ++ visible h'.
Proof. unfold visible. by rewrite fmap_app, List.filter_app. Qed.

Lemma visible_evaluations l : evaluations l -> visible l = [].
Proof. by induction 1 as [|[c b] l (o & i & Hc) _ IH]; [|simpl in Hc; subst c]. Qed.

Lemma invoked_evaluations l : evaluations l -> invoked_services l = [].
Proof. by induction 1 as [|[c b] l (o & i & Hc) _ IH]; [|simpl in Hc; subst c]. Qed.

(** ** The interpreter implements the walks *)

Section implements.
Context {RT : Runtime} {ES : EdgeSort} {ET : ErrorText} (A : Answers) (Hrel : reliable A).

(** From [st] to [st'] the commands [l] succeeded; [out] is the last output. *)
Record ran (l : history) (out : string) (st st' : run_state) : Prop := {
  ran_log : rs_log st' = rs_log st ++ l;
  ran_completed : rs_completed st' = rs_completed st ++ invoked_services l;
  ran_output : rs_lastOutput st' = out;
  ran_ok : succeeded l
}.

Lemma ran_trans l l' out out' st st1 st' : ran l out st st1 -> ran l' out' st1 st' -> ran (l ++ l') out' st st'.
Proof.
  intros [H1 H2 _ H3] [H4 H5 H6 H7]. split; [by rewrite H4, H1, app_assoc| |done|by apply Forall_app].
  unfold invoked_services in *. by rewrite omap_app, H5, H2, app_assoc.
Qed.

Lemma select_candidate_ran options cs vars out default st : exists l,
  ran l (rs_lastOutput st) st (select_candidate options cs vars out default st).2 /\ evaluations l.
Proof.
  revert default st. induction cs as [|e cs IH]; intros default st; simpl.
  { exists []. split; [|constructor]. by destruct (negb _); split; simpl; rewrite ?app_nil_r; try constructor. }
  destruct (str_empty _); [apply IH|].
  unfold mbind, stE_bind. rewrite wrapping_run. unfold ExecuteEvaluate, issue. cbn [fst snd]. rewrite (rl_evaluate A Hrel).
  set (c := EvaluateCondition _ _). set (st1 := mkRunState _ _ _).
  assert (H1 : ran [(c, true)] (rs_lastOutput st) st st1) by (split; [done|by rewrite app_nil_r|done|by repeat constructor]).
  destruct (an_condition A _).
  - exists [(c, true)]. split; [exact H1|]. repeat constructor. unfold c. by eauto.
  - destruct (IH default st1) as (l & H2 & Hl). exists ([(c, true)] ++ l).
    split; [by eapply ran_trans|]. constructor; [unfold c; by eauto|exact Hl].
Qed.

Ltac run_node :=
  unfold visit_node, finish, ExecuteActivity, ExecuteInvoke, SleepFor, AwaitWithTimeout, wrapping, issue, set_lastOutput,
    append_completed, get_lastOutput, mbind, stE_bind, throw, mret, stE_ret.
Ltac ran_log := split; [simpl; rewrite <- ?app_assoc; reflexivity|simpl; rewrite ?app_nil_r; done|done|by repeat constructor].

(** One node: its commands, then the report if the run ends there. *)
Lemma visit_walk input current st : node_Type current ∈ known_types ->
  exists l out' o, leaves A input current (rs_lastOutput st) out' o /\
    ran l out' st (visit_node input current st).2 /\
    visible l = actions input current ++ match o with Some r => closing input r | None => [] end /\
    (visit_node input current st).1 = match o with
      | None => Ok None | Some (Ok r) => Ok (Some r) | Some (Err e) => Err e end.
Proof.
  intros Hty. destruct Hrel as [Ha Hi _ Hw Hs]. unfold actions. unfold known_types in Hty.
  apply list_elem_of_In in Hty as [Ht|[Ht|[Ht|[Ht|[Ht|[]]]]]]; symmetry in Ht; rewrite Ht.
  all: run_node; rewrite Ht; simpl; rewrite ?Ha, ?Hw, ?Hi, ?Hs.
  - exists [], (rs_lastOutput st), None. split; [by constructor|].
    split; [|done]. split; simpl; rewrite ?app_nil_r; done || constructor.
  - destruct (an_signal A (node_ID current)) as [s|] eqn:Hsig; [|eexists _, _, _; split; [by eapply lv_timeout|split; [ran_log|done]]].
    destruct (String.eqb_spec (sig_Decision s) DecisionReject) as [Hd|Hd]; simpl; rewrite ?Ha.
    + eexists _, _, _. split; [by eapply lv_rejected|split; [ran_log|done]].
    + destruct (String.eqb_spec (sig_Decision s) DecisionApprove) as [Hd'|Hd']; simpl.
      * eexists _, _, _. split; [by eapply lv_approved|split; [ran_log|done]].
      * eexists _, _, _. split; [by eapply lv_undecided|split; [ran_log|done]].
  - eexists _, _, _. split; [by eapply lv_service|split; [ran_log|done]].
  - eexists _, _, _. split; [by eapply lv_timer|split; [ran_log|done]].
  - eexists _, _, _. split; [by eapply lv_end|split; [ran_log|done]].
Qed.

(** Going on: the edge is chosen by priority, or none is there. *)
Lemma selectNext_walk input n edges st : (forall e, e ∈ edges -> edge_ToNodeID e <> "") -> edges = in_Edges input ->
  exists l, ran l (rs_lastOutput st) st
      (selectNext activityCtx (node_ID n) edges (in_VariablesJSON input) (rs_lastOutput st) st).2 /\ evaluations l /\
    match (selectNext activityCtx (node_ID n) edges (in_VariablesJSON input) (rs_lastOutput st) st).1 with
    | Ok next => exists e, edge_ToNodeID e = next /\ chosen A input n (rs_lastOutput st) e
    | Err e => e = no_matching_edge /\ stuck A input n (rs_lastOutput st)
    end.
Proof.
  intros Hto ->. unfold selectNext at 1.
  destruct (select_candidate_ran activityCtx (sort_edges (List.filter (fun edge => String.eqb (edge_FromNodeID edge) (node_ID n))
    (in_Edges input))) (in_VariablesJSON input) (rs_lastOutput st) "" st) as (l & Hl & He).
  exists l. split; [exact Hl|]. split; [exact He|].
  exact (selectNext_by_priority activityCtx (node_ID n) (in_Edges input) (in_VariablesJSON input) (rs_lastOutput st) st
    (holds A input (rs_lastOutput st)) (fun h o e => rl_evaluate A Hrel h o _) Hto).
Qed.

Section graph.
Context (input : Input) (nodes : gmap string Node) (P : list string).
Hypothesis Htopo : topological (in_Edges input) P.
Hypothesis Hnd : NoDup P.
Hypothesis Hkey : forall k n, nodes !! k = Some n -> node_ID n = k /\ node_Type n ∈ known_types.
Hypothesis Hin : forall k n, nodes !! k = Some n -> n ∈ in_Nodes input.
Hypothesis Hto : forall e, e ∈ in_Edges input -> edge_ToNodeID e <> "".
Hypothesis Hedge : forall u v, edge_rel (in_Edges input) u v -> is_Some (nodes !! v) /\ v ∈ P.

Lemma chosen_edge n out e : chosen A input n out e -> edge_rel (in_Edges input) (node_ID n) (edge_ToNodeID e).
Proof.
  intros Hc. assert (He : e ∈ leaving input n) by (destruct Hc as [[? _]|[[? _] _]]; done).
  apply list_elem_of_filter in He as [Hf He]. by exists e.
Qed.

Lemma run_steps_S n current st : run_steps (S n) input nodes current st =
  match visit_node input current st with
  | (Ok (Some r), st1) => (Ok r, st1)
  | (Err e, st1) => (Err e, st1)
  | (Ok None, st1) =>
      match selectNext activityCtx (node_ID current) (in_Edges input) (in_VariablesJSON input) (rs_lastOutput st1) st1 with
      | (Ok id, st2) => match nodes !! id with
          | Some next => run_steps n input nodes next st2
          | None => (Err (NonRetryable "workflow edge points to an unknown node" "INVALID_EDGE"), st2)
          end
      | (Err e, st2) => (Err e, st2)
      end
  end.
Proof.
  cbn [run_steps]. unfold mbind, stE_bind, get_lastOutput. destruct (visit_node _ _ _) as [[[r|]|e] st1]; [done| |done].
  destruct (selectNext _ _ _ _ _ _) as [[id|e] st2]; [|done]. by destruct (nodes !! id).
Qed.

Lemma run_steps_walk n current i st :
  P !! i = Some (node_ID current) -> node_Type current ∈ known_types -> List.length P < n + i ->
  exists l out, walk A input current (rs_lastOutput st) (visible l) out (run_steps n input nodes current st).1 /\
    ran l out st (run_steps n input nodes current st).2.
Proof.
  revert current i st. induction n as [|n IH]; intros current i st Hi Ht Hn.
  { apply lookup_lt_Some in Hi. lia. }
  rewrite run_steps_S.
  destruct (visit_walk input current st Ht) as (l & out' & o & Hlv & Hran & Hvis & Hres).
  destruct (visit_node input current st) as [res st1]. cbn [fst snd] in *. subst res.
  destruct o as [[r|e]|]; [exists l, out'; rewrite Hvis; split; [by apply (walk_ends A input current _ out')|exact Hran]..|].
  rewrite app_nil_r in Hvis.
  destruct (selectNext_walk input current (in_Edges input) st1 Hto eq_refl) as (l1 & Hr1 & He1 & Hsel).
  rewrite (ran_output _ _ _ _ Hran) in *.
  destruct (selectNext _ _ _ _ _ st1) as [[id|e] st2]; cbn [fst snd] in *.
  - destruct Hsel as (e & <- & Hch). pose proof (chosen_edge _ _ _ Hch) as Hrel'.
    destruct (Hedge _ _ Hrel') as [[next Hnext] _]. rewrite Hnext.
    destruct (next_position input nodes P Htopo Hnd Hedge _ _ _ Hi Hrel') as (j & Hj & Hlt).
    destruct (Hkey _ _ Hnext) as [Hid Hty]. rewrite <- Hid in Hj.
    destruct (IH next j st2 Hj Hty ltac:(lia)) as (l2 & out & Hwalk & Hr2).
    exists ((l ++ l1) ++ l2), out. split; [|eapply ran_trans; [by eapply ran_trans|exact Hr2]].
    rewrite !visible_app, Hvis, (visible_evaluations l1 He1), app_nil_r.
    rewrite (ran_output _ _ _ _ Hr1) in Hwalk. by eapply walk_edge; eauto.
  - destruct Hsel as [-> Hstuck]. exists (l ++ l1), out'. split; [|by eapply ran_trans].
    rewrite visible_app, Hvis, (visible_evaluations l1 He1), app_nil_r. by apply walk_stuck.
Qed.
End graph.

(** ** Every run of a validated graph *)

(** What follows the commands of a failed walk: the compensations, last service
    first, and the report of the failure. *)
Definition aftermath (input : Input) (h : history) (out : string) (e : error) : list command :=
  (CompensateServiceTask disconnectedCtx <$> filter has_compensation (rev (invoked_services h))) ++
  [FinishInstance disconnectedCtx (finish_input input InstanceFailed out (error_text e))].

Lemma deferred_ran input e st : rs_log (deferred input e st) = rs_log st ++ 
  ((fun c => (c, true)) <$> ((CompensateServiceTask disconnectedCtx <$> filter has_compensation (rev (rs_completed st))) ++
    [FinishInstance disconnectedCtx (finish_input input InstanceFailed (rs_lastOutput st) (error_text e))])).
Proof.
  unfold deferred. set (services := rev _).
  assert (Hc : forall st0, (compensate services st0).2 = mkRunState (rs_log st0 ++
    ((fun c => (c, true)) <$> (CompensateServiceTask disconnectedCtx <$> filter has_compensation services)))
    (rs_completed st0) (rs_lastOutput st0)).
  { induction services as [|s ss IH]; intros st0; [simpl; rewrite app_nil_r; by destruct st0|]. cbn [compensate].
    rewrite IH, filter_cons. unfold has_compensation. destruct (str_empty _) eqn:Hs.
    - rewrite decide_False; [done|]. destruct (node_CompensationMethod (sti_Node s)); [by intros Hx|done].
    - rewrite decide_True by (by intros Hx; rewrite Hx in Hs). unfold ExecuteActivity, issue. cbn [fst snd rs_log rs_completed rs_lastOutput].
      rewrite (rl_activity A Hrel). simpl. by rewrite <- app_assoc. }
  rewrite Hc. unfold ExecuteActivity, issue. cbn [fst snd rs_log rs_completed rs_lastOutput]. rewrite (rl_activity A Hrel).
  by rewrite fmap_app, <- app_assoc.
Qed.

(** A run is a walk, with its aftermath. *)
Lemma Execute_walked `{MapRange} key name input :
  ValidateDefinition key name (in_Nodes input) (in_Edges input) = Ok tt ->
  in_InstanceID input <> "" -> in_TenantID input <> "" -> in_ApplicationID input <> "" ->
  exists s l out outcome rest, s ∈ in_Nodes input /\ is_start s /\
    walk A input s "{}" (visible l) out outcome /\
    Execute input = (outcome, l ++ rest) /\ succeeded (l ++ rest) /\
    rest.*1 = match outcome with Ok _ => [] | Err e => aftermath input l out e end.
Proof.
  intros [_ Hacc]%ValidateDefinition_accepted Hi Ht Ha.
  destruct (accepted_run input Hacc) as (Hid & Hty & Hkey & P & i & Htopo & Hnd & Hedge & Hpos & Hsize).
  pose proof (index_input_spec (in_Nodes input)) as [Hk _ Hs].
  destruct Hs as [Hsin Hstart].
  { destruct (start_unique _ (acc_ids _ _ Hacc) (acc_start _ _ Hacc)) as (s & ? & ? & _). by exists s. }
  assert (Hto : forall e, e ∈ in_Edges input -> edge_ToNodeID e <> "").
  { intros e He. destruct (acc_edges _ _ Hacc e He) as (f & t & _ & Htn & _ & <- & _).
    by apply identifier_nonempty, validateNode_id, (acc_valid _ _ Hacc). }
  assert (He : forall s, s <> "" -> str_empty s = false) by (by intros []).
  unfold Execute. rewrite (He _ Hi), (He _ Ht), (He _ Ha). simpl orb.
  destruct (index_input (in_Nodes input)) as [m current]. cbn [fst snd] in *. rewrite (He _ Hid).
  destruct (run_steps_walk input m P Htopo Hnd Hkey (fun k n Hl => proj1 (Hk k n Hl)) Hto Hedge
    (S (size m)) current i (mkRunState [] [] "{}") Hpos Hty ltac:(lia)) as (l & out & Hwalk & [Hlog Hcomp Hout Hok]).
  destruct (run_steps _ _ _ _ _) as [[r|e] st]; cbn [fst snd rs_log rs_completed rs_lastOutput app] in *.
  - exists current, l, out, (Ok r), []. rewrite app_nil_r, Hlog. by split_and!.
  - eexists current, l, out, (Err e), _. rewrite deferred_ran, Hlog, Hcomp, Hout.
    split; [done|]. split; [done|]. split; [done|]. split; [done|]. split.
    + apply Forall_app. split; [done|]. apply Forall_fmap, Forall_true. by intros c.
    + by rewrite <- list_fmap_compose, (list_fmap_id _ : _ = _).
Qed.

(** C22. [Execute] implements the walk of its graph: with a graph that
    [ValidateDefinition] accepted and a reliable Temporal, whatever the services
    return, the approvers decide (or leave undecided) and the conditions evaluate to,
    every command of the run succeeds and the run ends like a walk from the start node
    - with the walk's commands in order and its result, or, if the walk fails, with its
    error, after the compensations of the invoked services in reverse order and the
    report of the failure. *)
Theorem Execute_walks `{MapRange} key name input :
  ValidateDefinition key name (in_Nodes input) (in_Edges input) = Ok tt ->
  in_InstanceID input <> "" -> in_TenantID input <> "" -> in_ApplicationID input <> "" ->
  exists s l out outcome rest, s ∈ in_Nodes input /\ is_start s /\
    walk A input s "{}" (visible l) out outcome /\
    Execute input = (outcome, l ++ rest) /\ succeeded (l ++ rest) /\
    rest.*1 = match outcome with Ok _ => [] | Err e => aftermath input l out e end.
Proof. apply Execute_walked. Qed.
End implements.

(** ** The sample graph, answered *)
Module Sample.
Import ExecuteSpec.Sample.

(** [approve] is approved, charging returns a receipt, no condition holds. *)
Definition answers : Answers := {|
  an_signal := fun id => if String.eqb id "approve"
    then Some (mkTaskSignal "task-1" "approve" DecisionApprove "{'by':'bob'}") else None;
  an_service := fun _ => "{'receipt':7}";
  an_condition := fun _ => false
|}.

#[export, refine] Instance answering : Runtime := {|
  rt_activity := fun _ _ => Ok tt;
  rt_invoke := fun _ _ i => Ok (mkServiceTaskResult (an_service answers i));
  rt_evaluate := fun _ _ ci => Ok (an_condition answers ci);
  rt_await := fun _ _ cond =>
    let s := mkTaskSignal "task-1" "approve" DecisionApprove "{'by':'bob'}" in
    if cond s then Ok (Some s) else Ok None;
  rt_sleep := fun _ _ => Ok tt
|}.
Proof. intros h d cond s. simpl. destruct (cond _) eqn:Hc; [by intros [= <-]|done]. Defined.

Lemma reliable_answers : reliable answers.
Proof.
  split; try done. intros h d id. unfold answers, rt_await, answering, an_signal. cbn [sig_NodeID].
  rewrite String.eqb_sym. by destruct (String.eqb id "approve").
Qed.

Lemma Execute_walks_witness :
  (Execute input).1 = Ok (mkResult InstanceCompleted "{'receipt':7}") /\
  exists s l out, is_start s /\
    walk answers input s "{}" (visible l) out (Ok (mkResult InstanceCompleted "{'receipt':7}")) /\ (Execute input).2 = l.
Proof.
  assert (Hrun : (Execute input).1 = Ok (mkResult InstanceCompleted "{'receipt':7}")) by (vm_compute; reflexivity).
  split; [exact Hrun|].
  destruct (Execute_walks answers reliable_answers "order" "Order" input sample_accepted ltac:(done) ltac:(done) ltac:(done))
    as (s & l & out & outcome & rest & _ & Hs & Hwalk & Hex & _ & Hrest).
  rewrite Hex in Hrun. cbn [fst] in Hrun. subst outcome. exists s, l, out. split; [exact Hs|]. split; [exact Hwalk|].
  rewrite Hex. destruct rest; [apply app_nil_r|discriminate Hrest].
Defined.
End Sample.
