(* ===== verification/Progress.v ===== *)
(** * Calls that succeed

    [WorldTheory] says what a method does if it ends well or badly; this file says
    when it ends well.  [succeeds m Q db]: in an environment that fails no call, [m]
    started on the tables [db] returns a value, and leaves tables that satisfy [Q].
    The methods a worker calls for a running instance succeed. *)
From S2P Require Import Prelude GoStd Json Model GraphCodec Graph World WorldTheory Repository.
From S2P Require Import Lifecycle RepositoryTheory Invariants.
From Stdlib Require Import Ascii String.
From stdpp Require Import relations.
Local Open Scope string_scope.
Local Open Scope list_scope.

Section succeeds.
Context {Event : Type} {EF : EventFactory Event} {E : Env}.
Implicit Types db : DB Event.

(** The network and the database work. *)
Definition healthy : Prop := forall n, env_fault n = None.

Definition succeeds {A} (m : M Event A) (Q : A -> DB Event -> Prop) db : Prop :=
  forall t, exists a, (m (mkWorld db t)).1 = Ok a /\ Q a (w_db (m (mkWorld db t)).2).

Lemma succeeds_world {A} (m : M Event A) Q w : succeeds m Q (w_db w) -> exists a w', m w = (Ok a, w') /\ Q a (w_db w').
Proof. destruct w as [db t]. intros H. destruct (H t) as (a & Ha & HQ). exists a, (m (mkWorld db t)).2. by rewrite <- Ha, <- surjective_pairing. Qed.

Lemma ok_mono {A} (m : M Event A) (Q Q' : A -> DB Event -> Prop) db :
  succeeds m Q db -> (forall a db', Q a db' -> Q' a db') -> succeeds m Q' db.
Proof. intros Hm HQ t. destruct (Hm t) as (a & ? & ?). exists a. auto. Qed.

Lemma ok_ret {A} (a : A) (Q : A -> DB Event -> Prop) db : Q a db -> succeeds (mret a) Q db.
Proof. intros H t. by exists a. Qed.

Lemma ok_bind {A B} (m : M Event A) (k : A -> M Event B) Q db :
  succeeds m (fun a db' => succeeds (k a) Q db') db -> succeeds (m ≫= k) Q db.
Proof.
  intros Hm t. destruct (Hm t) as (a & Ha & Hk). unfold mbind, stE_bind.
  destruct (m (mkWorld db t)) as [r w]. cbn [fst snd] in *. subst r.
  destruct (succeeds_world _ _ _ Hk) as (b & w' & -> & HQ). by exists b.
Qed.

Lemma ok_now (Q : Z -> DB Event -> Prop) db : (forall now, Q now db) -> succeeds get_now Q db.
Proof. intros H t. by eexists. Qed.

Lemma ok_reject_if cond e (Q : unit -> DB Event -> Prop) db :
  cond = false -> Q tt db -> succeeds (reject_if cond e) Q db.
Proof. intros Hc H t. exists tt. unfold reject_if. by rewrite Hc. Qed.

Lemma ok_wrap_err {A} format args (m : M Event A) Q db : succeeds m Q db -> succeeds (wrap_err format args m) Q db.
Proof. intros Hm t. destruct (Hm t) as (a & Ha & HQ). exists a. unfold wrap_err. destruct (m _) as [r w]. cbn in *. by subst r. Qed.

Lemma ok_or_not_found {A} op (m : M Event A) Q db : succeeds m Q db -> succeeds (or_not_found op m) Q db.
Proof. intros Hm t. destruct (Hm t) as (a & Ha & HQ). exists a. unfold or_not_found. destruct (m _) as [r w]. cbn in *. by subst r. Qed.

Lemma ok_build_event format ctx d (Q : Event -> DB Event -> Prop) db :
  (forall n, exists ev, ev_build ctx n d = Ok ev) -> (forall ev, Q ev db) -> succeeds (build_event format ctx d) Q db.
Proof. intros Hb HQ. apply ok_wrap_err. intros t. destruct (Hb t) as [ev Hev]. exists ev. by split. Qed.

Context (Hup : healthy).

Lemma ok_exec {A} (f : DB Event -> res (A * DB Event)) a db1 (Q : A -> DB Event -> Prop) db :
  f db = Ok (a, db1) -> Q a db1 -> succeeds (exec f) Q db.
Proof. intros Hf HQ t. exists a. unfold exec. cbn [w_tick w_db]. by rewrite Hup, Hf. Qed.

Lemma ok_query {A} (f : DB Event -> res A) a (Q : A -> DB Event -> Prop) db :
  f db = Ok a -> Q a db -> succeeds (query f) Q db.
Proof. intros Hf HQ. eapply ok_exec; [|exact HQ]. by rewrite Hf. Qed.

Lemma ok_rows_affected n (Q : Z -> DB Event -> Prop) db : Q n db -> succeeds (rows_affected n) Q db.
Proof. by apply ok_query. Qed.

Lemma ok_affectedOne (f : DB Event -> res (Z * DB Event)) op db1 (Q : unit -> DB Event -> Prop) db :
  f db = Ok (1%Z, db1) -> Q tt db1 -> succeeds (affectedOne (exec f) op) Q db.
Proof.
  intros Hf HQ. apply ok_bind, ok_wrap_err. eapply ok_exec; [exact Hf|].
  apply ok_bind, ok_wrap_err, ok_rows_affected. by apply ok_reject_if.
Qed.

Lemma ok_AddTx format event actor (Q : unit -> DB Event -> Prop) db :
  Q tt (set_outbox (db_outbox db ++ [(event, actor)]) db) -> succeeds (AddTx format event actor) Q db.
Proof. intros H. apply ok_wrap_err. by eapply ok_exec. Qed.

Lemma ok_emit {A} bformat aformat ctx d actor (a : A) (Q : tx_end A -> DB Event -> Prop) db :
  (forall n, exists ev, ev_build ctx n d = Ok ev) ->
  (forall ev, Q (Committed a) (set_outbox (db_outbox db ++ [(ev, actor)]) db)) ->
  succeeds (event ← build_event bformat ctx d; _ ← AddTx aformat event actor; mret (Committed a)) Q db.
Proof. intros Hb HQ. apply ok_bind, ok_build_event; [done|]. intros ev. apply ok_bind, ok_AddTx, ok_ret, HQ. Qed.

Lemma ok_found_or {A B} (cond : A -> bool) (table : DB Event -> gmap string A) found format (missing : M Event B)
    (Q : B -> DB Event -> Prop) db :
  (forall a, succeeds (found a) Q db) ->
  ((forall id a, table db !! id = Some a -> cond a = false) -> succeeds missing Q db) ->
  succeeds (found_or (query (fun db => find_row cond (table db))) found format missing) Q db.
Proof.
  intros Hfound Hmiss t. unfold found_or, query, exec. cbn [w_tick w_db]. rewrite Hup.
  pose proof (find_row_cases cond (table db)) as Hf. destruct (find_row cond (table db)) as [a|e]; cbn.
  - apply Hfound.
  - destruct Hf as [-> Hno]. cbn. by apply Hmiss.
Qed.

Lemma ok_transaction {A} bf cf (body : M Event (tx_end A)) (Q : A -> DB Event -> Prop) db :
  succeeds body (fun r db' => match r with Committed a => Q a db' | Rolled a => Q a db end) db ->
  succeeds (transaction bf cf body) Q db.
Proof.
  intros Hb t. unfold transaction, query, exec. cbn [w_tick w_db]. rewrite Hup. cbn.
  destruct (Hb (S t)) as (r & Hr & HQ). destruct (body _) as [r' w]. cbn [fst snd] in *. subst r'.
  destruct r as [a|a]; [by exists a|]. rewrite Hup. by exists a.
Qed.
End succeeds.

(** ** A running instance *)

(** The instance [id] runs and can still change [n] times: versions are BIGINT. *)
Definition alive {Event} (tenantID applicationID id : string) (n : Z) (db : DB Event) : Prop :=
  exists i, db_instances db !! id = Some i /\ inst_in tenantID applicationID i = true /\
    inst_Status i = InstanceRunning /\ (inst_Version i + n <= max_int64)%Z.

Section running.
Context {Event : Type} {EF : EventFactory Event} {E : Env} (Hup : healthy).
Implicit Types db : DB Event.

Lemma bigint_incr_room v n : (0 <= n)%Z -> (v + (1 + n) <= max_int64)%Z -> bigint_incr v = Ok (v + 1)%Z.
Proof. intros Hn Hv. unfold bigint_incr. destruct (Z.ltb_spec v max_int64); [done|lia]. Qed.

(** [UPDATE workflow_instances SET current_node_id=...]: the instance is moved, or it
    is at the node already. *)
Lemma advance_alive t a id node now actor n db : (0 <= n)%Z -> alive t a id (1 + n) db ->
  exists count db', update_instance t a id (running_elsewhere node) (row_advanced node now actor) db = Ok (count, db') /\
    alive t a id n db' /\ db_tasks db' = db_tasks db /\
    ((count = 1%Z) \/ (count = 0%Z /\ exists i, db_instances db' !! id = Some i /\ inst_in t a i = true /\ running_here node i = true)).
Proof.
  intros Hn (i & Hi & Hin & Hs & Hv). unfold update_instance, update_row. rewrite Hi, Hin. cbn [andb].
  unfold running_elsewhere at 1. rewrite Hs. cbn [String.eqb].
  destruct (String.eqb (inst_CurrentNodeID i) node) eqn:Hnode; cbn.
  - exists 0%Z, db. destruct db. split; [done|]. split; [exists i; split_and!; [done..|lia]|]. split; [done|]. right. split; [done|].
    exists i. split_and!; [done..|]. unfold running_here. by rewrite Hs, Hnode.
  - unfold row_advanced. rewrite (bigint_incr_room _ n Hn Hv). cbn. eexists 1%Z, _. split; [done|].
    split; [|split; [done|by left]]. eexists. cbn. rewrite lookup_insert_eq. split_and!; [done..|cbn; lia].
Qed.
Lemma alive_select t a id n db : alive t a id n db ->
  exists i, select_instance t a id db = Ok i /\ inst_Status i = InstanceRunning /\ db_instances db !! id = Some i.
Proof. intros (i & Hi & Hin & Hs & _). exists i. split; [|done]. by apply select_row_Ok. Qed.

Lemma UpdateInstanceNode_succeeds t a id node actor n db : (0 <= n)%Z -> alive t a id (1 + n) db ->
  succeeds (UpdateInstanceNode t a id node actor) (fun _ => alive t a id n) db.
Proof.
  intros Hn Ha. apply ok_bind, ok_now. intros now. apply ok_bind, ok_wrap_err.
  destruct (advance_alive t a id node now actor n db Hn Ha) as (count & db1 & Hup1 & Ha1 & _ & Hcount).
  eapply (ok_exec Hup); [exact Hup1|]. apply ok_bind, ok_wrap_err, (ok_rows_affected Hup).
  destruct Hcount as [->|[-> (i & Hi & Hin & Hhere)]]; [by apply ok_ret|].
  apply ok_bind, ok_or_not_found, (ok_query Hup _ i); [by apply select_row_Ok|].
  apply ok_reject_if; [by rewrite Hhere|done].
Qed.

(** The columns of a task that the schema checks. *)
Definition insertable (v : Task) db : Prop :=
  oneOf (task_AssigneeType v) assignee_types = true /\ oneOf (task_Status v) task_statuses = true /\
  db_tasks db !! task_ID v = None.

Lemma insert_task_ok v db i : insertable v db -> db_instances db !! task_InstanceID v = Some i ->
  (forall k u, db_tasks db !! k = Some u -> same_node v u = false) ->
  insert_task v db = Ok (1%Z, set_tasks (<[task_ID v := task_row v]> (db_tasks db)) db).
Proof.
  intros (Hat & Hst & Hid) Hi Hnode. unfold insert_task. rewrite Hat, Hst, Hid, Hi. cbn.
  by rewrite (proj2 (exists_row_false (same_node v) _) Hnode).
Qed.

Lemma CreateTask_succeeds ctx v n db : (0 <= n)%Z ->
  alive (task_TenantID v) (task_ApplicationID v) (task_InstanceID v) (1 + n) db ->
  tasks_within db -> insertable v db -> (forall k d, exists ev, ev_build ctx k d = Ok ev) ->
  succeeds (CreateTask ctx v) (fun _ => alive (task_TenantID v) (task_ApplicationID v) (task_InstanceID v) n) db.
Proof.
  intros Hn Ha Hw Hins Hb. apply (ok_transaction Hup), (ok_found_or Hup _ db_tasks).
  { intros u. apply ok_ret. destruct Ha as (i & ? & ? & ? & ?). exists i. split_and!; [done..|lia]. }
  intros Hno. apply ok_bind, ok_now. intros now. apply ok_bind, ok_wrap_err.
  destruct (advance_alive _ _ _ (task_NodeID v) now (task_CreatedBy v) n db Hn Ha) as (count & db1 & Hup1 & Ha1 & Ht & Hcount).
  eapply (ok_exec Hup); [exact Hup1|]. apply ok_bind, ok_wrap_err, (ok_rows_affected Hup).
  assert (Hrest : succeeds (_ ← wrap_err "insert workflow task: %w" [] (exec (insert_task v));
      event ← build_event "build workflow task created event: %w" ctx (TaskCreated v);
      _ ← AddTx "enqueue workflow task created event: %w" event (task_CreatedBy v); mret (Committed v))
    (fun r db' => match r with
       | Committed _ => alive (task_TenantID v) (task_ApplicationID v) (task_InstanceID v) n db'
       | Rolled _ => alive (task_TenantID v) (task_ApplicationID v) (task_InstanceID v) n db end) db1).
  { pose proof Ha1 as (i1 & Hi1 & _). apply ok_bind, ok_wrap_err. eapply (ok_exec Hup).
    - apply (insert_task_ok v db1 i1); [by unfold insertable; rewrite Ht|done|]. rewrite Ht.
      intros k u Hk. destruct (same_node v u) eqn:Hs; [|done]. pose proof (Hno k u Hk) as Hf. rewrite Hs, andb_true_r in Hf.
      destruct Ha as (i & Hi & Hin & _). unfold same_node in Hs. apply andb_prop in Hs as [Hu%String.eqb_eq _].
      assert (Hinu : inst_in (task_TenantID u) (task_ApplicationID u) i = true) by (eapply Hw; [exact Hk|by rewrite Hu]).
      apply inst_in_spec in Hin as [H1 H2]. apply inst_in_spec in Hinu as [H3 H4].
      assert (Hin' : task_in (task_TenantID v) (task_ApplicationID v) u = true) by (apply task_in_spec; split; congruence).
      congruence.
    - by apply (ok_emit Hup). }
  apply ok_bind. destruct Hcount as [->|[-> (i & Hi & Hin & Hhere)]]; [by apply ok_ret|].
  apply ok_bind, ok_or_not_found, (ok_query Hup _ i); [by apply select_row_Ok|].
  apply ok_reject_if; [by rewrite Hhere|exact Hrest].
Qed.

(** The instance ends with the status, the result and the message of its report. *)
Definition ended_as (t a id status result message : string) db : Prop :=
  exists i, db_instances db !! id = Some i /\ inst_in t a i = true /\
    inst_Status i = status /\ inst_ResultJSON i = result /\ inst_ErrorMessage i = message.

Lemma FinishInstance_succeeds ctx t a id status result message actor db :
  alive t a id 1 db -> status ∈ final_statuses -> (forall k d, exists ev, ev_build ctx k d = Ok ev) ->
  succeeds (FinishInstance ctx t a id status result message actor)
    (fun _ => ended_as t a id status result message) db.
Proof.
  intros (i & Hi & Hin & Hs & Hv) Hst Hb. apply (ok_transaction Hup), ok_bind, ok_or_not_found.
  assert (Hsel : select_instance t a id db = Ok i) by by apply select_row_Ok.
  apply (ok_query Hup _ InstanceRunning); [by rewrite Hsel; cbn; rewrite Hs|].
  assert (Hne : String.eqb InstanceRunning status = false)
    by (apply String.eqb_neq; intros <-; unfold final_statuses in Hst; set_solver).
  rewrite Hne. apply ok_bind, ok_reject_if; [done|]. apply ok_bind, ok_now. intros now.
  assert (Hone : oneOf status instance_statuses = true)
    by (unfold final_statuses in Hst; repeat (apply elem_of_cons in Hst as [->|Hst]; [done|]); by apply elem_of_nil in Hst).
  apply ok_bind. eapply (ok_affectedOne Hup).
  { unfold update_instance, update_row, is_running. rewrite Hi, Hin, Hs. cbn [andb String.eqb].
    unfold row_finished. rewrite (bigint_incr_room (inst_Version i) 0 ltac:(lia) ltac:(lia)), Hone. cbn. reflexivity. }
  apply ok_bind, ok_or_not_found. eapply (ok_query Hup).
  { apply select_row_Ok. cbn. rewrite lookup_insert_eq. split; [reflexivity|done]. }
  apply (ok_emit Hup); [done|]. intros ev. eexists. cbn. rewrite lookup_insert_eq. by split_and!.
Qed.
End running.
