(* ===== verification/Activities.v ===== *)
(** * The activities (internal/workflowruntime/activities.go)

    What a worker does for each command of the workflow, against the store, the
    dynamic gRPC invoker, the clock and the identifier source, and the template and
    CEL engines, which are parameters. *)
From S2P Require Import Prelude GoStd Json Model GraphCodec Graph World Service Execute.
From Stdlib Require Import Ascii String.
Local Open Scope string_scope.
Local Open Scope list_scope.

Definition runtimeActor : string := "workflow-service:temporal-worker".

(** [RuntimeStore] *)
Class RuntimeStore (W : Type) := {
  ru_CreateTask : Ctx -> Task -> stE W error Task;
  ru_UpdateInstanceNode : Ctx -> string -> string -> string -> string -> string -> stE W error unit;
  ru_FinishInstance : Ctx -> string -> string -> string -> string -> string -> string -> string ->
    stE W error WInstance
}.

(** [DynamicInvoker] *)
Class DynamicInvoker (W : Type) := {
  iv_Invoke : Ctx -> string -> string -> string -> stE W error string
}.

(** The function fields of [Activities]. *)
Class ActivityEnv (W : Type) := {
  ac_now : W -> Z * W;
  ac_newID : W -> string * W
}.

(** [platformprincipal.SystemContext], [text/template] with missingkey=error, and
    [cel]: a condition evaluates to a boolean ([Some]) or to another value ([None]). *)
Class Engines := {
  SystemContext : Ctx -> string -> Ctx;
  Template : Type;
  tpl_Parse : string -> res Template;
  tpl_Execute : Template -> list (string * json) -> res string;
  cel_NewEnv : res unit;
  Program : Type;
  Ast : Type;
  cel_Compile : string -> res Ast;
  cel_Program : Ast -> res Program;
  cel_Eval : Program -> list (string * json) -> list (string * json) -> res (option bool)
}.

(** [if err := ...; err != nil { return fmt.Errorf(format, args..., err) }] *)
Definition wrapped_res {A} (format : string) (r : res A) : res A :=
  match r with Ok a => Ok a | Err e => Err (Wrap format [] e) end.

Definition unmarshal_object (format value : string) : res (list (string * json)) :=
  match unmarshal_map value with
  | Some object => Ok object
  | None => Err (Wrap format [] (ErrorNew "json: cannot unmarshal into map"))
  end.

Section engines.
Context {EN : Engines}.

Definition renderRequest (templateJSON variablesJSON : string) : res string :=
  variables ← unmarshal_object "decode workflow request variables: %w" (defaultJSON variablesJSON);
  parsed ← wrapped_res "parse workflow request template: %w" (tpl_Parse (defaultJSON templateJSON));
  output ← wrapped_res "render workflow request template: %w" (tpl_Execute parsed variables);
  let rendered := TrimSpace output in
  _ ← unmarshal_object "workflow request template must render a JSON object: %w" rendered;
  Ok rendered.

Definition EvaluateCondition (input : ConditionInput) : res bool :=
  variables ← unmarshal_object "decode workflow condition variables: %w" (defaultJSON (ci_VariablesJSON input));
  output ← unmarshal_object "decode workflow condition output: %w" (defaultJSON (ci_LastOutputJSON input));
  _ ← wrapped_res "create workflow CEL environment: %w" cel_NewEnv;
  ast ← wrapped_res "compile workflow condition: %w" (cel_Compile (ci_Expression input));
  program ← wrapped_res "create workflow condition program: %w" (cel_Program ast);
  value ← wrapped_res "evaluate workflow condition: %w" (cel_Eval program variables output);
  match value with
  | Some matched => Ok matched
  | None => Err (ErrorNew "workflow condition must evaluate to bool")
  end.
End engines.

Section activities.
Context {W : Type} {RS : RuntimeStore W} {DI : DynamicInvoker W} {AE : ActivityEnv W} {EN : Engines}.
Abbreviation A := (stE W error).

(** [if err != nil { return fmt.Errorf(format, arg, err) }] *)
Definition wrapped_arg {B} (format arg : string) (m : A B) : A B := fun w =>
  match m w with
  | (Ok b, w') => (Ok b, w')
  | (Err e, w') => (Err (Wrap format [arg] e), w')
  end.

Definition act_now : A Z := fun w => let '(t, w') := ac_now w in (Ok t, w').
Definition act_newID : A string := fun w => let '(id, w') := ac_newID w in (Ok id, w').

(** [now.Add(time.Duration(seconds) * time.Second)], or nil. *)
Definition due_at (now timeoutSeconds : Z) : option Z :=
  if (0 <? timeoutSeconds)%Z then Some (now + seconds_duration timeoutSeconds)%Z else None.

(** The task an approval node asks for. *)
Definition approval_task (input : ApprovalTaskInput) (id : string) (now : Z) : Task :=
  let node := ap_Node input in
  let assignee := if String.eqb (node_AssigneeType node) AssigneeStarter then ap_StarterID input
                  else node_Assignee node in
  mkTask id (ap_TenantID input) (ap_ApplicationID input) (ap_InstanceID input) (node_ID node)
    (node_Name node) (node_AssigneeType node) assignee "" TaskPending "" ""
    (defaultJSON (ap_VariablesJSON input)) "{}" (due_at now (node_TimeoutSeconds node)) None 1
    now now runtimeActor runtimeActor.

Definition CreateApprovalTask (ctx : Ctx) (input : ApprovalTaskInput) : A unit :=
  let ctx := SystemContext ctx runtimeActor in
  now ← act_now;
  id ← act_newID;
  _ ← wrapped "create approval task: %w" (ru_CreateTask ctx (approval_task input id now));
  mret tt.

Definition InvokeServiceTask (ctx : Ctx) (input : ServiceTaskInput) : A ServiceTaskResult :=
  let ctx := SystemContext ctx runtimeActor in
  let node := sti_Node input in
  _ ← wrapped "advance service workflow node: %w"
        (ru_UpdateInstanceNode ctx (sti_TenantID input) (sti_ApplicationID input) (sti_InstanceID input)
           (node_ID node) runtimeActor);
  requestJSON ← lift (renderRequest (node_RequestTemplateJSON node) (sti_VariablesJSON input));
  response ← wrapped_arg "invoke workflow upstream %q: %w" (node_TargetService node)
               (iv_Invoke ctx (node_TargetService node) (node_FullMethod node) requestJSON);
  mret (mkServiceTaskResult (defaultJSON response)).

Definition CompensateServiceTask (ctx : Ctx) (input : ServiceTaskInput) : A unit :=
  let ctx := SystemContext ctx runtimeActor in
  let node := sti_Node input in
  if str_empty (node_CompensationMethod node) then mret tt
  else
    requestJSON ← lift (renderRequest (node_RequestTemplateJSON node) (sti_VariablesJSON input));
    _ ← wrapped_arg "compensate workflow upstream %q: %w" (node_TargetService node)
          (iv_Invoke ctx (node_TargetService node) (node_CompensationMethod node) requestJSON);
    mret tt.

(** [if errors.Is(err, ErrConflict) && input.Status == InstanceFailed { return nil }] *)
Definition tolerate_conflict {B} (status : string) (m : A B) : A unit := fun w =>
  match m w with
  | (Ok _, w') => (Ok tt, w')
  | (Err e, w') =>
      (if errors_Is e ErrConflict && String.eqb status InstanceFailed then Ok tt else Err e, w')
  end.

Definition FinishInstance (ctx : Ctx) (input : FinishInput) : A unit :=
  let ctx := SystemContext ctx runtimeActor in
  tolerate_conflict (fi_Status input)
    (ru_FinishInstance ctx (fi_TenantID input) (fi_ApplicationID input) (fi_InstanceID input) (fi_Status input)
       (defaultJSON (fi_ResultJSON input)) (fi_ErrorMessage input) runtimeActor).
End activities.
