(* ===== verification/ActivitiesSpec.v ===== *)
(** * The contract of the activities

    On the repository, every activity is a sequence of well-formed repository calls;
    repeating one, as Temporal does after a lost answer, does no harm; and the report
    of a failure gives way to a cancellation. *)
From S2P Require Import Prelude GoStd Json Model GraphCodec Graph GraphTheory GraphSpec World WorldTheory.
From S2P Require Import Repository Queries Lifecycle RepositoryTheory Invariants QueriesTheory RepositorySpec Service.
From S2P Require Import ServiceSpec Execute Activities.
From Stdlib Require Import Ascii String.
From stdpp Require Import relations.
Local Open Scope string_scope.
Local Open Scope list_scope.

(** ** The repository is a runtime store *)

Section instance.
Context {Event : Type} {EF : EventFactory Event} {E : Env}.

#[export] Instance repository_runtime : RuntimeStore (World Event) := {|
  ru_CreateTask := Repository.CreateTask;
  ru_UpdateInstanceNode := fun _ => Repository.UpdateInstanceNode;
  ru_FinishInstance := Repository.FinishInstance
|}.
End instance.

Section any_store.
Context {W : Type} {RS : RuntimeStore W} {DI : DynamicInvoker W} {AE : ActivityEnv W} {EN : Engines}.

Lemma unmarshal_object_Ok format v o : unmarshal_object format v = Ok o <-> unmarshal_map v = Some o.
Proof. unfold unmarshal_object. destruct (unmarshal_map v); split; congruence. Qed.

Lemma renderRequest_object template variables r :
  renderRequest template variables = Ok r -> is_Some (unmarshal_map r).
Proof.
  unfold renderRequest. intros (vs & _ & H)%res_bind_Ok. apply res_bind_Ok in H as (t & _ & H).
  apply res_bind_Ok in H as (out & _ & H). apply res_bind_Ok in H as (o & Ho & H).
  injection H as <-. exists o. by apply unmarshal_object_Ok in Ho.
Qed.

(** A service is called with what its compensation sends: when the activity of a
    service task succeeds, the workflow's node was advanced first, then the upstream
    was called once, with the node's method and a rendered request that is a JSON
    object; and the compensation of the same task - if its node has a compensation
    method - sends that same request to the same upstream, and calls nothing if it
    has none. *)
Theorem InvokeServiceTask_compensable ctx ctx' input w w2 :
  match InvokeServiceTask ctx input w with
  | (Ok r, w') => exists request response w1,
      ru_UpdateInstanceNode (SystemContext ctx runtimeActor) (sti_TenantID input) (sti_ApplicationID input)
        (sti_InstanceID input) (node_ID (sti_Node input)) runtimeActor w = (Ok tt, w1) /\
      is_Some (unmarshal_map request) /\
      iv_Invoke (SystemContext ctx runtimeActor) (node_TargetService (sti_Node input))
        (node_FullMethod (sti_Node input)) request w1 = (Ok response, w') /\
      str_OutputJSON r = defaultJSON response /\
      (CompensateServiceTask ctx' input w2).2 =
        if str_empty (node_CompensationMethod (sti_Node input)) then w2
        else (iv_Invoke (SystemContext ctx' runtimeActor) (node_TargetService (sti_Node input))
                (node_CompensationMethod (sti_Node input)) request w2).2
  | (Err _, _) => True
  end.
Proof.
  destruct (InvokeServiceTask ctx input w) as [[r|e] w'] eqn:H; [|done]. unfold InvokeServiceTask in H.
  apply bind_Ok in H as ([] & w1 & Hadv & H). unfold wrapped in Hadv.
  destruct (ru_UpdateInstanceNode _ _ _ _ _ _ w) as [[[]|e] w1'] eqn:Hup; [injection Hadv as ->|done].
  apply bind_Ok in H as (request & w3 & [Hr ->]%lift_Ok & H).
  apply bind_Ok in H as (response & w4 & Hinv & H). injection H as <- <-. unfold wrapped_arg in Hinv.
  destruct (iv_Invoke _ _ _ request w1) as [[resp|e] w5] eqn:Hi; [injection Hinv as -> ->|done].
  exists request, response, w1. split; [done|]. split; [by eapply renderRequest_object|]. split; [done|].
  split; [done|]. unfold CompensateServiceTask. destruct (str_empty _); [done|].
  unfold mbind, stE_bind, lift. rewrite Hr. unfold wrapped_arg. by destruct (iv_Invoke _ _ _ request w2) as [[?|?] ?].
Qed.
End any_store.

Section on_repository.
Context {Event : Type} {EF : EventFactory Event} {SQL : SqlText} {E : Env}.
Context {DI : DynamicInvoker (World Event)} {AE : ActivityEnv (World Event)} {EN : Engines}.
Implicit Types w : World Event.

(** The upstreams, the clock and the identifiers keep their hands off the tables. *)
Record hands_off : Prop := {
  h_invoke ctx service method request w : w_db (iv_Invoke ctx service method request w).2 = w_db w;
  h_now w : w_db (ac_now w).2 = w_db w;
  h_newID w : w_db (ac_newID w).2 = w_db w
}.

(** *** One call of the store, in any wrapping *)

Lemma tracked_world {A B} (m : M Event A) (m' : M Event B) w :
  (m' w).2 = (m w).2 -> tracked m w -> tracked m' w.
Proof. unfold tracked. by intros ->. Qed.

Lemma wrapped_world {A} format (m : M Event A) w : (wrapped format m w).2 = (m w).2.
Proof. unfold wrapped. by destruct (m w) as [[?|?] ?]. Qed.
Lemma wrapped_arg_world {A} format arg (m : M Event A) w : (wrapped_arg format arg m w).2 = (m w).2.
Proof. unfold wrapped_arg. by destruct (m w) as [[?|?] ?]. Qed.
Lemma tolerate_world {A} status (m : M Event A) w : (tolerate_conflict status m w).2 = (m w).2.
Proof. unfold tolerate_conflict. by destruct (m w) as [[?|?] ?]. Qed.

Context (Hoff : hands_off).

Lemma reads_act_now : reads act_now.
Proof. intros w. unfold act_now. pose proof (h_now Hoff w). by destruct (ac_now w). Qed.
Lemma reads_act_newID : reads act_newID.
Proof. intros w. unfold act_newID. pose proof (h_newID Hoff w). by destruct (ac_newID w). Qed.
Lemma reads_invoke format arg ctx s m r : reads (wrapped_arg format arg (iv_Invoke ctx s m r)).
Proof. intros w. rewrite wrapped_arg_world. apply (h_invoke Hoff). Qed.

(** *** Each activity is a sequence of repository calls *)

Lemma approval_tracked ctx input w : tracked (CreateApprovalTask ctx input) w.
Proof.
  apply tracked_bind; [apply tracked_reads, reads_act_now|intros now w1 _].
  apply tracked_bind; [apply tracked_reads, reads_act_newID|intros id w2 _].
  apply tracked_bind; [|intros; by apply tracked_reads].
  eapply tracked_world; [apply wrapped_world|]. by eapply (tracked_call (CallCreateTask _ _)).
Qed.

Lemma service_tracked ctx input w : tracked (InvokeServiceTask ctx input) w.
Proof.
  apply tracked_bind.
  - eapply tracked_world; [apply wrapped_world|]. by eapply (tracked_call (CallUpdateInstanceNode _ _ _ _ _)).
  - intros [] w1 _. apply tracked_reads. apply reads_bind; [apply reads_lift|intros r].
    apply reads_bind; [apply reads_invoke|intros; apply reads_ret].
Qed.

Lemma compensation_tracked ctx input w : tracked (CompensateServiceTask ctx input) w.
Proof.
  apply tracked_reads. unfold CompensateServiceTask. destruct (str_empty _); [apply reads_ret|].
  apply reads_bind; [apply reads_lift|intros r]. apply reads_bind; [apply reads_invoke|intros; apply reads_ret].
Qed.

Lemma finish_tracked ctx input w : fi_Status input ∈ final_statuses -> tracked (Activities.FinishInstance ctx input) w.
Proof.
  intros Hs. eapply tracked_world; [apply tolerate_world|]. by eapply (tracked_call (CallFinishInstance _ _ _ _ _ _ _ _)).
Qed.

(** Refinement of the activities: whatever the inputs, each activity is a
    sequence of well-formed repository calls - the report of a final status if the
    status is one the workflow reports - so a worker keeps the tables in states of
    the abstract store. *)
Theorem activities_refine_calls ctx approval service finish w :
  fi_Status finish ∈ [InstanceCompleted; InstanceRejected; InstanceFailed] ->
  rtc run_step w (CreateApprovalTask ctx approval w).2 /\
  rtc run_step w (InvokeServiceTask ctx service w).2 /\
  rtc run_step w (CompensateServiceTask ctx service w).2 /\
  rtc run_step w (Activities.FinishInstance ctx finish w).2.
Proof.
  intros Hs. split_and!; [apply approval_tracked|apply service_tracked|apply compensation_tracked|by apply finish_tracked].
Qed.

(** C25. Cancellation wins over failure: reporting a final status either takes the
    finish step of a running instance, or changes nothing - because the instance has
    that status already, or because the status is "failed" and the instance ended
    otherwise, in both of which the activity succeeds - or it changes nothing and
    fails, with [ErrConflict] exactly when a success is reported for an instance that
    ended otherwise. *)
Theorem FinishInstance_cancellation_wins ctx input i w :
  started w -> db_instances (w_db w) !! fi_InstanceID input = Some i ->
  inst_in (fi_TenantID input) (fi_ApplicationID input) i = true ->
  match Activities.FinishInstance ctx input w with
  | (Ok _, w') =>
      (inst_Status i = InstanceRunning /\ exists i' now,
         step_finish i i' (fi_Status input) (defaultJSON (fi_ResultJSON input)) (fi_ErrorMessage input)
           now runtimeActor (w_db w) (w_db w')) \/
      (w_db w' = w_db w /\
       (inst_Status i = fi_Status input \/
        (inst_Status i <> InstanceRunning /\ fi_Status input = InstanceFailed)))
  | (Err e, w') => w_db w' = w_db w /\
      (fault_error e \/
       (e = Sentinel ErrConflict /\ inst_Status i <> InstanceRunning /\ inst_Status i <> fi_Status input /\
        fi_Status input <> InstanceFailed))
  end.
Proof.
  intros Hs Hi Hin. pose proof (reachable_ok _ (started_reachable _ Hs)) as Hok.
  unfold Activities.FinishInstance, tolerate_conflict. simpl.
  pose proof (wp_world _ _ _ (wp_FinishInstance (SystemContext ctx runtimeActor) (fi_TenantID input)
    (fi_ApplicationID input) (fi_InstanceID input) (fi_Status input) (defaultJSON (fi_ResultJSON input))
    (fi_ErrorMessage input) runtimeActor _ (ok_keyed _ Hok))) as Hw.
  destruct (Repository.FinishInstance _ _ _ _ _ _ _ _ w) as [[i'|e] w']; simpl in Hw.
  - destruct Hw as [(i0 & now & Hid & _ & Hst)|(-> & Hl & _ & Hst)].
    + left. pose proof Hst as (_ & db1 & (Hl & Hrun & _) & _). rewrite Hid in Hl.
      assert (i0 = i) as -> by congruence. split; [done|]. by exists i', now.
    + right. split; [done|]. left. congruence.
  - destruct Hw as [-> [Hf|[[_ Hno]|[[_ []]|[-> (i0 & Hi0 & _ & Hrun & Hne)]]]]].
    + destruct Hf as [Hf Hnr]. rewrite (Hf ErrConflict). simpl. split; [done|]. by left.
    + by rewrite (Hno i Hi) in Hin.
    + assert (i0 = i) as -> by congruence. simpl.
      destruct (String.eqb_spec (fi_Status input) InstanceFailed) as [Hfail|Hfail]; simpl.
      * right. split; [done|]. right. done.
      * split; [done|]. by right.
Qed.

(** Retrying the creation of an approval task is harmless: once the activity
    succeeded, running it again for the same instance and node - later, from any
    worker, with fresh clock and identifier - changes no table if it succeeds. *)
Theorem CreateApprovalTask_retry ctx ctx' input w w1 w2 :
  started w -> CreateApprovalTask ctx input w = (Ok tt, w1) -> rtc run_step w1 w2 ->
  match CreateApprovalTask ctx' input w2 with
  | (Ok _, w3) => w_db w3 = w_db w2
  | (Err _, _) => True
  end.
Proof.
  assert (Hinv : forall c w r w', CreateApprovalTask c input w = (Ok r, w') -> exists now id t w0,
    w_db w0 = w_db w /\ (started w -> started w0) /\
    Repository.CreateTask (SystemContext c runtimeActor) (approval_task input id now) w0 = (Ok t, w')).
  { intros c w0 r w' H. unfold CreateApprovalTask in H.
    apply bind_Ok in H as (now & wa & Hnow & H). apply bind_Ok in H as (id & wb & Hid & H).
    apply bind_Ok in H as (t & wc & Ht & H). injection H as _ <-. unfold wrapped in Ht. simpl in Ht.
    destruct (Repository.CreateTask _ _ wb) as [[t'|e] wd] eqn:Hc; [|done]. injection Ht as -> <-.
    exists now, id, t, wb. pose proof (reads_run _ _ _ _ reads_act_now Hnow).
    pose proof (reads_run _ _ _ _ reads_act_newID Hid). split; [congruence|]. split; [|done].
    intros Hs. eapply started_reads; [apply reads_act_newID| |exact Hid].
    by eapply started_reads; [apply reads_act_now| |exact Hnow]. }
  intros Hs Hrun Hr. apply Hinv in Hrun as (now & id & t & w0 & _ & Hs0 & Hrun).
  destruct (CreateApprovalTask ctx' input w2) as [[[]|e] w3] eqn:Hrun'; [|done].
  apply Hinv in Hrun' as (now' & id' & t' & w2' & Hdb & Hs2 & Hrun').
  rewrite <- Hdb. assert (Hr' : rtc run_step w1 w2').
  { etrans; [exact Hr|]. apply rtc_once. destruct w2' as [db n]. simpl in Hdb. rewrite Hdb. apply rs_tick. }
  destruct (CreateTask_again _ _ (approval_task input id now) (approval_task input id' now') t t' w0 w1 w2' w3 (Hs0 Hs) eq_refl eq_refl
    Hrun Hr' eq_refl eq_refl eq_refl eq_refl eq_refl eq_refl Hrun'). congruence.
Qed.
End on_repository.

(** ** The properties at work on the sample run *)

Module Worked.
Import Sample.

(** Templates render as they are; conditions are false. *)
#[export] Instance plain_engines : Engines := {|
  SystemContext := fun c actor => mkCtx (Some (mkPrincipal actor "" "" TypeSystem)) (ctx_request_id c) (ctx_trace_id c);
  Template := string;
  tpl_Parse := fun s => Ok s;
  tpl_Execute := fun s _ => Ok s;
  cel_NewEnv := Ok tt;
  Program := string;
  Ast := string;
  cel_Compile := fun s => Ok s;
  cel_Program := fun s => Ok s;
  cel_Eval := fun _ _ _ => Ok (Some false)
|}.

#[export] Instance upstream : DynamicInvoker (World DomainEvent) := {| iv_Invoke := fun _ _ _ _ w => (Ok "{}", w) |}.

#[export] Instance worker_env : ActivityEnv (World DomainEvent) := {|
  ac_now := fun w => (2000%Z, w);
  ac_newID := fun w => ("task-9", w)
|}.

Lemma worked_off : hands_off (Event := DomainEvent).
Proof. by split. Qed.

Definition approve_node : Node := mkNode "approve" "Approve" NodeApproval AssigneeRole "manager" 3600 "" "" "" "" 0 "".
Definition approval : ApprovalTaskInput := mkApprovalTaskInput "inst-1" "acme" "crm" "alice" "{}" approve_node.
Definition charge : ServiceTaskInput := mkServiceTaskInput "inst-1" "acme" "crm" "{}"
  (mkNode "charge" "Charge" NodeServiceTask "" "" 30 "billing" "/billing.v1.Billing/Charge"
     "{}" "/billing.v1.Billing/Refund" 0 "").
Definition failed : FinishInput := mkFinishInput "inst-1" "acme" "crm" InstanceFailed "{}" "boom".

Lemma activities_refine_calls_witness : rtc run_step w1 (InvokeServiceTask ctx charge w1).2.
Proof.
  destruct (activities_refine_calls worked_off ctx approval charge failed w1) as (_ & H & _);
    [by right; right; left|exact H].
Defined.

Definition cancelled : World DomainEvent :=
  Eval vm_compute in (run (CallCancelInstance ctx "acme" "crm" "inst-1" 2 "changed my mind" "alice") w1).2.

Lemma started_cancelled : started cancelled.
Proof.
  apply (started_more w1); [exact started_w1|]. apply rtc_once.
  change cancelled with (run (CallCancelInstance ctx "acme" "crm" "inst-1" 2 "changed my mind" "alice") w1).2.
  by apply rs_call.
Qed.

Lemma FinishInstance_cancellation_wins_witness :
  exists i, db_instances (w_db cancelled) !! "inst-1" = Some i /\ inst_Status i = InstanceCancelled /\
    (Activities.FinishInstance ctx failed cancelled).1 = Ok tt /\
    w_db (Activities.FinishInstance ctx failed cancelled).2 = w_db cancelled.
Proof.
  eexists. split; [vm_compute; reflexivity|]. split; [reflexivity|].
  edestruct (db_instances (w_db cancelled) !! "inst-1") as [i|] eqn:Hi; [|discriminate Hi].
  pose proof (FinishInstance_cancellation_wins ctx failed i cancelled started_cancelled Hi) as H.
  vm_compute in Hi. injection Hi as <-. specialize (H eq_refl).
  destruct (Activities.FinishInstance ctx failed cancelled) as [[[]|e] w'] eqn:Hrun;
    [|vm_compute in Hrun; discriminate Hrun].
  split; [reflexivity|]. destruct H as [[Hr _]|[H _]]; [discriminate Hr|exact H].
Defined.

Definition again : World DomainEvent := Eval vm_compute in (CreateApprovalTask ctx approval Witness.before_task).2.

Lemma CreateApprovalTask_retry_witness :
  exists w3, CreateApprovalTask ctx approval again = (Ok tt, w3) /\ w_db w3 = w_db again.
Proof.
  assert (H1 : CreateApprovalTask ctx approval Witness.before_task = (Ok tt, again)) by (vm_compute; reflexivity).
  pose proof (CreateApprovalTask_retry worked_off ctx ctx approval Witness.before_task again again
    Witness.started_before H1 (rtc_refl _ _)) as H.
  destruct (CreateApprovalTask ctx approval again) as [[[]|e] w3] eqn:Hrun; [|vm_compute in Hrun; discriminate Hrun].
  exists w3. split; [reflexivity|exact H].
Defined.
End Worked.
