(* ===== verification/System.v ===== *)
(** * The workflow, its activities and the tables together

    [Execute] issues commands, a worker performs them with the activities, the
    activities call the repository - while other requests use the same tables.  The
    file says what a run leaves in the tables, whatever is retried, lost or
    interleaved. *)
From S2P Require Import Prelude GoStd Json Model GraphCodec Graph GraphTheory GraphSpec World WorldTheory.
From S2P Require Import Repository Queries Lifecycle RepositoryTheory Invariants QueriesTheory RepositorySpec Service.
From S2P Require Import ServiceSpec Execute ExecuteSpec Activities ActivitiesSpec.
From Stdlib Require Import Ascii String.
From stdpp Require Import relations.
Local Open Scope string_scope.
Local Open Scope list_scope.

Section system.
Context {Event : Type} {EF : EventFactory Event} {SQL : SqlText} {E : Env}.
Context {DI : DynamicInvoker (World Event)} {AE : ActivityEnv (World Event)} {EN : Engines}.
Implicit Types w : World Event.

(** ** Performing a history *)

Definition outcome {A} (o : res A * World Event) : option (bool * World Event) := Some (is_ok o.1, o.2).

(** One attempt of an activity by a worker, and whether it succeeded; timers and
    signals are not the worker's. *)
Definition attempt (ctx : Ctx) (c : command) (w : World Event) : option (bool * World Event) :=
  match c with
  | Execute.CreateApprovalTask _ input => outcome (Activities.CreateApprovalTask ctx input w)
  | Execute.InvokeServiceTask _ input => outcome (Activities.InvokeServiceTask ctx input w)
  | Execute.CompensateServiceTask _ input => outcome (Activities.CompensateServiceTask ctx input w)
  | Execute.FinishInstance _ input => outcome (Activities.FinishInstance ctx input w)
  | Execute.EvaluateCondition _ input => Some (is_ok (Activities.EvaluateCondition input), w)
  | AwaitTaskCompleted _ _ | Sleep _ => None
  end.

(** Calls of others, and attempts of [c] whose answers are lost or errors. *)
Inductive meanwhile (ctx : Ctx) (c : command) w : World Event -> Prop :=
| mw_others w' : run_step w w' -> meanwhile ctx c w w'
| mw_attempt b w' : attempt ctx c w = Some (b, w') -> meanwhile ctx c w w'.

(** The answer Temporal passes on: a success is that of an attempt; a failure says
    nothing about what the attempts did. *)
Definition answers (ctx : Ctx) (c : command) (ok : bool) w w' : Prop :=
  if ok then match attempt ctx c w with Some (b, w1) => b = true /\ w' = w1 | None => w' = w end else w' = w.

(** From [w] to [w'] the commands of a history were performed, in order. *)
Inductive performed (ctx : Ctx) w : history -> World Event -> Prop :=
| pf_start w' : rtc run_step w w' -> performed ctx w [] w'
| pf_command h c ok w1 w2 w3 w' : performed ctx w h w1 -> rtc (meanwhile ctx c) w1 w2 -> answers ctx c ok w2 w3 ->
    rtc run_step w3 w' -> performed ctx w (h ++ [(c, ok)]) w'.

(** The commands of [input]'s run: they name its instance, and report final statuses. *)
Definition issued_by (input : Input) (e : entry) : Prop :=
  match e.1 with
  | Execute.CreateApprovalTask _ i =>
      ap_InstanceID i = in_InstanceID input /\ ap_TenantID i = in_TenantID input /\ ap_ApplicationID i = in_ApplicationID input
  | Execute.InvokeServiceTask _ i | Execute.CompensateServiceTask _ i =>
      sti_InstanceID i = in_InstanceID input /\ sti_TenantID i = in_TenantID input /\ sti_ApplicationID i = in_ApplicationID input
  | Execute.FinishInstance _ i =>
      fi_InstanceID i = in_InstanceID input /\ fi_TenantID i = in_TenantID input /\
      fi_ApplicationID i = in_ApplicationID input /\ fi_Status i ∈ final_statuses
  | _ => True
  end.

Lemma covers_issued input : covers input (issued_by input).
Proof.
  split; try done.
  - by intros i b (n & _ & ->).
  - intros status out b Hs. do 3 (split; [done|]). unfold success_statuses, final_statuses in *. simpl. set_solver.
  - intros out message b. do 3 (split; [done|]). unfold final_statuses. simpl. set_solver.
Qed.

Context (Hoff : hands_off (Event := Event)).

Lemma attempt_steps ctx input c b b' w w' :
  issued_by input (c, b') -> attempt ctx c w = Some (b, w') -> rtc run_step w w'.
Proof.
  intros Hc. destruct c as [o i|o i|o i|o i|o i|d id|d]; cbn [attempt outcome]; intros [= <- <-].
  - exact (approval_tracked Hoff ctx i w).
  - exact (service_tracked Hoff ctx i w).
  - exact (compensation_tracked Hoff ctx i w).
  - apply rtc_refl.
  - apply (finish_tracked ctx i w), Hc.
Qed.

Lemma meanwhile_steps ctx input c b w w' :
  issued_by input (c, b) -> rtc (meanwhile ctx c) w w' -> rtc run_step w w'.
Proof.
  intros Hc. induction 1 as [|w w1 w' Hm _ IH]; [apply rtc_refl|].
  destruct Hm as [w1 Hs|b' w1 Ha]; (etrans; [|exact IH]); [by apply rtc_once|by apply (attempt_steps ctx input c b' b)].
Qed.

Lemma answers_steps ctx input c ok w w' : issued_by input (c, ok) -> answers ctx c ok w w' -> rtc run_step w w'.
Proof.
  intros Hc. unfold answers. destruct ok; [|intros ->; apply rtc_refl].
  destruct (attempt ctx c w) as [[b w1]|] eqn:Ha; [|intros ->; apply rtc_refl]. intros [_ ->]. by apply (attempt_steps ctx input c b true).
Qed.

Lemma performed_steps ctx input h w w' : Forall (issued_by input) h -> performed ctx w h w' -> rtc run_step w w'.
Proof.
  intros Hh Hp. induction Hp as [w' Hr|h c ok w1 w2 w3 w' _ IH Hm Ha Hr]; [done|].
  apply Forall_app in Hh as [Hh Hc]. apply List.Forall_inv in Hc.
  etrans; [by apply IH|]. etrans; [exact (meanwhile_steps ctx input c ok w1 w2 Hc Hm)|].
  etrans; [exact (answers_steps ctx input c ok w2 w3 Hc Ha)|exact Hr].
Qed.

(** ** What a run leaves in the tables *)

(** The instance of [input] in its tenant and application. *)
Definition instance_at (input : Input) (i : WInstance) w : Prop :=
  db_instances (w_db w) !! in_InstanceID input = Some i /\ inst_in (in_TenantID input) (in_ApplicationID input) i = true.

Lemma ended_forever id i w w' : started w -> db_instances (w_db w) !! id = Some i -> inst_Status i <> InstanceRunning ->
  rtc run_step w w' -> db_instances (w_db w') !! id = Some i.
Proof.
  intros Hs Hi Hend Hr. destruct (rtc_instances _ _ (started_steps w w' Hs Hr) _ i Hi) as (i' & Hi' & Hn).
  rewrite Hi'. f_equal. eapply rtc_frozen; [|exact Hn]. intros i1. by apply instance_ended_next.
Qed.

(** A report that succeeds finds or leaves the instance ended: with its status, or
    otherwise if it reports a failure. *)
Lemma FinishInstance_settles ctx input status out message w w' :
  started w -> status ∈ final_statuses ->
  Activities.FinishInstance ctx (finish_input input status out message) w = (Ok tt, w') ->
  exists i, instance_at input i w' /\ inst_Status i <> InstanceRunning /\
    (inst_Status i = status \/ status = InstanceFailed).
Proof.
  intros Hs Hst Hrun. pose proof (reachable_ok _ (started_reachable _ Hs)) as Hok.
  assert (Hnr : status <> InstanceRunning) by (intros ->; unfold final_statuses in Hst; set_solver).
  unfold Activities.FinishInstance, tolerate_conflict in Hrun. cbn [fi_TenantID fi_ApplicationID fi_InstanceID fi_Status
    fi_ResultJSON fi_ErrorMessage finish_input ru_FinishInstance repository_runtime] in Hrun.
  pose proof (wp_world _ _ _ (wp_FinishInstance (SystemContext ctx runtimeActor) (in_TenantID input)
    (in_ApplicationID input) (in_InstanceID input) status (defaultJSON out) message runtimeActor _ (ok_keyed _ Hok))) as Hw.
  destruct (Repository.FinishInstance _ _ _ _ _ _ _ _ w) as [[i'|e] w1]; cbn [fst snd] in Hw.
  - injection Hrun as <-. destruct Hw as [(i & now & Hid & Hin & Hrow & db1 & (_ & _ & ->) & (? & ? & ? & _ & Hdb))|(Hdb & Hl & Hin & <-)].
    + exists i'. unfold instance_at. rewrite Hdb. row_inv Hrow. cbn. rewrite Hid, lookup_insert_eq. by repeat split; [..|left].
    + exists i'. unfold instance_at. rewrite Hdb, Hl. by repeat split; [..|left].
  - destruct (errors_Is e ErrConflict && String.eqb status InstanceFailed) eqn:Hc; [|done]. injection Hrun as <-.
    apply andb_prop in Hc as [Hc Hf%String.eqb_eq]. destruct Hw as [Hdb Hw].
    destruct Hw as [[Hf' _]|[[-> _]|[[_ []]|[-> (i & Hi & Hin & Hrun & _)]]]]; [by rewrite Hf' in Hc|done|].
    exists i. unfold instance_at. rewrite Hdb. split; [done|]. split; [done|]. by right.
Qed.

(** The last command of a run is its report. *)
Lemma Execute_ends {RT : Runtime} {ES : EdgeSort} {ET : ErrorText} input :
  match Execute input with
  | (Ok r, h) => exists l, res_Status r ∈ success_statuses /\
      h = l ++ [(Execute.FinishInstance activityCtx (finish_input input (res_Status r) (res_ResultJSON r) ""), true)]
  | (Err e, h) => h = [] \/ exists l out ok,
      h = l ++ [(Execute.FinishInstance disconnectedCtx (finish_input input InstanceFailed out (error_text e)), ok)]
  end.
Proof.
  unfold Execute. destruct (_ || _); [by left|]. destruct (index_input (in_Nodes input)) as [m current].
  destruct (str_empty _); [by left|].
  pose proof (run_steps_outcome (S (size m)) input m current (mkRunState [] [] "{}")) as Hrun.
  destruct (run_steps _ _ _ _ _) as [[r|e] st].
  - destruct Hrun as (l & [Hlog _] & _ & Hs). by exists l.
  - right. destruct (deferred_log input e st) as (comp & out & ok & -> & _). rewrite app_assoc. by eexists _, out, ok.
Qed.

Lemma performed_last ctx input h c ok w w' :
  Forall (issued_by input) (h ++ [(c, ok)]) -> performed ctx w (h ++ [(c, ok)]) w' ->
  exists w1 w2, rtc run_step w w1 /\ answers ctx c ok w1 w2 /\ rtc run_step w2 w'.
Proof.
  intros Hh Hp. inversion Hp as [? ? Hnil|h' c' ok' w1 w2 w3 ? Hp' Hm Ha Hr Heq].
  { by destruct h. }
  apply app_inj_tail in Heq as [-> [= -> ->]]. apply Forall_app in Hh as [Hh Hc]. apply List.Forall_inv in Hc.
  exists w2, w3. split; [|done]. etrans; [exact (performed_steps ctx input h w w1 Hh Hp')|].
  exact (meanwhile_steps ctx input c ok w1 w2 Hc Hm).
Qed.

(** Once the report of a run got through, the instance has ended, for good. *)
Lemma reported ctx input h o status out message w w' : started w -> status ∈ final_statuses ->
  let c := Execute.FinishInstance o (finish_input input status out message) in
  Forall (issued_by input) (h ++ [(c, true)]) -> performed ctx w (h ++ [(c, true)]) w' ->
  exists i, (inst_Status i = status \/ status = InstanceFailed) /\ inst_Status i <> InstanceRunning /\
    forall w'', rtc run_step w' w'' -> instance_at input i w''.
Proof.
  cbv zeta. intros Hs Hst Hh Hp. destruct (performed_last ctx input _ _ _ w w' Hh Hp) as (w1 & w2 & H1 & Ha & H2).
  assert (Hs1 : started w1) by by eapply started_more. unfold answers in Ha. cbn [attempt outcome] in Ha.
  destruct (Activities.FinishInstance ctx _ w1) as [[[]|e] w2'] eqn:Hrun; destruct Ha as [Hok ->]; [|done].
  destruct (FinishInstance_settles _ _ _ _ _ _ _ Hs1 Hst Hrun) as (i & [Hi Hin] & Hend & Hor).
  exists i. split; [done|]. split; [done|]. intros w'' H3. split; [|done].
  eapply ended_forever; [|exact Hi|done|by etrans].
  apply (started_more w1); [done|]. pose proof (finish_tracked ctx (finish_input input status out message) w1 Hst) as Ht.
  unfold tracked in Ht. by rewrite Hrun in Ht.
Qed.

(** C19. A run ends its instance: when a worker performs the commands of a run on the
    tables - with attempts that fail, are repeated or whose answers are lost, and
    with any requests of others in between - then a result the run returns is the
    status of the instance, and a run that fails leaves the instance ended if its
    last report got through (as failed, or as whatever ended it before); and no later
    call changes that. *)
Theorem workflow_outcome_stored {RT : Runtime} {ES : EdgeSort} {ET : ErrorText} ctx input w w' :
  started w -> performed ctx w (Execute input).2 w' ->
  match Execute input with
  | (Ok r, _) => res_Status r ∈ [InstanceCompleted; InstanceRejected] /\
      exists i, inst_Status i = res_Status r /\ forall w'', rtc run_step w' w'' -> instance_at input i w''
  | (Err _, h) => forall c, last h = Some (c, true) ->
      exists i, inst_Status i <> InstanceRunning /\ forall w'', rtc run_step w' w'' -> instance_at input i w''
  end.
Proof.
  intros Hs. pose proof (Execute_covered input _ (covers_issued input)) as Hc.
  pose proof (Execute_ends input) as He. destruct (Execute input) as [[r|e] h]; cbn [snd] in *; intros Hp.
  - destruct He as (l & Hst & ->). split; [done|].
    assert (Hf : res_Status r ∈ final_statuses) by (unfold success_statuses, final_statuses in *; set_solver).
    destruct (reported _ _ _ _ _ _ _ _ _ Hs Hf Hc Hp) as (i & [Hi|Hi] & _ & Hall); [by exists i|].
    rewrite Hi in Hst. unfold success_statuses in Hst. set_solver.
  - intros c Hlast. destruct He as [->|(l & out & ok & ->)]; [done|]. rewrite last_snoc in Hlast.
    injection Hlast as _ ->. assert (Hf : InstanceFailed ∈ final_statuses) by (unfold final_statuses; set_solver).
    destruct (reported _ _ _ _ _ _ _ _ _ Hs Hf Hc Hp) as (i & _ & H1 & H2). by exists i.
Qed.

(** ** An instance that has ended *)

Lemma ended_no_new_tasks id i w w' : started w -> db_instances (w_db w) !! id = Some i ->
  inst_Status i <> InstanceRunning -> rtc run_step w w' ->
  forall tid t, db_tasks (w_db w') !! tid = Some t -> task_InstanceID t = id -> is_Some (db_tasks (w_db w) !! tid).
Proof.
  intros Hs Hi Hend Hr. revert Hs Hi. induction Hr as [w|w w1 w' Hstep Hr IH]; intros Hs Hi tid t Ht Hid; [by exists t|].
  assert (Hr1 : rtc run_step w w1) by by apply rtc_once.
  pose proof (ended_forever id i w w1 Hs Hi Hend Hr1) as Hi1. pose proof (started_more _ _ Hs Hr1) as Hs1.
  destruct (IH Hs1 Hi1 tid t Ht Hid) as [t1 Ht1].
  destruct (run_step_store w w1 (reachable_ok _ (started_reachable _ Hs)) Hstep) as [<-|Hst]; [by exists t1|].
  destruct (step_new_task _ _ tid t1 Hst Ht1) as [?|(i0 & Hi0 & _ & Hrun)]; [done|].
  assert (Hsame : task_InstanceID t1 = id).
  { destruct (rtc_tasks _ _ (started_steps _ _ Hs1 Hr) tid t1 Ht1) as (t2 & Ht2 & Hn).
    apply task_identity_kept in Hn. unfold task_identity in Hn. injection Hn. intros. congruence. }
  rewrite Hsame in Hi0. congruence.
Qed.

(** A worker cannot move it: the service of a node is not called. *)
Lemma ended_not_invoked ctx i si w : started w -> db_instances (w_db w) !! sti_InstanceID si = Some i ->
  inst_Status i <> InstanceRunning ->
  let advance := ru_UpdateInstanceNode (SystemContext ctx runtimeActor) (sti_TenantID si) (sti_ApplicationID si)
    (sti_InstanceID si) (node_ID (sti_Node si)) runtimeActor w in
  is_ok (Activities.InvokeServiceTask ctx si w).1 = false /\
  (Activities.InvokeServiceTask ctx si w).2 = advance.2 /\ w_db advance.2 = w_db w.
Proof.
  intros Hs Hi Hend. cbv zeta. pose proof (reachable_ok _ (started_reachable _ Hs)) as Hok.
  unfold Activities.InvokeServiceTask, mbind, stE_bind, wrapped. cbn [ru_UpdateInstanceNode repository_runtime].
  pose proof (wp_world _ _ _ (wp_UpdateInstanceNode (sti_TenantID si) (sti_ApplicationID si) (sti_InstanceID si)
    (node_ID (sti_Node si)) runtimeActor _ (ok_keyed _ Hok))) as Hw. cbv zeta in Hw.
  assert (Hno : forall db', ~ exists i0 i' now, inst_ID i0 = sti_InstanceID si /\
    inst_in (sti_TenantID si) (sti_ApplicationID si) i0 = true /\
    step_advance i0 i' (node_ID (sti_Node si)) now runtimeActor (w_db w) db').
  { intros db' (i0 & i' & now & Hid & _ & _ & _ & Hi0 & Hrun & _). rewrite Hid in Hi0. congruence. }
  destruct (UpdateInstanceNode _ _ _ _ _ w) as [[[]|e] w1]; cbn [fst snd] in *.
  - destruct Hw as [Ha|[_ (i0 & Hi0 & _ & Hrun & _)]]; [by apply Hno in Ha|congruence].
  - destruct Hw as [[Hdb _]|[Ha _]]; [done|by apply Hno in Ha].
Qed.

Lemma performed_success ctx w h w' c : performed ctx w h w' -> (c, true) ∈ h ->
  forall input, Forall (issued_by input) h ->
  exists w1 w2, rtc run_step w w1 /\ answers ctx c true w1 w2.
Proof.
  intros Hp Hin input Hh. induction Hp as [w' Hr|h c0 ok w1 w2 w3 w' Hp IH Hm Ha Hr]; [by apply elem_of_nil in Hin|].
  apply Forall_app in Hh as [Hh Hc]. apply List.Forall_inv in Hc. apply elem_of_app in Hin as [Hin|Hin]; [by apply IH|].
  apply list_elem_of_singleton in Hin as [= <- <-]. exists w2, w3. split; [|done].
  etrans; [exact (performed_steps ctx input h w w1 Hh Hp)|exact (meanwhile_steps ctx input c true w1 w2 Hc Hm)].
Qed.


(** ** Replaying a history *)

(** One attempt per command, nothing in between; [None] when a success cannot be had. *)
Fixpoint replay (ctx : Ctx) (h : history) w : option (World Event) :=
  match h with
  | [] => Some w
  | (c, ok) :: h' =>
      if ok then match attempt ctx c w with
                 | Some (true, w1) => replay ctx h' w1
                 | Some (false, _) => None
                 | None => replay ctx h' w
                 end
      else replay ctx h' w
  end.

Lemma replay_performed ctx h w w' : replay ctx h w = Some w' -> performed ctx w h w'.
Proof.
  assert (Hgen : forall h w1 h0 w', performed ctx w h0 w1 -> replay ctx h w1 = Some w' -> performed ctx w (h0 ++ h) w').
  { clear h w'. induction h as [|[c ok] h IH]; intros w1 h0 w' Hp; cbn [replay].
    - intros [= <-]. by rewrite app_nil_r.
    - assert (Hnext : forall w2, answers ctx c ok w1 w2 -> replay ctx h w2 = Some w' -> performed ctx w (h0 ++ (c, ok) :: h) w').
      { intros w2 Ha Hw. assert (Hone : performed ctx w (h0 ++ [(c, ok)]) w2)
          by (eapply pf_command; [exact Hp|apply rtc_refl|exact Ha|apply rtc_refl]).
        pose proof (IH w2 _ w' Hone Hw) as H. rewrite <- app_assoc in H. exact H. }
      destruct ok; [|by apply Hnext]. unfold answers in Hnext. destruct (attempt ctx c w1) as [[[] w2]|]; [|done|]; by apply Hnext. }
  intros H. apply (Hgen h w [] w'); [constructor; apply rtc_refl|done].
Qed.
End system.

(** ** The properties at work: the sample order, and the same order cancelled *)

Module Deployed.
Import ExecuteSpec.Sample RepositorySpec.Sample Worked.

(** Everything Temporal asks for is granted - but the calls of services if [calls]
    says no. *)
#[refine] Instance granting (calls : bool) : Runtime := {|
  rt_activity := fun _ _ => Ok tt;
  rt_invoke := fun _ _ _ => if calls then Ok (mkServiceTaskResult "{}") else Err (ErrorNew "conflict");
  rt_evaluate := fun _ _ _ => Ok false;
  rt_await := fun _ _ cond =>
    let s := mkTaskSignal "task-1" "approve" DecisionApprove "" in
    if cond s then Ok (Some s) else Ok None;
  rt_sleep := fun _ _ => Ok tt
|}.
Proof. intros h d cond s. simpl. destruct (cond _) eqn:Hc; [by intros [= <-]|done]. Defined.

Definition order_input : Input := ExecuteSpec.Sample.input.
Definition run_of (calls : bool) : res Result * history := Execute (RT := granting calls) order_input.

Lemma completes : (run_of true).1 = Ok (mkResult InstanceCompleted "{}").
Proof. vm_compute. reflexivity. Qed.

Lemma performs : is_Some (replay ctx (run_of true).2 w1).
Proof. vm_compute. by eexists. Qed.

Lemma workflow_outcome_stored_witness : exists w' i, performed ctx w1 (run_of true).2 w' /\
  inst_Status i = InstanceCompleted /\ instance_at order_input i w'.
Proof.
  destruct performs as [w' Hw]. apply replay_performed in Hw. exists w'.
  pose proof (workflow_outcome_stored (RT := granting true) worked_off ctx order_input w1 w' started_w1 Hw) as H.
  pose proof completes as Hr. unfold run_of in *. destruct (Execute (RT := granting true) order_input) as [[r|e] h];
    cbn [fst snd] in *; [|discriminate Hr].
  injection Hr as ->. destruct H as (_ & i & Hi & Hall). exists i. split; [exact Hw|]. split; [exact Hi|].
  apply Hall, rtc_refl.
Defined.

End Deployed.
