(* ===== verification/PathMatch.v ===== *)
(** * path.Match and internal/auth/pattern.go

    The matcher of the standard library the route and method lists of the
    configuration are tested with: the scan into chunks between stars, the match of a
    chunk, and the leftmost search of a chunk that follows a star. *)
From S2P Require Import Prelude GoStd Json.
From Stdlib Require Import Ascii String.
Local Open Scope string_scope.
Local Open Scope list_scope.

Definition star_char : ascii := "*".
Definition slash : ascii := "/".

(** [utf8.DecodeRuneInString]: the rune, whether it is a decoding error, the rest. *)
Definition utf8_tail (c : ascii) : N := (N_of_ascii c mod 64)%N.
Definition decode_rune (s : string) : N * bool * string :=
  match s with
  | EmptyString => (65533, true, EmptyString)%N
  | String a s1 =>
    if (N_of_ascii a <? 128)%N then (N_of_ascii a, false, s1)
    else match s1 with
    | String b s2 =>
      if rune2 a b then ((N_of_ascii a mod 32) * 64 + utf8_tail b, false, s2)%N
      else match s2 with
      | String c s3 =>
        if rune3 a b c then (((N_of_ascii a mod 16) * 64 + utf8_tail b) * 64 + utf8_tail c, false, s3)%N
        else match s3 with
        | String d s4 =>
          if rune4 a b c d
          then ((((N_of_ascii a mod 8) * 64 + utf8_tail b) * 64 + utf8_tail c) * 64 + utf8_tail d, false, s4)%N
          else (65533, true, s1)%N
        | EmptyString => (65533, true, s1)%N
        end
      | EmptyString => (65533, true, s1)%N
      end
    | EmptyString => (65533, true, s1)%N
    end
  end.

(** [scanChunk] after its stars: up to the first star outside a class. *)
Fixpoint scan_chunk (inrange : bool) (pattern : string) : string * string :=
  match pattern with
  | EmptyString => (EmptyString, EmptyString)
  | String c rest =>
    if Ascii.eqb c backslash then
      match rest with
      | String d rest' => let '(chunk, r) := scan_chunk inrange rest' in (String c (String d chunk), r)
      | EmptyString => (String c EmptyString, EmptyString)
      end
    else if Ascii.eqb c star_char && negb inrange then (EmptyString, pattern)
    else
      let inrange' := if Ascii.eqb c "[" then true else if Ascii.eqb c "]" then false else inrange in
      let '(chunk, r) := scan_chunk inrange' rest in (String c chunk, r)
  end.

Fixpoint scanChunk (pattern : string) : bool * string * string :=
  match pattern with
  | String c rest =>
    if Ascii.eqb c star_char then let '(_, chunk, r) := scanChunk rest in (true, chunk, r)
    else let '(chunk, r) := scan_chunk false pattern in (false, chunk, r)
  | EmptyString => (false, EmptyString, EmptyString)
  end.

Definition str_tail (s : string) : string :=
  match s with String _ t => t | EmptyString => EmptyString end.

(** [getEsc]: [None] is [ErrBadPattern]. *)
Definition getEsc (chunk : string) : option (N * string) :=
  match chunk with
  | EmptyString => None
  | String c rest =>
    if Ascii.eqb c "-" || Ascii.eqb c "]" then None
    else
      let chunk' := if Ascii.eqb c backslash then rest else chunk in
      let '(r, bad, nchunk) := decode_rune chunk' in
      if bad || str_empty nchunk then None else Some (r, nchunk)
  end.

(** The range of a class that starts here. *)
Definition class_range (chunk : string) : option (N * N * string) :=
  lo ← getEsc chunk;
  match lo.2 with
  | String c rest =>
      if Ascii.eqb c "-" then hi ← getEsc rest; Some (lo.1, hi.1, hi.2) else Some (lo.1, lo.1, lo.2)
  | EmptyString => Some (lo.1, lo.1, lo.2)
  end.

(** The ranges of a class, the bracket that closes it consumed. *)
Fixpoint class_ranges (fuel : nat) (r : N) (matched : bool) (first : bool) (chunk : string) :
  option (bool * string) :=
  match fuel with
  | O => None
  | S fuel =>
    if HasPrefix chunk "]" && negb first then Some (matched, str_tail chunk) else
    range ← class_range chunk;
    let '(lo, hi, rest) := range in
    class_ranges fuel r (matched || ((lo <=? r) && (r <=? hi))%N) false rest
  end.

(** [matchChunk]: [None] is [ErrBadPattern], [Some None] no match, [Some (Some rest)] a
    match with the rest of the name.  [failed] keeps checking the pattern. *)
Fixpoint match_chunk (fuel : nat) (failed : bool) (chunk s : string) : option (option string) :=
  match fuel with
  | O => None
  | S fuel =>
    match chunk with
    | EmptyString => Some (if failed then None else Some s)
    | String c rest =>
      let failed := failed || str_empty s in
      if Ascii.eqb c "[" then
        let '(r, _, s') := if failed then (0%N, false, s) else decode_rune s in
        let negated := HasPrefix rest "^" in
        let ranges := if negated then str_tail rest else rest in
        m ← class_ranges (S (String.length ranges)) r false true ranges;
        match_chunk fuel (failed || Bool.eqb m.1 negated) m.2 s'
      else if Ascii.eqb c "?" then
        if failed then match_chunk fuel true rest s
        else match_chunk fuel (HasPrefix s "/") rest (decode_rune s).2
      else
        match (if Ascii.eqb c backslash then rest else chunk) with
        | EmptyString => None
        | String l rest' =>
          match s with
          | String a s' => if failed then match_chunk fuel true rest' s
                           else match_chunk fuel (negb (Ascii.eqb l a)) rest' s'
          | EmptyString => match_chunk fuel true rest' s
          end
        end
    end
  end.

Definition matchChunk (chunk s : string) : option (option string) :=
  match_chunk (S (String.length chunk)) false chunk s.

(** The search after a star: the first offset from which the chunk matches, and to the
    end of the name if the chunk is the last. *)
Fixpoint search_chunk (chunk : string) (last : bool) (name : string) : option (option string) :=
  match name with
  | EmptyString => Some None
  | String c name' =>
    if Ascii.eqb c slash then Some None
    else match matchChunk chunk name' with
    | None => None
    | Some (Some t) => if last && negb (str_empty t) then search_chunk chunk last name' else Some (Some t)
    | Some None => search_chunk chunk last name'
    end
  end.

Fixpoint has_slash (s : string) : bool :=
  match s with String c s' => Ascii.eqb c slash || has_slash s' | EmptyString => false end.

(** The check, after a mismatch, that what is left of the pattern is well formed. *)
Fixpoint chunks_ok (fuel : nat) (pattern : string) : bool :=
  match fuel with
  | O => true
  | S fuel =>
    if str_empty pattern then true else
    let '(_, chunk, rest) := scanChunk pattern in
    match matchChunk chunk "" with None => false | Some _ => chunks_ok fuel rest end
  end.

(** [Match]: [Some true] is a match, [None] is [ErrBadPattern]. *)
Fixpoint Match (fuel : nat) (pattern name : string) : option bool :=
  match fuel with
  | O => Some (str_empty name)
  | S fuel =>
    if str_empty pattern then Some (str_empty name) else
    let '(star, chunk, rest) := scanChunk pattern in
    if star && str_empty chunk then Some (negb (has_slash name)) else
    let mismatch := if chunks_ok fuel rest then Some false else None in
    let search :=
      if star then
        m ← search_chunk chunk (str_empty rest) name;
        match m with Some t => Match fuel rest t | None => mismatch end
      else mismatch in
    m ← matchChunk chunk name;
    match m with
    | Some t => if str_empty t || negb (str_empty rest) then Match fuel rest t else search
    | None => search
    end
  end.

(** A pattern of [n] bytes has at most [n] chunks. *)
Definition path_Match (pattern name : string) : option bool := Match (String.length pattern) pattern name.
Definition path_match (pattern name : string) : bool := bool_decide (path_Match pattern name = Some true).

Definition MatchesAny (value : string) (patterns : list string) : bool :=
  existsb (fun pattern => path_match pattern value) patterns.

Example match_literal : path_match "/api/v1/me" "/api/v1/me" = true. Proof. reflexivity. Qed.
Example match_star : path_match "/api/*/me" "/api/v1/me" = true. Proof. reflexivity. Qed.
Example star_stops : path_match "/api/*" "/api/v1/me" = false. Proof. reflexivity. Qed.
Example match_class : path_match "/a[^x-z]?*c" "/abdc" = true. Proof. reflexivity. Qed.
Example match_last : path_match "*.go" "a.go.go" = true. Proof. reflexivity. Qed.
Example bad_class : path_match "[" "[" = false. Proof. reflexivity. Qed.

(** ** A pattern is bad for every name or for none *)

Lemma class_ranges_name fuel r m first chunk b rest r' m' :
  class_ranges fuel r m first chunk = Some (b, rest) ->
  exists b', class_ranges fuel r' m' first chunk = Some (b', rest).
Proof.
  revert m m' first chunk. induction fuel as [|fuel IH]; intros m m' first chunk; cbn [class_ranges]; [done|].
  destruct (HasPrefix chunk "]" && negb first); [intros [= <- <-]; by exists m'|].
  destruct (class_range chunk) as [[[lo hi] t]|]; cbn [mbind option_bind]; [|done]. apply IH.
Qed.

Lemma class_ranges_bad fuel r m first chunk r' m' :
  class_ranges fuel r m first chunk = None -> class_ranges fuel r' m' first chunk = None.
Proof.
  intros H. destruct (class_ranges fuel r' m' first chunk) as [[b rest]|] eqn:H'; [|done].
  apply (class_ranges_name _ _ _ _ _ _ _ r m) in H' as [b' H']. by rewrite H in H'.
Qed.

(** Whether a chunk is bad depends on the chunk alone. *)
Lemma match_chunk_bad fuel chunk failed s failed' s' :
  match_chunk fuel failed chunk s = None -> match_chunk fuel failed' chunk s' = None.
Proof.
  revert chunk failed s failed' s'. induction fuel as [|fuel IH]; intros chunk failed s failed' s'; [done|].
  cbn [match_chunk]. destruct chunk as [|c rest]; [done|]. cbv zeta. destruct (Ascii.eqb c "[").
  - set (ranges := if HasPrefix rest "^" then str_tail rest else rest).
    destruct (if failed || str_empty s then _ else _) as [[r x] t].
    destruct (if failed' || str_empty s' then _ else _) as [[r' x'] t'].
    destruct (class_ranges _ r false true ranges) as [[b u]|] eqn:Hc; cbn [mbind option_bind].
    + intros H. apply (class_ranges_name _ _ _ _ _ _ _ r' false) in Hc as [b' ->]. by eapply IH.
    + intros _. by rewrite (class_ranges_bad _ _ _ _ _ r' false Hc).
  - destruct (Ascii.eqb c "?").
    + destruct (failed || str_empty s), (failed' || str_empty s'); apply IH.
    + destruct (if Ascii.eqb c backslash then rest else String c rest) as [|l rest']; [done|].
      destruct s, s'; repeat (match goal with |- context [if ?b then _ else _] => destruct b end); apply IH.
Qed.

Lemma matchChunk_bad chunk s s' : matchChunk chunk s = None -> matchChunk chunk s' = None.
Proof. apply match_chunk_bad. Qed.

Lemma search_chunk_bad chunk last name : search_chunk chunk last name = None -> matchChunk chunk "" = None.
Proof.
  induction name as [|c name IH]; cbn [search_chunk]; [done|]. destruct (Ascii.eqb c slash); [done|].
  destruct (matchChunk chunk name) as [[t|]|] eqn:H; [destruct (last && _); [done|discriminate]|done|].
  intros _. by eapply matchChunk_bad.
Qed.

Lemma scan_chunk_rest inrange p : String.length (scan_chunk inrange p).2 <= String.length p.
Proof.
  assert (H : forall n p inrange, String.length p <= n -> String.length (scan_chunk inrange p).2 <= String.length p).
  { clear. induction n as [|n IH]; intros p inrange Hn.
    - destruct p; simpl in *; lia.
    - destruct p as [|c rest]; cbn [scan_chunk]; [simpl; lia|]. simpl in Hn.
      destruct (Ascii.eqb c backslash).
      + destruct rest as [|d rest']; [simpl; lia|]. simpl in Hn. pose proof (IH rest' inrange ltac:(lia)) as H.
        destruct (scan_chunk inrange rest') as [a b]. cbn [snd String.length] in *. lia.
      + destruct (Ascii.eqb c star_char && negb inrange); [simpl; lia|].
        match goal with |- context [scan_chunk ?i rest] => pose proof (IH rest i ltac:(lia)) as H;
          destruct (scan_chunk i rest) as [a b] end.
        cbn [snd String.length] in *. lia. }
  by apply (H (String.length p)).
Qed.

Lemma scanChunk_rest p : p <> EmptyString ->
  let '(star, chunk, rest) := scanChunk p in
  String.length rest < String.length p /\ (chunk = EmptyString -> rest = EmptyString).
Proof.
  induction p as [|c p IH]; [done|]. intros _. cbn [scanChunk]. destruct (Ascii.eqb c star_char) eqn:Hc.
  - destruct p as [|d p]; [simpl; split; [lia|done]|]. specialize (IH ltac:(done)).
    destruct (scanChunk (String d p)) as [[st ch] r]. destruct IH as [H1 H2]. cbn [String.length] in *. split; [lia|done].
  - cbn [scan_chunk]. rewrite Hc. cbn [andb].
    destruct (Ascii.eqb c backslash).
    + destruct p as [|d p]; [simpl; split; [lia|done]|]. pose proof (scan_chunk_rest false p) as H.
      destruct (scan_chunk false p) as [a b]. cbn [snd String.length] in *. split; [lia|done].
    + match goal with |- context [scan_chunk ?i p] => pose proof (scan_chunk_rest i p) as H;
        destruct (scan_chunk i p) as [a b] end. cbn [snd String.length] in *. split; [lia|done].
Qed.

(** [Match] reports a bad pattern exactly when a chunk is bad, whatever the name: so
    trying a pattern on one name, as the validation of the configuration does, tells
    whether it is usable on all. *)
Lemma Match_bad fuel pattern name : String.length pattern <= fuel ->
  Match fuel pattern name = None <-> chunks_ok fuel pattern = false.
Proof.
  revert pattern name. induction fuel as [|fuel IH]; intros pattern name Hlen; cbn [Match chunks_ok]; [done|].
  destruct (str_empty pattern) eqn:Hp; [done|]. apply String.eqb_neq in Hp.
  pose proof (scanChunk_rest pattern Hp) as Hs. destruct (scanChunk pattern) as [[star chunk] rest].
  destruct Hs as [Hrest Hempty].
  destruct (star && str_empty chunk) eqn:Hst.
  { apply andb_prop in Hst as [_ Hch%String.eqb_eq]. rewrite (Hempty Hch), Hch. by destruct fuel. }
  destruct (matchChunk chunk name) as [m|] eqn:Hm; cbn [mbind option_bind].
  2: { by rewrite (matchChunk_bad _ _ "" Hm). }
  destruct (matchChunk chunk "") as [m0|] eqn:Hm0; [|by rewrite (matchChunk_bad _ _ name Hm0) in Hm].
  assert (Hmis : (if chunks_ok fuel rest then Some false else None) = None <-> chunks_ok fuel rest = false)
    by (by destruct (chunks_ok fuel rest)).
  assert (Hsearch : (if star then m ← search_chunk chunk (str_empty rest) name;
      match m with Some t => Match fuel rest t | None => if chunks_ok fuel rest then Some false else None end
      else if chunks_ok fuel rest then Some false else None) = None <-> chunks_ok fuel rest = false).
  { destruct star; [|done]. destruct (search_chunk chunk (str_empty rest) name) as [[t|]|] eqn:Hsc;
      cbn [mbind option_bind]; [apply IH; lia|done|]. apply search_chunk_bad in Hsc. congruence. }
  destruct m as [t|]; [|exact Hsearch]. destruct (str_empty t || negb (str_empty rest)); [apply IH; lia|exact Hsearch].
Qed.

Lemma path_Match_bad pattern name name' : path_Match pattern name = None -> path_Match pattern name' = None.
Proof. unfold path_Match. intros H%Match_bad; [|done]. by apply Match_bad. Qed.
