(* ===== verification/Config.v ===== *)
(** * Configuration (internal/config/config.go)

    The configuration tree, the parsing of lists and profile names, and [Validate]:
    what the rest of the service may take for granted once the configuration is
    accepted.  Durations are nanoseconds; a [float64] is a [spec_float]. *)
From S2P Require Import Prelude GoStd Model Graph PathMatch.
From Stdlib Require Import Ascii String SpecFloat.
Local Open Scope string_scope.
Local Open Scope list_scope.

Module config.

(** ** Structs *)

Record Runtime : Type := mkRuntime {
  run_ActiveProfile : string; run_ConfigFiles : list string
}.
Record App : Type := mkApp {
  app_Name : string; app_Schema : string; app_Env : string; app_ShutdownTimeout : Z
}.
Record CORS : Type := mkCORS {
  cors_Enabled : bool; cors_AllowedOrigins : list string; cors_AllowedHeaders : list string;
  cors_ExposedHeaders : list string; cors_MaxAge : Z
}.
Record HTTP : Type := mkHTTP {
  http_Address : string; http_ReadTimeout : Z; http_WriteTimeout : Z; http_IdleTimeout : Z;
  http_RequestTimeout : Z; http_MaxBodyBytes : Z; http_TrustedProxies : list string; http_CORS : CORS
}.
Record GRPCTLS : Type := mkGRPCTLS {
  gtls_Enabled : bool; gtls_CertFile : string; gtls_KeyFile : string; gtls_ClientCAFile : string
}.
Record GRPC : Type := mkGRPC {
  grpc_Enabled : bool; grpc_Address : string; grpc_ReflectionEnabled : bool; grpc_MaxReceiveBytes : Z;
  grpc_TLS : GRPCTLS
}.
Record Log : Type := mkLog {
  log_Level : string; log_Format : string; log_File : string; log_MaxSizeMB : Z; log_MaxBackups : Z;
  log_MaxAgeDays : Z; log_Compress : bool
}.
Record Database : Type := mkDatabase {
  db_Enabled : bool; db_Name : string; db_Schema : string; db_Type : string; db_DSN : string;
  db_MaxOpenConns : Z; db_MaxIdleConns : Z; db_ConnMaxLifetime : Z; db_ConnMaxIdleTime : Z;
  db_PingTimeout : Z
}.
Record Redis : Type := mkRedis {
  redis_Enabled : bool; redis_Address : string; redis_Username : string; redis_Password : string;
  redis_DB : Z; redis_DialTimeout : Z; redis_ReadTimeout : Z; redis_WriteTimeout : Z
}.
Record Health : Type := mkHealth {
  health_DatabaseTimeout : Z; health_RedisTimeout : Z
}.
Record RateLimitRule : Type := mkRateLimitRule {
  rule_Rate : Z; rule_Burst : Z; rule_Period : Z
}.
Record RateLimit : Type := mkRateLimit {
  rl_Enabled : bool; rl_FailOpen : bool; rl_IP : RateLimitRule; rl_API : RateLimitRule;
  rl_User : RateLimitRule; rl_Login : RateLimitRule
}.
Record Observability : Type := mkObservability {
  obs_MetricsEnabled : bool; obs_TracingEnabled : bool; obs_TracingEndpoint : string;
  obs_TracingSampleRatio : spec_float; obs_PprofEnabled : bool; obs_PprofToken : string
}.
Record Swagger : Type := mkSwagger {
  sw_Enabled : bool; sw_RequireAuth : bool
}.
Record JWT : Type := mkJWT {
  jwt_Issuer : string; jwt_Secret : string; jwt_TTL : Z
}.
Record PSK : Type := mkPSK {
  psk_Enabled : bool; psk_Key : string; psk_HTTPPaths : list string; psk_GRPCMethods : list string
}.
Record Auth : Type := mkAuth {
  auth_ClientID : string; auth_ClientSecret : string; auth_JWKSURL : string; auth_Issuer : string;
  auth_Audience : string; auth_SkipHTTPPaths : list string; auth_SkipGRPCMethods : list string;
  auth_PSK : PSK
}.
Record Authorization : Type := mkAuthorization {
  az_Enabled : bool
}.
Record Migration : Type := mkMigration {
  mig_AutoUp : bool; mig_CreateSchema : bool; mig_Path : string; mig_DatabaseURL : string;
  mig_Table : string; mig_Schema : string; mig_DatabaseName : string
}.
Record Idempotency : Type := mkIdempotency {
  idem_Enabled : bool; idem_HTTPPaths : list string; idem_GRPCMethods : list string;
  idem_ProcessingTTL : Z; idem_ResultTTL : Z; idem_FailureTTL : Z
}.
Record ClientAuth : Type := mkClientAuth {
  ca_Type : string; ca_Token : string
}.
Record Retry : Type := mkRetry {
  retry_MaxAttempts : Z; retry_InitialBackoff : Z; retry_MaxBackoff : Z; retry_Methods : list string
}.
Record Breaker : Type := mkBreaker {
  brk_Enabled : bool; brk_FailureThreshold : Z; brk_OpenTimeout : Z
}.
Record ClientTLS : Type := mkClientTLS {
  tls_Enabled : bool; tls_AllowInsecure : bool; tls_ServerName : string; tls_CAFile : string;
  tls_CertFile : string; tls_KeyFile : string
}.
Record HTTPUpstream : Type := mkHTTPUpstream {
  hu_BaseURL : string; hu_Timeout : Z; hu_Auth : ClientAuth; hu_Retry : Retry; hu_Breaker : Breaker;
  hu_TLS : ClientTLS
}.
Record GRPCUpstream : Type := mkGRPCUpstream {
  gu_Target : string; gu_Timeout : Z; gu_Auth : ClientAuth; gu_Retry : Retry; gu_Breaker : Breaker;
  gu_TLS : ClientTLS
}.
Record Outbound : Type := mkOutbound {
  out_HTTP : gmap string HTTPUpstream; out_GRPC : gmap string GRPCUpstream
}.
Record EventBus : Type := mkEventBus {
  eb_Enabled : bool; eb_URLs : list string; eb_StreamName : string; eb_Subjects : list string;
  eb_Storage : string; eb_MaxAge : Z; eb_DuplicateWindow : Z; eb_ConnectTimeout : Z;
  eb_ReconnectWait : Z; eb_PublishTimeout : Z; eb_ConsumerAckWait : Z; eb_ConsumerAckTimeout : Z;
  eb_ConsumerHandlerTimeout : Z; eb_ConsumerRetryDelay : Z; eb_ConsumerMaxRetryDelay : Z;
  eb_ConsumerMaxDeliver : Z; eb_ConsumerMaxAckPending : Z; eb_DeadLetterSubject : string;
  eb_DispatchInterval : Z; eb_DispatchBatchSize : Z; eb_DispatchLease : Z; eb_DispatchRetryDelay : Z;
  eb_PublishedRetention : Z; eb_CleanupInterval : Z; eb_CleanupBatchSize : Z
}.
Record Temporal : Type := mkTemporal {
  tmp_Enabled : bool; tmp_HostPort : string; tmp_Namespace : string; tmp_TaskQueue : string;
  tmp_ConnectTimeout : Z; tmp_WorkerStopTimeout : Z; tmp_TLS : ClientTLS
}.
Record Retention : Type := mkRetention {
  ret_TaskHistory : Z; ret_CleanupInterval : Z; ret_CleanupBatchSize : Z
}.
Record Config : Type := mkConfig {
  c_Runtime : Runtime; c_App : App; c_HTTP : HTTP; c_GRPC : GRPC; c_Log : Log; c_Database : Database;
  c_Redis : Redis; c_Health : Health; c_RateLimit : RateLimit; c_Observability : Observability;
  c_Swagger : Swagger; c_JWT : JWT; c_Auth : Auth; c_Authorization : Authorization;
  c_Migration : Migration; c_Idempotency : Idempotency; c_Outbound : Outbound; c_EventBus : EventBus;
  c_Temporal : Temporal; c_Retention : Retention
}.

(** ** Lists and profiles *)

(** [strings.Split(s, ",")]: never empty. *)
Fixpoint split_commas (s : string) : list string :=
  match s with
  | EmptyString => [EmptyString]
  | String c s' =>
      if Ascii.eqb c "," then EmptyString :: split_commas s'
      else match split_commas s' with
           | [] => [String c EmptyString]
           | first :: rest => String c first :: rest
           end
  end.

(** [strings.Trim(s, cutset)] for a cutset of single quotes and double quotes. *)
Definition is_quote (c : ascii) : bool := Ascii.eqb c "034" || Ascii.eqb c "'".
Fixpoint trim_quotes_left (s : string) : string :=
  match s with
  | String c s' => if is_quote c then trim_quotes_left s' else s
  | EmptyString => EmptyString
  end.
Definition trim_quotes (s : string) : string := str_rev (trim_quotes_left (str_rev (trim_quotes_left s))).

Definition HasSuffix (s suffix : string) : bool := HasPrefix (str_rev s) (str_rev suffix).

(** [stringToStringSliceHook] on a string. *)
Definition stringToStringSlice (data : string) : list string :=
  let raw := TrimSpace data in
  let raw := if HasPrefix raw "[" && HasSuffix raw "]"
             then TrimSpace (String.substring 1 (String.length raw - 2) raw) else raw in
  if str_empty raw then [] else (fun value => trim_quotes (TrimSpace value)) <$> split_commas raw.

Definition profile_first (c : ascii) : bool := is_lower c || is_digit c.
Definition validProfile : regexp :=
  RSeq (RCls profile_first) (RStar (RCls (fun c => profile_first c || byte_in "_-" c))).
Definition validMigrationTable : regexp :=
  RSeq (RCls is_lower) (RUpTo 62 (RCls (fun c => is_lower c || is_digit c || byte_in "_" c))).

(** [filepath.Ext] of the reversed path: up to and with the last dot after the last
    slash. *)
Fixpoint ext_rev (acc s : string) : string :=
  match s with
  | EmptyString => EmptyString
  | String c s' => if Ascii.eqb c "/" then EmptyString
                   else if Ascii.eqb c "." then String c acc else ext_rev (String c acc) s'
  end.
Definition Ext (path : string) : string := ext_rev EmptyString (str_rev path).

Definition profileConfigPath (path profile : string) : string :=
  let extension := Ext path in
  let base := String.substring 0 (String.length path - String.length extension) path in
  base +:+ "-" +:+ profile +:+ extension.

(** ** Validation *)

Definition isDBType (value : string) : bool :=
  String.eqb value "mysql" || String.eqb value "postgres" || String.eqb value "kingbase".

Definition check (cond : bool) (text : string) : res unit := if cond then Err (ErrorNew text) else Ok tt.
Definition checkf (cond : bool) (format : string) (args : list string) : res unit :=
  if cond then Err (Errorf format args) else Ok tt.

(** A [for] loop whose body returns the first error. *)
Fixpoint each {A} (body : A -> res unit) (l : list A) : res unit :=
  match l with [] => Ok tt | x :: l' => _ ← body x; each body l' end.

Definition ErrBadPattern : error := Foreign (OtherError "syntax error in pattern").

(** [if _, err := path.Match(pattern, "/validation/target"); err != nil] *)
Definition check_pattern (format pattern : string) : res unit :=
  match path_Match pattern "/validation/target" with
  | None => Err (Wrap format [pattern] ErrBadPattern)
  | Some _ => Ok tt
  end.

(** [strings.Count(s, "/")] *)
Fixpoint count_slashes (s : string) : nat :=
  match s with
  | EmptyString => O
  | String c s' => if Ascii.eqb c slash then S (count_slashes s') else count_slashes s'
  end.

Definition bad_method (pattern : string) : bool :=
  negb (HasPrefix pattern "/") || negb (count_slashes pattern =? 2)%nat.

Definition check_paths (outside invalid : string) : list string -> res unit := each (fun pattern =>
  _ ← checkf (negb (HasPrefix pattern "/api/")) outside [pattern];
  check_pattern invalid pattern).
Definition check_methods (outside invalid : string) : list string -> res unit := each (fun pattern =>
  _ ← checkf (bad_method pattern) outside [pattern];
  check_pattern invalid pattern).

Definition nonpositive (n : Z) : bool := (n <=? 0)%Z.
Definition short (s : string) : bool := (String.length s <? 32)%nat.
Definition no_items {A} (l : list A) : bool := match l with [] => true | _ => false end.

Definition validateClientPolicy (name : string) (auth : ClientAuth) (retry : Retry) (breaker : Breaker)
    (tls : ClientTLS) (production : bool) : res unit :=
  let credentials := negb (str_empty (ca_Type auth)) in
  _ ← checkf (credentials && negb (String.eqb (ca_Type auth) "bearer") && negb (String.eqb (ca_Type auth) "psk"))
        "outbound %s auth.type must be bearer or psk" [name];
  _ ← checkf (credentials && str_empty (ca_Token auth)) "outbound %s auth.token is required" [name];
  _ ← checkf (credentials && negb (tls_Enabled tls) && negb (tls_AllowInsecure tls))
        "outbound %s credentials require TLS or explicit allow_insecure" [name];
  _ ← checkf (tls_Enabled tls && tls_AllowInsecure tls)
        "outbound %s TLS and allow_insecure are mutually exclusive" [name];
  _ ← checkf (production && credentials && tls_AllowInsecure tls)
        "production outbound %s credentials require TLS" [name];
  _ ← checkf ((retry_MaxAttempts retry <? 1)%Z || (5 <? retry_MaxAttempts retry)%Z
              || nonpositive (retry_InitialBackoff retry) || (retry_MaxBackoff retry <? retry_InitialBackoff retry)%Z)
        "outbound %s retry policy is invalid" [name];
  _ ← each (fun pattern =>
        _ ← checkf (bad_method pattern) "outbound %s retry method pattern is invalid" [name];
        check_pattern "outbound %s retry method pattern is invalid: %w" pattern) (retry_Methods retry);
  _ ← checkf (brk_Enabled breaker && ((brk_FailureThreshold breaker =? 0)%Z || nonpositive (brk_OpenTimeout breaker)))
        "outbound %s breaker policy is invalid" [name];
  checkf (tls_Enabled tls && xorb (str_empty (tls_CertFile tls)) (str_empty (tls_KeyFile tls)))
        "outbound %s TLS certificate and key must be configured together" [name].

Definition float_zero : spec_float := S754_zero false.
Definition float_one : spec_float := S754_finite false (2 ^ 52) (-52).

(** The rules of the rate limiter, by the name the map literal gives them. *)
Definition rate_rules (c : Config) : gmap string RateLimitRule :=
  let r := c_RateLimit c in
  <["ip" := rl_IP r]> (<["api" := rl_API r]> (<["user" := rl_User r]> (<["login" := rl_Login r]> ∅))).

Definition event_bus_incomplete (e : EventBus) : bool :=
  no_items (eb_URLs e) || str_empty (eb_StreamName e) || no_items (eb_Subjects e)
  || (negb (String.eqb (eb_Storage e) "file") && negb (String.eqb (eb_Storage e) "memory"))
  || existsb nonpositive [eb_MaxAge e; eb_DuplicateWindow e; eb_ConnectTimeout e; eb_ReconnectWait e;
       eb_PublishTimeout e; eb_ConsumerAckWait e; eb_ConsumerAckTimeout e; eb_ConsumerHandlerTimeout e;
       eb_ConsumerRetryDelay e; eb_ConsumerMaxRetryDelay e; eb_ConsumerMaxDeliver e; eb_ConsumerMaxAckPending e]
  || str_empty (eb_DeadLetterSubject e)
  || existsb nonpositive [eb_DispatchInterval e; eb_DispatchBatchSize e; eb_DispatchLease e;
       eb_DispatchRetryDelay e; eb_PublishedRetention e; eb_CleanupInterval e; eb_CleanupBatchSize e].

Section validate.
Context {MR : MapRange}.

Definition Validate (c : Config) : res unit :=
  let production := String.eqb (app_Env (c_App c)) "production" in
  _ ← check (negb (MatchString validMigrationTable (db_Name (c_Database c))))
        "database.name must contain lowercase letters, digits, or underscores and be at most 63 characters";
  _ ← check (negb (str_empty (db_Schema (c_Database c)))
             && negb (MatchString validMigrationTable (db_Schema (c_Database c))))
        "database.schema must contain lowercase letters, digits, or underscores and be at most 63 characters";
  _ ← check (str_empty (http_Address (c_HTTP c))) "http.address is required";
  _ ← check (grpc_Enabled (c_GRPC c) && (str_empty (grpc_Address (c_GRPC c)) || nonpositive (grpc_MaxReceiveBytes (c_GRPC c))))
        "enabled grpc requires address and positive max_receive_bytes";
  _ ← check (gtls_Enabled (grpc_TLS (c_GRPC c))
             && (str_empty (gtls_CertFile (grpc_TLS (c_GRPC c))) || str_empty (gtls_KeyFile (grpc_TLS (c_GRPC c)))))
        "grpc tls requires cert_file and key_file";
  _ ← check (production && grpc_Enabled (c_GRPC c) && negb (gtls_Enabled (grpc_TLS (c_GRPC c))))
        "grpc tls must be enabled in production";
  _ ← check (production && grpc_ReflectionEnabled (c_GRPC c)) "grpc reflection must be disabled in production";
  _ ← check (db_Enabled (c_Database c) && (str_empty (db_DSN (c_Database c)) || negb (isDBType (db_Type (c_Database c)))))
        "enabled database requires dsn and type mysql, postgres, or kingbase";
  _ ← check (mig_AutoUp (c_Migration c)
             && (negb (db_Enabled (c_Database c)) || str_empty (mig_Path (c_Migration c))
                 || str_empty (mig_DatabaseURL (c_Migration c))
                 || negb (MatchString validMigrationTable (mig_Table (c_Migration c)))))
        "migration.auto_up requires enabled database, path, database_url, and a valid service-specific table";
  _ ← check (redis_Enabled (c_Redis c) && str_empty (redis_Address (c_Redis c))) "enabled redis requires address";
  _ ← check (nonpositive (http_RequestTimeout (c_HTTP c)) || nonpositive (health_DatabaseTimeout (c_Health c))
             || nonpositive (health_RedisTimeout (c_Health c))) "http and health timeouts must be positive";
  _ ← check (rl_Enabled (c_RateLimit c) && negb (redis_Enabled (c_Redis c))) "rate_limit requires redis.enabled";
  _ ← (if rl_Enabled (c_RateLimit c) then
         each (fun '(name, rule) =>
           checkf (nonpositive (rule_Rate rule) || nonpositive (rule_Burst rule) || nonpositive (rule_Period rule))
             "rate_limit.%s values must be positive" [name]) (range (rate_rules c))
       else Ok tt);
  _ ← check (cors_Enabled (http_CORS (c_HTTP c)) && no_items (cors_AllowedOrigins (http_CORS (c_HTTP c))))
        "cors.allowed_origins is required when cors is enabled";
  _ ← check (SFltb (obs_TracingSampleRatio (c_Observability c)) float_zero
             || SFltb float_one (obs_TracingSampleRatio (c_Observability c)))
        "observability.tracing_sample_ratio must be between 0 and 1";
  _ ← check (obs_TracingEnabled (c_Observability c) && str_empty (obs_TracingEndpoint (c_Observability c)))
        "observability.tracing_endpoint is required";
  _ ← check (obs_PprofEnabled (c_Observability c) && short (obs_PprofToken (c_Observability c)))
        "observability.pprof_token must contain at least 32 bytes";
  _ ← check (production && sw_Enabled (c_Swagger c) && negb (sw_RequireAuth (c_Swagger c)))
        "swagger.require_auth must be enabled in production";
  _ ← check (production && (str_empty (auth_JWKSURL (c_Auth c)) || str_empty (auth_Issuer (c_Auth c))
                            || str_empty (auth_Audience (c_Auth c))))
        "production authentication requires identity JWKS URL, issuer, and workflow-service audience";
  _ ← check (production && negb (az_Enabled (c_Authorization c))) "authorization must be enabled in production";
  _ ← check (az_Enabled (c_Authorization c) && negb (bool_decide (is_Some (out_GRPC (c_Outbound c) !! "authorization"))))
        "enabled authorization requires outbound.grpc.authorization";
  _ ← check (db_Enabled (c_Database c) && negb (bool_decide (is_Some (out_GRPC (c_Outbound c) !! "application"))))
        "enabled workflow database requires outbound.grpc.application";
  _ ← check ((negb (str_empty (auth_ClientID (c_Auth c))) || negb (str_empty (auth_ClientSecret (c_Auth c))))
             && short (jwt_Secret (c_JWT c))) "jwt.secret must contain at least 32 bytes when auth is enabled";
  _ ← check_paths "auth.skip_http_paths contains path outside /api %q"
        "auth.skip_http_paths contains invalid pattern %q: %w" (auth_SkipHTTPPaths (c_Auth c));
  _ ← check_methods "auth.skip_grpc_methods contains invalid method pattern %q"
        "auth.skip_grpc_methods contains invalid pattern %q: %w" (auth_SkipGRPCMethods (c_Auth c));
  _ ← check (psk_Enabled (auth_PSK (c_Auth c))
             && (short (psk_Key (auth_PSK (c_Auth c)))
                 || (no_items (psk_HTTPPaths (auth_PSK (c_Auth c))) && no_items (psk_GRPCMethods (auth_PSK (c_Auth c))))))
        "enabled auth.psk requires a key of at least 32 bytes and at least one route pattern";
  _ ← check_paths "auth.psk.http_paths contains path outside /api %q"
        "auth.psk.http_paths contains invalid pattern %q: %w" (psk_HTTPPaths (auth_PSK (c_Auth c)));
  _ ← check_methods "auth.psk.grpc_methods contains invalid method pattern %q"
        "auth.psk.grpc_methods contains invalid pattern %q: %w" (psk_GRPCMethods (auth_PSK (c_Auth c)));
  _ ← check (idem_Enabled (c_Idempotency c)
             && (negb (redis_Enabled (c_Redis c))
                 || (no_items (idem_HTTPPaths (c_Idempotency c)) && no_items (idem_GRPCMethods (c_Idempotency c)))
                 || nonpositive (idem_ProcessingTTL (c_Idempotency c)) || nonpositive (idem_ResultTTL (c_Idempotency c))
                 || nonpositive (idem_FailureTTL (c_Idempotency c))))
        "enabled idempotency requires redis, at least one route pattern, and positive TTL values";
  _ ← check_paths "idempotency.http_paths contains path outside /api %q"
        "idempotency.http_paths contains invalid pattern %q: %w" (idem_HTTPPaths (c_Idempotency c));
  _ ← check_methods "idempotency.grpc_methods contains invalid method pattern %q"
        "idempotency.grpc_methods contains invalid pattern %q: %w" (idem_GRPCMethods (c_Idempotency c));
  _ ← check (eb_Enabled (c_EventBus c) && event_bus_incomplete (c_EventBus c))
        "enabled event_bus requires URLs, stream, subjects, valid storage, positive timeouts, and max deliveries";
  _ ← check (eb_Enabled (c_EventBus c)
             && (eb_ConsumerAckWait (c_EventBus c) <=? eb_ConsumerHandlerTimeout (c_EventBus c))%Z)
        "event_bus.consumer_handler_timeout must be shorter than consumer_ack_wait";
  _ ← check (eb_Enabled (c_EventBus c)
             && (eb_ConsumerMaxRetryDelay (c_EventBus c) <? eb_ConsumerRetryDelay (c_EventBus c))%Z)
        "event_bus.consumer_retry_delay must not exceed consumer_max_retry_delay";
  _ ← check (tmp_Enabled (c_Temporal c)
             && (str_empty (tmp_HostPort (c_Temporal c)) || str_empty (tmp_Namespace (c_Temporal c))
                 || str_empty (tmp_TaskQueue (c_Temporal c)) || nonpositive (tmp_ConnectTimeout (c_Temporal c))
                 || nonpositive (tmp_WorkerStopTimeout (c_Temporal c))))
        "enabled temporal requires host_port, namespace, task_queue, and positive timeouts";
  _ ← check (tmp_Enabled (c_Temporal c) && (negb (db_Enabled (c_Database c)) || negb (eb_Enabled (c_EventBus c))))
        "enabled temporal requires database and event_bus";
  _ ← check (tls_Enabled (tmp_TLS (c_Temporal c))
             && xorb (str_empty (tls_CertFile (tmp_TLS (c_Temporal c)))) (str_empty (tls_KeyFile (tmp_TLS (c_Temporal c)))))
        "temporal TLS certificate and key must be configured together";
  _ ← check (nonpositive (ret_TaskHistory (c_Retention c)) || nonpositive (ret_CleanupInterval (c_Retention c))
             || nonpositive (ret_CleanupBatchSize (c_Retention c))) "workflow retention values must be positive";
  _ ← each (fun '(name, upstream) =>
        _ ← checkf (str_empty (hu_BaseURL upstream) || nonpositive (hu_Timeout upstream))
              "outbound.http.%s requires base_url and positive timeout" [name];
        validateClientPolicy name (hu_Auth upstream) (hu_Retry upstream) (hu_Breaker upstream) (hu_TLS upstream)
          production) (range (out_HTTP (c_Outbound c)));
  each (fun '(name, upstream) =>
        _ ← checkf (str_empty (gu_Target upstream) || nonpositive (gu_Timeout upstream))
              "outbound.grpc.%s requires target and positive timeout" [name];
        validateClientPolicy name (gu_Auth upstream) (gu_Retry upstream) (gu_Breaker upstream) (gu_TLS upstream)
          production) (range (out_GRPC (c_Outbound c))).
End validate.
End config.
