(* ===== verification/ConfigSpec.v ===== *)
(** * What an accepted configuration guarantees

    The consequences of [Validate] the rest of the service relies on. *)
From S2P Require Import Prelude GoStd Model Graph PathMatch Config.
From Stdlib Require Import Ascii String SpecFloat.
Local Open Scope string_scope.
Local Open Scope list_scope.
Import config.

(** ** Checks *)

Lemma check_Ok {A} b text (k : unit -> res A) x : (y ← check b text; k y) = Ok x -> b = false /\ k tt = Ok x.
Proof. by destruct b. Qed.
Lemma checkf_Ok {A} b f args (k : unit -> res A) x : (y ← checkf b f args; k y) = Ok x -> b = false /\ k tt = Ok x.
Proof. by destruct b. Qed.

Lemma each_Ok {A} (body : A -> res unit) l : each body l = Ok tt <-> Forall (fun x => body x = Ok tt) l.
Proof.
  induction l as [|x l IH]; cbn [each]; [split; [constructor|done]|]. rewrite Forall_cons, <- IH. split.
  - intros H. by apply res_bind_Ok in H as ([] & Hx & Hl).
  - intros [Hx Hl]. by rewrite Hx.
Qed.

Lemma range_lookup {MR : MapRange} {A} (m : gmap string A) k x : m !! k = Some x -> (k, x) ∈ range m.
Proof. intros H. rewrite (range_perm A m). by apply elem_of_map_to_list. Qed.

(** Peel the checks off a chain. *)
Ltac peel H := repeat first
  [ let Hb := fresh "Hb" in apply check_Ok in H as [Hb H]
  | let Hb := fresh "Hb" in apply checkf_Ok in H as [Hb H]
  | let Hb := fresh "Hb" in apply res_bind_Ok in H as ([] & Hb & H) ].

Lemma check_pattern_Ok format pattern : check_pattern format pattern = Ok tt ->
  forall name, path_Match pattern name <> None.
Proof.
  unfold check_pattern. destruct (path_Match pattern "/validation/target") eqn:H; [|done].
  intros _ name Hn. by rewrite (path_Match_bad _ _ "/validation/target" Hn) in H.
Qed.

(** ** Guarantees *)

(** A pattern the matcher can use on every name: it never is skipped as malformed. *)
Definition usable (pattern : string) : Prop := forall name, path_Match pattern name <> None.
Definition api_pattern (pattern : string) : Prop := HasPrefix pattern "/api/" = true /\ usable pattern.

Lemma check_paths_Ok o i l : check_paths o i l = Ok tt -> Forall api_pattern l.
Proof.
  unfold check_paths. intros Hl%each_Ok. apply (Forall_impl _ _ _ Hl). intros p H. peel H.
  split; [by apply negb_false_iff|exact (check_pattern_Ok _ _ H)].
Qed.
Lemma check_methods_Ok o i l : check_methods o i l = Ok tt -> Forall usable l.
Proof.
  unfold check_methods. intros Hl%each_Ok. apply (Forall_impl _ _ _ Hl). intros p H. peel H. exact (check_pattern_Ok _ _ H).
Qed.

(** The boolean checks as propositions. *)
Lemma bool_decide_lookup {A} (m : gmap string A) k : bool_decide (is_Some (m !! k)) = true -> is_Some (m !! k).
Proof. apply bool_decide_eq_true_1. Qed.

(** The policy of a client towards another service. *)
Record safe_client (production : bool) (auth : ClientAuth) (retry : Retry) (breaker : Breaker) (tls : ClientTLS) : Prop := {
  sc_credentials : ca_Type auth <> "" ->
    ca_Type auth ∈ ["bearer"; "psk"] /\ ca_Token auth <> "" /\
    (tls_Enabled tls = true \/ tls_AllowInsecure tls = true) /\ (production = true -> tls_Enabled tls = true);
  sc_retry : (1 <= retry_MaxAttempts retry <= 5 /\ 0 < retry_InitialBackoff retry <= retry_MaxBackoff retry)%Z;
  sc_methods : Forall usable (retry_Methods retry);
  sc_exclusive : tls_Enabled tls = true -> tls_AllowInsecure tls = false /\
    (tls_CertFile tls = "" <-> tls_KeyFile tls = "");
  sc_breaker : brk_Enabled breaker = true -> (brk_FailureThreshold breaker <> 0 /\ 0 < brk_OpenTimeout breaker)%Z
}.

Lemma nonpositive_false n : nonpositive n = false <-> (0 < n)%Z.
Proof. unfold nonpositive. lia. Qed.
Lemma short_false s : short s = false <-> 32 <= String.length s.
Proof. unfold short. apply Nat.ltb_ge. Qed.

(** Turn the checks that passed into propositions. *)
Ltac checks := bool_to_prop; repeat match goal with
  | H : nonpositive _ = false |- _ => apply nonpositive_false in H
  | H : short _ = false |- _ => apply short_false in H
  | H : str_empty _ = false |- _ => apply str_empty_false in H
  | H : (_ <=? _)%Z = false |- _ => apply Z.leb_gt in H
  | H : (_ <? _)%Z = false |- _ => apply Z.ltb_ge in H
  end.

Lemma validateClientPolicy_Ok name auth retry breaker tls production :
  validateClientPolicy name auth retry breaker tls production = Ok tt ->
  safe_client production auth retry breaker tls.
Proof.
  unfold validateClientPolicy, nonpositive. cbv zeta. intros H. peel H. split.
  - intros Hc. apply str_empty_false in Hc. rewrite Hc in *. cbn [negb andb] in *.
    split; [|split].
    + destruct (String.eqb_spec (ca_Type auth) "bearer") as [->|]; [by left|].
      destruct (String.eqb_spec (ca_Type auth) "psk") as [->|]; [by right; left|done].
    + by apply str_empty_false.
    + destruct (tls_Enabled tls), (tls_AllowInsecure tls), production; try done; split; auto.
  - bool_to_prop. lia.
  - match goal with Hm : each _ (retry_Methods retry) = _ |- _ => apply each_Ok in Hm; apply (Forall_impl _ _ _ Hm) end.
    intros p Hp. peel Hp. exact (check_pattern_Ok _ _ Hp).
  - intros Htls. rewrite Htls in *. cbn [andb negb] in *. split; [done|]. unfold str_empty in *.
    destruct (String.eqb_spec (tls_CertFile tls) ""), (String.eqb_spec (tls_KeyFile tls) ""); done.
  - intros Hbr. rewrite Hbr in *. cbn [andb] in *. bool_to_prop. lia.
Qed.

(** Production: what must be switched on. *)
Record production_safe (c : Config) : Prop := {
  ps_tls : grpc_Enabled (c_GRPC c) = true -> gtls_Enabled (grpc_TLS (c_GRPC c)) = true /\
    gtls_CertFile (grpc_TLS (c_GRPC c)) <> "" /\ gtls_KeyFile (grpc_TLS (c_GRPC c)) <> "";
  ps_reflection : grpc_ReflectionEnabled (c_GRPC c) = false;
  ps_swagger : sw_Enabled (c_Swagger c) = true -> sw_RequireAuth (c_Swagger c) = true;
  ps_identity : auth_JWKSURL (c_Auth c) <> "" /\ auth_Issuer (c_Auth c) <> "" /\ auth_Audience (c_Auth c) <> "";
  ps_authorization : az_Enabled (c_Authorization c) = true
}.

(** Always: what a component that is switched on needs. *)
Record configured (c : Config) : Prop := {
  cf_authorization : az_Enabled (c_Authorization c) = true -> is_Some (out_GRPC (c_Outbound c) !! "authorization");
  cf_application : db_Enabled (c_Database c) = true -> is_Some (out_GRPC (c_Outbound c) !! "application") /\
    db_DSN (c_Database c) <> "" /\ isDBType (db_Type (c_Database c)) = true;
  cf_rate_limit : rl_Enabled (c_RateLimit c) = true -> redis_Enabled (c_Redis c) = true /\
    Forall (fun r => 0 < rule_Rate r /\ 0 < rule_Burst r /\ 0 < rule_Period r)%Z
      [rl_IP (c_RateLimit c); rl_API (c_RateLimit c); rl_User (c_RateLimit c); rl_Login (c_RateLimit c)];
  cf_idempotency : idem_Enabled (c_Idempotency c) = true -> redis_Enabled (c_Redis c) = true /\
    (0 < idem_ProcessingTTL (c_Idempotency c) /\ 0 < idem_ResultTTL (c_Idempotency c) /\
     0 < idem_FailureTTL (c_Idempotency c))%Z;
  cf_temporal : tmp_Enabled (c_Temporal c) = true -> db_Enabled (c_Database c) = true /\ eb_Enabled (c_EventBus c) = true /\
    tmp_TaskQueue (c_Temporal c) <> "";
  cf_event_bus : eb_Enabled (c_EventBus c) = true ->
    (0 < eb_ConsumerHandlerTimeout (c_EventBus c) < eb_ConsumerAckWait (c_EventBus c) /\
     0 < eb_ConsumerRetryDelay (c_EventBus c) <= eb_ConsumerMaxRetryDelay (c_EventBus c) /\
     0 < eb_ConsumerMaxDeliver (c_EventBus c) /\ 0 < eb_DispatchInterval (c_EventBus c))%Z;
  cf_retention : (0 < ret_TaskHistory (c_Retention c) /\ 0 < ret_CleanupInterval (c_Retention c) /\
    0 < ret_CleanupBatchSize (c_Retention c))%Z;
  cf_psk : psk_Enabled (auth_PSK (c_Auth c)) = true -> 32 <= String.length (psk_Key (auth_PSK (c_Auth c)));
  cf_pprof : obs_PprofEnabled (c_Observability c) = true -> 32 <= String.length (obs_PprofToken (c_Observability c));
  cf_routes : Forall api_pattern (auth_SkipHTTPPaths (c_Auth c) ++ psk_HTTPPaths (auth_PSK (c_Auth c))
    ++ idem_HTTPPaths (c_Idempotency c));
  cf_methods : Forall usable (auth_SkipGRPCMethods (c_Auth c) ++ psk_GRPCMethods (auth_PSK (c_Auth c))
    ++ idem_GRPCMethods (c_Idempotency c));
  cf_grpc_tls : gtls_Enabled (grpc_TLS (c_GRPC c)) = true ->
    gtls_CertFile (grpc_TLS (c_GRPC c)) <> "" /\ gtls_KeyFile (grpc_TLS (c_GRPC c)) <> "";
  cf_temporal_tls : tls_Enabled (tmp_TLS (c_Temporal c)) = true ->
    (tls_CertFile (tmp_TLS (c_Temporal c)) = "" <-> tls_KeyFile (tmp_TLS (c_Temporal c)) = "")
}.

Lemma existsb_nonpositive l n : existsb nonpositive l = false -> n ∈ l -> (0 < n)%Z.
Proof.
  intros H Hin. destruct (Z.ltb_spec 0 n); [done|].
  assert (existsb nonpositive l = true); [|congruence]. apply existsb_exists. exists n.
  split; [by apply list_elem_of_In|]. unfold nonpositive. lia.
Qed.

Lemma event_bus_complete e : event_bus_incomplete e = false ->
  (0 < eb_ConsumerHandlerTimeout e /\ 0 < eb_ConsumerRetryDelay e /\ 0 < eb_ConsumerMaxDeliver e /\
   0 < eb_DispatchInterval e)%Z.
Proof.
  unfold event_bus_incomplete. intros H. bool_to_prop.
  repeat match goal with Hx : existsb nonpositive _ = false |- _ => pose proof (fun n => existsb_nonpositive _ n Hx); clear Hx end.
  assert (Hin : forall x (l : list Z), List.In x l -> x ∈ l) by (intros; by apply list_elem_of_In).
  repeat split; match goal with Hx : forall n, n ∈ _ -> _ |- (0 < ?x)%Z => apply (Hx x), Hin; simpl; tauto end.
Qed.

Lemma each_range {MR : MapRange} {A} (body : string * A -> res unit) (m : gmap string A) k x :
  each body (range m) = Ok tt -> m !! k = Some x -> body (k, x) = Ok tt.
Proof. intros H%each_Ok Hk. rewrite Forall_forall in H. by apply H, range_lookup. Qed.

Definition positive_rule (r : RateLimitRule) : Prop := (0 < rule_Rate r /\ 0 < rule_Burst r /\ 0 < rule_Period r)%Z.

Lemma rate_rules_Ok {MR : MapRange} (c : Config) (format : string) :
  each (fun '(name, rule) =>
    checkf (nonpositive (rule_Rate rule) || nonpositive (rule_Burst rule) || nonpositive (rule_Period rule))
      format [name]) (range (rate_rules c)) = Ok tt ->
  Forall positive_rule [rl_IP (c_RateLimit c); rl_API (c_RateLimit c); rl_User (c_RateLimit c); rl_Login (c_RateLimit c)].
Proof.
  intros H. assert (Hk : forall k r, rate_rules c !! k = Some r -> positive_rule r).
  { intros k r Hr. eapply each_range in H; [|exact Hr]. cbv beta iota in H. unfold checkf in H.
    destruct (_ || _) eqn:Hb in H; [done|]. checks. done. }
  unfold rate_rules in Hk. rewrite !Forall_cons, Forall_nil. split; [apply (Hk "ip"); reflexivity|].
  split; [apply (Hk "api"); reflexivity|]. split; [apply (Hk "user"); reflexivity|].
  split; [apply (Hk "login"); reflexivity|done].
Qed.

Section validated.
Context {MR : MapRange} (c : Config) (Hvalid : Validate c = Ok tt).

Lemma Validate_configured : configured c.
Proof.
  pose proof Hvalid as H. unfold Validate in H. cbv zeta in H. peel H.
  split; try (intros Ha; rewrite Ha in * ); cbn [andb] in *; checks; try done.
  - split; [done|]. by eapply rate_rules_Ok.
  - match goal with He : event_bus_incomplete _ = false |- _ => apply event_bus_complete in He end. lia.
  - rewrite !Forall_app. split; [|split]; by eapply check_paths_Ok.
  - rewrite !Forall_app. split; [|split]; by eapply check_methods_Ok.
  - unfold str_empty in *. destruct (String.eqb_spec (tls_CertFile (tmp_TLS (c_Temporal c))) ""),
      (String.eqb_spec (tls_KeyFile (tmp_TLS (c_Temporal c))) ""); done.
Qed.

Lemma Validate_production : app_Env (c_App c) = "production" -> production_safe c.
Proof.
  pose proof Hvalid as H. unfold Validate in H. cbv zeta in H. peel H.
  intros Hp. apply String.eqb_eq in Hp. rewrite Hp in *. cbn [andb] in *.
  split; try (intros Ha; rewrite Ha in * ); cbn [andb negb] in *; checks; try done.
  match goal with Hg : gtls_Enabled _ = true |- _ => rewrite Hg in * end. cbn [andb] in *. checks. done.
Qed.

Definition in_production : bool := String.eqb (app_Env (c_App c)) "production".

Lemma Validate_http name u : out_HTTP (c_Outbound c) !! name = Some u ->
  hu_BaseURL u <> "" /\ (0 < hu_Timeout u)%Z /\
  safe_client in_production (hu_Auth u) (hu_Retry u) (hu_Breaker u) (hu_TLS u).
Proof.
  pose proof Hvalid as H. unfold Validate in H. cbv zeta in H. peel H. intros Hu.
  match goal with Hf : each _ (range (out_HTTP _)) = _ |- _ =>
    eapply each_range in Hf; [|exact Hu]; cbv beta iota in Hf; apply checkf_Ok in Hf as [Hu' Hf]; checks end.
  split; [done|]. split; [done|]. by eapply validateClientPolicy_Ok.
Qed.

Lemma Validate_grpc name u : out_GRPC (c_Outbound c) !! name = Some u ->
  gu_Target u <> "" /\ (0 < gu_Timeout u)%Z /\
  safe_client in_production (gu_Auth u) (gu_Retry u) (gu_Breaker u) (gu_TLS u).
Proof.
  pose proof Hvalid as H. unfold Validate in H. cbv zeta in H. peel H. intros Hu.
  eapply each_range in H; [|exact Hu]. cbv beta iota in H. apply checkf_Ok in H as [Hu' H]. checks.
  split; [done|]. split; [done|]. by eapply validateClientPolicy_Ok.
Qed.
End validated.


Module Production.
Import config.

Definition key32 : string := "0123456789abcdef0123456789abcdef".
Definition upstream (type token : string) : GRPCUpstream :=
  mkGRPCUpstream "dns:///platform:9090" 2000000000 (mkClientAuth type token)
    (mkRetry 3 50000000 1000000000 ["/platform.authorization.v1.AuthorizationService/*"])
    (mkBreaker true 5 10000000000) (mkClientTLS true false "platform" "/etc/ca.pem" "" "").

(** A production configuration with everything switched on. *)
Definition sample : Config := mkConfig
  (mkRuntime "production" []) (mkApp "workflow-service" "" "production" 10000000000)
  (mkHTTP "0.0.0.0:8080" 10000000000 15000000000 60000000000 10000000000 1048576 []
     (mkCORS true ["https://app.example.com"] ["Authorization"] ["X-Request-ID"] 43200000000000))
  (mkGRPC true "0.0.0.0:9090" false 16777216 (mkGRPCTLS true "/etc/tls.crt" "/etc/tls.key" ""))
  (mkLog "info" "json" "" 100 10 30 true)
  (mkDatabase true "platform" "workflow" "postgres" "postgres://db" 25 10 300000000000 60000000000 5000000000)
  (mkRedis true "redis:6379" "" "" 0 5000000000 3000000000 3000000000)
  (mkHealth 2000000000 2000000000)
  (mkRateLimit true false (mkRateLimitRule 120 30 60000000000) (mkRateLimitRule 10000 1000 60000000000)
     (mkRateLimitRule 600 100 60000000000) (mkRateLimitRule 10 3 60000000000))
  (mkObservability true true "http://otel:4318" (S754_finite false (2 ^ 52) (-54)) true key32)
  (mkSwagger true true) (mkJWT "workflow-service" "" 7200000000000)
  (mkAuth "" "" "https://identity/jwks" "identity-service" "workflow-service" ["/api/v1/version"]
     ["/grpc.health.v1.Health/*"] (mkPSK true key32 ["/api/v1/workflow/*"] []))
  (mkAuthorization true)
  (mkMigration true false "migrations/postgres" "postgres://db" "workflow_schema_migrations" "workflow" "platform")
  (mkIdempotency true ["/api/v1/workflow/instances/start"] [] 30000000000 86400000000000 300000000000)
  (mkOutbound ∅ (<["authorization" := upstream "" ""]> (<["application" := upstream "psk" key32]> ∅)))
  (mkEventBus true ["nats://nats:4222"] "PLATFORM_EVENTS" ["platform.>"] "file" 604800000000000 600000000000
     5000000000 1000000000 5000000000 30000000000 5000000000 25000000000 1000000000 60000000000 10 64
     "platform.system.event.dead-lettered.v1" 250000000 100 30000000000 5000000000 1209600000000000
     3600000000000 500)
  (mkTemporal true "temporal:7233" "default" "workflow-service" 5000000000 10000000000
     (mkClientTLS false false "" "" "" ""))
  (mkRetention 31536000000000000 3600000000000 500).

Example bracket_list : stringToStringSlice "['a', b ,c]" = ["a"; "b"; "c"]. Proof. reflexivity. Qed.
Example profile_path : profileConfigPath "configs/config.yaml" "production" = "configs/config-production.yaml".
Proof. reflexivity. Qed.
(** The sampling ratio 1.5 is refused. *)
Example ratio_above_one : SFltb float_one (S754_finite false (3 * 2 ^ 51) (-52)) = true. Proof. reflexivity. Qed.

Lemma config_accepted : Validate sample = Ok tt.
Proof. vm_compute. reflexivity. Qed.

End Production.
