(* ===== verification/Database.v ===== *)
(** * The database: connections, transactions and migrations
      (internal/database, internal/migration)

    Opening the pool, the transactor, the rewriting of the migration URL, and the
    creation of the schema as a log of statements any of which may fail. *)
From S2P Require Import Prelude GoStd Model Graph World PathMatch Config ConfigSpec.
From Stdlib Require Import Ascii String.
Local Open Scope string_scope.
Local Open Scope list_scope.

(** ** Opening the pool (internal/database/database.go) *)

Definition driverName (dbType : string) : res string :=
  if String.eqb dbType "mysql" then Ok "mysql"
  else if String.eqb dbType "postgres" || String.eqb dbType "kingbase" then Ok "pgx"
  else Err (Errorf "unsupported database type %q" [dbType]).

(** What the code sets of the drivers' configurations; [rest] is the remaining part. *)
Record PgxConfig (Rest : Type) : Type := mkPgxConfig {
  pgx_Database : string; pgx_RuntimeParams : gmap string string; pgx_rest : Rest
}.
Arguments mkPgxConfig {Rest} _ _ _.
Arguments pgx_Database {Rest} _.
Arguments pgx_RuntimeParams {Rest} _.
Arguments pgx_rest {Rest} _.
Record MysqlConfig (Rest : Type) : Type := mkMysqlConfig {
  my_DBName : string; my_ParseTime : bool; my_Loc : string; my_rest : Rest
}.
Arguments mkMysqlConfig {Rest} _ _ _ _.
Arguments my_DBName {Rest} _.
Arguments my_ParseTime {Rest} _.
Arguments my_Loc {Rest} _.
Arguments my_rest {Rest} _.

(** The drivers, the time zone database, and whether the server answers in time. *)
Class Drivers := {
  PgxRest : Type;
  MysqlRest : Type;
  pgx_ParseConfig : string -> res (PgxConfig PgxRest);
  mysql_ParseDSN : string -> res (MysqlConfig MysqlRest);
  LoadLocation : string -> res string;
  mysql_open : MysqlConfig MysqlRest -> res unit;       (** [sqlx.Open] of the formatted DSN *)
  ping_pgx : PgxConfig PgxRest -> Z -> res unit;
  ping_mysql : MysqlConfig MysqlRest -> Z -> res unit
}.

Definition timezone : string := "Asia/Shanghai".

Section open.
Context {DR : Drivers}.

Inductive Connection : Type :=
| Pgx (c : PgxConfig PgxRest)
| Mysql (c : MysqlConfig MysqlRest).

(** The pool and its limits. *)
Record Pool : Type := mkPool {
  pool_Connection : Connection; pool_MaxOpenConns : Z; pool_MaxIdleConns : Z;
  pool_ConnMaxLifetime : Z; pool_ConnMaxIdleTime : Z
}.

Definition wrap_res {A} (format : string) (r : res A) : res A :=
  match r with Ok a => Ok a | Err e => Err (Wrap format [] e) end.

Definition pgx_connection (cfg : config.Database) (c : PgxConfig PgxRest) : PgxConfig PgxRest :=
  let database := if negb (str_empty (config.db_Name cfg)) then config.db_Name cfg else pgx_Database c in
  let params := if negb (str_empty (config.db_Schema cfg))
                then <["search_path" := config.db_Schema cfg]> (pgx_RuntimeParams c) else pgx_RuntimeParams c in
  mkPgxConfig database (<["timezone" := timezone]> params) (pgx_rest c).

Definition mysql_connection (cfg : config.Database) (location : string) (c : MysqlConfig MysqlRest) : MysqlConfig MysqlRest :=
  mkMysqlConfig (if negb (str_empty (config.db_Name cfg)) then config.db_Name cfg else my_DBName c) true location (my_rest c).

Definition connect (cfg : config.Database) (driver : string) : res Connection :=
  if String.eqb driver "pgx" then
    c ← wrap_res "parse database dsn: %w" (pgx_ParseConfig (config.db_DSN cfg));
    Ok (Pgx (pgx_connection cfg c))
  else if String.eqb driver "mysql" then
    c ← wrap_res "parse database dsn: %w" (mysql_ParseDSN (config.db_DSN cfg));
    location ← wrap_res "load database timezone: %w" (LoadLocation timezone);
    let c := mysql_connection cfg location c in
    _ ← wrap_res "open database: %w" (mysql_open c);
    Ok (Mysql c)
  else
    (** [sqlx.Open] of a driver nobody registered *)
    Err (Wrap "open database: %w" [] (Foreign (OtherError "sql: unknown driver"))).

Definition ping (c : Connection) (timeout : Z) : res unit :=
  match c with Pgx p => ping_pgx p timeout | Mysql m => ping_mysql m timeout end.

Definition Open (cfg : config.Database) : res Pool :=
  driver ← driverName (config.db_Type cfg);
  c ← connect cfg driver;
  _ ← wrap_res "ping database: %w" (ping c (config.db_PingTimeout cfg));
  Ok (mkPool c (config.db_MaxOpenConns cfg) (config.db_MaxIdleConns cfg) (config.db_ConnMaxLifetime cfg)
        (config.db_ConnMaxIdleTime cfg)).

(** The database, the schema and the time zone of every session of a pool. *)
Definition session_of (cfg : config.Database) (p : Pool) : Prop :=
  match pool_Connection p with
  | Pgx c => pgx_Database c = config.db_Name cfg /\ pgx_RuntimeParams c !! "timezone" = Some timezone /\
      (config.db_Schema cfg <> "" -> pgx_RuntimeParams c !! "search_path" = Some (config.db_Schema cfg))
  | Mysql c => my_DBName c = config.db_Name cfg /\ my_ParseTime c = true /\ LoadLocation timezone = Ok (my_Loc c)
  end.
End open.

(** ** The transactor (internal/database/transaction.go) *)

Section transactor.
Context {Event : Type} {E : Env}.

(** [tx.Rollback()], which may fail although the transaction is gone. *)
Context (rollback_error : nat -> option error) (text : error -> string).

Definition Within {A} (enabled : bool) (fn : M Event A) : M Event A := fun w =>
  if negb enabled then (Err (ErrorNew "begin transaction: database is disabled"), w)
  else match query (fun _ => Ok tt) w with
       | (Err e, w1) => (Err (Wrap "begin transaction: %w" [] e), w1)
       | (Ok _, w1) =>
           match fn w1 with
           | (Err e, w2) =>
               (match rollback_error (w_tick w2) with
                | Some rollbackErr => Err (Wrap "rollback transaction after %v: %w" [text e] rollbackErr)
                | None => Err e
                end, mkWorld (w_db w1) (w_tick w2))
           | (Ok a, w2) =>
               match query (fun _ => Ok tt) w2 with
               | (Err e, w3) => (Err (Wrap "commit transaction: %w" [] e), mkWorld (w_db w1) (w_tick w3))
               | (Ok _, w3) => (Ok a, w3)
               end
           end
       end.
End transactor.

(** ** The migration URL (internal/migration/migration.go) *)

(** [strings.IndexByte(s, '?')]: what is before it, and from it on. *)
Fixpoint cut_query (s : string) : string * string :=
  match s with
  | EmptyString => ("", "")
  | String c s' => if Ascii.eqb c "?" then ("", s) else let '(a, b) := cut_query s' in (String c a, b)
  end.

(** [strings.LastIndex(s, "/")]: the text up to and with the last slash. *)
Fixpoint upto_slash (s : string) : option string :=
  match s with
  | EmptyString => None
  | String c s' =>
      match upto_slash s' with
      | Some a => Some (String c a)
      | None => if Ascii.eqb c "/" then Some (String c "") else None
      end
  end.

(** [url.QueryEscape] *)
Definition hex_digit (n : N) : ascii := ascii_of_N (if n <? 10 then 48 + n else 55 + n)%N.
Definition query_unreserved (c : ascii) : bool := is_letter c || is_digit c || byte_in "-_.~" c.
Fixpoint QueryEscape (s : string) : string :=
  match s with
  | EmptyString => ""
  | String c s' =>
      if Ascii.eqb c " " then String "+" (QueryEscape s')
      else if query_unreserved c then String c (QueryEscape s')
      else String "%" (String (hex_digit (N_of_ascii c / 16)) (String (hex_digit (N_of_ascii c mod 16)) (QueryEscape s')))
  end.

(** [net/url]: the parts of a URL the code changes; [rest] is the remaining part. *)
Record Url (Rest : Type) : Type := mkUrl { u_Path : string; u_Query : gmap string (list string); u_rest : Rest }.
Arguments mkUrl {Rest} _ _ _.
Arguments u_Path {Rest} _.
Arguments u_Query {Rest} _.
Arguments u_rest {Rest} _.
Class UrlParser := {
  UrlRest : Type;
  url_Parse : string -> res (Url UrlRest);
  url_String : Url UrlRest -> string
}.

Section migration.
Context {UP : UrlParser}.

Definition with_mysql_name (databaseURL databaseName : string) : res string :=
  if str_empty databaseName then Ok databaseURL
  else
    let '(path, query) := cut_query databaseURL in
    match upto_slash path with
    | None => Err (ErrorNew "mysql migration URL is missing database path")
    | Some prefix => Ok (prefix +:+ databaseName +:+ query)
    end.

Definition withMigrationOptions (databaseURL databaseName table schema : string) : res string :=
  if str_empty databaseName && str_empty table && str_empty schema then Ok databaseURL
  else if HasPrefix databaseURL "mysql://" then
    databaseURL ← with_mysql_name databaseURL databaseName;
    if str_empty table then Ok databaseURL
    else
      let separator := if negb (str_empty (snd (cut_query databaseURL))) then "&" else "?" in
      Ok (databaseURL +:+ separator +:+ "x-migrations-table=" +:+ QueryEscape table)
  else
    parsed ← wrap_res "parse migration database URL: %w" (url_Parse databaseURL);
    let query := u_Query parsed in
    let path := if negb (str_empty databaseName) then "/" +:+ databaseName else u_Path parsed in
    let query := if negb (str_empty table) then <["x-migrations-table" := [table]]> query else query in
    let query := if negb (str_empty schema) then <["search_path" := [schema]]> query else query in
    Ok (url_String (mkUrl path query (u_rest parsed))).

(** *** Statements *)

(** What has been done on the connection, and whether it worked. *)
Inductive Statement : Type :=
| SBegin
| SExec (text : string) (args : list string)
| SCommit
| SRollback.

(** Any statement may fail, whatever happened before. *)
Class SqlServer := {
  sql_Open : string -> res unit;
  sql_run : list (Statement * bool) -> Statement -> option error
}.
Context {SS : SqlServer}.
Abbreviation S := (stE (list (Statement * bool)) error).

Definition statement (s : Statement) : S unit := fun log =>
  match sql_run log s with
  | Some err => (Err err, log ++ [(s, false)])
  | None => (Ok tt, log ++ [(s, true)])
  end.

Definition wrapping_args {A} (format : string) (args : list string) (m : S A) : S A := fun log =>
  match m log with (Ok a, l) => (Ok a, l) | (Err e, l) => (Err (Wrap format args e), l) end.
Definition wrapping_sql {A} (format : string) : S A -> S A := wrapping_args format [].

(** [defer func() { if err != nil { _ = tx.Rollback() } }()] *)
Definition or_rollback {A} (m : S A) : S A := fun log =>
  match m log with
  | (Ok a, l) => (Ok a, l)
  | (Err e, l) => (Err e, (statement SRollback l).2)
  end.

Definition quote : string := String "034" "".
Definition quoted_schema (schema : string) : string := "CREATE SCHEMA IF NOT EXISTS " +:+ quote +:+ schema +:+ quote.

Definition createSchema (schema : string) : S unit :=
  _ ← wrapping_sql "begin schema creation: %w" (statement SBegin);
  or_rollback (
    _ ← wrapping_sql "lock schema creation: %w"
          (statement (SExec "SELECT pg_advisory_xact_lock(hashtext($1))" ["workflow-service:schema:" +:+ schema]));
    _ ← wrapping_sql "execute schema creation: %w" (statement (SExec (quoted_schema schema) []));
    wrapping_sql "commit schema creation: %w" (statement SCommit)).

(** The pattern of [ensureSchema] is [validMigrationTable]'s of package config. *)
Definition schemaPattern : regexp :=
  RSeq (RCls is_lower) (RUpTo 62 (RCls (fun c => is_lower c || is_digit c || byte_in "_" c))).

Definition ensureSchema (cfg : config.Migration) (databaseURL : string) : S unit :=
  if negb (config.mig_CreateSchema cfg) || str_empty (config.mig_Schema cfg)
     || HasPrefix (config.mig_DatabaseURL cfg) "mysql://" then mret tt
  else if negb (MatchString schemaPattern (config.mig_Schema cfg)) then throw (ErrorNew "invalid migration schema")
  else
    parsed ← lift (wrap_res "parse database URL for schema creation: %w" (url_Parse databaseURL));
    let url := url_String (mkUrl (u_Path parsed) (delete "x-migrations-table" (u_Query parsed)) (u_rest parsed)) in
    _ ← lift (wrap_res "open database to create schema: %w" (sql_Open url));
    wrapping_args "create migration schema %q: %w" [config.mig_Schema cfg] (createSchema (config.mig_Schema cfg)).

(** *** Running the migrations *)

(** [golang-migrate]: a migrator of a source and a database, what a run ends with
    ([None]: nothing to do or done), and what closing its two ends ends with. *)
Class MigrateLibrary := {
  mg_Abs : string -> res string;
  mg_source : string -> string;                    (** the file URL of a path *)
  mg_New : string -> string -> res unit;
  mg_Steps : Z -> option error;
  mg_Down : option error;
  mg_Up : option error;
  mg_Close : option error * option error;
  mg_NoChange : error -> bool                      (** [errors.Is(err, migrate.ErrNoChange)] *)
}.
Context {ML : MigrateLibrary}.

(** [errors.Join]: the list of the errors, none for nil. *)
Definition join (joined : list error) (format : string) (e : option error) : list error :=
  match e with Some err => joined ++ [Wrap format [] err] | None => joined end.

Definition Run (cfg : config.Migration) (direction : string) (steps : Z) (log : list (Statement * bool)) :
  list error * list (Statement * bool) :=
  if str_empty (config.mig_DatabaseURL cfg) then ([ErrorNew "migration.database_url is required"], log)
  else match mg_Abs (config.mig_Path cfg) with
  | Err err => ([Wrap "resolve migration path: %w" [] err], log)
  | Ok absPath =>
      match withMigrationOptions (config.mig_DatabaseURL cfg) (config.mig_DatabaseName cfg) (config.mig_Table cfg)
              (config.mig_Schema cfg) with
      | Err err => ([err], log)
      | Ok databaseURL =>
          match ensureSchema cfg databaseURL log with
          | (Err err, log) => ([err], log)
          | (Ok _, log) =>
              match mg_New (mg_source absPath) databaseURL with
              | Err err => ([Wrap "create migrator: %w" [] err], log)
              | Ok _ =>
                  let err := if negb (steps =? 0)%Z then mg_Steps steps
                             else if String.eqb direction "down" then mg_Down else mg_Up in
                  let ran := match err with
                             | Some err => if mg_NoChange err then [] else [Wrap "run migration: %w" [] err]
                             | None => []
                             end in
                  let '(sourceErr, databaseErr) := mg_Close in
                  (join (join ran "close migration source: %w" sourceErr) "close migration database: %w" databaseErr, log)
              end
          end
      end
  end.
End migration.

(** ** Names *)

(** A lowercase letter, then at most 62 lowercase letters, digits or underscores. *)
Definition name_tail (c : ascii) : bool := is_lower c || is_digit c || byte_in "_" c.

Lemma migration_name s : MatchString schemaPattern s = true <->
  exists c t, s = String c t /\ is_lower c = true /\ str_forall name_tail t = true /\ String.length t <= 62.
Proof.
  unfold schemaPattern. destruct s as [|c t]; [split; [done|by intros (? & ? & ? & _)]|].
  cbn [MatchString deriv nullable]. destruct (is_lower c) eqn:Hc; cbn [mk_seq].
  - rewrite MatchString_upto. split.
    + intros [Hl Hf]%andb_prop. exists c, t. split; [done|]. split; [done|]. split; [done|]. by apply Nat.leb_le.
    + intros (c' & t' & [= <- <-] & _ & Hf & Hl). apply andb_true_intro. split; [by apply Nat.leb_le|done].
  - rewrite MatchString_none. split; [done|]. intros (c' & t' & [= <- <-] & Hc' & _). congruence.
Qed.

Lemma name_tail_unreserved c : name_tail c = true -> query_unreserved c = true /\ Ascii.eqb c " " = false /\ Ascii.eqb c "034" = false.
Proof. destruct c as [[] [] [] [] [] [] [] []]; vm_compute; auto; discriminate. Qed.
Lemma lower_tail c : is_lower c = true -> name_tail c = true.
Proof. intros H. unfold name_tail. by rewrite H. Qed.

Lemma QueryEscape_tail s : str_forall name_tail s = true -> QueryEscape s = s.
Proof.
  induction s as [|c s IH]; [done|]. intros [Hc Hs]%andb_prop.
  destruct (name_tail_unreserved c Hc) as (Hu & Hsp & _). cbn [QueryEscape]. by rewrite Hsp, Hu, IH.
Qed.

Lemma valid_name_tail s : MatchString schemaPattern s = true -> str_forall name_tail s = true.
Proof. intros (c & t & -> & Hc & Ht & _)%migration_name. simpl. by rewrite (lower_tail c Hc), Ht. Qed.

(** ** What the parts guarantee *)

(** *** Connections *)

Lemma Open_session {DR : Drivers} c : config.Validate c = Ok tt ->
  config.db_Enabled (config.c_Database c) = true ->
  match Open (config.c_Database c) with
  | Ok p => session_of (config.c_Database c) p /\ pool_MaxOpenConns p = config.db_MaxOpenConns (config.c_Database c)
  | Err e => exists format err, e = Wrap format [] err
  end.
Proof.
  intros Hv Hon. destruct (cf_application _ (Validate_configured c Hv) Hon) as (_ & _ & Hty).
  assert (Hname : config.db_Name (config.c_Database c) <> "").
  { intros Hn. unfold config.Validate in Hv. apply check_Ok in Hv as [Hv _]. rewrite Hn in Hv. discriminate. }
  apply str_empty_false in Hname. revert Hname Hty. generalize (config.c_Database c) as cfg. intros cfg Hname Hty.
  assert (Hd : exists d, driverName (config.db_Type cfg) = Ok d /\ (d = "mysql" \/ d = "pgx")).
  { unfold driverName, config.isDBType in *. destruct (String.eqb (config.db_Type cfg) "mysql"); [by eexists; split; [|left]|].
    cbn [orb] in Hty. rewrite Hty. by eexists; split; [|right]. }
  destruct Hd as (d & Hd & Hor). unfold Open. rewrite Hd. cbn [mbind result_bind].
  destruct (connect cfg d) as [conn|e] eqn:Hc; cbn [mbind result_bind].
  - unfold wrap_res. destruct (ping conn _); [|by eexists _, _]. cbn. split; [|done].
    unfold connect, wrap_res in Hc. unfold session_of. cbn [pool_Connection].
    destruct Hor as [->| ->]; cbn [String.eqb Ascii.eqb Bool.eqb mbind result_bind] in Hc.
    + apply res_bind_Ok in Hc as (m & Hm & Hc). apply res_bind_Ok in Hc as (loc & Hloc & Hc).
      destruct (LoadLocation timezone) as [loc'|]; [injection Hloc as <-|done].
      apply res_bind_Ok in Hc as (? & _ & [= <-]). cbn. by rewrite Hname.
    + apply res_bind_Ok in Hc as (p & Hp & [= <-]). cbn. rewrite Hname. split; [done|]. split; [by rewrite lookup_insert_eq|].
      intros Hs. apply str_empty_false in Hs. rewrite Hs. cbn. by rewrite lookup_insert_ne, lookup_insert_eq.
  - unfold connect, wrap_res in Hc. destruct Hor as [->| ->]; cbn [String.eqb Ascii.eqb Bool.eqb] in Hc.
    + destruct (mysql_ParseDSN _); cbn [mbind result_bind] in Hc; [|injection Hc as <-; by eexists _, _].
      destruct (LoadLocation _); cbn [mbind result_bind] in Hc; [|injection Hc as <-; by eexists _, _].
      destruct (mysql_open _); cbn [mbind result_bind] in Hc; [done|injection Hc as <-; by eexists _, _].
    + destruct (pgx_ParseConfig _); cbn [mbind result_bind] in Hc; [done|injection Hc as <-; by eexists _, _].
Qed.

(** *** Transactions *)

(** The transactor is the transaction of the repository's own methods, when the
    rollback does not report an error itself; and it is atomic in any case. *)
Lemma Within_transaction {Event : Type} {E : Env} text {A} (fn : M Event A) w :
  Within (fun _ => None) text true fn w
  = transaction "begin transaction: %w" "commit transaction: %w" (a ← fn; mret (Committed a)) w.
Proof.
  unfold Within, transaction, mbind, stE_bind. cbn [negb]. destruct (query _ w) as [[u|e] w1]; [|done].
  by destruct (fn w1) as [[a|e] w2].
Qed.

Lemma Within_atomic {Event : Type} {E : Env} rollback_error text enabled {A} (fn : M Event A) w :
  match Within rollback_error text enabled fn w with
  | (Ok a, w') => exists w1 w2, w_db w1 = w_db w /\ fn w1 = (Ok a, w2) /\ w_db w' = w_db w2
  | (Err _, w') => w_db w' = w_db w
  end.
Proof.
  assert (Hq : forall w0 : World Event, w_db (query (fun _ => Ok tt) w0).2 = w_db w0)
    by (intros w0; unfold query, exec; by destruct (env_fault _)).
  unfold Within. destruct enabled; [|done]. cbn [negb]. pose proof (Hq w) as Hw.
  destruct (query _ w) as [[u|e] w1]; cbn [snd] in Hw; [|done].
  destruct (fn w1) as [[a|e] w2] eqn:Hfn; [|by destruct (rollback_error _)].
  pose proof (Hq w2) as Hw2. destruct (query _ w2) as [[u'|e] w3]; cbn [snd] in Hw2; [by exists w1, w2|done].
Qed.

(** *** Migrations *)

Definition without (c : ascii) (s : string) : bool := str_forall (fun d => negb (Ascii.eqb d c)) s.

Lemma cut_query_app a q : without "?" a = true -> (q = "" \/ HasPrefix q "?" = true) -> cut_query (a +:+ q) = (a, q).
Proof.
  intros Ha Hq. induction a as [|c a IH]; cbn [String.append].
  - destruct Hq as [->|Hq]; [done|]. destruct q as [|d q]; [done|]. cbn [HasPrefix] in Hq.
    apply andb_prop in Hq as [Hq%Ascii.eqb_eq _]. by subst d.
  - unfold without in *. cbn [str_forall String.append] in Ha. apply andb_prop in Ha as [Hc%negb_true_iff Ha].
    change (cut_query (String c (a +:+ q)) = (String c a, q)). cbn [cut_query]. by rewrite Hc, IH.
Qed.

Lemma upto_slash_app a old : without "/" old = true -> upto_slash (a +:+ String "/" old) = Some (a +:+ "/").
Proof.
  intros Ho. induction a as [|c a IH].
  - change (upto_slash (String "/" old) = Some (String "/" "")). cbn [upto_slash].
    replace (upto_slash old) with (@None string); [done|]. unfold without in Ho.
    induction old as [|d old IH]; [done|]. cbn [str_forall] in Ho.
    apply andb_prop in Ho as [Hd%negb_true_iff Ho]. cbn [upto_slash]. by rewrite <- (IH Ho), Hd.
  - change (upto_slash (String c (a +:+ String "/" old)) = Some (String c (a +:+ "/"))). cbn [upto_slash]. by rewrite IH.
Qed.

Lemma HasPrefix_app a b : HasPrefix (a +:+ b) a = true.
Proof. induction a as [|c a IH]; [by destruct b|].
  change (Ascii.eqb c c && HasPrefix (a +:+ b) a = true). by rewrite Ascii.eqb_refl. Qed.
Lemma without_app c a b : without c (a +:+ b) = without c a && without c b.
Proof. induction a as [|x a IH]; [done|].
  change (negb (Ascii.eqb x c) && without c (a +:+ b) = negb (Ascii.eqb x c) && without c a && without c b).
  by rewrite IH, andb_assoc. Qed.
Lemma append_empty (a b : string) : str_empty (a +:+ b) = str_empty a && str_empty b.
Proof. by destruct a. Qed.

(** The statements of [createSchema], and how it ends. *)
Definition lock_of (schema : string) : Statement :=
  SExec "SELECT pg_advisory_xact_lock(hashtext($1))" ["workflow-service:schema:" +:+ schema].
Inductive created (schema : string) : bool -> list (Statement * bool) -> Prop :=
| cr_begin : created schema false [(SBegin, false)]
| cr_lock b : created schema false [(SBegin, true); (lock_of schema, false); (SRollback, b)]
| cr_create b : created schema false [(SBegin, true); (lock_of schema, true); (SExec (quoted_schema schema) [], false); (SRollback, b)]
| cr_commit b : created schema false [(SBegin, true); (lock_of schema, true); (SExec (quoted_schema schema) [], true);
                                      (SCommit, false); (SRollback, b)]
| cr_done : created schema true [(SBegin, true); (lock_of schema, true); (SExec (quoted_schema schema) [], true); (SCommit, true)].

Section migrations.
Context {UP : UrlParser} {SS : SqlServer}.

Lemma createSchema_created schema log : exists l,
  (createSchema schema log).2 = log ++ l /\ created schema (is_ok (createSchema schema log).1) l.
Proof.
  unfold createSchema, or_rollback, wrapping_sql, wrapping_args, mbind, stE_bind, statement.
  destruct (sql_run log SBegin) as [e|]; [eexists; split; [done|constructor]|]. cbn [fst snd]. fold (lock_of schema).
  set (l1 := log ++ [(SBegin, true)]). destruct (sql_run l1 (lock_of schema)) as [e|].
  { destruct (sql_run _ SRollback); eexists; (split; [unfold l1; cbn [fst snd]; by rewrite <- !app_assoc|constructor]). }
  set (l2 := l1 ++ [(lock_of schema, true)]). destruct (sql_run l2 (SExec (quoted_schema schema) [])) as [e|].
  { destruct (sql_run _ SRollback); eexists; (split; [unfold l2, l1; cbn [fst snd]; by rewrite <- !app_assoc|constructor]). }
  set (l3 := l2 ++ [(SExec (quoted_schema schema) [], true)]). destruct (sql_run l3 SCommit) as [e|].
  { destruct (sql_run _ SRollback); eexists; (split; [unfold l3, l2, l1; cbn [fst snd]; by rewrite <- !app_assoc|constructor]). }
  eexists. split; [unfold l3, l2, l1; cbn [fst snd]; by rewrite <- !app_assoc|constructor].
Qed.

(** The schema is created by these statements or not at all, and a name that
    configuration accepts never is refused. *)
Lemma ensureSchema_created m url log : m.(config.mig_Schema) <> "" -> MatchString schemaPattern (config.mig_Schema m) = true ->
  let run := ensureSchema m url log in
  run.2 = log \/ exists l, run.2 = log ++ l /\ created (config.mig_Schema m) (is_ok run.1) l.
Proof.
  cbv zeta. intros Hne Hm. unfold ensureSchema. destruct (_ || _); [by left|]. rewrite Hm. cbn [negb].
  unfold mbind, stE_bind, lift. destruct (wrap_res _ (url_Parse url)) as [parsed|e]; [|by left].
  destruct (wrap_res _ (sql_Open _)) as [u|e]; [|by left]. right.
  destruct (createSchema_created (config.mig_Schema m) log) as (l & Hl & Hc). exists l. unfold wrapping_args.
  destruct (createSchema (config.mig_Schema m) log) as [[u'|e] l']; by subst.
Qed.

Lemma mysql_options pre old query name table : without "?" pre = true -> without "?" old = true -> without "/" old = true ->
  (query = "" \/ HasPrefix query "?" = true) -> name <> "" -> table <> "" -> without "?" name = true -> QueryEscape table = table ->
  forall schema, withMigrationOptions ("mysql://" +:+ pre +:+ "/" +:+ old +:+ query) name table schema
    = Ok ("mysql://" +:+ pre +:+ "/" +:+ name +:+ query +:+ (if str_empty query then "?" else "&") +:+ "x-migrations-table=" +:+ table).
Proof.
  intros Hp Ho Hs Hq Hn Ht Hnq He schema. apply str_empty_false in Hn, Ht. unfold withMigrationOptions. rewrite Hn, Ht. cbn [andb].
  rewrite HasPrefix_app. unfold with_mysql_name. rewrite Hn.
  replace ("mysql://" +:+ pre +:+ "/" +:+ old +:+ query) with (("mysql://" +:+ pre +:+ String "/" old) +:+ query)
    by (rewrite !append_assoc; done).
  rewrite cut_query_app; [|rewrite !without_app, Hp; cbn; exact Ho|done].
  replace ("mysql://" +:+ pre +:+ String "/" old) with (("mysql://" +:+ pre) +:+ String "/" old) by (by rewrite append_assoc).
  rewrite upto_slash_app by done.
  cbn [mbind result_bind]. rewrite He. f_equal.
  replace ((("mysql://" +:+ pre) +:+ "/") +:+ name +:+ query) with ((("mysql://" +:+ pre) +:+ "/" +:+ name) +:+ query)
    by (rewrite !append_assoc; done).
  rewrite cut_query_app; [|rewrite !without_app, Hp, Hnq; done|done]. cbn [snd].
  rewrite !append_assoc. by destruct (str_empty query).
Qed.
End migrations.

(** What [Load] makes of the migration section. *)
Definition as_loaded (c : config.Config) : Prop :=
  config.mig_Schema (config.c_Migration c) = config.db_Schema (config.c_Database c) /\
  config.mig_DatabaseName (config.c_Migration c) = config.db_Name (config.c_Database c).

Lemma accepted_names c : config.Validate c = Ok tt -> config.mig_AutoUp (config.c_Migration c) = true ->
  MatchString schemaPattern (config.db_Name (config.c_Database c)) = true /\
  (config.db_Schema (config.c_Database c) <> "" -> MatchString schemaPattern (config.db_Schema (config.c_Database c)) = true) /\
  MatchString schemaPattern (config.mig_Table (config.c_Migration c)) = true.
Proof.
  intros Hv Hup. unfold config.Validate in Hv. cbv zeta in Hv. apply check_Ok in Hv as [Hn Hv]. apply check_Ok in Hv as [Hs Hv].
  do 6 (apply check_Ok in Hv as [_ Hv]). apply check_Ok in Hv as [Hm _]. rewrite Hup in Hm. cbn [andb] in Hm.
  split; [by apply negb_false_iff|]. split.
  - intros Hne. apply str_empty_false in Hne. rewrite Hne in Hs. by apply negb_false_iff.
  - repeat (apply orb_false_elim in Hm as [Hm ?]). by apply negb_false_iff.
Qed.

Lemma name_without s c : MatchString schemaPattern s = true -> name_tail c = false -> without c s = true.
Proof.
  intros Hs%valid_name_tail Hc. unfold without. induction s as [|d s IH]; [done|]. cbn [str_forall] in *.
  apply andb_prop in Hs as [Hd Hs]. rewrite (IH Hs), andb_true_r. destruct (Ascii.eqb_spec d c) as [->|]; [congruence|done].
Qed.
Lemma name_nonempty s : MatchString schemaPattern s = true -> s <> "".
Proof. by intros (c & t & -> & _)%migration_name. Qed.

Section confined.
Context {UP : UrlParser} {SS : SqlServer}.

End confined.

(** ** The sample configuration *)

Module Migrated.
Import Production.

#[export] Instance urls : UrlParser := {|
  UrlRest := string;
  url_Parse := fun s => Ok (mkUrl "/old" (<["sslmode" := ["require"]]> ∅) s);
  url_String := fun u => u_rest u +:+ u_Path u
|}.
#[export] Instance server : SqlServer := {| sql_Open := fun _ => Ok tt; sql_run := fun _ _ => None |}.

Example mysql_url : withMigrationOptions "mysql://u:p@tcp(db:3306)/old?parseTime=true" "orders" "versions" ""
  = Ok "mysql://u:p@tcp(db:3306)/orders?parseTime=true&x-migrations-table=versions".
Proof. reflexivity. Qed.
Example escaped : QueryEscape "a b/c" = "a+b%2Fc". Proof. reflexivity. Qed.

End Migrated.
