(* ===== verification/Load.v ===== *)
(** * Loading the configuration (internal/config/config.go)

    [LoadWithProfile] over viper: the files, the environment and the decoding are
    viper's; which profile is chosen, which files are read, what is copied and when
    the result is validated is the code's. *)
From S2P Require Import Prelude GoStd Model Graph PathMatch Config ConfigSpec Database.
From Stdlib Require Import Ascii String.
Local Open Scope string_scope.
Local Open Scope list_scope.
Import config.

(** [strings.ToLower]: ASCII letters and the two other runes whose lower case is an ASCII
    letter, U+0130 and U+212A; the lower case of any other rune is not ASCII, so it is
    left as it is here, which shows in the text of a refused profile only. *)
Fixpoint ToLower (s : string) : string :=
  match s with
  | EmptyString => ""
  | String c s1 =>
      match s1 with
      | String c2 s2 =>
          if Ascii.eqb c "196" && Ascii.eqb c2 "176" then String "i" (ToLower s2)
          else match s2 with
               | String c3 s3 =>
                   if Ascii.eqb c "226" && Ascii.eqb c2 "132" && Ascii.eqb c3 "170" then String "k" (ToLower s3)
                   else String (if is_upper c then ascii_of_N (N_of_ascii c + 32) else c) (ToLower s1)
               | EmptyString => String (if is_upper c then ascii_of_N (N_of_ascii c + 32) else c) (ToLower s1)
               end
      | EmptyString => String (if is_upper c then ascii_of_N (N_of_ascii c + 32) else c) ""
      end
  end.

(** viper, with the file system behind it.  Setting a key overrides every file and
    variable, as its documentation says. *)
Class Viper := {
  Vp : Type;
  viper_New : string -> Vp;                      (** a file, the prefix APP, dots for underscores *)
  vp_BindEnv : Vp -> string -> list string -> res Vp;
  vp_SetDefaults : Vp -> Vp;
  vp_ReadInConfig : Vp -> res Vp;
  vp_NotFound : error -> bool;                   (** [errors.As] of ConfigFileNotFoundError *)
  vp_GetEnv : Vp -> string;                      (** [v.GetString("app.env")] *)
  os_Stat : string -> option error;
  is_NotExist : error -> bool;
  vp_MergeFile : Vp -> string -> res Vp;
  vp_SetEnv : Vp -> string -> Vp;                (** [v.Set("app.env", profile)] *)
  vp_Unmarshal : Vp -> res Config;
  vp_Set_env : forall v profile c, vp_Unmarshal (vp_SetEnv v profile) = Ok c -> app_Env (c_App c) = profile
}.

Definition bindings : list (string * string * list string) := [
  ("bind environment profile: %w", "app.env", ["APP_ENV"; "APP_APP_ENV"]);
  ("bind authorization target: %w", "outbound.grpc.authorization.target", ["APP_OUTBOUND_GRPC_AUTHORIZATION_TARGET"]);
  ("bind application target: %w", "outbound.grpc.application.target", ["APP_OUTBOUND_GRPC_APPLICATION_TARGET"]);
  ("bind application auth type: %w", "outbound.grpc.application.auth.type", ["APP_OUTBOUND_GRPC_APPLICATION_AUTH_TYPE"]);
  ("bind application auth token: %w", "outbound.grpc.application.auth.token", ["APP_OUTBOUND_GRPC_APPLICATION_AUTH_TOKEN"]);
  ("bind application allow insecure: %w", "outbound.grpc.application.tls.allow_insecure",
   ["APP_OUTBOUND_GRPC_APPLICATION_TLS_ALLOW_INSECURE"]) ].

Section load.
Context {VP : Viper} {MR : MapRange}.

Fixpoint bind_all (l : list (string * string * list string)) (v : Vp) : res Vp :=
  match l with
  | [] => Ok v
  | (format, key, names) :: l' => v ← wrap_res format (vp_BindEnv v key names); bind_all l' v
  end.

Definition read_config (path : string) (v : Vp) : res Vp :=
  match vp_ReadInConfig v with
  | Ok v => Ok v
  | Err err => if negb (str_empty path) || negb (vp_NotFound err) then Err (Wrap "read config: %w" [] err) else Ok v
  end.

Definition profile_of (explicitProfile : string) (v : Vp) : string :=
  let profile := ToLower (TrimSpace explicitProfile) in
  if str_empty profile then ToLower (TrimSpace (vp_GetEnv v)) else profile.

(** The profile's file on top of the base file, and the files that were read. *)
Definition merge_profile (path profile : string) (v : Vp) : res (Vp * list string) :=
  let profilePath := profileConfigPath path profile in
  if String.eqb profilePath path then Ok (v, [path])
  else match os_Stat profilePath with
       | None =>
           match vp_MergeFile v profilePath with
           | Err err => Err (Wrap "merge profile config %q: %w" [profilePath] err)
           | Ok v => Ok (v, [path; profilePath])
           end
       | Some err => if negb (is_NotExist err) then Err (Wrap "inspect profile config %q: %w" [profilePath] err) else Ok (v, [path])
       end.

Definition with_migration_names (c : Config) : Config :=
  let m := c_Migration c in
  mkConfig (c_Runtime c) (c_App c) (c_HTTP c) (c_GRPC c) (c_Log c) (c_Database c) (c_Redis c) (c_Health c) (c_RateLimit c)
    (c_Observability c) (c_Swagger c) (c_JWT c) (c_Auth c) (c_Authorization c)
    (mkMigration (mig_AutoUp m) (mig_CreateSchema m) (mig_Path m) (mig_DatabaseURL m) (mig_Table m)
       (db_Schema (c_Database c)) (db_Name (c_Database c)))
    (c_Idempotency c) (c_Outbound c) (c_EventBus c) (c_Temporal c) (c_Retention c).
Definition with_runtime (r : Runtime) (c : Config) : Config :=
  mkConfig r (c_App c) (c_HTTP c) (c_GRPC c) (c_Log c) (c_Database c) (c_Redis c) (c_Health c) (c_RateLimit c)
    (c_Observability c) (c_Swagger c) (c_JWT c) (c_Auth c) (c_Authorization c) (c_Migration c) (c_Idempotency c) (c_Outbound c)
    (c_EventBus c) (c_Temporal c) (c_Retention c).

Definition LoadWithProfile (path explicitProfile : string) : res Config :=
  v ← bind_all bindings (viper_New path);
  v ← read_config path (vp_SetDefaults v);
  let profile := profile_of explicitProfile v in
  if negb (MatchString validProfile profile) then Err (Errorf "invalid environment profile %q" [profile])
  else
    '(v, loadedFiles) ← merge_profile path profile v;
    cfg ← wrap_res "decode config: %w" (vp_Unmarshal (vp_SetEnv v profile));
    let cfg := with_migration_names cfg in
    _ ← Validate cfg;
    Ok (with_runtime (mkRuntime profile loadedFiles) cfg).

Definition Load (path : string) : res Config := LoadWithProfile path "".

(** A lowercase word of letters, digits, dashes and underscores. *)
Lemma valid_profile s : MatchString validProfile s = true <->
  exists c t, s = String c t /\ profile_first c = true /\ str_forall (fun c => profile_first c || byte_in "_-" c) t = true.
Proof.
  unfold validProfile. destruct s as [|c t]; [split; [done|by intros (? & ? & ? & _)]|]. cbn [MatchString deriv nullable].
  destruct (profile_first c) eqn:Hc; cbn [mk_seq].
  - rewrite MatchString_correct, matches_cls_star. split; [by exists c, t|]. by intros (? & ? & [= <- <-] & _ & ?).
  - rewrite MatchString_none. split; [done|]. intros (? & ? & [= <- <-] & ? & _). congruence.
Qed.

(** What [LoadWithProfile] returns has been validated as the profile it names: the
    explicit profile if one is given, else the one of the files and the environment,
    in lower case and without surrounding space; the checks for production therefore
    cannot be escaped by writing the profile differently.  Validation sees the
    configuration that is returned, its migrations are those of its database, and the
    files read are the base file and the profile's own, if there is one. *)
Theorem Load_validated path explicitProfile c : LoadWithProfile path explicitProfile = Ok c ->
  Validate c = Ok tt /\ as_loaded c /\
  (exists v, run_ActiveProfile (c_Runtime c) = profile_of explicitProfile v) /\
  app_Env (c_App c) = run_ActiveProfile (c_Runtime c) /\
  MatchString validProfile (app_Env (c_App c)) = true /\
  (run_ConfigFiles (c_Runtime c) = [path] \/
   run_ConfigFiles (c_Runtime c) = [path; profileConfigPath path (app_Env (c_App c))]) /\
  (ToLower (TrimSpace explicitProfile) = "production" -> production_safe c).
Proof.
  unfold LoadWithProfile. intros (v0 & _ & H)%res_bind_Ok. apply res_bind_Ok in H as (v & _ & H). cbv zeta in H.
  destruct (MatchString validProfile (profile_of explicitProfile v)) eqn:Hp; [|done]. cbn [negb] in H.
  apply res_bind_Ok in H as ([v1 files] & Hm & H). apply res_bind_Ok in H as (c0 & Hu & H).
  apply res_bind_Ok in H as ([] & Hv & [= <-]). unfold wrap_res in Hu.
  destruct (vp_Unmarshal _) as [c1|] eqn:Hc; [injection Hu as ->|done]. apply vp_Set_env in Hc.
  assert (Hvalid : Validate (with_runtime (mkRuntime (profile_of explicitProfile v) files) (with_migration_names c0)) = Ok tt) by exact Hv.
  split; [done|]. split; [done|]. split; [by exists v|]. split; [done|]. split; [cbn; by rewrite Hc|]. split.
  - unfold merge_profile in Hm. cbn. rewrite Hc. destruct (String.eqb _ _); [injection Hm as _ <-; by left|].
    destruct (os_Stat _) as [err|]; [destruct (negb _); [done|]; injection Hm as _ <-; by left|].
    destruct (vp_MergeFile _ _); [injection Hm as _ <-; by right|done].
  - intros Hprod. apply (Validate_production _ Hvalid). cbn. rewrite Hc. unfold profile_of. by rewrite Hprod.
Qed.
End load.

(** The sample configuration, whatever is asked for. *)
Module Loaded.
Import Production.
#[export, refine] Instance fixed : Viper := {|
  Vp := string; viper_New := fun _ => ""; vp_BindEnv := fun v _ _ => Ok v; vp_SetDefaults := fun v => v;
  vp_ReadInConfig := fun v => Ok v; vp_NotFound := fun _ => false; vp_GetEnv := fun _ => "staging"; os_Stat := fun _ => None;
  is_NotExist := fun _ => false; vp_MergeFile := fun v _ => Ok v; vp_SetEnv := fun _ profile => profile;
  vp_Unmarshal := fun v => if String.eqb v "production" then Ok sample else Err (ErrorNew "unknown")
|}.
Proof. intros v profile c. destruct (String.eqb_spec profile "production") as [->|]; [by intros [= <-]|done]. Defined.

Example shouting : (c ← LoadWithProfile "config/config.yaml" "  PRODUCTION "; Ok (c_Runtime c))
  = Ok (mkRuntime "production" ["config/config.yaml"; "config/config-production.yaml"]).
Proof. vm_compute. reflexivity. Qed.

Lemma Load_validated_witness : exists c, LoadWithProfile "config/config.yaml" "  PRODUCTION " = Ok c /\ production_safe c.
Proof.
  destruct (LoadWithProfile "config/config.yaml" "  PRODUCTION ") as [c|e] eqn:Hl; [|vm_compute in Hl; discriminate Hl].
  exists c. split; [reflexivity|]. destruct (Load_validated _ _ _ Hl) as (_ & _ & _ & _ & _ & _ & Hs). apply Hs. vm_compute. reflexivity.
Defined.
End Loaded.
