(* ===== verification/Logging.v ===== *)
(** * The logger (internal/logging, newLogger of internal/app/app.go)

    The level a configuration names, as [log/slog] reads it, the handler and the
    rotation that are set up, and which records a logger writes. *)
From S2P Require Import Prelude GoStd Json Model GraphCodec PathMatch Config Database Load.
Import config.
From Stdlib Require Import Ascii String.
Local Open Scope string_scope.
Local Open Scope list_scope.

(** ** [slog.Level] *)

Definition LevelDebug : Z := -4.
Definition LevelInfo : Z := 0.
Definition LevelWarn : Z := 4.
Definition LevelError : Z := 8.

(** [strings.ToUpper] on the runes whose upper case is a letter of a level's name; no
    other rune becomes one. *)
Fixpoint ToUpper (s : string) : string :=
  match s with
  | EmptyString => ""
  | String c s1 =>
      let c' := if is_lower c then ascii_of_N (N_of_ascii c - 32) else c in
      match s1 with
      | String c2 s2 => if Ascii.eqb c "196" && Ascii.eqb c2 "177" then String "I" (ToUpper s2) else String c' (ToUpper s1)
      | EmptyString => String c' ""
      end
  end.

(** The name and the offset: the text before and from the first sign. *)
Fixpoint cut_sign (s : string) : string * string :=
  match s with
  | EmptyString => ("", "")
  | String c s' => if byte_in "+-" c then ("", s) else let '(name, rest) := cut_sign s' in (String c name, rest)
  end.

(** [strconv.Atoi] of a text that starts with a sign. *)
Definition Atoi (s : string) : option Z :=
  match s with
  | EmptyString => None
  | String c digits =>
      n ← parse_digits digits;
      if Ascii.eqb c "-" then if (n <=? 2 ^ 63)%Z then Some (- n)%Z else None
      else if (n <? 2 ^ 63)%Z then Some n else None
  end.

Definition int64_sum (a b : Z) : Z := ((a + b + 2 ^ 63) mod 2 ^ 64 - 2 ^ 63)%Z.

(** [Level.UnmarshalText] *)
Definition parse_level (s : string) : option Z :=
  let '(name, rest) := cut_sign s in
  offset ← (if str_empty rest then Some 0%Z else Atoi rest);
  let name := ToUpper name in
  base ← (if String.eqb name "DEBUG" then Some LevelDebug else if String.eqb name "INFO" then Some LevelInfo
          else if String.eqb name "WARN" then Some LevelWarn else if String.eqb name "ERROR" then Some LevelError
          else None);
  Some (int64_sum base offset).

(** ** The logger *)

(** [lumberjack.Logger] *)
Record Rotation : Type := mkRotation {
  ro_Filename : string; ro_MaxSize : Z; ro_MaxBackups : Z; ro_MaxAge : Z; ro_Compress : bool
}.

Inductive handler_kind : Type := TextHandler | JSONHandler.

Record Logger : Type := mkLogger {
  lg_level : Z; lg_handler : handler_kind; lg_rotation : Rotation; lg_attributes : list (string * string)
}.

(** [os.MkdirAll(filepath.Dir(file), 0750)] *)
Class LogFiles := { make_directory_of : string -> res unit }.

Section logging.
Context {LF : LogFiles}.

Definition New (cfg : Log) : res Logger :=
  _ ← wrap_res "create log directory: %w" (make_directory_of (log_File cfg));
  let rotator := mkRotation (log_File cfg) (log_MaxSizeMB cfg) (log_MaxBackups cfg) (log_MaxAgeDays cfg) (log_Compress cfg) in
  level ← wrap_res "parse log level: %w"
            (match parse_level (ToLower (log_Level cfg)) with
             | Some level => Ok level
             | None => Err (Errorf "slog: level string %q: %w" [log_Level cfg])
             end);
  Ok (mkLogger level (if String.eqb (log_Format cfg) "text" then TextHandler else JSONHandler) rotator []).

(** [newLogger]: every record names the service and its profile. *)
Definition newLogger (cfg : Config) : res Logger :=
  logger ← New (c_Log cfg);
  Ok (mkLogger (lg_level logger) (lg_handler logger) (lg_rotation logger)
        [("service", app_Name (c_App cfg)); ("environment", run_ActiveProfile (c_Runtime cfg))]).

(** A record is written to the standard output and to the file, or dropped. *)
Definition writes (logger : Logger) (level : Z) : bool := (lg_level logger <=? level)%Z.

(** ** Which levels there are *)

Definition level_known (s : string) : Prop := is_Some (parse_level (ToLower s)).

(** The logger is made exactly when the directory can be and the level is known. *)
Lemma newLogger_exact cfg : is_ok (newLogger cfg) = true <->
  is_ok (make_directory_of (log_File (c_Log cfg))) = true /\ level_known (log_Level (c_Log cfg)).
Proof.
  unfold newLogger, New, level_known, wrap_res.
  destruct (make_directory_of _) as [[]|e]; cbn; [|naive_solver].
  destruct (parse_level _); cbn; [split; [intros _; split; [done|by eexists]|done]|].
  split; [done|]. by intros [_ []].
Qed.

Lemma newLogger_level cfg logger : newLogger cfg = Ok logger ->
  parse_level (ToLower (log_Level (c_Log cfg))) = Some (lg_level logger).
Proof.
  unfold newLogger, New. intros (l & (? & _ & (level & Hl & [= <-])%res_bind_Ok)%res_bind_Ok & [= <-])%res_bind_Ok.
  cbn [lg_level]. unfold wrap_res in Hl. destruct (parse_level _); [|done]. cbn in Hl. congruence.
Qed.

Lemma parse_level_range s l : parse_level s = Some l -> (- 2 ^ 63 <= l < 2 ^ 63)%Z.
Proof.
  unfold parse_level. destruct (cut_sign s) as [name rest].
  destruct (if str_empty rest then Some 0%Z else Atoi rest) as [offset|]; [|done]. cbn.
  destruct (if String.eqb (ToUpper name) "DEBUG" then _ else _) as [base|]; [|done]. cbn. intros [= <-].
  unfold int64_sum. pose proof (Z.mod_pos_bound (base + offset + 2 ^ 63) (2 ^ 64) ltac:(lia)). lia.
Qed.
End logging.

(** The four names order the records; a level may have an offset; and nothing else is a
    level. *)
Example level_warn : parse_level (ToLower "Warn") = Some LevelWarn. Proof. reflexivity. Qed.
Example level_offset : parse_level (ToLower "ERROR-2") = Some 6%Z. Proof. reflexivity. Qed.
Example level_warning : parse_level (ToLower "warning") = None. Proof. reflexivity. Qed.
Example level_dotless : parse_level (ToLower (String "196" (String "177" "nfo"))) = Some LevelInfo. Proof. reflexivity. Qed.
