(* ===== verification/Defaults.v ===== *)
(** * Default settings (setDefaults of internal/config/config.go)

    The defaults handed to viper, and the decoding of settings into the structs by the
    [mapstructure] names of their fields.  A service started without a configuration
    file and without environment variables runs with the defaults: they are accepted
    under every profile but production, which they are refused for.  viper is a parameter
    of [Load]; here it is instantiated by one concrete function, [bare], which does what
    its documentation promises of a process that has nothing but the defaults. *)
From S2P Require Import Prelude GoStd Json Model Graph GraphCodec PathMatch Config ConfigSpec Database Load.
From Stdlib Require Import Ascii String SpecFloat.
Local Open Scope string_scope.
Local Open Scope list_scope.
Import config.

(** The kinds of values a setting has. *)
Inductive Setting : Type :=
| SString (s : string)
| SInt (z : Z)
| SBool (b : bool)
| SFloat (f : spec_float)
| SStrings (l : list string)
| SMap.

(** The float64 nearest to 0.1. *)
Definition tenth : spec_float := S754_finite false 7205759403792794 (-56).

Definition setRateLimitDefaults (key : string) (rate burst : Z) : list (string * Setting) :=
  [(key +:+ ".rate", SInt rate); (key +:+ ".burst", SInt burst); (key +:+ ".period", SString "1m")].

Definition setDefaults : list (string * Setting) :=
  [("app.name", SString "workflow-service");
   ("app.env", SString "development");
   ("app.shutdown_timeout", SString "10s");
   ("http.address", SString "127.0.0.1:8080");
   ("http.read_timeout", SString "10s");
   ("http.write_timeout", SString "15s");
   ("http.idle_timeout", SString "60s");
   ("http.request_timeout", SString "10s");
   ("http.max_body_bytes", SInt (Z.shiftl 1 20));
   ("http.trusted_proxies", SStrings []);
   ("http.cors.enabled", SBool false);
   ("http.cors.allowed_origins", SStrings []);
   ("http.cors.allowed_headers", SStrings ["Authorization"; "Content-Type"; "X-Request-ID"]);
   ("http.cors.exposed_headers", SStrings ["X-Request-ID"; "X-RateLimit-Limit"; "X-RateLimit-Remaining"; "Retry-After"]);
   ("http.cors.max_age", SString "12h");
   ("grpc.enabled", SBool true);
   ("grpc.address", SString "127.0.0.1:9090");
   ("grpc.reflection_enabled", SBool true);
   ("grpc.max_receive_bytes", SInt (Z.shiftl 16 20));
   ("grpc.tls.enabled", SBool false);
   ("grpc.tls.cert_file", SString "");
   ("grpc.tls.key_file", SString "");
   ("grpc.tls.client_ca_file", SString "");
   ("log.level", SString "info");
   ("log.format", SString "json");
   ("log.file", SString "logs/app.log");
   ("log.max_size_mb", SInt 100);
   ("log.max_backups", SInt 10);
   ("log.max_age_days", SInt 30);
   ("log.compress", SBool true);
   ("database.ping_timeout", SString "5s");
   ("database.max_open_conns", SInt 25);
   ("database.max_idle_conns", SInt 10);
   ("database.conn_max_lifetime", SString "5m");
   ("database.conn_max_idle_time", SString "1m");
   ("database.enabled", SBool false);
   ("database.name", SString "platform");
   ("database.schema", SString "workflow");
   ("database.type", SString "postgres");
   ("database.dsn", SString "");
   ("redis.address", SString "127.0.0.1:6379");
   ("redis.dial_timeout", SString "5s");
   ("redis.read_timeout", SString "3s");
   ("redis.write_timeout", SString "3s");
   ("redis.enabled", SBool false);
   ("redis.username", SString "");
   ("redis.password", SString "");
   ("redis.db", SInt 0);
   ("health.database_timeout", SString "2s");
   ("health.redis_timeout", SString "2s");
   ("rate_limit.enabled", SBool false);
   ("rate_limit.fail_open", SBool false)] ++
  setRateLimitDefaults "rate_limit.ip" 120 30 ++
  setRateLimitDefaults "rate_limit.api" 10000 1000 ++
  setRateLimitDefaults "rate_limit.user" 600 100 ++
  setRateLimitDefaults "rate_limit.login" 10 3 ++
  [("observability.metrics_enabled", SBool true);
   ("observability.tracing_enabled", SBool false);
   ("observability.tracing_endpoint", SString "http://127.0.0.1:4318");
   ("observability.tracing_sample_ratio", SFloat tenth);
   ("observability.pprof_enabled", SBool false);
   ("observability.pprof_token", SString "");
   ("swagger.enabled", SBool true);
   ("swagger.require_auth", SBool false);
   ("jwt.issuer", SString "workflow-service");
   ("jwt.secret", SString "");
   ("jwt.ttl", SString "2h");
   ("auth.client_id", SString "");
   ("auth.client_secret", SString "");
   ("auth.jwks_url", SString "");
   ("auth.issuer", SString "identity-service");
   ("auth.audience", SString "workflow-service");
   ("auth.skip_http_paths", SStrings ["/api/v1/version"]);
   ("auth.skip_grpc_methods", SStrings ["/grpc.health.v1.Health/*"]);
   ("auth.psk.enabled", SBool false);
   ("auth.psk.key", SString "");
   ("auth.psk.http_paths", SStrings []);
   ("auth.psk.grpc_methods", SStrings []);
   ("authorization.enabled", SBool false);
   ("migration.path", SString "migrations/postgres");
   ("migration.database_url", SString "");
   ("migration.auto_up", SBool false);
   ("migration.create_schema", SBool false);
   ("migration.table", SString "workflow_schema_migrations");
   ("idempotency.enabled", SBool false);
   ("idempotency.processing_ttl", SString "30s");
   ("idempotency.result_ttl", SString "24h");
   ("idempotency.failure_ttl", SString "5m");
   ("event_bus.enabled", SBool false);
   ("event_bus.urls", SStrings ["nats://127.0.0.1:4222"]);
   ("event_bus.stream_name", SString "PLATFORM_EVENTS");
   ("event_bus.subjects", SStrings ["platform.>"]);
   ("event_bus.storage", SString "file");
   ("event_bus.max_age", SString "168h");
   ("event_bus.duplicate_window", SString "10m");
   ("event_bus.connect_timeout", SString "5s");
   ("event_bus.reconnect_wait", SString "1s");
   ("event_bus.publish_timeout", SString "5s");
   ("event_bus.consumer_ack_wait", SString "30s");
   ("event_bus.consumer_ack_timeout", SString "5s");
   ("event_bus.consumer_handler_timeout", SString "25s");
   ("event_bus.consumer_retry_delay", SString "1s");
   ("event_bus.consumer_max_retry_delay", SString "1m");
   ("event_bus.consumer_max_deliver", SInt 10);
   ("event_bus.consumer_max_ack_pending", SInt 64);
   ("event_bus.dead_letter_subject", SString "platform.system.event.dead-lettered.v1");
   ("event_bus.dispatch_interval", SString "250ms");
   ("event_bus.dispatch_batch_size", SInt 100);
   ("event_bus.dispatch_lease", SString "30s");
   ("event_bus.dispatch_retry_delay", SString "5s");
   ("event_bus.published_retention", SString "336h");
   ("event_bus.cleanup_interval", SString "1h");
   ("event_bus.cleanup_batch_size", SInt 500);
   ("temporal.enabled", SBool false);
   ("temporal.host_port", SString "127.0.0.1:7233");
   ("temporal.namespace", SString "default");
   ("temporal.task_queue", SString "workflow-service");
   ("temporal.connect_timeout", SString "5s");
   ("temporal.worker_stop_timeout", SString "10s");
   ("temporal.tls.enabled", SBool false);
   ("temporal.tls.server_name", SString "");
   ("temporal.tls.ca_file", SString "");
   ("temporal.tls.cert_file", SString "");
   ("temporal.tls.key_file", SString "");
   ("retention.task_history", SString "8760h");
   ("retention.cleanup_interval", SString "1h");
   ("retention.cleanup_batch_size", SInt 500);
   ("outbound.http", SMap);
   ("outbound.grpc", SMap)].

(** ** Decoding *)

(** [time.ParseDuration], in nanoseconds, for the texts without sign and fraction; no
    default has one. *)
Definition unit_of (s : string) : option Z :=
  if String.eqb s "ns" then Some 1%Z else if String.eqb s "us" then Some 1000%Z
  else if String.eqb s "ms" then Some 1000000%Z else if String.eqb s "s" then Some 1000000000%Z
  else if String.eqb s "m" then Some 60000000000%Z else if String.eqb s "h" then Some 3600000000000%Z else None.

Fixpoint span_letters (s : string) : string * string :=
  match s with
  | String c s' => if is_letter c then let '(u, rest) := span_letters s' in (String c u, rest) else (EmptyString, s)
  | EmptyString => (EmptyString, EmptyString)
  end.

Fixpoint duration_parts (fuel : nat) (s : string) : option Z :=
  match fuel with
  | O => None
  | S fuel =>
      if str_empty s then Some 0%Z
      else
        let '(digits, s1) := span_digits s in
        let '(letters, s2) := span_letters s1 in
        n ← parse_digits digits;
        u ← unit_of letters;
        rest ← duration_parts fuel s2;
        let d := (n * u + rest)%Z in
        if (d <? 2 ^ 63)%Z then Some d else None
  end.

Definition ParseDuration (s : string) : option Z :=
  if String.eqb s "0" then Some 0%Z
  else if str_empty s then None
  else duration_parts (S (String.length s)) s.

Section decode.
Context (settings : gmap string Setting).

(** A setting of the wrong kind is an error, a missing one leaves the zero value. *)
Definition text (key : string) : option string :=
  match settings !! key with Some (SString s) => Some s | None => Some "" | _ => None end.
Definition flag (key : string) : option bool :=
  match settings !! key with Some (SBool b) => Some b | None => Some false | _ => None end.
Definition number (key : string) : option Z :=
  match settings !! key with Some (SInt z) => Some z | None => Some 0%Z | _ => None end.
Definition float (key : string) : option spec_float :=
  match settings !! key with Some (SFloat f) => Some f | None => Some (S754_zero false) | _ => None end.
(** [StringToTimeDurationHookFunc] and [stringToStringSliceHook] *)
Definition duration (key : string) : option Z :=
  match settings !! key with Some (SString s) => ParseDuration s | None => Some 0%Z | _ => None end.
Definition strings (key : string) : option (list string) :=
  match settings !! key with
  | Some (SStrings l) => Some l
  | Some (SString s) => Some (stringToStringSlice s)
  | None => Some []
  | _ => None
  end.
(** A map of upstreams without entries. *)
Definition no_upstreams (key : string) : option unit :=
  match settings !! key with Some SMap | None => Some tt | _ => None end.

Definition decodeApp (key : string) : option App :=
  vName ← text (key +:+ ".name");
  vSchema ← text (key +:+ ".schema");
  vEnv ← text (key +:+ ".env");
  vShutdownTimeout ← duration (key +:+ ".shutdown_timeout");
  Some (mkApp vName vSchema vEnv vShutdownTimeout).

Definition decodeCORS (key : string) : option CORS :=
  vEnabled ← flag (key +:+ ".enabled");
  vAllowedOrigins ← strings (key +:+ ".allowed_origins");
  vAllowedHeaders ← strings (key +:+ ".allowed_headers");
  vExposedHeaders ← strings (key +:+ ".exposed_headers");
  vMaxAge ← duration (key +:+ ".max_age");
  Some (mkCORS vEnabled vAllowedOrigins vAllowedHeaders vExposedHeaders vMaxAge).

Definition decodeHTTP (key : string) : option HTTP :=
  vAddress ← text (key +:+ ".address");
  vReadTimeout ← duration (key +:+ ".read_timeout");
  vWriteTimeout ← duration (key +:+ ".write_timeout");
  vIdleTimeout ← duration (key +:+ ".idle_timeout");
  vRequestTimeout ← duration (key +:+ ".request_timeout");
  vMaxBodyBytes ← number (key +:+ ".max_body_bytes");
  vTrustedProxies ← strings (key +:+ ".trusted_proxies");
  vCORS ← decodeCORS (key +:+ ".cors");
  Some (mkHTTP vAddress vReadTimeout vWriteTimeout vIdleTimeout vRequestTimeout vMaxBodyBytes vTrustedProxies
    vCORS).

Definition decodeGRPCTLS (key : string) : option GRPCTLS :=
  vEnabled ← flag (key +:+ ".enabled");
  vCertFile ← text (key +:+ ".cert_file");
  vKeyFile ← text (key +:+ ".key_file");
  vClientCAFile ← text (key +:+ ".client_ca_file");
  Some (mkGRPCTLS vEnabled vCertFile vKeyFile vClientCAFile).

Definition decodeGRPC (key : string) : option GRPC :=
  vEnabled ← flag (key +:+ ".enabled");
  vAddress ← text (key +:+ ".address");
  vReflectionEnabled ← flag (key +:+ ".reflection_enabled");
  vMaxReceiveBytes ← number (key +:+ ".max_receive_bytes");
  vTLS ← decodeGRPCTLS (key +:+ ".tls");
  Some (mkGRPC vEnabled vAddress vReflectionEnabled vMaxReceiveBytes vTLS).

Definition decodeLog (key : string) : option Log :=
  vLevel ← text (key +:+ ".level");
  vFormat ← text (key +:+ ".format");
  vFile ← text (key +:+ ".file");
  vMaxSizeMB ← number (key +:+ ".max_size_mb");
  vMaxBackups ← number (key +:+ ".max_backups");
  vMaxAgeDays ← number (key +:+ ".max_age_days");
  vCompress ← flag (key +:+ ".compress");
  Some (mkLog vLevel vFormat vFile vMaxSizeMB vMaxBackups vMaxAgeDays vCompress).

Definition decodeDatabase (key : string) : option Database :=
  vEnabled ← flag (key +:+ ".enabled");
  vName ← text (key +:+ ".name");
  vSchema ← text (key +:+ ".schema");
  vType ← text (key +:+ ".type");
  vDSN ← text (key +:+ ".dsn");
  vMaxOpenConns ← number (key +:+ ".max_open_conns");
  vMaxIdleConns ← number (key +:+ ".max_idle_conns");
  vConnMaxLifetime ← duration (key +:+ ".conn_max_lifetime");
  vConnMaxIdleTime ← duration (key +:+ ".conn_max_idle_time");
  vPingTimeout ← duration (key +:+ ".ping_timeout");
  Some (mkDatabase vEnabled vName vSchema vType vDSN vMaxOpenConns vMaxIdleConns vConnMaxLifetime
    vConnMaxIdleTime vPingTimeout).

Definition decodeRedis (key : string) : option Redis :=
  vEnabled ← flag (key +:+ ".enabled");
  vAddress ← text (key +:+ ".address");
  vUsername ← text (key +:+ ".username");
  vPassword ← text (key +:+ ".password");
  vDB ← number (key +:+ ".db");
  vDialTimeout ← duration (key +:+ ".dial_timeout");
  vReadTimeout ← duration (key +:+ ".read_timeout");
  vWriteTimeout ← duration (key +:+ ".write_timeout");
  Some (mkRedis vEnabled vAddress vUsername vPassword vDB vDialTimeout vReadTimeout vWriteTimeout).

Definition decodeHealth (key : string) : option Health :=
  vDatabaseTimeout ← duration (key +:+ ".database_timeout");
  vRedisTimeout ← duration (key +:+ ".redis_timeout");
  Some (mkHealth vDatabaseTimeout vRedisTimeout).

Definition decodeRateLimitRule (key : string) : option RateLimitRule :=
  vRate ← number (key +:+ ".rate");
  vBurst ← number (key +:+ ".burst");
  vPeriod ← duration (key +:+ ".period");
  Some (mkRateLimitRule vRate vBurst vPeriod).

Definition decodeRateLimit (key : string) : option RateLimit :=
  vEnabled ← flag (key +:+ ".enabled");
  vFailOpen ← flag (key +:+ ".fail_open");
  vIP ← decodeRateLimitRule (key +:+ ".ip");
  vAPI ← decodeRateLimitRule (key +:+ ".api");
  vUser ← decodeRateLimitRule (key +:+ ".user");
  vLogin ← decodeRateLimitRule (key +:+ ".login");
  Some (mkRateLimit vEnabled vFailOpen vIP vAPI vUser vLogin).

Definition decodeObservability (key : string) : option Observability :=
  vMetricsEnabled ← flag (key +:+ ".metrics_enabled");
  vTracingEnabled ← flag (key +:+ ".tracing_enabled");
  vTracingEndpoint ← text (key +:+ ".tracing_endpoint");
  vTracingSampleRatio ← float (key +:+ ".tracing_sample_ratio");
  vPprofEnabled ← flag (key +:+ ".pprof_enabled");
  vPprofToken ← text (key +:+ ".pprof_token");
  Some (mkObservability vMetricsEnabled vTracingEnabled vTracingEndpoint vTracingSampleRatio vPprofEnabled
    vPprofToken).

Definition decodeSwagger (key : string) : option Swagger :=
  vEnabled ← flag (key +:+ ".enabled");
  vRequireAuth ← flag (key +:+ ".require_auth");
  Some (mkSwagger vEnabled vRequireAuth).

Definition decodeJWT (key : string) : option JWT :=
  vIssuer ← text (key +:+ ".issuer");
  vSecret ← text (key +:+ ".secret");
  vTTL ← duration (key +:+ ".ttl");
  Some (mkJWT vIssuer vSecret vTTL).

Definition decodePSK (key : string) : option PSK :=
  vEnabled ← flag (key +:+ ".enabled");
  vKey ← text (key +:+ ".key");
  vHTTPPaths ← strings (key +:+ ".http_paths");
  vGRPCMethods ← strings (key +:+ ".grpc_methods");
  Some (mkPSK vEnabled vKey vHTTPPaths vGRPCMethods).

Definition decodeAuth (key : string) : option Auth :=
  vClientID ← text (key +:+ ".client_id");
  vClientSecret ← text (key +:+ ".client_secret");
  vJWKSURL ← text (key +:+ ".jwks_url");
  vIssuer ← text (key +:+ ".issuer");
  vAudience ← text (key +:+ ".audience");
  vSkipHTTPPaths ← strings (key +:+ ".skip_http_paths");
  vSkipGRPCMethods ← strings (key +:+ ".skip_grpc_methods");
  vPSK ← decodePSK (key +:+ ".psk");
  Some (mkAuth vClientID vClientSecret vJWKSURL vIssuer vAudience vSkipHTTPPaths vSkipGRPCMethods vPSK).

Definition decodeAuthorization (key : string) : option Authorization :=
  vEnabled ← flag (key +:+ ".enabled");
  Some (mkAuthorization vEnabled).

Definition decodeMigration (key : string) : option Migration :=
  vAutoUp ← flag (key +:+ ".auto_up");
  vCreateSchema ← flag (key +:+ ".create_schema");
  vPath ← text (key +:+ ".path");
  vDatabaseURL ← text (key +:+ ".database_url");
  vTable ← text (key +:+ ".table");
  Some (mkMigration vAutoUp vCreateSchema vPath vDatabaseURL vTable "" "").

Definition decodeIdempotency (key : string) : option Idempotency :=
  vEnabled ← flag (key +:+ ".enabled");
  vHTTPPaths ← strings (key +:+ ".http_paths");
  vGRPCMethods ← strings (key +:+ ".grpc_methods");
  vProcessingTTL ← duration (key +:+ ".processing_ttl");
  vResultTTL ← duration (key +:+ ".result_ttl");
  vFailureTTL ← duration (key +:+ ".failure_ttl");
  Some (mkIdempotency vEnabled vHTTPPaths vGRPCMethods vProcessingTTL vResultTTL vFailureTTL).

Definition decodeEventBus (key : string) : option EventBus :=
  vEnabled ← flag (key +:+ ".enabled");
  vURLs ← strings (key +:+ ".urls");
  vStreamName ← text (key +:+ ".stream_name");
  vSubjects ← strings (key +:+ ".subjects");
  vStorage ← text (key +:+ ".storage");
  vMaxAge ← duration (key +:+ ".max_age");
  vDuplicateWindow ← duration (key +:+ ".duplicate_window");
  vConnectTimeout ← duration (key +:+ ".connect_timeout");
  vReconnectWait ← duration (key +:+ ".reconnect_wait");
  vPublishTimeout ← duration (key +:+ ".publish_timeout");
  vConsumerAckWait ← duration (key +:+ ".consumer_ack_wait");
  vConsumerAckTimeout ← duration (key +:+ ".consumer_ack_timeout");
  vConsumerHandlerTimeout ← duration (key +:+ ".consumer_handler_timeout");
  vConsumerRetryDelay ← duration (key +:+ ".consumer_retry_delay");
  vConsumerMaxRetryDelay ← duration (key +:+ ".consumer_max_retry_delay");
  vConsumerMaxDeliver ← number (key +:+ ".consumer_max_deliver");
  vConsumerMaxAckPending ← number (key +:+ ".consumer_max_ack_pending");
  vDeadLetterSubject ← text (key +:+ ".dead_letter_subject");
  vDispatchInterval ← duration (key +:+ ".dispatch_interval");
  vDispatchBatchSize ← number (key +:+ ".dispatch_batch_size");
  vDispatchLease ← duration (key +:+ ".dispatch_lease");
  vDispatchRetryDelay ← duration (key +:+ ".dispatch_retry_delay");
  vPublishedRetention ← duration (key +:+ ".published_retention");
  vCleanupInterval ← duration (key +:+ ".cleanup_interval");
  vCleanupBatchSize ← number (key +:+ ".cleanup_batch_size");
  Some (mkEventBus vEnabled vURLs vStreamName vSubjects vStorage vMaxAge vDuplicateWindow vConnectTimeout
    vReconnectWait vPublishTimeout vConsumerAckWait vConsumerAckTimeout vConsumerHandlerTimeout
    vConsumerRetryDelay vConsumerMaxRetryDelay vConsumerMaxDeliver vConsumerMaxAckPending vDeadLetterSubject
    vDispatchInterval vDispatchBatchSize vDispatchLease vDispatchRetryDelay vPublishedRetention
    vCleanupInterval vCleanupBatchSize).

Definition decodeClientTLS (key : string) : option ClientTLS :=
  vEnabled ← flag (key +:+ ".enabled");
  vAllowInsecure ← flag (key +:+ ".allow_insecure");
  vServerName ← text (key +:+ ".server_name");
  vCAFile ← text (key +:+ ".ca_file");
  vCertFile ← text (key +:+ ".cert_file");
  vKeyFile ← text (key +:+ ".key_file");
  Some (mkClientTLS vEnabled vAllowInsecure vServerName vCAFile vCertFile vKeyFile).

Definition decodeTemporal (key : string) : option Temporal :=
  vEnabled ← flag (key +:+ ".enabled");
  vHostPort ← text (key +:+ ".host_port");
  vNamespace ← text (key +:+ ".namespace");
  vTaskQueue ← text (key +:+ ".task_queue");
  vConnectTimeout ← duration (key +:+ ".connect_timeout");
  vWorkerStopTimeout ← duration (key +:+ ".worker_stop_timeout");
  vTLS ← decodeClientTLS (key +:+ ".tls");
  Some (mkTemporal vEnabled vHostPort vNamespace vTaskQueue vConnectTimeout vWorkerStopTimeout vTLS).

Definition decodeRetention (key : string) : option Retention :=
  vTaskHistory ← duration (key +:+ ".task_history");
  vCleanupInterval ← duration (key +:+ ".cleanup_interval");
  vCleanupBatchSize ← number (key +:+ ".cleanup_batch_size");
  Some (mkRetention vTaskHistory vCleanupInterval vCleanupBatchSize).

(** [Config]; the upstreams are maps of structs, empty by default. *)
Definition decode : option Config :=
  vApp ← decodeApp "app";
  vHTTP ← decodeHTTP "http";
  vGRPC ← decodeGRPC "grpc";
  vLog ← decodeLog "log";
  vDatabase ← decodeDatabase "database";
  vRedis ← decodeRedis "redis";
  vHealth ← decodeHealth "health";
  vRateLimit ← decodeRateLimit "rate_limit";
  vObservability ← decodeObservability "observability";
  vSwagger ← decodeSwagger "swagger";
  vJWT ← decodeJWT "jwt";
  vAuth ← decodeAuth "auth";
  vAuthorization ← decodeAuthorization "authorization";
  vMigration ← decodeMigration "migration";
  vIdempotency ← decodeIdempotency "idempotency";
  _ ← no_upstreams "outbound.http";
  _ ← no_upstreams "outbound.grpc";
  vEventBus ← decodeEventBus "event_bus";
  vTemporal ← decodeTemporal "temporal";
  vRetention ← decodeRetention "retention";
  Some (mkConfig (mkRuntime "" []) vApp vHTTP vGRPC vLog vDatabase vRedis vHealth vRateLimit vObservability
    vSwagger vJWT vAuth vAuthorization vMigration vIdempotency (mkOutbound ∅ ∅) vEventBus vTemporal vRetention).
End decode.

Definition defaults : gmap string Setting := list_to_map setDefaults.

(** ** A process without files and variables *)

Lemma decode_env settings profile c : decode (<["app.env" := SString profile]> settings) = Some c -> app_Env (c_App c) = profile.
Proof.
  unfold decode. intros (a & Ha & H)%bind_Some. revert Ha. unfold decodeApp. intros (n & _ & Ha)%bind_Some.
  apply bind_Some in Ha as (s & _ & Ha). apply bind_Some in Ha as (e & He & Ha). apply bind_Some in Ha as (d & _ & [= <-]).
  unfold text in He. change ("app" +:+ ".env") with "app.env" in He. rewrite lookup_insert_eq in He. injection He as <-.
  repeat (apply bind_Some in H as (? & _ & H)). by injection H as <-.
Qed.

(** viper over nothing but the defaults: the state is the settings made so far. *)
#[export, refine] Instance bare : Viper := {|
  Vp := gmap string Setting; viper_New := fun _ => ∅; vp_BindEnv := fun v _ _ => Ok v;
  vp_SetDefaults := fun v => v ∪ defaults;
  vp_ReadInConfig := fun _ => Err (ErrorNew "config file not found"); vp_NotFound := fun _ => true;
  vp_GetEnv := fun v => default "" (text v "app.env"); os_Stat := fun _ => Some (ErrorNew "file does not exist");
  is_NotExist := fun _ => true; vp_MergeFile := fun v _ => Ok v;
  vp_SetEnv := fun v profile => <["app.env" := SString profile]> v;
  vp_Unmarshal := fun v => match decode v with Some c => Ok c | None => Err (ErrorNew "decode") end
|}.
Proof. intros v profile c. destruct (decode _) as [c0|] eqn:Hd; [|done]. intros [= <-]. by eapply decode_env. Defined.

(** Every default has the kind of the field it is for: put in its place, a value of
    another kind is an error, so no key is misspelled or ignored. *)
Definition another_kind (s : Setting) : Setting := match s with SMap => SBool true | _ => SMap end.

Lemma defaults_read key s : (key, s) ∈ setDefaults -> decode (<[key := another_kind s]> defaults) = None.
Proof.
  assert (H : forallb (fun ks => match decode (<[ks.1 := another_kind ks.2]> defaults) with Some _ => false | None => true end) setDefaults = true)
    by (vm_compute; reflexivity).
  intros Hin%list_elem_of_In. pose proof (proj1 (forallb_forall _ _) H _ Hin) as Hd. cbn [fst snd] in Hd.
  by destruct (decode _).
Qed.

(** The configuration the defaults decode to, under a profile. *)
Definition default_config (profile : string) : Config := Eval vm_compute in
  match decode (<["app.env" := SString profile]> defaults) with
  | Some c => with_migration_names c
  | None => Production.sample
  end.

Lemma defaults_decode profile : exists c, decode (<["app.env" := SString profile]> defaults) = Some c /\
  with_migration_names c = default_config profile.
Proof. vm_compute. eexists. split; reflexivity. Qed.

Section load.
Context {MR : MapRange}.

Lemma range_nothing {A} (m : gmap string A) : m = ∅ -> range m = [].
Proof. intros ->. apply Permutation_nil. by rewrite (range_perm A ∅), map_to_list_empty. Qed.

Lemma Validate_default profile : Validate (default_config profile) =
  if String.eqb profile "production" then Err (ErrorNew "grpc tls must be enabled in production") else Ok tt.
Proof.
  unfold Validate. change (app_Env (c_App (default_config profile))) with profile.
  rewrite (range_nothing (out_HTTP (c_Outbound (default_config profile))) eq_refl),
    (range_nothing (out_GRPC (c_Outbound (default_config profile))) eq_refl).
  destruct (String.eqb profile "production"); vm_compute; reflexivity.
Qed.

(** A process without configuration: it runs under the profile of its argument, or as
    "development" if that is blank, with the defaults, which switch on no part that
    needs another system; and it refuses to run in production, where the defaults lack
    the certificates of the gRPC server. *)
Theorem Load_defaults explicit :
  let profile := ToLower (TrimSpace explicit) in
  let profile := if str_empty profile then "development" else profile in
  LoadWithProfile "" explicit =
    (if negb (MatchString validProfile profile) then Err (Errorf "invalid environment profile %q" [profile])
     else if String.eqb profile "production" then Err (ErrorNew "grpc tls must be enabled in production")
     else Ok (with_runtime (mkRuntime profile [""]) (default_config profile))) /\
  db_Enabled (c_Database (default_config profile)) = false /\ redis_Enabled (c_Redis (default_config profile)) = false /\
  eb_Enabled (c_EventBus (default_config profile)) = false /\ tmp_Enabled (c_Temporal (default_config profile)) = false.
Proof.
  intros p profile. split; [|done].
  assert (Hp : profile_of explicit (∅ ∪ defaults) = profile).
  { unfold profile_of. fold p. unfold profile. destruct (str_empty p); [|done]. vm_compute. reflexivity. }
  unfold LoadWithProfile. change (bind_all bindings (viper_New "")) with (Ok (∅ : gmap string Setting) : res (gmap string Setting)).
  cbn [mbind result_bind]. change (read_config "" (vp_SetDefaults ∅)) with (Ok (∅ ∪ defaults) : res (gmap string Setting)).
  cbn [mbind result_bind]. rewrite Hp. destruct (MatchString validProfile profile) eqn:Hv; cbn [negb]; [|done].
  assert (Hm : merge_profile "" profile (∅ ∪ defaults) = Ok (∅ ∪ defaults, [""])).
  { unfold merge_profile. by destruct (String.eqb _ ""). }
  cbv zeta. rewrite Hm. cbn [mbind result_bind]. rewrite (left_id_L ∅ (∪) defaults).
  destruct (defaults_decode profile) as (c & Hc & Hw). cbn [vp_Unmarshal vp_SetEnv bare]. rewrite Hc. cbn [wrap_res mbind result_bind].
  rewrite Hw, Validate_default. by destruct (String.eqb profile "production").
Qed.
End load.

Example year_of_hours : ParseDuration "8760h" = Some 31536000000000000%Z. Proof. reflexivity. Qed.
Example hours_minutes : ParseDuration "1h30m" = Some 5400000000000%Z. Proof. reflexivity. Qed.
Example unknown_unit : ParseDuration "10sec" = None. Proof. reflexivity. Qed.
