(* ===== verification/Auth.v ===== *)
(** * Credentials and request identifiers

    [internal/auth/psk.go], the bearer scheme of the authentication middlewares,
    [internal/requestid] and [internal/ratelimit]. *)
From S2P Require Import Prelude GoStd Json Model PathMatch Config.
From Stdlib Require Import Ascii String.
Local Open Scope string_scope.
Local Open Scope list_scope.

(** [strings.Cut(s, " ")] *)
Fixpoint cut_space (s : string) : string * string * bool :=
  match s with
  | EmptyString => (EmptyString, EmptyString, false)
  | String c s' => if Ascii.eqb c " " then (EmptyString, s', true)
                   else let '(before, after, found) := cut_space s' in (String c before, after, found)
  end.

Definition lower (c : ascii) : ascii := if is_upper c then ascii_of_N (N_of_ascii c + 32) else c.

(** [strings.EqualFold(s, t)] for a [t] of ASCII letters: outside ASCII only the long s
    (C5 BF) and the Kelvin sign (E2 84 AA) fold to ASCII letters. *)
Fixpoint EqualFold (s t : string) : bool :=
  match t with
  | EmptyString => str_empty s
  | String c t' =>
    match s with
    | EmptyString => false
    | String a s1 =>
      if (N_of_ascii a <? 128)%N then Ascii.eqb (lower a) (lower c) && EqualFold s1 t'
      else match s1 with
      | EmptyString => false
      | String b s2 =>
        if in_range 197 197 a && in_range 191 191 b then Ascii.eqb (lower c) "s" && EqualFold s2 t'
        else match s2 with
        | EmptyString => false
        | String d s3 =>
          in_range 226 226 a && in_range 132 132 b && in_range 170 170 d && Ascii.eqb (lower c) "k" && EqualFold s3 t'
        end
      end
    end
  end.

(** [subtle.ConstantTimeCompare(a, b) == 1] *)
Definition ConstantTimeEqual (a b : string) : bool := String.eqb a b.

Definition VerifyPSK (authorization expected : string) : bool :=
  let '(scheme, supplied, ok) := cut_space authorization in
  if negb ok || negb (EqualFold scheme "PSK") || str_empty supplied
     || negb (String.length supplied =? String.length expected)%nat then false
  else ConstantTimeEqual supplied expected.

(** The token of an [Authorization: Bearer ...] header. *)
Definition bearer (header : string) : option string :=
  let '(scheme, raw, ok) := cut_space header in
  if negb ok || negb (EqualFold scheme "Bearer") || str_empty raw then None else Some raw.

(** [requestid.Valid]: every allowed character is one byte, and no byte of another
    character is allowed. *)
Definition allowedCharacter (c : ascii) : bool := is_letter c || is_digit c || byte_in "-_." c.
Definition requestid_Valid (value : string) : bool :=
  if str_empty value || (128 <? String.length value)%nat then false else str_forall allowedCharacter value.

(** ** Rate limits *)

Record RateResult : Type := mkRateResult {
  rr_Allowed : bool; rr_Limit : Z; rr_Remaining : Z; rr_RetryAfter : Z
}.

(** [redisrate.Result] *)
Record RedisRate : Type := mkRedisRate { rx_Allowed : Z; rx_Remaining : Z; rx_RetryAfter : Z }.

(** The limiter: [lm_backend] is [None] without a Redis client. *)
Record Limiter (W : Type) : Type := mkLimiter {
  lm_enabled : bool; lm_failOpen : bool;
  lm_backend : option (string -> config.RateLimitRule -> stE W error RedisRate)
}.
Arguments mkLimiter {W} _ _ _.
Arguments lm_enabled {W} _.
Arguments lm_failOpen {W} _.
Arguments lm_backend {W} _.

Definition newLimiter {W} (client : option (string -> config.RateLimitRule -> stE W error RedisRate))
    (cfg : config.Config) : Limiter W :=
  mkLimiter (config.rl_Enabled (config.c_RateLimit cfg)) (config.rl_FailOpen (config.c_RateLimit cfg)) client.

Definition Allow {W} (l : Limiter W) (key : string) (rule : config.RateLimitRule) : stE W error RateResult := fun w =>
  if negb (lm_enabled l) then (Ok (mkRateResult true 0 0 0), w)
  else match lm_backend l with
       | None => (Err (ErrorNew "redis rate limiter is unavailable"), w)
       | Some backend =>
           match backend key rule w with
           | (Err err, w') => (Err (Wrap "check redis rate limit: %w" [] err), w')
           | (Ok r, w') => (Ok (mkRateResult (0 <? rx_Allowed r)%Z (config.rule_Burst rule) (rx_Remaining r)
                                  (rx_RetryAfter r)), w')
           end
       end.

(** ** Facts *)

(** A pre-shared key is accepted only if it is the configured one, and not empty. *)
Lemma VerifyPSK_sound authorization expected : VerifyPSK authorization expected = true ->
  exists scheme, cut_space authorization = (scheme, expected, true) /\ EqualFold scheme "PSK" = true /\ expected <> "".
Proof.
  unfold VerifyPSK, ConstantTimeEqual, str_empty. destruct (cut_space authorization) as [[scheme supplied] ok].
  destruct (negb ok || _ || _ || _) eqn:H; [done|]. bool_to_prop. intros Heq%String.eqb_eq. subst.
  exists scheme. done.
Qed.

Lemma cut_space_app s before after : cut_space s = (before, after, true) -> s = before +:+ " " +:+ after.
Proof.
  revert before after. induction s as [|c s IH]; intros before after; cbn [cut_space]; [done|].
  destruct (Ascii.eqb_spec c " ") as [->|Hc]; [by intros [= <- <-]|].
  destruct (cut_space s) as [[b a] f]. intros [= <- <- ->]. by rewrite (IH b a eq_refl).
Qed.

Example psk_ok : VerifyPSK "psk secret" "secret" = true. Proof. reflexivity. Qed.
Example psk_prefix : VerifyPSK "PSK secre" "secret" = false. Proof. reflexivity. Qed.
Example psk_empty : VerifyPSK "PSK " "" = false. Proof. reflexivity. Qed.
Example kelvin : EqualFold (String "P" (String "s" (String "226" (String "132" (String "170" ""))))) "PSK" = true.
Proof. reflexivity. Qed.
