(* ===== verification/Tls.v ===== *)
(** * TLS (transport/grpc/server.go, outbound/http.go, grpcclient/client.go,
      workflowruntime/temporal.go)

    The four functions that make a [tls.Config] of the files a configuration names:
    the gRPC server's, the outbound HTTP and gRPC clients' and Temporal's. *)
From S2P Require Import Prelude GoStd Model PathMatch Config Database.
Import config.
From Stdlib Require Import Ascii String.
Local Open Scope string_scope.
Local Open Scope list_scope.

(** Files and certificates: a pool is a list of certificates, [AppendCertsFromPEM] adds
    those it finds and reports whether there are any. *)
Class Certificates := {
  Cert : Type;
  KeyPair : Type;
  ReadFile : string -> res string;
  pem_certificates : string -> list Cert;
  LoadX509KeyPair : string -> string -> res KeyPair;
  SystemCertPool : res (list Cert)
}.

Section tls.
Context {CT : Certificates}.

(** [tls.Config] with [InsecureSkipVerify] and the rest at their zero values: a peer is
    verified against the system's roots where [RootCAs] is nil, and clients are asked
    for a certificate only with [ClientAuth]. *)
Record TlsConfig : Type := mkTlsConfig {
  MinVersion : Z; ServerName : string; RootCAs : option (list Cert); OwnCertificates : list KeyPair;
  ClientCAs : option (list Cert); RequireAndVerifyClientCert : bool
}.
Definition VersionTLS12 : Z := 771.

Definition AppendCertsFromPEM (pool : list Cert) (pem : string) : option (list Cert) :=
  match pem_certificates pem with [] => None | certs => Some (pool ++ certs) end.

(** [serverCredentials] of the gRPC server. *)
Definition serverCredentials (cfg : GRPCTLS) : res TlsConfig :=
  certificate ← wrap_res "load grpc certificate: %w" (LoadX509KeyPair (gtls_CertFile cfg) (gtls_KeyFile cfg));
  if negb (str_empty (gtls_ClientCAFile cfg)) then
    pem ← wrap_res "read grpc client CA: %w" (ReadFile (gtls_ClientCAFile cfg));
    match AppendCertsFromPEM [] pem with
    | None => Err (Errorf "parse grpc client CA" [])
    | Some pool => Ok (mkTlsConfig VersionTLS12 "" None [certificate] (Some pool) true)
    end
  else Ok (mkTlsConfig VersionTLS12 "" None [certificate] None false).

(** The authorities of a client: those of the file, added to [pool]. *)
Definition root_pool (read : error -> error) (parse : error) (pool : list Cert) (file : string) : res (option (list Cert)) :=
  if str_empty file then Ok None
  else match ReadFile file with
       | Err err => Err (read err)
       | Ok pem => match AppendCertsFromPEM pool pem with
                   | None => Err parse
                   | Some pool => Ok (Some pool)
                   end
       end.

Definition client_pair (format : string) (certFile keyFile : string) : res (list KeyPair) :=
  if str_empty certFile then Ok []
  else certificate ← wrap_res format (LoadX509KeyPair certFile keyFile); Ok [certificate].

(** [httpTransport]: its [TLSClientConfig]. *)
Definition httpTransport (cfg : ClientTLS) : res TlsConfig :=
  pool ← root_pool (Wrap "read outbound HTTP CA: %w" []) (ErrorNew "parse outbound HTTP CA") [] (tls_CAFile cfg);
  own ← client_pair "load outbound HTTP client certificate: %w" (tls_CertFile cfg) (tls_KeyFile cfg);
  Ok (mkTlsConfig VersionTLS12 (tls_ServerName cfg) pool own None false).

(** [transportCredentials]: [None] are the insecure credentials. *)
Definition transportCredentials (cfg : ClientTLS) : res (option TlsConfig) :=
  if negb (tls_Enabled cfg) then Ok None
  else
    pool ← root_pool (Wrap "read grpc CA: %w" []) (ErrorNew "parse grpc CA") [] (tls_CAFile cfg);
    own ← (if negb (str_empty (tls_CertFile cfg)) || negb (str_empty (tls_KeyFile cfg)) then
             if str_empty (tls_CertFile cfg) || str_empty (tls_KeyFile cfg)
             then Err (ErrorNew "grpc client certificate and key must be configured together")
             else client_pair "load grpc client certificate: %w" (tls_CertFile cfg) (tls_KeyFile cfg)
           else Ok []);
    Ok (Some (mkTlsConfig VersionTLS12 (tls_ServerName cfg) pool own None false)).

(** [temporalTLS]: [None] is no TLS; the system's authorities, if they can be had, are
    trusted besides those of the file. *)
Definition temporalTLS (cfg : ClientTLS) : res (option TlsConfig) :=
  if negb (tls_Enabled cfg) then Ok None
  else
    let system := match SystemCertPool with Ok pool => pool | Err _ => [] end in
    pool ← root_pool (Wrap "read Temporal CA: %w" []) (ErrorNew "temporal CA file contains no certificates") system
             (tls_CAFile cfg);
    own ← client_pair "load Temporal client certificate: %w" (tls_CertFile cfg) (tls_KeyFile cfg);
    Ok (Some (mkTlsConfig VersionTLS12 (tls_ServerName cfg) pool own None false)).

(** ** Fail closed *)

(** The certificates a file adds to a pool; none is an error. *)
Definition certificates_in (file : string) (certs : list Cert) : Prop :=
  exists pem, ReadFile file = Ok pem /\ pem_certificates pem = certs /\ certs <> [].

(** What a client's configuration makes of its files. *)
Record client_config (cfg : ClientTLS) (base : list Cert) (t : TlsConfig) : Prop := {
  cc_version : MinVersion t = VersionTLS12;
  cc_name : ServerName t = tls_ServerName cfg;
  cc_roots : if str_empty (tls_CAFile cfg) then RootCAs t = None
             else exists certs, certificates_in (tls_CAFile cfg) certs /\ RootCAs t = Some (base ++ certs);
  cc_own : if str_empty (tls_CertFile cfg) then OwnCertificates t = []
           else exists pair, LoadX509KeyPair (tls_CertFile cfg) (tls_KeyFile cfg) = Ok pair /\ OwnCertificates t = [pair]
}.

Lemma append_certs pool pem pool' : AppendCertsFromPEM pool pem = Some pool' <->
  pool' = pool ++ pem_certificates pem /\ pem_certificates pem <> [].
Proof. unfold AppendCertsFromPEM. destruct (pem_certificates pem); naive_solver. Qed.

Lemma root_pool_spec read parse pool file roots : root_pool read parse pool file = Ok roots ->
  if str_empty file then roots = None else exists certs, certificates_in file certs /\ roots = Some (pool ++ certs).
Proof.
  unfold root_pool. destruct (str_empty file); [by intros [= <-]|]. destruct (ReadFile file) as [pem|] eqn:Hr; [|done].
  destruct (AppendCertsFromPEM pool pem) as [pool'|] eqn:Ha; [|done]. intros [= <-].
  apply append_certs in Ha as [-> Hne]. exists (pem_certificates pem). split; [by exists pem|done].
Qed.

Lemma client_pair_spec format certFile keyFile own : client_pair format certFile keyFile = Ok own ->
  if str_empty certFile then own = []
  else exists pair, LoadX509KeyPair certFile keyFile = Ok pair /\ own = [pair].
Proof.
  unfold client_pair. destruct (str_empty certFile); [by intros [= <-]|].
  destruct (LoadX509KeyPair certFile keyFile) as [pair|]; [|done]. intros [= <-]. by exists pair.
Qed.

Lemma client_parts cfg read parse base format roots own : 
  root_pool read parse base (tls_CAFile cfg) = Ok roots -> client_pair format (tls_CertFile cfg) (tls_KeyFile cfg) = Ok own ->
  client_config cfg base (mkTlsConfig VersionTLS12 (tls_ServerName cfg) roots own None false).
Proof. intros Hr%root_pool_spec Ho%client_pair_spec. by split. Qed.

(** TLS fails closed: whenever a configuration is made, it speaks TLS 1.2 or later
    and verifies its peer; the files that are configured were read and parsed - a
    server with a client authority demands certificates that this authority alone
    signed, a client with an authority file trusts that file alone (Temporal's: the
    system's besides), a client certificate comes with its key; and a connection without
    TLS is made only if TLS is switched off. *)
Theorem tls_fails_closed (server : GRPCTLS) (cfg : ClientTLS) :
  (forall t, serverCredentials server = Ok t -> MinVersion t = VersionTLS12 /\
     (exists pair, LoadX509KeyPair (gtls_CertFile server) (gtls_KeyFile server) = Ok pair /\ OwnCertificates t = [pair]) /\
     (gtls_ClientCAFile server <> "" -> RequireAndVerifyClientCert t = true /\
        exists certs, certificates_in (gtls_ClientCAFile server) certs /\ ClientCAs t = Some certs)) /\
  (forall t, httpTransport cfg = Ok t -> client_config cfg [] t) /\
  (forall o, transportCredentials cfg = Ok o -> match o with
     | None => tls_Enabled cfg = false
     | Some t => client_config cfg [] t /\ (tls_CertFile cfg = "" <-> tls_KeyFile cfg = "") end) /\
  (forall o, temporalTLS cfg = Ok o -> match o with
     | None => tls_Enabled cfg = false
     | Some t => exists system, (SystemCertPool = Ok system \/ system = []) /\ client_config cfg system t end).
Proof.
  split; [|split; [|split]].
  - intros t. unfold serverCredentials. destruct (LoadX509KeyPair _ _) as [pair|]; [|done]. simpl.
    destruct (str_empty (gtls_ClientCAFile server)) eqn:Hca; simpl.
    + intros [= <-]. split; [done|]. split; [by exists pair|]. by destruct (gtls_ClientCAFile server).
    + destruct (ReadFile _) as [pem|] eqn:Hr; [|done]. simpl. destruct (AppendCertsFromPEM [] pem) as [pool|] eqn:Ha; [|done].
      intros [= <-]. split; [done|]. split; [by exists pair|]. intros _. split; [done|].
      apply append_certs in Ha as [-> Hne]. exists (pem_certificates pem). split; [by exists pem|done].
  - intros t (roots & Hr & (own & Ho & [= <-])%res_bind_Ok)%res_bind_Ok. by eapply client_parts.
  - intros o. unfold transportCredentials. destruct (tls_Enabled cfg); [|by intros [= <-]]. cbn [negb].
    intros (roots & Hr & (own & Ho & [= <-])%res_bind_Ok)%res_bind_Ok.
    destruct (str_empty (tls_CertFile cfg)) eqn:Hc, (str_empty (tls_KeyFile cfg)) eqn:Hk; cbn [negb orb] in Ho; try done.
    + injection Ho as <-. split; [|by destruct (tls_CertFile cfg), (tls_KeyFile cfg)].
      apply root_pool_spec in Hr. split; simpl; [done|done|exact Hr|by rewrite Hc].
    + split; [by eapply client_parts|]. by destruct (tls_CertFile cfg), (tls_KeyFile cfg).
  - intros o. unfold temporalTLS. destruct (tls_Enabled cfg); [|by intros [= <-]]. cbn [negb].
    intros (roots & Hr & (own & Ho & [= <-])%res_bind_Ok)%res_bind_Ok.
    eexists. split; [|by eapply client_parts]. destruct SystemCertPool; [by left|by right].
Qed.

(** ** Which configurations have what they name *)

(** The files a client's configuration names are there: the authorities, and a
    certificate that comes with a key. *)
Record files_load (caFile certFile keyFile : string) : Prop := {
  fl_ca : caFile <> "" -> exists certs, certificates_in caFile certs;
  fl_pair : certFile <> "" -> keyFile <> "" -> is_ok (LoadX509KeyPair certFile keyFile) = true
}.
Definition client_files (cfg : ClientTLS) : Prop := files_load (tls_CAFile cfg) (tls_CertFile cfg) (tls_KeyFile cfg).

(** No file has the empty name. *)
Definition key_needed : Prop := forall certFile, is_ok (LoadX509KeyPair certFile "") = false.

Lemma root_pool_loads read parse pool file : (file <> "" -> exists certs, certificates_in file certs) ->
  is_ok (root_pool read parse pool file) = true.
Proof.
  intros Hf. unfold root_pool. destruct (str_empty file) eqn:He; [done|]. apply str_empty_false in He.
  destruct (Hf He) as (certs & pem & -> & Hc & Hne). unfold AppendCertsFromPEM. rewrite Hc. by destruct certs.
Qed.

Lemma client_pair_exact format certFile keyFile : key_needed ->
  (certFile <> "" -> keyFile <> "" -> is_ok (LoadX509KeyPair certFile keyFile) = true) ->
  is_ok (client_pair format certFile keyFile) = true <-> (certFile <> "" -> keyFile <> "").
Proof.
  intros Hk Hf. unfold client_pair. destruct (str_empty certFile) eqn:He.
  - apply String.eqb_eq in He as ->. by split.
  - apply str_empty_false in He. destruct (str_empty keyFile) eqn:Hek.
    + apply String.eqb_eq in Hek as ->. specialize (Hk certFile). destruct (LoadX509KeyPair certFile ""); [done|].
      simpl. split; [done|]. intros H. by specialize (H He).
    + apply str_empty_false in Hek. specialize (Hf He Hek). by destruct (LoadX509KeyPair certFile keyFile).
Qed.

(** The HTTP client looks at the files even where TLS is switched off. *)
Lemma httpTransport_exact cfg : key_needed -> client_files cfg ->
  is_ok (httpTransport cfg) = true <-> (tls_CertFile cfg <> "" -> tls_KeyFile cfg <> "").
Proof.
  intros Hk [Hca Hp]. unfold httpTransport. pose proof (root_pool_loads (Wrap "read outbound HTTP CA: %w" [])
    (ErrorNew "parse outbound HTTP CA") [] _ Hca) as Hr. destruct (root_pool _ _ _ _); [|done]. cbn [mbind result_bind].
  pose proof (client_pair_exact "load outbound HTTP client certificate: %w" _ _ Hk Hp) as Hx. rewrite <- Hx. by destruct (client_pair _ _ _).
Qed.

(** A certificate and a key, or neither. *)
Definition paired (cfg : ClientTLS) : Prop := tls_Enabled cfg = true -> tls_CertFile cfg = "" <-> tls_KeyFile cfg = "".

Lemma client_pair_loads format cfg : client_files cfg -> (tls_CertFile cfg = "" <-> tls_KeyFile cfg = "") ->
  is_ok (client_pair format (tls_CertFile cfg) (tls_KeyFile cfg)) = true.
Proof.
  intros [_ Hp] Hpair. unfold client_pair. destruct (str_empty (tls_CertFile cfg)) eqn:Hc; [done|]. apply str_empty_false in Hc.
  assert (Hk : tls_KeyFile cfg <> "") by tauto. specialize (Hp Hc Hk). by destruct (LoadX509KeyPair _ _).
Qed.

Lemma transportCredentials_loads cfg : client_files cfg -> paired cfg -> is_ok (transportCredentials cfg) = true.
Proof.
  intros Hf Hpair. unfold transportCredentials. destruct (tls_Enabled cfg) eqn:He; [|done]. cbn [negb].
  specialize (Hpair He). apply is_ok_bind; [apply root_pool_loads, Hf|]. intros roots. apply is_ok_bind; [|done].
  destruct (str_empty (tls_CertFile cfg)) eqn:Hc, (str_empty (tls_KeyFile cfg)) eqn:Hk; cbn [negb orb]; try done.
  - apply String.eqb_eq in Hc. apply str_empty_false in Hk. tauto.
  - apply String.eqb_eq in Hk. apply str_empty_false in Hc. tauto.
  - by apply client_pair_loads.
Qed.

Lemma temporalTLS_loads cfg : client_files cfg -> paired cfg -> is_ok (temporalTLS cfg) = true.
Proof.
  intros Hf Hpair. unfold temporalTLS. destruct (tls_Enabled cfg) eqn:He; [|done]. cbn [negb].
  apply is_ok_bind; [apply root_pool_loads, Hf|]. intros roots. apply is_ok_bind; [|done]. by apply client_pair_loads, Hpair.
Qed.

Lemma serverCredentials_loads cfg : files_load (gtls_ClientCAFile cfg) (gtls_CertFile cfg) (gtls_KeyFile cfg) ->
  gtls_CertFile cfg <> "" -> gtls_KeyFile cfg <> "" -> is_ok (serverCredentials cfg) = true.
Proof.
  intros [Hca Hp] Hc Hk. unfold serverCredentials. specialize (Hp Hc Hk).
  destruct (LoadX509KeyPair _ _) as [pair|]; [|done]. cbn. destruct (str_empty (gtls_ClientCAFile cfg)) eqn:He; [done|].
  apply str_empty_false in He. destruct (Hca He) as (certs & pem & -> & Hx & Hne). cbn. unfold AppendCertsFromPEM. rewrite Hx.
  by destruct certs.
Qed.
End tls.
