(* ===== verification/Outbound.v ===== *)
(** * Outbound clients (internal/outbound, internal/grpcclient)

    The HTTP and the gRPC client towards other services: how they are built from the
    configuration, what they send, how often they try and how long they wait.  A
    client runs against a history: the list of what it has done so far, on which the
    answer of the network, of a wait and of the circuit breaker may depend in any way. *)
From S2P Require Import Prelude GoStd Model Graph PathMatch Config Database Tls.
From Stdlib Require Import Ascii String.
Local Open Scope string_scope.
Local Open Scope list_scope.
Import config.

(** ** Requests and histories *)

(** [http.Header]: the values of every name; the names are canonical. *)
Abbreviation HttpHeader := (gmap string (list string)).
Definition Header_Get (header : HttpHeader) (key : string) : string := default "" (header !! key ≫= head).
Definition Header_Set (header : HttpHeader) (key value : string) : HttpHeader := <[key := [value]]> header.

Record HttpCall : Type := mkHttpCall {
  hc_Method : string; hc_URL : string; hc_Body : string; hc_Header : HttpHeader
}.
Record HttpAnswer : Type := mkHttpAnswer { ha_StatusCode : Z; ha_Body : string }.

(** A call of the network and how it ended, or a wait and how it ended. *)
Inductive Event (Q R : Type) : Type :=
| Sent (q : Q) (r : res R)
| Waited (delay : Z) (r : option error).
Arguments Sent {Q R} _ _.
Arguments Waited {Q R} _ _.

(** What a client's context carries, and what answers it. *)
Record CallCtx : Type := mkCallCtx {
  cc_idempotency : option string;      (** [idempotency.FromContext] *)
  cc_request_id : option string;       (** [requestid.FromContext] *)
  cc_deadline : bool                   (** whether the context has a deadline *)
}.

Class Network (Q R : Type) := {
  net_send : list (Event Q R) -> Q -> res R;
  net_wait : list (Event Q R) -> Z -> option error    (** [ctx.Err()] if the context ends first *)
}.

Section network.
Context {Q R : Type} {N : Network Q R}.

Definition C (A : Type) : Type := stE (list (Event Q R)) error A.

Definition send (q : Q) : C R := fun log =>
  let r := net_send log q in (r, log ++ [Sent q r]).

(** [select { case <-ctx.Done(): return ctx.Err(); case <-timer.C: return nil }] *)
Definition wait (delay : Z) : C unit := fun log =>
  let r := net_wait log delay in
  (match r with Some err => Err err | None => Ok tt end, log ++ [Waited delay r]).
End network.

(** ** Durations *)

Definition int64_wrap (z : Z) : Z := (let m := z mod 2 ^ 64 in if m <? 2 ^ 63 then m else m - 2 ^ 64)%Z.

(** [delay := cfg.InitialBackoff << (attempt - 1)], capped. *)
Definition grpc_delay (retry : Retry) (attempt : Z) : Z :=
  let delay := int64_wrap (Z.shiftl (retry_InitialBackoff retry) (attempt - 1)) in
  if (retry_MaxBackoff retry <? delay)%Z then retry_MaxBackoff retry else delay.

(** [float64(n)] for a nonnegative [n]: rounded to 53 bits, ties to even. *)
Definition float64_of_nonneg (n : Z) : Z :=
  let e := (Z.log2 n - 52)%Z in
  if (e <=? 0)%Z then n else
  let unit := (2 ^ e)%Z in
  let q := (n / unit)%Z in let r := (n mod unit)%Z in
  (if (2 * r <? unit) || ((2 * r =? unit) && Z.even q) then q * unit else (q + 1) * unit)%Z.

(** A [float64] out of range converts to an unspecified [int64]. *)
Class FloatOverflow := float_overflow : Z.

(** [time.Duration(float64(retry.InitialBackoff) * math.Pow(2, float64(attempt-1)))] for
    a nonnegative delay, capped. *)
Definition http_delay `{FloatOverflow} (retry : Retry) (attempt : Z) : Z :=
  let value := (float64_of_nonneg (retry_InitialBackoff retry) * 2 ^ (attempt - 1))%Z in
  let delay := if (value <? 2 ^ 63)%Z then value else float_overflow in
  if (retry_MaxBackoff retry <? delay)%Z then retry_MaxBackoff retry else delay.

(** ** The HTTP client *)

Definition retryableMethod (ctx : CallCtx) (method : string) : bool :=
  if existsb (String.eqb method) ["GET"; "HEAD"; "OPTIONS"; "PUT"; "DELETE"] then true
  else match cc_idempotency ctx with Some _ => true | None => false end.

Definition retryableHTTPStatus (status : Z) : bool :=
  ((status =? 429) || (status =? 502) || (status =? 503) || (status =? 504))%Z.

Definition applyHTTPAuth (auth : ClientAuth) (header : HttpHeader) : HttpHeader :=
  if String.eqb (ca_Type auth) "bearer" then Header_Set header "Authorization" ("Bearer " +:+ ca_Token auth)
  else if String.eqb (ca_Type auth) "psk" then Header_Set header "Authorization" ("PSK " +:+ ca_Token auth)
  else header.

Definition with_content_type (body : string) (header : HttpHeader) : HttpHeader :=
  if negb (str_empty body) && str_empty (Header_Get header "Content-Type")
  then Header_Set header "Content-Type" "application/json" else header.

(** [net/url]: whether a reference is relative and has no host, and what it resolves to. *)
Class UrlLibrary := {
  url_base : string -> bool;                          (** parses, with a scheme and a host *)
  url_resolve : string -> string -> option string;    (** [None]: not a relative path *)
  http_method_valid : string -> bool
}.

Record HTTPClient (Brk : Type) : Type := mkHTTPClient {
  hcl_name : string; hcl_baseURL : string; hcl_cfg : HTTPUpstream; hcl_breaker : option Brk
}.
Arguments mkHTTPClient {Brk} _ _ _ _.
Arguments hcl_name {Brk} _.
Arguments hcl_baseURL {Brk} _.
Arguments hcl_cfg {Brk} _.
Arguments hcl_breaker {Brk} _.

Section http.
Context {UL : UrlLibrary} {FO : FloatOverflow} {N : Network HttpCall HttpAnswer}.
Abbreviation H := (C (Q := HttpCall) (R := HttpAnswer)).

Definition waitBackoff (retry : Retry) (attempt : Z) : H unit := wait (http_delay retry attempt).

(** The loop; [remaining] is [maxAttempts - attempt + 1]. *)
Fixpoint http_attempts (remaining : nat) (call : HttpCall) (retry : Retry) (maxAttempts attempt : Z) : H HttpAnswer :=
  match remaining with
  | O => throw (ErrorNew "outbound HTTP attempts exhausted")
  | S remaining => fun log =>
      let '(r, log1) := send call log in
      let again : H HttpAnswer :=
        _ ← (if (attempt <? maxAttempts)%Z then waitBackoff retry attempt else mret tt);
        http_attempts remaining call retry maxAttempts (attempt + 1) in
      match r with
      | Ok response =>
          if negb (retryableHTTPStatus (ha_StatusCode response)) || (attempt =? maxAttempts)%Z
          then (Ok response, log1) else again log1
      | Err err =>
          if (attempt =? maxAttempts)%Z then (Err (Wrap "call outbound HTTP service: %w" [] err), log1) else again log1
      end
  end.

Definition doWithRetry {Brk} (c : HTTPClient Brk) (ctx : CallCtx) (method requestPath body : string)
    (headers : HttpHeader) : H HttpAnswer :=
  match url_resolve (hcl_baseURL c) requestPath with
  | None => throw (ErrorNew "outbound HTTP path must be relative")
  | Some target =>
      let maxAttempts := if retryableMethod ctx method then retry_MaxAttempts (hu_Retry (hcl_cfg c)) else 1%Z in
      if (1 <=? maxAttempts)%Z && negb (http_method_valid method)
      then throw (Wrap "create outbound HTTP request: %w" [] (Foreign (OtherError "net/http: invalid method")))
      else
        let call := mkHttpCall method target body
          (applyHTTPAuth (hu_Auth (hcl_cfg c)) (with_content_type body headers)) in
        http_attempts (Z.to_nat maxAttempts) call (hu_Retry (hcl_cfg c)) maxAttempts 1
  end.

(** [gobreaker.CircuitBreaker.Execute]: it runs the call once, or refuses it. *)
Class CircuitBreaker (Brk : Type) := {
  brk_allows : Brk -> list (Event HttpCall HttpAnswer) -> bool;
  ErrOpenState : error
}.

Definition execute {Brk} `{CircuitBreaker Brk} (c : HTTPClient Brk) (ctx : CallCtx) (method requestPath body : string)
    (headers : HttpHeader) : H HttpAnswer :=
  match hcl_breaker c with
  | None => doWithRetry c ctx method requestPath body headers
  | Some brk => fun log =>
      (** a retryable status counts as a failure inside the breaker, and is the answer outside *)
      if brk_allows brk log then doWithRetry c ctx method requestPath body headers log else (Err ErrOpenState, log)
  end.

Definition NewHTTPClient {Brk} `{Certificates} (newBreaker : string -> Breaker -> Brk) (name : string) (cfg : HTTPUpstream) : res (HTTPClient Brk) :=
  if negb (str_empty (ca_Type (hu_Auth cfg))) && negb (tls_Enabled (hu_TLS cfg))
  then Err (ErrorNew "refusing to send outbound HTTP credentials without TLS")
  else if negb (url_base (hu_BaseURL cfg)) then Err (Errorf "parse outbound HTTP base URL %q" [hu_BaseURL cfg])
  else
    _ ← httpTransport (hu_TLS cfg);
    Ok (mkHTTPClient name (hu_BaseURL cfg) cfg
          (if brk_Enabled (hu_Breaker cfg) then Some (newBreaker name (hu_Breaker cfg)) else None)).
End http.

(** ** The gRPC client *)

Record GrpcClientConfig : Type := mkGrpcClientConfig {
  gc_Target : string; gc_Timeout : Z; gc_Token : string; gc_PSK : string; gc_TLS : ClientTLS;
  gc_Name : string; gc_Retry : Retry; gc_Breaker : Breaker
}.

(** What [NewRegistry] makes of an upstream; [AllowInsecureToken] is [AllowInsecure]. *)
Definition clientConfig (name : string) (upstream : GRPCUpstream) : GrpcClientConfig :=
  let auth := gu_Auth upstream in
  mkGrpcClientConfig (gu_Target upstream) (gu_Timeout upstream)
    (if String.eqb (ca_Type auth) "bearer" then ca_Token auth else "")
    (if String.eqb (ca_Type auth) "psk" then ca_Token auth else "")
    (gu_TLS upstream) name (gu_Retry upstream) (gu_Breaker upstream).

(** [Dial] up to [grpc.NewClient], which checks the target. *)
Definition Dial `{Certificates} (newClient : string -> res unit) (cfg : GrpcClientConfig) : res unit :=
  if str_empty (gc_Target cfg) then Err (ErrorNew "grpc client target is required")
  else if (gc_Timeout cfg <=? 0)%Z then Err (ErrorNew "grpc client timeout must be positive")
  else
    _ ← transportCredentials (gc_TLS cfg);
    if negb (str_empty (gc_Token cfg)) && negb (tls_Enabled (gc_TLS cfg)) && negb (tls_AllowInsecure (gc_TLS cfg))
    then Err (ErrorNew "refusing to send grpc bearer token without TLS")
    else if negb (str_empty (gc_PSK cfg)) && negb (str_empty (gc_Token cfg))
    then Err (ErrorNew "grpc client bearer token and PSK are mutually exclusive")
    else if negb (str_empty (gc_PSK cfg)) && negb (tls_Enabled (gc_TLS cfg)) && negb (tls_AllowInsecure (gc_TLS cfg))
    then Err (ErrorNew "refusing to send grpc PSK without TLS")
    else newClient (gc_Target cfg).

(** A unary call: the method and the outgoing metadata; whether it has a deadline. *)
Record GrpcCall : Type := mkGrpcCall { gq_Method : string; gq_Metadata : list (string * string); gq_Deadline : bool }.

Section grpc.
Context {Reply : Type} {N : Network GrpcCall Reply}.
Abbreviation G := (C (Q := GrpcCall) (R := Reply)).

(** [status.Code]: whether an error is [Unavailable] or [ResourceExhausted]. *)
Context (busy : error -> bool).

Definition retryGRPCMethod (ctx : CallCtx) (method : string) (patterns : list string) : bool :=
  match cc_idempotency ctx with Some _ => true | None => MatchesAny method patterns end.

Definition waitRetry (retry : Retry) (attempt : Z) : G unit := wait (grpc_delay retry attempt).

(** The loop, after [attempt - 1] calls; [err] is the last result. *)
Fixpoint grpc_attempts (remaining : nat) (call : GrpcCall) (retry : Retry) (attempt : Z) (last : res Reply) : G Reply :=
  match remaining with
  | O => lift last
  | S remaining => fun log =>
      let '(r, log1) := send call log in
      match r with
      | Err err =>
          if negb (busy err) then (r, log1)
          else (_ ← (if (attempt <? retry_MaxAttempts retry)%Z then waitRetry retry attempt else mret tt);
                grpc_attempts remaining call retry (attempt + 1) r) log1
      | Ok _ => (r, log1)
      end
  end.

(** [err] is nil before the first call: without attempts the call "succeeds". *)
Definition retryInterceptor (retry : Retry) (nothing : Reply) (ctx : CallCtx) (call : GrpcCall) : G Reply :=
  if negb (retryGRPCMethod ctx (gq_Method call) (retry_Methods retry)) then send call
  else grpc_attempts (Z.to_nat (retry_MaxAttempts retry)) call retry 1 (Ok nothing).

Definition metadataInterceptor (token psk : string) (ctx : CallCtx) (call : GrpcCall) : GrpcCall :=
  let pairs :=
    (if negb (str_empty token) then [("authorization", "Bearer " +:+ token)]
     else if negb (str_empty psk) then [("authorization", "PSK " +:+ psk)] else [])
    ++ (match cc_request_id ctx with Some id => [("x-request-id", id)] | None => [] end)
    ++ (match cc_idempotency ctx with Some key => [("idempotency-key", key)] | None => [] end) in
  mkGrpcCall (gq_Method call) (gq_Metadata call ++ pairs) (gq_Deadline call).

Definition timeoutInterceptor (ctx : CallCtx) (call : GrpcCall) : GrpcCall :=
  mkGrpcCall (gq_Method call) (gq_Metadata call) true.

(** The chain of [Dial]: timeout, metadata, breaker, retry. *)
Definition invoke (cfg : GrpcClientConfig) (open : list (Event GrpcCall Reply) -> bool) (err_open : error)
    (nothing : Reply) (ctx : CallCtx) (method : string) : G Reply :=
  let call := metadataInterceptor (gc_Token cfg) (gc_PSK cfg) ctx
    (timeoutInterceptor ctx (mkGrpcCall method [] (cc_deadline ctx))) in
  let retried := if (1 <? retry_MaxAttempts (gc_Retry cfg))%Z
                 then retryInterceptor (gc_Retry cfg) nothing ctx call else send call in
  fun log => if brk_Enabled (gc_Breaker cfg) && open log then (Err err_open, log) else retried log.
End grpc.

(** ** The registry *)

Section registry.
Context {MR : MapRange} {Brk : Type} {UL : UrlLibrary} {CT : Certificates}.
Context (newBreaker : string -> Breaker -> Brk) (newClient : string -> res unit).

Record Registry : Type := mkRegistry { rg_http : gmap string (HTTPClient Brk); rg_grpc : gmap string GrpcClientConfig }.

Fixpoint new_http (l : list (string * HTTPUpstream)) (acc : gmap string (HTTPClient Brk)) :
  res (gmap string (HTTPClient Brk)) :=
  match l with
  | [] => Ok acc
  | (name, upstream) :: l' =>
      match NewHTTPClient newBreaker name upstream with
      | Err err => Err (Wrap "create outbound HTTP client %q: %w" [name] err)
      | Ok client => new_http l' (<[name := client]> acc)
      end
  end.

Fixpoint new_grpc (l : list (string * GRPCUpstream)) (acc : gmap string GrpcClientConfig) :
  res (gmap string GrpcClientConfig) :=
  match l with
  | [] => Ok acc
  | (name, upstream) :: l' =>
      match Dial newClient (clientConfig name upstream) with
      | Err err => Err (Wrap "create outbound gRPC client %q: %w" [name] err)
      | Ok _ => new_grpc l' (<[name := clientConfig name upstream]> acc)
      end
  end.

Definition NewRegistry (cfg : Config) : res Registry :=
  http ← new_http (range (out_HTTP (c_Outbound cfg))) ∅;
  grpc ← new_grpc (range (out_GRPC (c_Outbound cfg))) ∅;
  Ok (mkRegistry http grpc).
End registry.
