(* ===== verification/OutboundSpec.v ===== *)
(** * The contract of the outbound clients

    How often they send, what they repeat, how long they wait; and which
    configurations their construction accepts. *)
From S2P Require Import Prelude GoStd Model Graph PathMatch Config ConfigSpec Tls Outbound.
From Stdlib Require Import Ascii String.
Local Open Scope string_scope.
Local Open Scope list_scope.
Import config.

(** ** One run of a retrying client *)

Section runs.
Context {Q R : Type} {N : Network Q R}.
Context (again : res R -> bool) (final : res R -> res R) (delay : Z -> Z) (q : Q) (max : Z).

(** From attempt [n] on: a last call, or a call worth repeating and a wait, after which
    the context has ended or the next attempt begins. *)
Inductive attempts : Z -> list (Event Q R) -> res R -> Prop :=
| at_last n r : again r = false \/ n = max -> attempts n [Sent q r] (final r)
| at_ended n r e : again r = true -> (n < max)%Z -> attempts n [Sent q r; Waited (delay n) (Some e)] (Err e)
| at_more n r l out : again r = true -> (n < max)%Z -> attempts (n + 1) l out ->
    attempts n (Sent q r :: Waited (delay n) None :: l) out.

Definition calls (l : list (Event Q R)) : list (Q * res R) :=
  omap (fun e => match e with Sent q r => Some (q, r) | Waited _ _ => None end) l.
Definition waits (l : list (Event Q R)) : list Z :=
  omap (fun e => match e with Sent _ _ => None | Waited d _ => Some d end) l.

(** The calls of a run are one and the same request, at most [max] of them, and all
    but the last were worth repeating; the result is that of the last call or of the
    context; the waits are the delays of the attempts before the last. *)
Record retried (l : list (Event Q R)) (out : res R) : Prop := {
  rt_same : Forall (fun c => c.1 = q) (calls l);
  rt_number : (1 <= Z.of_nat (List.length (calls l)) <= max)%Z;
  rt_again : Forall (fun c => again c.2 = true) (removelast (calls l));
  rt_result : (exists c, last (calls l) = Some c /\ out = final c.2) \/
              (exists e, out = Err e /\ forall c, last (calls l) = Some c -> again c.2 = true);
  rt_waits : exists k, waits l = delay <$> seqZ 1 k /\ (k < max)%Z
}.

Lemma attempts_calls n l out : attempts n l out -> (n <= max)%Z ->
  Forall (fun c => c.1 = q) (calls l) /\
  (1 <= Z.of_nat (List.length (calls l)) <= max - n + 1)%Z /\
  Forall (fun c => again c.2 = true) (removelast (calls l)) /\
  ((exists c, last (calls l) = Some c /\ out = final c.2) \/
   (exists e, out = Err e /\ forall c, last (calls l) = Some c -> again c.2 = true)) /\
  exists k, (0 <= k)%Z /\ waits l = delay <$> seqZ n k /\ (n + k <= max)%Z.
Proof.
  induction 1 as [n r Hr|n r e Hr Hn|n r l out Hr Hn Hl IH]; intros Hmax.
  - cbn. split; [by repeat constructor|]. split; [lia|]. split; [constructor|]. split; [left; by exists (q, r)|].
    exists 0%Z. split; [lia|]. split; [done|lia].
  - cbn. split; [by repeat constructor|]. split; [lia|]. split; [constructor|].
    split; [right; exists e; split; [done|]; by intros c [= <-]|].
    exists 1%Z. split; [lia|]. split; [done|lia].
  - destruct IH as (Hq & Hlen & Ha & Hres & k & Hk & Hw & Hb); [lia|]. cbn [calls waits omap list_omap].
    fold (calls l) (waits l). split; [by constructor|]. split; [simpl; lia|].
    destruct (calls l) as [|c cs] eqn:Hc; [simpl in Hlen; lia|].
    split; [cbn [removelast]; by constructor|]. split; [exact Hres|].
    exists (k + 1)%Z. split; [lia|]. split; [|lia].
    rewrite (Z.add_comm k 1). replace (seqZ n (1 + k)) with (n :: seqZ (n + 1) k); [by rewrite Hw|].
    rewrite (seqZ_cons n (1 + k)) by lia. f_equal. f_equal; lia.
Qed.

Lemma attempts_retried l out : attempts 1 l out -> (1 <= max)%Z -> retried l out.
Proof.
  intros H Hm. destruct (attempts_calls 1 l out H Hm) as (H1 & H2 & H3 & H4 & k & Hk & Hw & Hb).
  split; [done|lia|done..|]. exists k. split; [done|lia].
Qed.
End runs.

(** ** The two loops are such runs *)

Definition http_again (r : res HttpAnswer) : bool :=
  match r with Ok response => retryableHTTPStatus (ha_StatusCode response) | Err _ => true end.
Definition http_final (r : res HttpAnswer) : res HttpAnswer :=
  match r with Ok response => Ok response | Err err => Err (Wrap "call outbound HTTP service: %w" [] err) end.

Lemma http_attempts_run {N : Network HttpCall HttpAnswer} {FO : FloatOverflow} remaining call retry max attempt log :
  (1 <= attempt)%Z -> Z.of_nat remaining = (max - attempt + 1)%Z -> (0 < remaining) ->
  exists l out, http_attempts remaining call retry max attempt log = (out, log ++ l) /\
    attempts http_again http_final (http_delay retry) call max attempt l out.
Proof.
  revert attempt log. induction remaining as [|remaining IH]; intros attempt log H1 Hr Hpos; [lia|].
  cbn [http_attempts]. unfold send. set (r := net_send log call). set (log1 := log ++ [Sent call r]).
  assert (Hagain : http_again r = true -> (attempt =? max)%Z = false ->
    exists l out, (_ ← (if (attempt <? max)%Z then waitBackoff retry attempt else mret tt);
        http_attempts remaining call retry max (attempt + 1)) log1 = (out, log ++ l) /\
      attempts http_again http_final (http_delay retry) call max attempt l out).
  { intros Ha Hne. assert (Hlt : (attempt < max)%Z) by lia. rewrite (proj2 (Z.ltb_lt _ _) Hlt).
    unfold mbind, stE_bind, waitBackoff, wait. destruct (net_wait log1 (http_delay retry attempt)) as [e|].
    - exists [Sent call r; Waited (http_delay retry attempt) (Some e)], (Err e). unfold log1.
      rewrite <- app_assoc. split; [done|]. by apply at_ended.
    - destruct (IH (attempt + 1)%Z (log1 ++ [Waited (http_delay retry attempt) None])) as (l & out & Hl & Hat);
        [lia..|]. exists (Sent call r :: Waited (http_delay retry attempt) None :: l), out.
      rewrite Hl. unfold log1. rewrite <- !app_assoc. split; [done|]. by apply at_more. }
  destruct r as [response|e] eqn:Hres; cbn [http_again] in Hagain.
  - destruct (retryableHTTPStatus (ha_StatusCode response)) eqn:Hst; cbn [negb orb].
    + destruct (attempt =? max)%Z eqn:Heq; [|by apply Hagain].
      exists [Sent call (Ok response)], (Ok response). split; [done|].
      apply (at_last _ http_final _ _ _ _ (Ok response)). right. lia.
    + exists [Sent call (Ok response)], (Ok response). split; [done|].
      apply (at_last _ http_final _ _ _ _ (Ok response)). by left.
  - destruct (attempt =? max)%Z eqn:Heq; [|by apply Hagain].
    eexists [Sent call (Err e)], _. split; [done|]. apply (at_last _ http_final _ _ _ _ (Err e)). right. lia.
Qed.

Definition grpc_again {Reply} (busy : error -> bool) (r : res Reply) : bool :=
  match r with Ok _ => false | Err err => busy err end.

Lemma grpc_attempts_run {Reply} {N : Network GrpcCall Reply} busy remaining call retry attempt last0 log :
  (1 <= attempt)%Z -> Z.of_nat remaining = (retry_MaxAttempts retry - attempt + 1)%Z -> (0 < remaining) ->
  exists l out, grpc_attempts busy remaining call retry attempt last0 log = (out, log ++ l) /\
    attempts (R := Reply) (grpc_again busy) id (grpc_delay retry) call (retry_MaxAttempts retry) attempt l out.
Proof.
  revert attempt last0 log. induction remaining as [|remaining IH]; intros attempt last0 log H1 Hr Hpos; [lia|].
  cbn [grpc_attempts]. unfold send. set (r := net_send log call). set (log1 := log ++ [Sent call r]).
  destruct r as [reply|e] eqn:Hres.
  { exists [Sent call (Ok reply)], (Ok reply). split; [done|]. apply (at_last _ id _ _ _ _ (Ok reply)). by left. }
  destruct (busy e) eqn:Hb; cbn [negb].
  2: { exists [Sent call (Err e)], (Err e). split; [done|]. apply (at_last _ id _ _ _ _ (Err e)). by left. }
  destruct (attempt <? retry_MaxAttempts retry)%Z eqn:Hlt.
  - unfold mbind, stE_bind, waitRetry, wait. destruct (net_wait log1 (grpc_delay retry attempt)) as [e'|].
    + exists [Sent call (Err e); Waited (grpc_delay retry attempt) (Some e')], (Err e'). unfold log1.
      rewrite <- app_assoc. split; [done|]. apply at_ended; [done|lia].
    + destruct (IH (attempt + 1)%Z (Err e) (log1 ++ [Waited (grpc_delay retry attempt) None])) as (l & out & Hl & Hat);
        [lia..|]. exists (Sent call (Err e) :: Waited (grpc_delay retry attempt) None :: l), out.
      rewrite Hl. unfold log1. rewrite <- !app_assoc. split; [done|]. apply at_more; [done|lia|done].
  - assert (remaining = O) as -> by lia. exists [Sent call (Err e)], (Err e). split; [done|].
    apply (at_last _ id _ _ _ _ (Err e)). right. lia.
Qed.

(** ** Delays *)

(** A delay doubles with every attempt up to the cap, without overflow: the shift of the
    gRPC client and the float of the HTTP client compute the same. *)
Definition backoff (retry : Retry) (attempt : Z) : Z :=
  Z.min (retry_InitialBackoff retry * 2 ^ (attempt - 1)) (retry_MaxBackoff retry).

(** What [Validate] guarantees of a retry policy, and an initial delay below 104 days. *)
Record paced (retry : Retry) : Prop := {
  pc_attempts : (1 <= retry_MaxAttempts retry <= 5)%Z;
  pc_backoff : (0 < retry_InitialBackoff retry <= retry_MaxBackoff retry)%Z;
  pc_small : (retry_InitialBackoff retry < 2 ^ 53)%Z
}.

Lemma pow_attempt attempt : (1 <= attempt <= 5)%Z -> (1 <= 2 ^ (attempt - 1) <= 16)%Z.
Proof.
  intros H. assert (attempt = 1 \/ attempt = 2 \/ attempt = 3 \/ attempt = 4 \/ attempt = 5)%Z as
    [->|[->|[->|[->| ->]]]] by lia; simpl; lia.
Qed.

Lemma grpc_delay_backoff retry attempt : paced retry -> (1 <= attempt <= 5)%Z ->
  grpc_delay retry attempt = backoff retry attempt.
Proof.
  intros [_ Hb Hs] Ha. pose proof (pow_attempt attempt Ha). unfold grpc_delay, backoff, int64_wrap.
  rewrite Z.shiftl_mul_pow2 by lia. set (v := (retry_InitialBackoff retry * 2 ^ (attempt - 1))%Z).
  assert (Hv : (0 <= v < 2 ^ 63)%Z) by (unfold v; nia). cbv zeta.
  rewrite (Z.mod_small v (2 ^ 64)) by lia. rewrite (proj2 (Z.ltb_lt v (2 ^ 63))) by lia.
  destruct (Z.ltb_spec (retry_MaxBackoff retry) v); lia.
Qed.

Lemma float64_of_nonneg_exact n : (0 <= n < 2 ^ 53)%Z -> float64_of_nonneg n = n.
Proof.
  intros H. unfold float64_of_nonneg. destruct (Z.eq_dec n 0) as [->|Hn]; [done|].
  assert (Z.log2 n < 53)%Z by (apply Z.log2_lt_pow2; lia). cbv zeta.
  by rewrite (proj2 (Z.leb_le (Z.log2 n - 52) 0)) by lia.
Qed.

Lemma http_delay_backoff {FO : FloatOverflow} retry attempt : paced retry -> (1 <= attempt <= 5)%Z ->
  http_delay retry attempt = backoff retry attempt.
Proof.
  intros [_ Hb Hs] Ha. pose proof (pow_attempt attempt Ha). unfold http_delay, backoff.
  rewrite float64_of_nonneg_exact by lia. set (v := (retry_InitialBackoff retry * 2 ^ (attempt - 1))%Z).
  assert (Hv : (0 <= v < 2 ^ 63)%Z) by (unfold v; nia). cbv zeta.
  rewrite (proj2 (Z.ltb_lt v (2 ^ 63))) by lia. destruct (Z.ltb_spec (retry_MaxBackoff retry) v); lia.
Qed.

Lemma retried_delay {Q R} (again : res R -> bool) final (d1 d2 : Z -> Z) (q : Q) max l out :
  (forall n, (1 <= n < max)%Z -> d1 n = d2 n) ->
  retried again final d1 q max l out -> retried again final d2 q max l out.
Proof.
  intros Hd [H1 H2 H3 H4 (k & Hw & Hk)]. split; [done..|]. exists k. split; [|done]. rewrite Hw.
  apply list_fmap_ext. intros i x Hx. apply lookup_seqZ in Hx as [-> Hi]. apply Hd. lia.
Qed.

(** ** What the clients send *)

(** The request of an HTTP client: the caller's headers, a content type for a body and
    the configured credentials - and nothing of the context. *)
Definition http_call {Brk} (c : HTTPClient Brk) (method target body : string) (headers : HttpHeader) : HttpCall :=
  mkHttpCall method target body (applyHTTPAuth (hu_Auth (hcl_cfg c)) (with_content_type body headers)).

Section retries.
Context {UL : UrlLibrary} {FO : FloatOverflow} {N : Network HttpCall HttpAnswer} {Brk : Type}.

Lemma doWithRetry_run (c : HTTPClient Brk) ctx method path body headers log :
  (1 <= retry_MaxAttempts (hu_Retry (hcl_cfg c)))%Z ->
  let max := if retryableMethod ctx method then retry_MaxAttempts (hu_Retry (hcl_cfg c)) else 1%Z in
  let run := doWithRetry c ctx method path body headers log in
  (exists e, run = (Err e, log)) \/
  exists target l, url_resolve (hcl_baseURL c) path = Some target /\ run.2 = log ++ l /\
    retried http_again http_final (http_delay (hu_Retry (hcl_cfg c))) (http_call c method target body headers) max l run.1.
Proof.
  cbv zeta. intros Hmax. unfold doWithRetry. destruct (url_resolve (hcl_baseURL c) path) as [target|]; [|left; by eexists].
  cbv zeta. destruct (_ && negb (http_method_valid method)); [left; by eexists|right]. exists target.
  set (max := if retryableMethod ctx method then retry_MaxAttempts (hu_Retry (hcl_cfg c)) else 1%Z).
  assert (Hm : (1 <= max)%Z) by (unfold max; destruct (retryableMethod ctx method); lia).
  destruct (http_attempts_run (Z.to_nat max) (http_call c method target body headers) (hu_Retry (hcl_cfg c)) max 1 log)
    as (l & out & Hrun & Hat); [lia..|].
  exists l. unfold http_call in Hrun. rewrite Hrun. split; [done|]. split; [done|]. by apply attempts_retried.
Qed.
End retries.

Lemma retryInterceptor_run {Reply} {N : Network GrpcCall Reply} busy retry nothing ctx call log :
  (1 <= retry_MaxAttempts retry)%Z ->
  let repeats := retryGRPCMethod ctx (gq_Method call) (retry_Methods retry) in
  let run := retryInterceptor busy retry nothing ctx call log in
  exists l, run.2 = log ++ l /\
    retried (R := Reply) (grpc_again busy) id (grpc_delay retry) call (if repeats then retry_MaxAttempts retry else 1%Z) l run.1.
Proof.
  cbv zeta. intros Hmax. unfold retryInterceptor.
  destruct (retryGRPCMethod ctx (gq_Method call) (retry_Methods retry)); cbn [negb].
  - destruct (grpc_attempts_run busy (Z.to_nat (retry_MaxAttempts retry)) call retry 1 (Ok nothing) log)
      as (l & out & Hrun & Hat); [lia..|]. rewrite Hrun. exists l. split; [done|]. by apply attempts_retried.
  - exists [Sent call (net_send log call)]. split; [done|]. apply attempts_retried; [|lia].
    apply (at_last _ id _ _ _ _ (net_send log call)). by right.
Qed.


(** An upstream that never recovers, and the policy of the sample configuration. *)
Module Paced.
Definition policy : Retry := gu_Retry (Production.upstream "" "").
#[export] Instance urls : UrlLibrary :=
  {| url_base := fun _ => true; url_resolve := fun base path => Some (base +:+ path); http_method_valid := fun _ => true |}.
#[export] Instance overflow : FloatOverflow := 0%Z.
#[export] Instance down_http : Network HttpCall HttpAnswer :=
  {| net_send := fun _ _ => Ok (mkHttpAnswer 503 ""); net_wait := fun _ _ => None |}.
#[export] Instance down_grpc : Network GrpcCall unit :=
  {| net_send := fun _ _ => Err (ErrorNew "unavailable"); net_wait := fun _ _ => None |}.
Definition client : HTTPClient unit :=
  mkHTTPClient "billing" "https://billing" (mkHTTPUpstream "https://billing" 1000000000 (mkClientAuth "psk" Production.key32)
    policy (mkBreaker false 0 0) (mkClientTLS true false "" "" "" "")) None.
Definition target : GrpcClientConfig := clientConfig "authorization" (Production.upstream "" "").
Definition caller (key : option string) : CallCtx := mkCallCtx key None true.

Lemma policy_paced : paced policy.
Proof. by split; vm_compute; repeat split; try discriminate. Qed.

(** A GET is sent three times, a POST once unless the context has an idempotency key. *)
Example get_waits : let r := doWithRetry client (caller None) "GET" "/v1/x" "" ∅ [] in
  waits r.2 = [50000000; 100000000]%Z /\ List.length (calls r.2) = 3 /\ r.1 = Ok (mkHttpAnswer 503 "").
Proof. vm_compute. auto. Qed.
Example post_once : List.length (calls (doWithRetry client (caller None) "POST" "/v1/x" "{}" ∅ []).2) = 1.
Proof. reflexivity. Qed.
Example post_keyed : List.length (calls (doWithRetry client (caller (Some "k")) "POST" "/v1/x" "{}" ∅ []).2) = 3.
Proof. reflexivity. Qed.
(** The key that made the POST repeatable is in no header. *)
Example post_key_not_sent : Forall (fun c => hc_Header c.1 =
    Header_Set (Header_Set ∅ "Content-Type" "application/json") "Authorization" ("PSK " +:+ Production.key32))
  (calls (doWithRetry client (caller (Some "k")) "POST" "/v1/x" "{}" ∅ []).2).
Proof. repeat constructor. Qed.

End Paced.

(** ** Which configurations build a registry *)

Section registry.
Context {MR : MapRange} {Brk : Type} {UL : UrlLibrary} {CT : Certificates}.
Context (newBreaker : string -> Breaker -> Brk) (newClient : string -> res unit).

(** Targets parse, and no file has the empty name. *)
Context (Hclient : forall t, newClient t = Ok tt) (Hkey : key_needed).

(** The HTTP client wants a base URL with a scheme and a host, TLS for credentials,
    whatever [allow_insecure] says, and a key for its certificate, whether TLS is on or
    not. *)
Definition http_startable (u : HTTPUpstream) : Prop :=
  url_base (hu_BaseURL u) = true /\ (ca_Type (hu_Auth u) <> "" -> tls_Enabled (hu_TLS u) = true) /\
  (tls_CertFile (hu_TLS u) <> "" -> tls_KeyFile (hu_TLS u) <> "").
#[export] Instance http_startable_dec u : Decision (http_startable u).
Proof. unfold http_startable. solve_decision. Defined.

Lemma NewHTTPClient_exact name u : client_files (hu_TLS u) ->
  is_ok (NewHTTPClient newBreaker name u) = true <-> http_startable u.
Proof.
  intros Hf. unfold NewHTTPClient, http_startable.
  pose proof (httpTransport_exact _ Hkey Hf) as Ht. unfold str_empty.
  assert (Hlast : forall b : HTTPClient Brk, is_ok (_ ← httpTransport (hu_TLS u); Ok b) = is_ok (httpTransport (hu_TLS u)))
    by (intros; by destruct (httpTransport _)).
  destruct (String.eqb_spec (ca_Type (hu_Auth u)) "") as [He|He], (tls_Enabled (hu_TLS u)) eqn:Hon; cbn [negb andb].
  3: by destruct (url_base (hu_BaseURL u)); cbn [negb]; rewrite ?Hlast, ?Ht; simpl; intuition.
  all: destruct (url_base (hu_BaseURL u)); cbn [negb]; rewrite ?Hlast, ?Ht; simpl; intuition congruence.
Qed.

(** The gRPC client accepts whatever [Validate] does. *)
Lemma Dial_safe production name u : gu_Target u <> "" -> (0 < gu_Timeout u)%Z -> client_files (gu_TLS u) ->
  safe_client production (gu_Auth u) (gu_Retry u) (gu_Breaker u) (gu_TLS u) ->
  Dial newClient (clientConfig name u) = Ok tt.
Proof.
  intros Ht Hto Hf Hs. unfold Dial, clientConfig. cbn [gc_Target gc_Timeout gc_Token gc_PSK gc_TLS].
  rewrite (proj2 (str_empty_false _) Ht), (proj2 (Z.leb_gt _ _)) by lia. rewrite Hclient.
  pose proof (transportCredentials_loads _ Hf (fun Hon => proj2 (sc_exclusive _ _ _ _ _ Hs Hon))) as Htr.
  destruct (transportCredentials (gu_TLS u)) as [o|]; [|done]. cbn [mbind result_bind].
  pose proof (sc_credentials _ _ _ _ _ Hs) as Hc. unfold str_empty in *.
  destruct (String.eqb_spec (ca_Type (gu_Auth u)) "bearer") as [Hb|Hb];
    destruct (String.eqb_spec (ca_Type (gu_Auth u)) "psk") as [Hp|Hp]; [congruence| | |by simpl].
  - destruct Hc as (_ & _ & [Hon|Hon] & _); [by rewrite Hb| |]; rewrite Hon; simpl; by rewrite !andb_false_r.
  - destruct Hc as (_ & _ & [Hon|Hon] & _); [by rewrite Hp| |]; rewrite Hon; simpl; by rewrite !andb_false_r.
Qed.

Lemma new_http_exact l acc :
  Forall (fun kv => client_files (hu_TLS kv.2)) l ->
  is_ok (new_http newBreaker l acc) = true <-> Forall (fun kv => http_startable kv.2) l.
Proof.
  revert acc. induction l as [|[name u] l IH]; intros acc Hb; cbn [new_http]; [done|].
  apply Forall_cons in Hb as [Hf Hb]. rewrite Forall_cons. cbn [snd] in *.
  pose proof (NewHTTPClient_exact name u Hf) as Hx.
  destruct (NewHTTPClient newBreaker name u) as [client|e]; cbn [is_ok] in *.
  - rewrite (IH _ Hb). tauto.
  - split; [done|]. tauto.
Qed.

Lemma new_grpc_domain l acc :
  Forall (fun kv => Dial newClient (clientConfig kv.1 kv.2) = Ok tt) l ->
  exists m, new_grpc newClient l acc = Ok m /\
    forall name, is_Some (m !! name) <-> is_Some (acc !! name) \/ name ∈ l.*1.
Proof.
  revert acc. induction l as [|[name u] l IH]; intros acc Hd; cbn [new_grpc].
  - exists acc. split; [done|]. intros n. split; [by left|]. by intros [H|H%elem_of_nil].
  - apply Forall_cons in Hd as [Hu Hd]. cbn [fst snd] in Hu. rewrite Hu.
    destruct (IH (<[name := clientConfig name u]> acc) Hd) as (m & Hm & Hdom). exists m. split; [done|].
    intros n. rewrite Hdom, lookup_insert_is_Some'. csimpl. rewrite elem_of_cons. naive_solver.
Qed.

Lemma range_keys {A} (m : gmap string A) name : name ∈ (range m).*1 <-> is_Some (m !! name).
Proof.
  rewrite (range_perm A m), list_elem_of_fmap. split.
  - intros ([k x] & -> & Hin). apply elem_of_map_to_list in Hin. by exists x.
  - intros [x Hx]. exists (name, x). split; [done|]. by apply elem_of_map_to_list.
Qed.

(** The files the upstreams of a configuration name are there. *)
Record upstream_files (c : Config) : Prop := {
  uf_http name u : out_HTTP (c_Outbound c) !! name = Some u -> client_files (hu_TLS u);
  uf_grpc name u : out_GRPC (c_Outbound c) !! name = Some u -> client_files (gu_TLS u)
}.

(** With an accepted configuration the registry is built exactly when every HTTP
    upstream can be, and then has every upstream. *)
Lemma NewRegistry_exact c : Validate c = Ok tt -> upstream_files c ->
  match NewRegistry newBreaker newClient c with
  | Ok r => (forall name u, out_HTTP (c_Outbound c) !! name = Some u -> http_startable u) /\
            (forall name, is_Some (rg_grpc r !! name) <-> is_Some (out_GRPC (c_Outbound c) !! name))
  | Err _ => exists name u, out_HTTP (c_Outbound c) !! name = Some u /\ ~ http_startable u
  end.
Proof.
  intros Hv [Hfh Hfg]. unfold NewRegistry.
  assert (Hlook : forall {A} (m : gmap string A) kv, kv ∈ range m -> m !! kv.1 = Some kv.2)
    by (intros A m [k x] Hin; rewrite (range_perm A m) in Hin; by apply elem_of_map_to_list in Hin).
  assert (Hb : Forall (fun kv => client_files (hu_TLS kv.2)) (range (out_HTTP (c_Outbound c))))
    by (apply Forall_forall; intros kv Hin%Hlook; eauto).
  pose proof (new_http_exact _ ∅ Hb) as Hx.
  destruct (new_http newBreaker (range (out_HTTP (c_Outbound c))) ∅) as [h|e]; cbn [mbind result_bind is_ok] in *.
  - destruct (new_grpc_domain (range (out_GRPC (c_Outbound c))) ∅) as (m & Hm & Hdom).
    { apply Forall_forall. intros [name u] Hin. apply Hlook in Hin. cbn [fst snd] in *.
      destruct (Validate_grpc c Hv name u Hin) as (H1 & H2 & H3). eapply Dial_safe; eauto. }
    rewrite Hm. cbn [mbind result_bind rg_grpc]. split.
    + destruct Hx as [Hx _]. specialize (Hx eq_refl). rewrite Forall_forall in Hx. intros name u Hu.
      apply (Hx (name, u)). by apply range_lookup.
    + intros name. rewrite Hdom, range_keys, lookup_empty. split; [intros [[? [=]]|]; done|by right].
  - assert (Hno : ~ Forall (fun kv => http_startable kv.2) (range (out_HTTP (c_Outbound c))))
      by (intros Hf; by apply Hx in Hf).
    apply not_Forall_Exists in Hno; [|intros kv; apply http_startable_dec].
    apply Exists_exists in Hno as ([name u] & Hin & Hu). exists name, u. split; [by apply Hlook in Hin|done].
Qed.
End registry.
