(* ===== verification/Locks.v ===== *)
(** * Distributed locks (internal/cache/redis.go)

    [Locker] names and bounds the mutexes of redsync and sorts their errors: somebody
    else's lock is an answer, not an error.  redsync is a parameter; nothing else of
    the service takes a lock yet. *)
From S2P Require Import Prelude GoStd Model World.
From Stdlib Require Import Ascii String.
Local Open Scope string_scope.
Local Open Scope list_scope.

(** What [redsync.NewMutex] is given; [None] where redsync's default stays. *)
Record MutexOptions : Type := mkMutexOptions {
  mo_Tries : option Z; mo_RetryDelay : option Z; mo_Expiry : option Z
}.
Definition no_options : MutexOptions := mkMutexOptions None None None.
Definition WithTries (n : Z) (o : MutexOptions) : MutexOptions := mkMutexOptions (Some n) (mo_RetryDelay o) (mo_Expiry o).
Definition WithRetryDelay (d : Z) (o : MutexOptions) : MutexOptions := mkMutexOptions (mo_Tries o) (Some d) (mo_Expiry o).
Definition WithExpiry (d : Z) (o : MutexOptions) : MutexOptions := mkMutexOptions (mo_Tries o) (mo_RetryDelay o) (Some d).

(** redsync on a world [W] with the Redis servers and the contexts: a mutex keeps its
    name and its options, an attempt to lock may fail, to extend or to release one
    tells whether it was still owned. *)
Class Redsync (W : Type) := {
  Mutex : Type;
  NewMutex : string -> MutexOptions -> Mutex;
  Name : Mutex -> string;
  options : Mutex -> MutexOptions;
  TryLockContext : Mutex -> stE W error unit;
  LockContext : Mutex -> stE W error unit;
  ExtendContext : Mutex -> stE W error bool;
  UnlockContext : Mutex -> stE W error bool;
  ctx_Err : W -> option error;
  Is_ErrFailed : error -> bool;
  As_ErrTaken : error -> bool;
  new_mutex name o : Name (NewMutex name o) = name /\ options (NewMutex name o) = o
}.

Section locks.
Context {W : Type} {RS : Redsync W}.

Definition lockKeyPrefix : string := "lock:".

Record Lock : Type := mkLock { lk_mutex : Mutex }.

Definition isContention (err : error) : bool := Is_ErrFailed err || As_ErrTaken err.

Definition newMutex (key : string) (ttl : Z) (o : MutexOptions) : res Mutex :=
  if str_empty key then Err (ErrorNew "lock key must not be empty")
  else if (ttl <=? 0)%Z then Err (ErrorNew "lock ttl must be positive")
  else Ok (NewMutex (lockKeyPrefix +:+ key) (WithExpiry ttl o)).

(** The lock and whether it was taken: [Ok None] is [nil, false, nil]. *)
Definition TryLock (key : string) (ttl : Z) : stE W error (option Lock) := fun w =>
  match newMutex key ttl (WithTries 1 no_options) with
  | Err err => (Err err, w)
  | Ok mutex =>
      match TryLockContext mutex w with
      | (Err err, w') => (if isContention err then Ok None else Err (Wrap "try redis lock %q: %w" [key] err), w')
      | (Ok _, w') => (Ok (Some (mkLock mutex)), w')
      end
  end.

Definition LockFor (key : string) (ttl retryDelay : Z) : stE W error Lock := fun w =>
  if (retryDelay <=? 0)%Z then (Err (ErrorNew "lock retry delay must be positive"), w)
  else
    match newMutex key ttl (WithRetryDelay retryDelay no_options) with
    | Err err => (Err err, w)
    | Ok mutex =>
        match LockContext mutex w with
        | (Err err, w') =>
            match ctx_Err w' with
            | Some ctxErr => (Err (Wrap "wait for redis lock %q: %w" [key] ctxErr), w')
            | None => (Err (Wrap "acquire redis lock %q: %w" [key] err), w')
            end
        | (Ok _, w') => (Ok (mkLock mutex), w')
        end
    end.

Definition Extend (l : Lock) : stE W error unit := fun w =>
  match ExtendContext (lk_mutex l) w with
  | (Err err, w') => (Err (Wrap "extend redis lock %q: %w" [Name (lk_mutex l)] err), w')
  | (Ok ok, w') => (if negb ok then Err (Errorf "extend redis lock %q: lock is no longer owned" [Name (lk_mutex l)]) else Ok tt, w')
  end.

Definition Unlock (l : Lock) : stE W error unit := fun w =>
  match UnlockContext (lk_mutex l) w with
  | (Err err, w') => (Err (Wrap "release redis lock %q: %w" [Name (lk_mutex l)] err), w')
  | (Ok ok, w') => (if negb ok then Err (Errorf "release redis lock %q: lock is no longer owned" [Name (lk_mutex l)]) else Ok tt, w')
  end.

(** ** What callers can rely on *)

(** A lock is for exactly the key that was asked for, with the time to live that was
    asked for; locks of different keys have different names. *)
Lemma newMutex_spec key ttl o m : newMutex key ttl o = Ok m ->
  key <> "" /\ (0 < ttl)%Z /\ Name m = "lock:" +:+ key /\ options m = WithExpiry ttl o.
Proof.
  unfold newMutex. destruct (str_empty key) eqn:Hk; [done|]. destruct (Z.leb_spec ttl 0); [done|]. intros [= <-].
  destruct (new_mutex (lockKeyPrefix +:+ key) (WithExpiry ttl o)) as [-> ->]. split; [by intros ->|]. done.
Qed.

Lemma names_distinct key key' ttl ttl' o o' m m' : newMutex key ttl o = Ok m -> newMutex key' ttl' o' = Ok m' ->
  Name m = Name m' -> key = key'.
Proof. intros (_ & _ & -> & _)%newMutex_spec (_ & _ & -> & _)%newMutex_spec [= He]. exact He. Qed.

(** [TryLock] asks once and answers: a lock if redsync gave one, none if another holds
    it, an error otherwise; a request without key or with no time to live never reaches
    Redis. *)
Lemma TryLock_branches key ttl w :
  match TryLock key ttl w with
  | (Ok (Some l), w') => Name (lk_mutex l) = "lock:" +:+ key /\ options (lk_mutex l) = mkMutexOptions (Some 1%Z) None (Some ttl) /\
      TryLockContext (lk_mutex l) w = (Ok tt, w')
  | (Ok None, w') => exists m err, newMutex key ttl (WithTries 1 no_options) = Ok m /\
      TryLockContext m w = (Err err, w') /\ isContention err = true
  | (Err e, w') => ((key = "" \/ (ttl <= 0)%Z) /\ w' = w) \/
      exists m err, TryLockContext m w = (Err err, w') /\ isContention err = false /\ e = Wrap "try redis lock %q: %w" [key] err
  end.
Proof.
  unfold TryLock. destruct (newMutex key ttl _) as [m|e] eqn:Hm.
  - pose proof (newMutex_spec _ _ _ _ Hm) as (_ & _ & Hn & Ho).
    destruct (TryLockContext m w) as [[[]|err] w'] eqn:Ht; [by split_and!|].
    destruct (isContention err) eqn:Hc; [by exists m, err|]. right. by exists m, err.
  - left. split; [|done]. unfold newMutex in Hm. destruct (str_empty key) eqn:Hk; [left; by destruct key|].
    destruct (Z.leb_spec ttl 0); [by right|done].
Qed.

(** The errors of [LockFor] tell a cancelled wait from a failed one. *)
Lemma LockFor_error key ttl delay w e w' : LockFor key ttl delay w = (Err e, w') ->
  ((delay <= 0)%Z \/ key = "" \/ (ttl <= 0)%Z) /\ w' = w \/
  (exists ctxErr, ctx_Err w' = Some ctxErr /\ e = Wrap "wait for redis lock %q: %w" [key] ctxErr) \/
  (exists err, ctx_Err w' = None /\ e = Wrap "acquire redis lock %q: %w" [key] err).
Proof.
  unfold LockFor. destruct (Z.leb_spec delay 0); [intros [= <- <-]; by left; split; [left|]|].
  destruct (newMutex key ttl _) as [m|e'] eqn:Hm.
  - destruct (LockContext m w) as [[[]|err] w1]; [done|]. destruct (ctx_Err w1) as [c|] eqn:Hc; intros [= <- <-]; right; [left|right]; by eexists.
  - intros [= <- <-]. left. split; [|done]. right. unfold newMutex in Hm. destruct (str_empty key) eqn:Hk; [left; by destruct key|].
    destruct (Z.leb_spec ttl 0); [by right|done].
Qed.

(** A lock that was lost is never extended or released silently. *)
Lemma lost_lock_reported l w : 
  ((Extend l w).1 = Ok tt <-> (ExtendContext (lk_mutex l) w).1 = Ok true) /\
  ((Unlock l w).1 = Ok tt <-> (UnlockContext (lk_mutex l) w).1 = Ok true).
Proof.
  unfold Extend, Unlock.
  destruct (ExtendContext (lk_mutex l) w) as [[[]|?] ?], (UnlockContext (lk_mutex l) w) as [[[]|?] ?]; simpl; naive_solver.
Qed.
End locks.
