(* ===== verification/Events.v ===== *)
(** * Events (internal/workflowevent/factory.go)

    The translation of rows into the messages of the event contracts, and the factory
    that wraps them into outbox events.  The messages have the fields the source
    sets; an enum has its zero value for every string the source's table does not
    list.  The event bus, which encodes messages into envelopes, is a parameter. *)
From S2P Require Import Prelude GoStd Model World Repository.
From Stdlib Require Import Ascii String.
Local Open Scope string_scope.
Local Open Scope list_scope.

(** ** Enums of the contract *)

Inductive PbDefinitionStatus := DEFINITION_STATUS_UNSPECIFIED | DEFINITION_STATUS_DRAFT
  | DEFINITION_STATUS_PUBLISHED | DEFINITION_STATUS_DISABLED.
Inductive PbNodeType := NODE_TYPE_UNSPECIFIED | NODE_TYPE_START | NODE_TYPE_APPROVAL
  | NODE_TYPE_SERVICE_TASK | NODE_TYPE_TIMER | NODE_TYPE_END.
Inductive PbAssigneeType := ASSIGNEE_TYPE_UNSPECIFIED | ASSIGNEE_TYPE_USER | ASSIGNEE_TYPE_ROLE
  | ASSIGNEE_TYPE_STARTER | ASSIGNEE_TYPE_EXPRESSION.
Inductive PbInstanceStatus := INSTANCE_STATUS_UNSPECIFIED | INSTANCE_STATUS_RUNNING
  | INSTANCE_STATUS_COMPLETED | INSTANCE_STATUS_REJECTED | INSTANCE_STATUS_CANCELLED | INSTANCE_STATUS_FAILED.
Inductive PbTaskStatus := TASK_STATUS_UNSPECIFIED | TASK_STATUS_PENDING | TASK_STATUS_CLAIMED
  | TASK_STATUS_APPROVED | TASK_STATUS_REJECTED | TASK_STATUS_CANCELLED | TASK_STATUS_EXPIRED.
Inductive PbTaskDecision := TASK_DECISION_UNSPECIFIED | TASK_DECISION_APPROVE | TASK_DECISION_REJECT.

(** [map[string]E{...}[value]] *)
Fixpoint table {V} (zero : V) (entries : list (string * V)) (value : string) : V :=
  match entries with
  | [] => zero
  | (k, v) :: entries' => if String.eqb k value then v else table zero entries' value
  end.

Definition definitionStatus : string -> PbDefinitionStatus := table DEFINITION_STATUS_UNSPECIFIED
  [(DefinitionDraft, DEFINITION_STATUS_DRAFT); (DefinitionPublished, DEFINITION_STATUS_PUBLISHED);
   (DefinitionDisabled, DEFINITION_STATUS_DISABLED)].
Definition nodeType : string -> PbNodeType := table NODE_TYPE_UNSPECIFIED
  [(NodeStart, NODE_TYPE_START); (NodeApproval, NODE_TYPE_APPROVAL);
   (NodeServiceTask, NODE_TYPE_SERVICE_TASK); (NodeTimer, NODE_TYPE_TIMER); (NodeEnd, NODE_TYPE_END)].
Definition assigneeType : string -> PbAssigneeType := table ASSIGNEE_TYPE_UNSPECIFIED
  [(AssigneeUser, ASSIGNEE_TYPE_USER); (AssigneeRole, ASSIGNEE_TYPE_ROLE);
   (AssigneeStarter, ASSIGNEE_TYPE_STARTER); (AssigneeExpression, ASSIGNEE_TYPE_EXPRESSION)].
Definition instanceStatus : string -> PbInstanceStatus := table INSTANCE_STATUS_UNSPECIFIED
  [(InstanceRunning, INSTANCE_STATUS_RUNNING); (InstanceCompleted, INSTANCE_STATUS_COMPLETED);
   (InstanceRejected, INSTANCE_STATUS_REJECTED); (InstanceCancelled, INSTANCE_STATUS_CANCELLED);
   (InstanceFailed, INSTANCE_STATUS_FAILED)].
Definition taskStatus : string -> PbTaskStatus := table TASK_STATUS_UNSPECIFIED
  [(TaskPending, TASK_STATUS_PENDING); (TaskClaimed, TASK_STATUS_CLAIMED);
   (TaskApproved, TASK_STATUS_APPROVED); (TaskRejected, TASK_STATUS_REJECTED);
   (TaskCancelled, TASK_STATUS_CANCELLED); (TaskExpired, TASK_STATUS_EXPIRED)].
Definition taskDecision : string -> PbTaskDecision := table TASK_DECISION_UNSPECIFIED
  [(DecisionApprove, TASK_DECISION_APPROVE); (DecisionReject, TASK_DECISION_REJECT)].

(** ** Messages *)

Record PbNode : Type := mkPbNode {
  pbn_Id : string; pbn_Name : string; pbn_Type : PbNodeType; pbn_AssigneeType : PbAssigneeType;
  pbn_Assignee : string; pbn_TimeoutSeconds : Z; pbn_TargetService : string; pbn_FullMethod : string;
  pbn_RequestTemplateJson : string; pbn_CompensationMethod : string; pbn_TimerSeconds : Z;
  pbn_ConfigJson : string
}.

Record PbEdge : Type := mkPbEdge {
  pbe_FromNodeId : string; pbe_ToNodeId : string; pbe_ConditionExpression : string; pbe_Priority : Z
}.

(** A [*timestamppb.Timestamp] is an option; a repeated message field is a list of
    pointers, so of options. *)
Record PbDefinition : Type := mkPbDefinition {
  pbd_Id : string; pbd_TenantId : string; pbd_ApplicationId : string; pbd_Key : string; pbd_Name : string;
  pbd_Description : string; pbd_Status : PbDefinitionStatus; pbd_PublishedRevision : Z;
  pbd_Nodes : list (option PbNode); pbd_Edges : list (option PbEdge); pbd_Version : Z;
  pbd_CreatedAt : option Z; pbd_UpdatedAt : option Z; pbd_CreatedBy : string; pbd_UpdatedBy : string
}.

Record PbInstance : Type := mkPbInstance {
  pbi_Id : string; pbi_TenantId : string; pbi_ApplicationId : string; pbi_DefinitionId : string;
  pbi_DefinitionRevision : Z; pbi_BusinessKey : string; pbi_Title : string; pbi_StarterId : string;
  pbi_Status : PbInstanceStatus; pbi_CurrentNodeId : string; pbi_VariablesJson : string;
  pbi_ResultJson : string; pbi_ErrorCode : string; pbi_ErrorMessage : string; pbi_StartedAt : option Z;
  pbi_FinishedAt : option Z; pbi_Version : Z; pbi_CreatedAt : option Z; pbi_UpdatedAt : option Z;
  pbi_CreatedBy : string; pbi_UpdatedBy : string
}.

Record PbTask : Type := mkPbTask {
  pbt_Id : string; pbt_TenantId : string; pbt_ApplicationId : string; pbt_InstanceId : string;
  pbt_NodeId : string; pbt_Name : string; pbt_AssigneeType : PbAssigneeType; pbt_Assignee : string;
  pbt_ClaimedBy : string; pbt_Status : PbTaskStatus; pbt_Decision : PbTaskDecision; pbt_Comment : string;
  pbt_InputJson : string; pbt_OutputJson : string; pbt_DueAt : option Z; pbt_CompletedAt : option Z;
  pbt_Version : Z; pbt_CreatedAt : option Z; pbt_UpdatedAt : option Z; pbt_CreatedBy : string;
  pbt_UpdatedBy : string
}.

(** The payloads; a message field is a pointer. *)
Inductive Payload : Type :=
| PDefinitionPublished (definition : option PbDefinition)
| PInstanceStartRequested (instance : option PbInstance) (definition : option PbDefinition)
| PInstanceCancellationRequested (instance : option PbInstance) (reason : string)
| PInstanceStatusChanged (instance : option PbInstance) (previousStatus : PbInstanceStatus)
| PTaskCreated (task : option PbTask)
| PTaskCompleted (task : option PbTask).

(** [timestamp] and [optionalTimestamp]: the zero time is no timestamp. *)
Definition timestamp (value : Z) : option Z := if (value =? 0)%Z then None else Some value.
Definition optionalTimestamp (value : option Z) : option Z :=
  match value with Some t => timestamp t | None => None end.

Definition node_message (node : Node) : PbNode :=
  mkPbNode (node_ID node) (node_Name node) (nodeType (node_Type node)) (assigneeType (node_AssigneeType node))
    (node_Assignee node) (node_TimeoutSeconds node) (node_TargetService node) (node_FullMethod node)
    (node_RequestTemplateJSON node) (node_CompensationMethod node) (node_TimerSeconds node)
    (node_ConfigJSON node).

Definition edge_message (edge : Edge) : PbEdge :=
  mkPbEdge (edge_FromNodeID edge) (edge_ToNodeID edge) (edge_ConditionExpression edge) (edge_Priority edge).

Definition definition (value : WDefinition) : PbDefinition :=
  mkPbDefinition (def_ID value) (def_TenantID value) (def_ApplicationID value) (def_Key value)
    (def_Name value) (def_Description value) (definitionStatus (def_Status value))
    (def_PublishedRevision value) ((fun n => Some (node_message n)) <$> def_Nodes value)
    ((fun e => Some (edge_message e)) <$> def_Edges value) (def_Version value)
    (timestamp (def_CreatedAt value)) (timestamp (def_UpdatedAt value)) (def_CreatedBy value)
    (def_UpdatedBy value).

Definition instance (value : WInstance) : PbInstance :=
  mkPbInstance (inst_ID value) (inst_TenantID value) (inst_ApplicationID value) (inst_DefinitionID value)
    (inst_DefinitionRevision value) (inst_BusinessKey value) (inst_Title value) (inst_StarterID value)
    (instanceStatus (inst_Status value)) (inst_CurrentNodeID value) (inst_VariablesJSON value)
    (inst_ResultJSON value) (inst_ErrorCode value) (inst_ErrorMessage value) (timestamp (inst_StartedAt value))
    (optionalTimestamp (inst_FinishedAt value)) (inst_Version value) (timestamp (inst_CreatedAt value))
    (timestamp (inst_UpdatedAt value)) (inst_CreatedBy value) (inst_UpdatedBy value).

Definition task (value : Task) : PbTask :=
  mkPbTask (task_ID value) (task_TenantID value) (task_ApplicationID value) (task_InstanceID value)
    (task_NodeID value) (task_Name value) (assigneeType (task_AssigneeType value)) (task_Assignee value)
    (task_ClaimedBy value) (taskStatus (task_Status value)) (taskDecision (task_Decision value))
    (task_Comment value) (task_InputJSON value) (task_OutputJSON value) (optionalTimestamp (task_DueAt value))
    (optionalTimestamp (task_CompletedAt value)) (task_Version value) (timestamp (task_CreatedAt value))
    (timestamp (task_UpdatedAt value)) (task_CreatedBy value) (task_UpdatedBy value).

(** ** Envelopes *)

(** [eventbus.Metadata] *)
Record Metadata : Type := mkMetadata {
  md_EventID : string; md_EventType : string; md_AggregateID : string; md_AggregateType : string;
  md_TenantID : string; md_ApplicationID : string; md_SchemaVersion : Z; md_RequestID : string;
  md_TraceID : string; md_ActorID : string; md_ActorType : principal_type; md_OccurredAt : Z
}.

(** [eventbus]: an envelope carries its metadata and an encoded payload;
    [eventbus.DecodePayload] into the message that was encoded gives it back; encoding fails with none of the domain's errors. *)
Class EventBus := {
  Envelope : Type;
  envelope_metadata : Envelope -> Metadata;
  NewEnvelope : Metadata -> Payload -> res Envelope;
  DecodeStartRequested : Envelope -> res (option PbInstance * option PbDefinition);
  DecodeCancellationRequested : Envelope -> res (option PbInstance * string);
  DecodeTaskCompleted : Envelope -> res (option PbTask);
  NewEnvelope_metadata : forall md p env, NewEnvelope md p = Ok env -> envelope_metadata env = md;
  NewEnvelope_error : forall md p e, NewEnvelope md p = Err e -> fault_error e;
  NewEnvelope_decode : forall md p env, NewEnvelope md p = Ok env ->
    match p with
    | PInstanceStartRequested i d => DecodeStartRequested env = Ok (i, d)
    | PInstanceCancellationRequested i r => DecodeCancellationRequested env = Ok (i, r)
    | PTaskCompleted t => DecodeTaskCompleted env = Ok t
    | _ => True
    end
}.

(** [platformoutbox.Event] *)
Record OutboxEvent `{EventBus} : Type := mkOutboxEvent {
  oe_ID : string; oe_Subject : string; oe_Envelope : Envelope
}.
Arguments OutboxEvent {_}.
Arguments mkOutboxEvent {_} _ _ _.

(** The function fields of [Factory], at a position of the environment. *)
Class FactoryEnv := { fa_now : nat -> Z; fa_newID : nat -> string }.

Section factory.
Context {EB : EventBus} {FE : FactoryEnv}.

Definition build (ctx : Ctx) (n : nat) (subject aggregateID aggregateType tenantID applicationID : string)
    (payload : Payload) : res OutboxEvent :=
  match ctx_principal ctx with
  | None => Err (ErrorNew "authenticated principal is required for workflow event")
  | Some principal =>
      envelope ← NewEnvelope
        (mkMetadata (fa_newID n) subject aggregateID aggregateType tenantID applicationID 1
           (ctx_request_id ctx) (ctx_trace_id ctx) (pr_ID principal) (pr_Type principal) (fa_now n)) payload;
      Ok (mkOutboxEvent (md_EventID (envelope_metadata envelope)) subject envelope)
  end.

(** The methods of [Factory]. *)
Definition build_domain (ctx : Ctx) (n : nat) (d : DomainEvent) : res OutboxEvent :=
  match d with
  | DefinitionPublished_ value =>
      build ctx n "platform.workflow.definition.published.v1" (def_ID value) "workflow_definition"
        (def_TenantID value) (def_ApplicationID value) (PDefinitionPublished (Some (definition value)))
  | InstanceStartRequested value definitionValue =>
      build ctx n "platform.workflow.instance.start-requested.v1" (inst_ID value) "workflow_instance"
        (inst_TenantID value) (inst_ApplicationID value)
        (PInstanceStartRequested (Some (instance value)) (Some (definition definitionValue)))
  | InstanceCancellationRequested value reason =>
      build ctx n "platform.workflow.instance.cancellation-requested.v1" (inst_ID value) "workflow_instance"
        (inst_TenantID value) (inst_ApplicationID value)
        (PInstanceCancellationRequested (Some (instance value)) reason)
  | InstanceStatusChanged value previousStatus =>
      build ctx n "platform.workflow.instance.status-changed.v1" (inst_ID value) "workflow_instance"
        (inst_TenantID value) (inst_ApplicationID value)
        (PInstanceStatusChanged (Some (instance value)) (instanceStatus previousStatus))
  | TaskCreated value =>
      build ctx n "platform.workflow.task.created.v1" (task_ID value) "workflow_task"
        (task_TenantID value) (task_ApplicationID value) (PTaskCreated (Some (task value)))
  | TaskCompleted value =>
      build ctx n "platform.workflow.task.completed.v1" (task_ID value) "workflow_task"
        (task_TenantID value) (task_ApplicationID value) (PTaskCompleted (Some (task value)))
  end.

(** *** The factory is what the repository relies on *)

Lemma build_metadata ctx n subject id type t a payload ev :
  build ctx n subject id type t a payload = Ok ev ->
  oe_Subject ev = subject /\ md_EventType (envelope_metadata (oe_Envelope ev)) = subject /\
  md_AggregateID (envelope_metadata (oe_Envelope ev)) = id /\
  match payload with
  | PInstanceStartRequested i d => DecodeStartRequested (oe_Envelope ev) = Ok (i, d)
  | PInstanceCancellationRequested i r => DecodeCancellationRequested (oe_Envelope ev) = Ok (i, r)
  | PTaskCompleted t => DecodeTaskCompleted (oe_Envelope ev) = Ok t
  | _ => True
  end.
Proof.
  unfold build. destruct (ctx_principal ctx) as [p|]; [|done]. destruct (NewEnvelope _ payload) as [env|e] eqn:H; [|done].
  intros [= <-]. simpl. rewrite (NewEnvelope_metadata _ _ _ H). split_and!; [done..|]. by apply (NewEnvelope_decode _ _ _ H).
Qed.

Lemma build_error ctx n subject id type t a payload e :
  build ctx n subject id type t a payload = Err e -> fault_error e.
Proof.
  unfold build. destruct (ctx_principal ctx) as [p|]; [|by intros [= <-]].
  destruct (NewEnvelope _ payload) as [env|e'] eqn:H; [done|]. intros [= <-]. by eapply NewEnvelope_error.
Qed.

#[export, refine] Instance Factory : EventFactory OutboxEvent := {|
  ev_build := build_domain;
  ev_key := fun ev => (oe_Subject ev, md_AggregateID (envelope_metadata (oe_Envelope ev)))
|}.
Proof.
  - intros ctx n d ev H. destruct d; apply build_metadata in H as (-> & _ & -> & _); done.
  - intros ctx n d e H. destruct d; by eapply build_error.
Defined.
End factory.
