(* ===== verification/Commands.v ===== *)
(** * Commands from events (internal/workflowruntime/commands.go)

    The handler of the event consumer: it decodes an envelope and starts, cancels or
    signals the Temporal workflow of the instance.  The Temporal client is a
    parameter.  The second half shows that what the factory of [Events] builds
    reaches the workflow unchanged. *)
From S2P Require Import Prelude GoStd Json Model GraphCodec Graph GraphTheory GraphSpec World Repository.
From S2P Require Import Execute ExecuteSpec Events.
From Stdlib Require Import Ascii String.
Local Open Scope string_scope.
Local Open Scope list_scope.

(** [client.StartWorkflowOptions]; the reuse policy is always REJECT_DUPLICATE. *)
Record StartWorkflowOptions : Type := mkStartWorkflowOptions {
  swo_ID : string; swo_TaskQueue : string; swo_RejectDuplicate : bool
}.

Definition WorkflowName : string := "platform.workflow.execute.v1".
Definition TaskCompletedSignal : string := "platform.workflow.task.completed.v1".

(** [TemporalCommands] *)
Class TemporalCommands (W : Type) := {
  tc_ExecuteWorkflow : Ctx -> StartWorkflowOptions -> string -> Input -> stE W error unit;
  tc_CancelWorkflow : Ctx -> string -> string -> stE W error unit;
  tc_SignalWorkflow : Ctx -> string -> string -> string -> TaskSignal -> stE W error unit
}.

(** ** From messages *)

Definition nodeTypeFromProto (value : PbNodeType) : string :=
  match value with
  | NODE_TYPE_START => NodeStart | NODE_TYPE_APPROVAL => NodeApproval
  | NODE_TYPE_SERVICE_TASK => NodeServiceTask | NODE_TYPE_TIMER => NodeTimer | NODE_TYPE_END => NodeEnd
  | NODE_TYPE_UNSPECIFIED => ""
  end.

Definition assigneeTypeFromProto (value : PbAssigneeType) : string :=
  match value with
  | ASSIGNEE_TYPE_USER => AssigneeUser | ASSIGNEE_TYPE_ROLE => AssigneeRole
  | ASSIGNEE_TYPE_STARTER => AssigneeStarter | ASSIGNEE_TYPE_EXPRESSION => AssigneeExpression
  | ASSIGNEE_TYPE_UNSPECIFIED => ""
  end.

Definition decisionFromProto (value : PbTaskDecision) : string :=
  match value with
  | TASK_DECISION_APPROVE => DecisionApprove | TASK_DECISION_REJECT => DecisionReject
  | TASK_DECISION_UNSPECIFIED => ""
  end.

Definition node_from (value : PbNode) : Node :=
  mkNode (pbn_Id value) (pbn_Name value) (nodeTypeFromProto (pbn_Type value))
    (assigneeTypeFromProto (pbn_AssigneeType value)) (pbn_Assignee value) (pbn_TimeoutSeconds value)
    (pbn_TargetService value) (pbn_FullMethod value) (pbn_RequestTemplateJson value)
    (pbn_CompensationMethod value) (pbn_TimerSeconds value) (pbn_ConfigJson value).

Definition edge_from (value : PbEdge) : Edge :=
  mkEdge (pbe_FromNodeId value) (pbe_ToNodeId value) (pbe_ConditionExpression value) (pbe_Priority value).

(** Nil elements are skipped. *)
Definition nodesFromProto (values : list (option PbNode)) : list Node := omap (fun v => node_from <$> v) values.
Definition edgesFromProto (values : list (option PbEdge)) : list Edge := omap (fun v => edge_from <$> v) values.

Definition workflowID (instance : PbInstance) : string :=
  "workflow:" +:+ pbi_TenantId instance +:+ ":" +:+ pbi_Id instance.

(** ** The handler *)

Section handler.
Context {EB : EventBus} {W : Type} {TC : TemporalCommands W}.
Context (taskQueue : string).
Abbreviation H := (stE W error).

(** [if err := ...; err != nil { return fmt.Errorf(format, err) }] *)
Definition decoded {A} (format : string) (r : res A) : H A :=
  lift (match r with Ok a => Ok a | Err e => Err (Wrap format [] e) end).

(** A call whose error [ignored] is success, and any other error is wrapped. *)
Definition tolerating (ignored : error -> bool) (format : string) (m : H unit) : H unit := fun w =>
  match m w with
  | (Ok _, w') => (Ok tt, w')
  | (Err e, w') => (if ignored e then Ok tt else Err (Wrap format [] e), w')
  end.

Definition start (ctx : Ctx) (envelope : Envelope) : H unit :=
  payload ← decoded "decode workflow start request: %w" (DecodeStartRequested envelope);
  match payload with
  | (Some instance, Some definition) =>
      if str_empty (pbi_Id instance) || str_empty (pbi_ApplicationId instance)
      then throw (ErrorNew "workflow start event is incomplete")
      else
        let input := mkInput (pbi_Id instance) (pbi_TenantId instance) (pbi_ApplicationId instance)
          (pbi_StarterId instance) (pbi_VariablesJson instance) (nodesFromProto (pbd_Nodes definition))
          (edgesFromProto (pbd_Edges definition)) in
        tolerating (fun e => errors_Is_foreign e AlreadyStarted) "start Temporal workflow: %w"
          (tc_ExecuteWorkflow ctx (mkStartWorkflowOptions (workflowID instance) taskQueue true) WorkflowName input)
  | _ => throw (ErrorNew "workflow start event is incomplete")
  end.

Definition cancel (ctx : Ctx) (envelope : Envelope) : H unit :=
  payload ← decoded "decode workflow cancellation request: %w" (DecodeCancellationRequested envelope);
  match payload with
  | (Some instance, _) =>
      if str_empty (pbi_Id instance) then throw (ErrorNew "workflow cancellation event is incomplete")
      else tolerating (fun e => errors_Is_foreign e TemporalNotFound) "cancel Temporal workflow: %w"
             (tc_CancelWorkflow ctx (workflowID instance) "")
  | _ => throw (ErrorNew "workflow cancellation event is incomplete")
  end.

Definition signalTask (ctx : Ctx) (envelope : Envelope) : H unit :=
  payload ← decoded "decode workflow task completion: %w" (DecodeTaskCompleted envelope);
  match payload with
  | Some task =>
      if str_empty (pbt_InstanceId task) then throw (ErrorNew "workflow task completion event is incomplete")
      else tolerating (fun _ => false) "signal Temporal workflow task: %w"
             (tc_SignalWorkflow ctx ("workflow:" +:+ pbt_TenantId task +:+ ":" +:+ pbt_InstanceId task) ""
                TaskCompletedSignal
                (mkTaskSignal (pbt_Id task) (pbt_NodeId task) (decisionFromProto (pbt_Decision task))
                   (pbt_OutputJson task)))
  | None => throw (ErrorNew "workflow task completion event is incomplete")
  end.

(** [Handle]; a nil envelope is [None]. *)
Definition Handle (ctx : Ctx) (envelope : option Envelope) : H unit :=
  match envelope with
  | None => throw (ErrorNew "workflow command envelope is required")
  | Some envelope =>
      let type := md_EventType (envelope_metadata envelope) in
      if String.eqb type "platform.workflow.instance.start-requested.v1" then start ctx envelope
      else if String.eqb type "platform.workflow.instance.cancellation-requested.v1" then cancel ctx envelope
      else if String.eqb type "platform.workflow.task.completed.v1" then signalTask ctx envelope
      else mret tt
  end.
End handler.

(** ** There and back *)

(** A node as it arrives: an assignee type the contract does not know is lost. *)
Definition known_assignees : list string := [AssigneeUser; AssigneeRole; AssigneeStarter; AssigneeExpression].
Definition arrived_type (known : list string) (value : string) : string :=
  if decide (value ∈ known) then value else "".
Definition arrived (n : Node) : Node :=
  mkNode (node_ID n) (node_Name n) (arrived_type known_types (node_Type n))
    (arrived_type known_assignees (node_AssigneeType n)) (node_Assignee n) (node_TimeoutSeconds n)
    (node_TargetService n) (node_FullMethod n) (node_RequestTemplateJSON n) (node_CompensationMethod n)
    (node_TimerSeconds n) (node_ConfigJSON n).

Ltac table_cases :=
  repeat match goal with
  | |- context [String.eqb ?k ?v] => destruct (String.eqb_spec k v) as [<-|]
  end.

Ltac listed := rewrite decide_True; [done|apply list_elem_of_In; simpl; tauto].
Ltac not_listed :=
  let Hin := fresh in
  rewrite decide_False; [done|]; intros Hin; apply list_elem_of_In in Hin; simpl in Hin; intuition congruence.

Lemma nodeType_back value : nodeTypeFromProto (nodeType value) = arrived_type known_types value.
Proof.
  unfold nodeType, arrived_type, known_types. cbn [table].
  table_cases; try by listed. by not_listed.
Qed.

Lemma assigneeType_back value : assigneeTypeFromProto (assigneeType value) = arrived_type known_assignees value.
Proof.
  unfold assigneeType, arrived_type, known_assignees. cbn [table].
  table_cases; try by listed. by not_listed.
Qed.

Lemma decision_back value :
  decisionFromProto (taskDecision value) = arrived_type [DecisionApprove; DecisionReject] value.
Proof.
  unfold taskDecision, arrived_type. cbn [table].
  table_cases; try by listed. by not_listed.
Qed.

Lemma nodes_back nodes : nodesFromProto ((fun n => Some (node_message n)) <$> nodes) = arrived <$> nodes.
Proof.
  unfold nodesFromProto. induction nodes as [|n nodes IH]; [done|]. simpl. f_equal; [|exact IH].
  unfold node_from, arrived. simpl. by rewrite nodeType_back, assigneeType_back.
Qed.

Lemma edges_back edges : edgesFromProto ((fun e => Some (edge_message e)) <$> edges) = edges.
Proof.
  unfold edgesFromProto. induction edges as [|[] edges IH]; [done|]. simpl. f_equal. exact IH.
Qed.

(** ** A graph survives the way to the workflow *)

Lemma arrived_known n : node_Type n ∈ known_types -> node_Type (arrived n) = node_Type n.
Proof. intros Hin. unfold arrived, arrived_type. simpl. by rewrite decide_True. Qed.

Lemma oneOf_in v l : oneOf v l = true <-> v ∈ l.
Proof.
  unfold oneOf. rewrite existsb_exists, list_elem_of_In. setoid_rewrite String.eqb_eq.
  split; [by intros (x & ? & ->)|by exists v].
Qed.

(** An approval node of a valid definition has a known assignee type. *)
Lemma validateNode_approval n :
  validateNode n = Ok tt -> node_Type n = NodeApproval -> node_AssigneeType n ∈ known_assignees.
Proof.
  unfold validateNode. intros H Ht. rewrite Ht in H. destruct (_ || _) in H; [done|].
  change (oneOf NodeApproval [NodeStart; NodeEnd]) with false in H.
  change (String.eqb NodeApproval NodeApproval) with true in H. cbv iota in H.
  destruct (oneOf (node_AssigneeType n) _) eqn:Ho in H; [by apply oneOf_in|done].
Qed.

Lemma arrived_approval n :
  validateNode n = Ok tt -> node_Type n = NodeApproval -> arrived n = n.
Proof.
  intros Hv Ht. pose proof (validateNode_approval n Hv Ht) as Ha. destruct n. unfold arrived, arrived_type. simpl in *.
  rewrite !decide_True; [done|done|]. subst. apply list_elem_of_In. simpl. tauto.
Qed.

Lemma validateNode_arrived n : validateNode n = Ok tt -> validateNode (arrived n) = Ok tt.
Proof.
  intros Hv. destruct (decide (node_Type n = NodeApproval)) as [Ha|Ha]; [by rewrite arrived_approval|].
  pose proof (arrived_known n (validateNode_type n Hv)) as Ht. revert Hv. unfold validateNode. rewrite Ht.
  change (node_ID (arrived n)) with (node_ID n). change (node_Name (arrived n)) with (node_Name n).
  change (node_TargetService (arrived n)) with (node_TargetService n).
  change (node_FullMethod (arrived n)) with (node_FullMethod n).
  change (node_CompensationMethod (arrived n)) with (node_CompensationMethod n).
  change (node_RequestTemplateJSON (arrived n)) with (node_RequestTemplateJSON n).
  change (node_TimerSeconds (arrived n)) with (node_TimerSeconds n).
  change (node_ConfigJSON (arrived n)) with (node_ConfigJSON n).
  by rewrite (proj2 (String.eqb_neq (node_Type n) NodeApproval) Ha).
Qed.

Section arrived.
Context (nodes : list Node) (edges : list Edge).
Hypothesis Hacc : accepted nodes edges.

Lemma arrived_ids : node_ID <$> (arrived <$> nodes) = node_ID <$> nodes.
Proof. rewrite <- list_fmap_compose. by apply list_fmap_ext. Qed.

Lemma arrived_in n' : n' ∈ arrived <$> nodes <-> exists n, n ∈ nodes /\ n' = arrived n.
Proof. rewrite list_elem_of_fmap. naive_solver. Qed.

Lemma arrived_type_of n : n ∈ nodes -> node_Type (arrived n) = node_Type n.
Proof. intros Hn. by apply arrived_known, validateNode_type, (acc_valid _ _ Hacc). Qed.

Lemma arrived_starts : List.length (filter is_start (arrived <$> nodes)) = List.length (filter is_start nodes).
Proof.
  pose proof arrived_type_of as Ht. revert Ht. clear Hacc. induction nodes as [|n l IH]; intros Ht; [done|].
  assert (Hn : is_start (arrived n) <-> is_start n) by (unfold is_start; by rewrite Ht by (by left)).
  assert (Hl : forall n0, n0 ∈ l -> node_Type (arrived n0) = node_Type n0) by (intros n0 ?; apply Ht; by right).
  specialize (IH Hl). rewrite fmap_cons, !filter_cons. do 2 case_decide; simpl; [by rewrite IH|tauto|tauto|exact IH].
Qed.

Lemma arrived_accepted : accepted (arrived <$> nodes) edges.
Proof.
  pose proof arrived_type_of as Ht. pose proof arrived_starts as Hst. pose proof arrived_ids as Hids.
  destruct Hacc as [Hv Hid Hs [e [He Hend]] Hedges Hkeys Hfirst Hin Hout Hac].
  assert (Hkind : forall n, n ∈ nodes -> (is_start (arrived n) <-> is_start n) /\ (is_end (arrived n) <-> is_end n)).
  { intros n Hn. unfold is_start, is_end. by rewrite Ht. }
  split; try done.
  - intros n' (n & Hn & ->)%arrived_in. by apply validateNode_arrived, Hv.
  - by rewrite Hids.
  - by rewrite Hst.
  - exists (arrived e). split; [apply arrived_in; by exists e|by apply Hkind].
  - intros ed Hed. destruct (Hedges ed Hed) as (f & t & Hf & Htt & Hfid & Htid & Hfe & Hts & Hrest).
    exists (arrived f), (arrived t). split; [apply arrived_in; by exists f|].
    split; [apply arrived_in; by exists t|]. split; [done|]. split; [done|].
    split; [by rewrite (proj2 (Hkind f Hf))|]. split; [by rewrite (proj1 (Hkind t Htt))|done].
  - intros n' (n & Hn & ->)%arrived_in Hsn. apply (Hfirst n Hn). by apply Hkind.
  - intros n' (n & Hn & ->)%arrived_in Hsn. apply (Hin n Hn). by rewrite <- (proj1 (Hkind n Hn)).
  - intros n' (n & Hn & ->)%arrived_in Hsn. apply (Hout n Hn). by rewrite <- (proj2 (Hkind n Hn)).
Qed.
End arrived.

Lemma arrived_valid `{MapRange} key name nodes edges :
  ValidateDefinition key name nodes edges = Ok tt -> ValidateDefinition key name (arrived <$> nodes) edges = Ok tt.
Proof.
  intros [Hh Hacc]%ValidateDefinition_accepted. apply ValidateDefinition_accepted.
  split; [|by apply arrived_accepted]. unfold header_ok in *. by rewrite length_fmap.
Qed.

(** ** Properties *)

Section properties.
Context {EB : EventBus} {FE : FactoryEnv} {W : Type} {TC : TemporalCommands W} {MR : MapRange}.

(** The input of the workflow an instance runs. *)
Definition workflow_input (v : WInstance) (d : WDefinition) : Input :=
  mkInput (inst_ID v) (inst_TenantID v) (inst_ApplicationID v) (inst_StarterID v) (inst_VariablesJSON v)
    (arrived <$> def_Nodes d) (def_Edges d).

Definition workflow_of (tenantID instanceID : string) : string :=
  "workflow:" +:+ tenantID +:+ ":" +:+ instanceID.

Lemma start_event_handled taskQueue ctx ctx' n v definition ev (w : W) :
  build_domain ctx n (InstanceStartRequested v definition) = Ok ev -> inst_ID v <> "" -> inst_ApplicationID v <> "" ->
  Handle taskQueue ctx' (Some (oe_Envelope ev)) w =
  tolerating (fun e => errors_Is_foreign e AlreadyStarted) "start Temporal workflow: %w"
    (tc_ExecuteWorkflow ctx' (mkStartWorkflowOptions (workflow_of (inst_TenantID v) (inst_ID v)) taskQueue true)
       WorkflowName (workflow_input v definition)) w.
Proof.
  assert (He : forall s, s <> "" -> str_empty s = false) by (by intros []).
  intros Hb Hi Ha. apply build_metadata in Hb as (_ & Htype & _ & Hdec). unfold Handle. rewrite Htype.
  simpl. unfold start, decoded, mbind, stE_bind, lift. rewrite Hdec. simpl.
  rewrite (He _ Hi), (He _ Ha). simpl. unfold workflow_input. by rewrite nodes_back, edges_back.
Qed.


(** A valid definition is still valid when it arrives: if [ValidateDefinition]
    accepts the graph of a definition, it accepts the graph that the start event
    delivers, whose approval nodes are exactly the definition's. *)
Theorem delivered_graph_valid key name d :
  ValidateDefinition key name (def_Nodes d) (def_Edges d) = Ok tt ->
  let delivered := nodesFromProto (pbd_Nodes (definition d)) in
  ValidateDefinition key name delivered (edgesFromProto (pbd_Edges (definition d))) = Ok tt /\
  filter (fun n => node_Type n = NodeApproval) delivered
  = filter (fun n => node_Type n = NodeApproval) (def_Nodes d).
Proof.
  intros Hv. cbv zeta. cbn [pbd_Nodes pbd_Edges definition]. rewrite nodes_back, edges_back.
  split; [by apply arrived_valid|].
  apply ValidateDefinition_accepted in Hv as [_ Hacc]. pose proof (acc_valid _ _ Hacc) as Hall.
  clear Hacc. induction (def_Nodes d) as [|n l IH]; [done|].
  assert (Hn : validateNode n = Ok tt) by (apply Hall; by left).
  assert (Ht : node_Type (arrived n) = node_Type n) by (by apply arrived_known, validateNode_type).
  assert (IH' : filter (fun n => node_Type n = NodeApproval) (arrived <$> l) = filter (fun n => node_Type n = NodeApproval) l)
    by (apply IH; intros n0 ?; apply Hall; by right).
  rewrite fmap_cons, !filter_cons, Ht, IH'. case_decide as Ha; [|done]. by rewrite arrived_approval.
Qed.
End properties.

(** ** The properties at work

    An event bus whose envelopes are the messages themselves, and a Temporal client
    that notes its calls. *)
Module Sample.

#[export, refine] Instance plain_bus : EventBus := {|
  Envelope := Metadata * Payload;
  envelope_metadata := fst;
  NewEnvelope := fun md p => Ok (md, p);
  DecodeStartRequested := fun e =>
    match e.2 with PInstanceStartRequested i d => Ok (i, d) | _ => Err (ErrorNew "payload") end;
  DecodeCancellationRequested := fun e =>
    match e.2 with PInstanceCancellationRequested i r => Ok (i, r) | _ => Err (ErrorNew "payload") end;
  DecodeTaskCompleted := fun e => match e.2 with PTaskCompleted t => Ok t | _ => Err (ErrorNew "payload") end
|}.
Proof. - by intros md p env [= <-]. - done. - intros md p env [= <-]. by destruct p. Defined.

#[export] Instance plain_env : FactoryEnv := {| fa_now := fun _ => 7%Z; fa_newID := fun _ => "event-1" |}.

#[export] Instance noted : TemporalCommands (list (string + TaskSignal)) := {|
  tc_ExecuteWorkflow := fun _ o _ _ w => (Err (Foreign AlreadyStarted), w ++ [inl (swo_ID o)]);
  tc_CancelWorkflow := fun _ id _ w => (Err (Foreign TemporalNotFound), w ++ [inl id]);
  tc_SignalWorkflow := fun _ _ _ _ s w => (Ok tt, w ++ [inr s])
|}.

Definition ctx : Ctx := mkCtx (Some (mkPrincipal "bob" "acme" "member-2" TypeUser)) "req-2" "trace-2".

Definition approved : Task :=
  mkTask "task-1" "acme" "crm" "inst-1" "approve" "Approve" AssigneeRole "manager" "bob" TaskApproved
    DecisionApprove "ok" "{}" "{}" None (Some 9%Z) 2 8 9 "worker" "bob".


Definition published : WDefinition :=
  mkDefinition "def-1" "acme" "crm" "order" "Order" "" DefinitionPublished 1 "" "" 2 5 6 "alice" "alice"
    sample_nodes sample_edges.
Lemma delivered_graph_valid_witness :
  ValidateDefinition "order" "Order" (nodesFromProto (pbd_Nodes (definition published))) sample_edges = Ok tt.
Proof. destruct (delivered_graph_valid "order" "Order" published sample_accepted) as [H _]. exact H. Defined.
End Sample.
