(* ===== verification/Completion.v ===== *)
(** * The life of an instance

    The parts together, when nothing fails: a run on the tables ends with every
    activity done, and the row of the instance says how the graph was walked; and a
    start request leads to such a run, by the event it stores. *)
From S2P Require Import Prelude GoStd Json Model GraphCodec Graph GraphTheory GraphSpec World WorldTheory.
From S2P Require Import Repository Queries Lifecycle RepositoryTheory Invariants QueriesTheory RepositorySpec Service.
From S2P Require Import ServiceSpec DraftsSpec Execute ExecuteSpec ExecuteWalk Progress Activities ActivitiesSpec System.
From S2P Require Import Events Commands.
From Stdlib Require Import Ascii String.
From stdpp Require Import relations.
Local Open Scope string_scope.
Local Open Scope list_scope.

Section run.
Context {Event : Type} {EF : EventFactory Event} {SQL : SqlText} {E : Env}.
Context {DI : DynamicInvoker (World Event)} {AE : ActivityEnv (World Event)} {EN : Engines}.
Context {RT : Runtime} {ES : EdgeSort} {ET : ErrorText} {MR : MapRange}.
Context (ctx : Ctx) (A : Answers).
Implicit Types w : World Event.

(** ** When nothing fails *)

(** The database answers, events can be built in the worker's name, and the worker
    draws identifiers that no task has. *)
Record working : Prop := {
  wk_healthy : healthy;
  wk_events k d : exists ev, ev_build (SystemContext ctx runtimeActor) k d = Ok ev;
  wk_fresh w : db_tasks (w_db w) !! (ac_newID w).1 = None
}.

(** The upstream of a service task answers a call of [method] with [output]. *)
Definition upstream_answers (si : ServiceTaskInput) (method : string) (output : string -> Prop) : Prop :=
  exists request response, renderRequest (node_RequestTemplateJSON (sti_Node si)) (sti_VariablesJSON si) = Ok request /\
    (forall w, (iv_Invoke (SystemContext ctx runtimeActor) (node_TargetService (sti_Node si)) method request w).1 = Ok response) /\
    output (defaultJSON response).

(** What Temporal answers the workflow is what the activities come to. *)
Definition granted (e : entry) : Prop :=
  match e.1 with
  | Execute.InvokeServiceTask _ si =>
      upstream_answers si (node_FullMethod (sti_Node si)) (fun out => out = an_service A si)
  | Execute.CompensateServiceTask _ si => upstream_answers si (node_CompensationMethod (sti_Node si)) (fun _ => True)
  | Execute.EvaluateCondition _ ci => Activities.EvaluateCondition ci = Ok (an_condition A ci)
  | _ => True
  end.

(** Commands before the last report. *)
Definition doable (input : Input) (e : entry) : Prop :=
  issued_by input e /\
  match e.1 with
  | Execute.CreateApprovalTask _ i => oneOf (node_AssigneeType (ap_Node i)) assignee_types = true
  | _ => True
  end.

Lemma covers_doable input : accepted (in_Nodes input) (in_Edges input) -> covers input (doable input).
Proof.
  intros Hacc. destruct (covers_issued input) as [H1 H2 H3 H4 H5 H6 H7 H8]. split; try (intros; by split; eauto).
  intros n b Hn Ht. split; [by apply H1|].
  apply (proj2 (oneOf_in (node_AssigneeType n) assignee_types)).
  by apply (validateNode_approval n (acc_valid _ _ Hacc n Hn)).
Qed.

Context (Hoff : hands_off (Event := Event)) (Hwk : working).

(** ** One activity *)

Section activity.
Context (input : Input).
Abbreviation living := (alive (in_TenantID input) (in_ApplicationID input) (in_InstanceID input)).

Lemma act_run {B} (read : World Event -> B * World Event) w :
  w_db (read w).2 = w_db w -> exists b w1, read w = (b, w1) /\ w_db w1 = w_db w.
Proof. intros H. exists (read w).1, (read w).2. by rewrite <- surjective_pairing. Qed.

Lemma approval_done i n w : (0 <= n)%Z -> started w -> living (1 + n) (w_db w) ->
  ap_InstanceID i = in_InstanceID input /\ ap_TenantID i = in_TenantID input /\ ap_ApplicationID i = in_ApplicationID input ->
  oneOf (node_AssigneeType (ap_Node i)) assignee_types = true ->
  exists w', Activities.CreateApprovalTask ctx i w = (Ok tt, w') /\ living n (w_db w').
Proof.
  intros Hn Hs Ha (Hi & Ht & Happ) Hat. unfold Activities.CreateApprovalTask, mbind, stE_bind, act_now, act_newID.
  destruct (act_run ac_now w (h_now Hoff w)) as (now & w1 & -> & H1).
  pose proof (wk_fresh Hwk w1) as Hf. destruct (act_run ac_newID w1 (h_newID Hoff w1)) as (id & w2 & Hid & H2).
  rewrite Hid in Hf |- *. cbn [fst] in Hf. rewrite <- H2 in Hf.
  set (v := approval_task i id now).
  assert (Hok : succeeds (Repository.CreateTask (SystemContext ctx runtimeActor) v) (fun _ => living n) (w_db w2)).
  { rewrite <- Hi, <- Ht, <- Happ in Ha |- *.
    apply (CreateTask_succeeds (wk_healthy Hwk) _ v n (w_db w2) Hn); [by rewrite H2, H1| |by split|apply (wk_events Hwk)].
    rewrite H2, H1. by apply reachable_tasks_within, started_reachable. }
  destruct (succeeds_world _ _ _ Hok) as (u & w3 & Hrun & Hl). exists w3. cbn. unfold wrapped. by rewrite Hrun.
Qed.

Lemma invoked si method output w : upstream_answers si method output ->
  exists request response w', renderRequest (node_RequestTemplateJSON (sti_Node si)) (sti_VariablesJSON si) = Ok request /\
    iv_Invoke (SystemContext ctx runtimeActor) (node_TargetService (sti_Node si)) method request w = (Ok response, w') /\
    w_db w' = w_db w.
Proof.
  intros (request & response & Hr & Hi & _). exists request, response.
  destruct (act_run (iv_Invoke (SystemContext ctx runtimeActor) (node_TargetService (sti_Node si)) method request) w
    (h_invoke Hoff _ _ _ _ w)) as (b & w1 & Hrun & Hw1).
  specialize (Hi w). rewrite Hrun in Hi. cbn in Hi. subst b. by exists w1.
Qed.

Lemma service_done si n w : (0 <= n)%Z -> living (1 + n) (w_db w) ->
  sti_InstanceID si = in_InstanceID input /\ sti_TenantID si = in_TenantID input /\ sti_ApplicationID si = in_ApplicationID input ->
  upstream_answers si (node_FullMethod (sti_Node si)) (fun out => out = an_service A si) ->
  exists w', Activities.InvokeServiceTask ctx si w = (Ok (mkServiceTaskResult (an_service A si)), w') /\ living n (w_db w').
Proof.
  intros Hn Ha (Hi & Ht & Happ) Hup. unfold Activities.InvokeServiceTask, mbind, stE_bind, wrapped, wrapped_arg, lift.
  cbn [ru_UpdateInstanceNode repository_runtime]. rewrite Hi, Ht, Happ.
  destruct (succeeds_world _ _ _ (UpdateInstanceNode_succeeds (wk_healthy Hwk) _ _ _ (node_ID (sti_Node si)) runtimeActor n
    (w_db w) Hn Ha)) as ([] & w1 & -> & Ha1).
  destruct (invoked si _ _ w1 Hup) as (request & response & w2 & Hr & Hrun & Hw2). rewrite Hr, Hrun.
  destruct Hup as (request' & response' & Hr' & Hall & Hout). assert (request' = request) as -> by congruence.
  specialize (Hall w1). rewrite Hrun in Hall. cbn in Hall. injection Hall as <-. exists w2.
  rewrite Hw2. cbn. by rewrite Hout.
Qed.

Lemma compensation_done si n w : living n (w_db w) ->
  upstream_answers si (node_CompensationMethod (sti_Node si)) (fun _ => True) ->
  exists w', Activities.CompensateServiceTask ctx si w = (Ok tt, w') /\ living n (w_db w').
Proof.
  intros Ha Hup. unfold Activities.CompensateServiceTask. destruct (str_empty _); [by exists w|].
  destruct (invoked si _ _ w Hup) as (request & response & w1 & Hr & Hrun & Hw1).
  unfold mbind, stE_bind, wrapped_arg, lift. rewrite Hr, Hrun. exists w1. by rewrite Hw1.
Qed.

(** The row after a report. *)
Definition reported_as (status out message : string) w : Prop :=
  ended_as (in_TenantID input) (in_ApplicationID input) (in_InstanceID input) status (defaultJSON out) message (w_db w).

Lemma report_done status out message w : living 1 (w_db w) -> status ∈ final_statuses ->
  exists w', Activities.FinishInstance ctx (finish_input input status out message) w = (Ok tt, w') /\
    reported_as status out message w'.
Proof.
  intros Ha Hs. unfold Activities.FinishInstance, tolerate_conflict. cbn [fi_TenantID fi_ApplicationID fi_InstanceID fi_Status
    fi_ResultJSON fi_ErrorMessage finish_input ru_FinishInstance repository_runtime].
  destruct (succeeds_world _ _ _ (FinishInstance_succeeds (wk_healthy Hwk) (SystemContext ctx runtimeActor) _ _ _ status
    (defaultJSON out) message runtimeActor (w_db w) Ha Hs (wk_events Hwk))) as (i & w1 & -> & He).
  by exists w1.
Qed.

(** A command other than a report: nothing to do, or an attempt that succeeds. *)
Lemma attempt_done e n w : (0 <= n)%Z -> started w -> living (1 + n) (w_db w) -> doable input e -> granted e ->
  (forall o i, e.1 <> Execute.FinishInstance o i) ->
  match attempt ctx e.1 w with
  | Some (b, w') => b = true /\ living n (w_db w') /\ started w'
  | None => living n (w_db w)
  end.
Proof.
  intros Hn Hs Ha [Hi Hd] Hg Hnf. destruct e as [c b]. cbn [fst] in *.
  assert (Hless : living n (w_db w)) by (destruct Ha as (i & ? & ? & ? & ?); exists i; split_and!; [done..|lia]).
  assert (Hst : forall b' w', attempt ctx c w = Some (b', w') -> started w').
  { intros b' w' Hat. eapply started_more; [exact Hs|]. by eapply (attempt_steps Hoff ctx input c b' b). }
  destruct c as [o i|o i|o i|o i|o i|d id|d]; cbn [attempt] in *; unfold outcome in *; try done; unfold granted in Hg; cbn [fst] in Hg.
  - destruct (approval_done i n w Hn Hs Ha Hi Hd) as (w' & Hrun & Hl). rewrite Hrun in Hst |- *.
    split; [done|]. split; [done|]. by eapply Hst.
  - destruct (service_done i n w Hn Ha Hi Hg) as (w' & Hrun & Hl). rewrite Hrun in Hst |- *.
    split; [done|]. split; [done|]. by eapply Hst.
  - destruct (compensation_done i n w Hless Hg) as (w' & Hrun & Hl). rewrite Hrun in Hst |- *.
    split; [done|]. split; [done|]. by eapply Hst.
  - by rewrite Hg.
  - by destruct (Hnf o i).
Qed.

(** Commands without a report, all of which Temporal calls successes, are done. *)
Lemma replay_done l n w : (0 <= n)%Z -> started w -> living (Z.of_nat (List.length l) + n) (w_db w) ->
  succeeded l -> Forall (doable input) l -> Forall granted l ->
  Forall (fun e => forall o i, e.1 <> Execute.FinishInstance o i) l ->
  exists w', replay ctx l w = Some w' /\ living n (w_db w') /\ started w'.
Proof.
  intros Hn. revert w. induction l as [|[c ok] l IH]; intros w Hs Ha Hok Hd Hg Hnf; [by exists w|].
  inversion Hok as [|? ? Hc Hok']. inversion Hd as [|? ? Hd1 Hd']. inversion Hg as [|? ? Hg1 Hg'].
  inversion Hnf as [|? ? Hf1 Hnf']. subst. cbn [snd] in Hc. subst ok.
  assert (Hroom : living (1 + (Z.of_nat (List.length l) + n)) (w_db w)).
  { cbn [List.length] in Ha. by replace (1 + (Z.of_nat (List.length l) + n))%Z with (Z.of_nat (S (List.length l)) + n)%Z by lia. }
  pose proof (attempt_done (c, true) (Z.of_nat (List.length l) + n)%Z w ltac:(lia) Hs Hroom Hd1 Hg1 Hf1) as Hat. cbn [fst replay] in *.
  destruct (attempt ctx c w) as [[b w1]|]; [|by apply IH]. destruct Hat as (-> & Hl & Hs1). by apply IH.
Qed.
End activity.

Lemma replay_app h h' w : replay ctx (h ++ h') w = replay ctx h w ≫= replay ctx h'.
Proof.
  revert w. induction h as [|[c ok] h IH]; intros w; [done|]. cbn [app replay]. destruct ok; [|apply IH].
  destruct (attempt ctx c w) as [[[] w1]|]; [apply IH|done|apply IH].
Qed.

(** ** The whole run *)

Definition reports (c : command) : bool := match c with Execute.FinishInstance _ _ => true | _ => false end.

Lemma actions_report_nothing input n : Forall (fun c => reports c = false) (actions input n).
Proof. unfold actions. repeat case_match; repeat constructor. Qed.

(** A failed walk reports nothing itself. *)
Lemma walk_failed_reports input n out l out' e : walk A input n out l out' (Err e) -> Forall (fun c => reports c = false) l.
Proof.
  remember (Err e) as r eqn:Hr. induction 1 as [n out out' r Hl|n out out' Hl Hst|n out out' e' n' l out'' r Hl Hc Hn Hid Hw IH]; subst.
  - apply Forall_app. split; [apply actions_report_nothing|constructor].
  - apply actions_report_nothing.
  - apply Forall_app. split; [apply actions_report_nothing|by apply IH].
Qed.

Definition no_report (e : entry) : Prop := forall o i, e.1 <> Execute.FinishInstance o i.

Lemma visible_no_report h : Forall (fun c => reports c = false) (visible h) -> Forall no_report h.
Proof.
  induction h as [|[c ok] h IH]; [constructor|]. unfold visible. cbn [fmap list_fmap fst List.filter].
  destruct c; cbn [is_evaluation negb]; intros Hf; try (inversion Hf as [|? ? Hc Hf']; subst);
    (constructor; [by intros o' i' ?|by apply IH]).
Qed.

Lemma progress_no_report h : Forall progress_entry h -> Forall no_report h.
Proof. intros Hp. eapply Forall_impl; [exact Hp|]. intros [c b] Hc o i Heq. cbn in Heq. by subst c. Qed.

(** What the row of the instance says after a run with [outcome]. *)
Definition row_says (input : Input) (outcome : result error Result) (out : string) w : Prop :=
  match outcome with
  | Ok r => reported_as input (res_Status r) (res_ResultJSON r) "" w
  | Err e => reported_as input InstanceFailed out (error_text e) w
  end.

Lemma aftermath_split input l rest out e : rest.*1 = aftermath input l out e -> succeeded rest ->
  exists comp, rest = comp ++ [(Execute.FinishInstance disconnectedCtx (finish_input input InstanceFailed out (error_text e)), true)] /\
    Forall no_report comp.
Proof.
  unfold aftermath. intros Hr Hok. destruct rest as [|x rest' _] using rev_ind; [by apply app_cons_not_nil in Hr|].
  rewrite fmap_app in Hr. apply app_inj_tail in Hr as [Hr Hx]. apply Forall_app in Hok as [_ Hok].
  apply List.Forall_inv in Hok. destruct x as [c b]. cbn in Hx, Hok. subst c b. exists rest'. split; [done|].
  revert Hr. generalize (filter has_compensation (rev (invoked_services l))). clear.
  induction rest' as [|[c b] rest' IH]; intros sis Hr; [constructor|]. destruct sis as [|si sis]; [done|].
  injection Hr as -> Hr. constructor; [by intros o i ?|by eapply IH].
Qed.

(** The last command is the report of the outcome, and the only one. *)
Lemma history_split input l rest s out outcome : Execute input = (outcome, l ++ rest) -> succeeded (l ++ rest) ->
  walk A input s "{}" (visible l) out outcome ->
  rest.*1 = match outcome with Ok _ => [] | Err e => aftermath input l out e end ->
  exists body o status result message,
    l ++ rest = body ++ [(Execute.FinishInstance o (finish_input input status result message), true)] /\
    Forall no_report body /\ status ∈ final_statuses /\
    forall w, reported_as input status result message w -> row_says input outcome out w.
Proof.
  intros Hex Hok Hw Hr. destruct outcome as [r|e].
  - pose proof (Execute_success_reported input) as Hs. rewrite Hex in Hs. destruct Hs as (body & -> & Hp & Hst).
    exists body, activityCtx, (res_Status r), (res_ResultJSON r), "". split; [done|]. split; [by apply progress_no_report|].
    split; [unfold final_statuses; set_solver|done].
  - apply Forall_app in Hok as [_ Hok]. destruct (aftermath_split input l rest out e Hr Hok) as (comp & -> & Hc).
    exists (l ++ comp), disconnectedCtx, InstanceFailed, out, (error_text e). split; [by rewrite app_assoc|].
    split; [apply Forall_app; split; [|done]; by eapply visible_no_report, walk_failed_reports|].
    split; [unfold final_statuses; set_solver|done].
Qed.

Lemma run_completed key name input w : reliable A -> started w ->
  ValidateDefinition key name (in_Nodes input) (in_Edges input) = Ok tt ->
  in_InstanceID input <> "" -> in_TenantID input <> "" -> in_ApplicationID input <> "" ->
  alive (in_TenantID input) (in_ApplicationID input) (in_InstanceID input) (Z.of_nat (List.length (Execute input).2)) (w_db w) ->
  Forall granted (Execute input).2 ->
  exists s l out w', s ∈ in_Nodes input /\ is_start s /\ walk A input s "{}" l out (Execute input).1 /\
    replay ctx (Execute input).2 w = Some w' /\ row_says input (Execute input).1 out w'.
Proof.
  intros Hrel Hs Hv Hi Ht Happ Ha Hg.
  destruct (Execute_walked A Hrel key name input Hv Hi Ht Happ) as (s & l & out & outcome & rest & Hin & Hst & Hw & Hex & Hok & Hr).
  destruct (history_split input l rest s out outcome Hex Hok Hw Hr) as (body & o & status & result & message & Hsplit & Hnr & Hfin & Hrow).
  apply ValidateDefinition_accepted in Hv as [_ Hacc]. pose proof (Execute_covered input _ (covers_doable input Hacc)) as Hd.
  rewrite Hex in Hd, Ha, Hg |- *. cbn [fst snd] in *. rewrite Hsplit in Ha, Hg, Hok, Hd |- *.
  apply Forall_app in Hg as [Hg _]. apply Forall_app in Hok as [Hok _]. apply Forall_app in Hd as [Hd _].
  rewrite length_app, Nat2Z.inj_add in Ha.
  destruct (replay_done input body 1 w ltac:(lia) Hs Ha Hok Hd Hg Hnr) as (w1 & Hrun & Hl & _).
  destruct (report_done input status result message w1 Hl Hfin) as (w2 & Hfinish & Hrep).
  exists s, (visible l), out, w2. split; [done|]. split; [done|]. split; [done|]. split; [|by apply Hrow].
  rewrite replay_app, Hrun. cbn. unfold System.outcome. by rewrite Hfinish.
Qed.

Lemma row_says_for_good input outcome out w w' : started w ->
  (forall r, outcome = Ok r -> res_Status r ∈ success_statuses) ->
  row_says input outcome out w -> rtc run_step w w' -> row_says input outcome out w'.
Proof.
  intros Hs Hout Hrow Hr.
  assert (Hkeep : forall status result message, status ∈ final_statuses ->
    reported_as input status result message w -> reported_as input status result message w').
  { intros status result message Hf (i & Hi & Hin & Hst & Hrest). exists i. split; [|done].
    apply (ended_forever _ i w w' Hs Hi); [|done]. intros Hrun. rewrite <- Hst, Hrun in Hf. unfold final_statuses in Hf. set_solver. }
  destruct outcome as [r|e]; cbn [row_says] in *; (apply Hkeep; [|done]).
  - specialize (Hout r eq_refl). unfold success_statuses, final_statuses in *. set_solver.
  - unfold final_statuses. set_solver.
Qed.

(** Nothing stands in the way of a running instance: when Temporal is reliable and
    passes on what the activities answer, the database works and the instance's
    version has room, every command of the run of a validated graph can be done, in
    order, and the row then says for good how the graph was walked: completed or
    rejected with the walk's result, or failed with its error. *)
Theorem running_instance_completes key name input i w : reliable A -> started w ->
  ValidateDefinition key name (in_Nodes input) (in_Edges input) = Ok tt ->
  in_InstanceID input <> "" -> in_TenantID input <> "" -> in_ApplicationID input <> "" ->
  instance_at input i w -> inst_Status i = InstanceRunning ->
  (inst_Version i + Z.of_nat (List.length (Execute input).2) <= max_int64)%Z ->
  Forall granted (Execute input).2 ->
  exists s l out w', s ∈ in_Nodes input /\ is_start s /\ walk A input s "{}" l out (Execute input).1 /\
    performed ctx w (Execute input).2 w' /\
    forall w'', rtc run_step w' w'' -> row_says input (Execute input).1 out w''.
Proof.
  intros Hrel Hs Hv Hi Ht Happ [Hrow Hin] Hrun Hroom Hg.
  destruct (run_completed key name input w Hrel Hs Hv Hi Ht Happ) as (s & l & out & w' & Hsn & Hst & Hw & Hrep & Hsays);
    [by exists i|done|].
  apply replay_performed in Hrep. exists s, l, out, w'. do 4 (split; [done|]).
  assert (Hs' : started w').
  { eapply started_more; [exact Hs|]. eapply performed_steps; [exact Hoff| |exact Hrep]. apply Execute_covered, covers_issued. }
  intros w'' Hr. apply (row_says_for_good input _ out w' w'' Hs'); [|done|done]. intros r Hok.
  pose proof (Execute_success_reported input) as Hrepd. destruct (Execute input) as [o h]. cbn [fst] in Hok. subst o.
  destruct Hrepd as (? & _ & _ & ?). done.
Qed.
End run.

(** ** From the request on *)

Section life.
Context {EB : EventBus} {FE : FactoryEnv} {SQL : SqlText} {E : Env} {MR : MapRange}.
Abbreviation WE := (World OutboxEvent).
Context {AR : AssignmentResolver WE} {SE : ServiceEnv WE}.
Context {DI : DynamicInvoker WE} {AE : ActivityEnv WE} {EN : Engines}.
Context {ES : EdgeSort} {ET : ErrorText} {W : Type} {TC : TemporalCommands W}.
Context (Hquiet : quiet (Event := OutboxEvent)) (Hoff : hands_off (Event := OutboxEvent)).
Implicit Types w : WE.

(** C18. The life of an instance: when a request to start one succeeds, the instance is
    pinned to the published revision of the requested key, and the last row of the
    outbox is an event of the caller; whenever it is handled, Temporal is asked once for
    the workflow of the instance, with a graph that is valid; and when a worker then
    performs that workflow - Temporal reliable, the database working, the upstreams,
    the approvers and the conditions answering whatever they do - every activity can be
    done, and from then on, whatever is requested, the row of the instance says how its
    graph was walked: completed or rejected with the result of the walk, or failed with
    its error. *)
Theorem started_instance_completes (taskQueue : string) n caller req i w w' :
  rtc served (mkWorld empty_db n) w -> (forall w, (sv_newID w).1 <> "") ->
  StartInstance caller req w = (Ok i, w') ->
  exists ev r definition,
    db_revisions (w_db w) !! (inst_DefinitionID i, inst_DefinitionRevision i) = Some r /\
    hydrateDefinition (rev_Definition r) = Ok definition /\ def_Key definition = si_DefinitionKey req /\
    def_Status definition = DefinitionPublished /\
    inst_in (si_TenantID req) (si_ApplicationID req) i = true /\
    db_outbox (w_db w') = db_outbox (w_db w) ++ [(ev, inst_StarterID i)] /\
    (forall ctx (wt : W), Handle taskQueue ctx (Some (oe_Envelope ev)) wt =
      tolerating (fun e => errors_Is_foreign e AlreadyStarted) "start Temporal workflow: %w"
        (tc_ExecuteWorkflow ctx (mkStartWorkflowOptions (workflow_of (inst_TenantID i) (inst_ID i)) taskQueue true)
           WorkflowName (workflow_input i definition)) wt) /\
    let input := workflow_input i definition in
    ValidateDefinition (def_Key definition) (def_Name definition) (in_Nodes input) (in_Edges input) = Ok tt /\
    forall (RT : Runtime) ctx A, reliable A -> working ctx ->
      (1 + Z.of_nat (List.length (Execute input).2) <= max_int64)%Z -> Forall (granted ctx A) (Execute input).2 ->
      exists s l out w2, s ∈ in_Nodes input /\ is_start s /\ walk A input s "{}" l out (Execute input).1 /\
        performed ctx w' (Execute input).2 w2 /\
        forall w3, rtc run_step w2 w3 -> row_says input (Execute input).1 out w3.
Proof.
  intros Hserved Hid Hstart. destruct (served_all Hquiet n w Hserved) as [Hs Hgraphs].
  pose proof (StartInstance_pins_revision Hquiet caller req w Hs) as Hpin. rewrite Hstart in Hpin.
  destruct Hpin as (actor & d & r & definition & _ & Hd & _ & Hkey & Hst & Hrev & Hr & _ & Hactor & Hrun & _ & _ & Hin & Ht & Ha
    & [w0 Hnew] & Hhyd & Hstep).
  pose proof Hstep as (_ & _ & _ & _ & _ & ctx0 & k & ev & Hev & Hdb). cbn in Hev.
  destruct (gv_revisions _ Hgraphs _ _ Hr) as (definition' & Hhyd' & Hvalid).
  assert (definition' = definition) as -> by congruence.
  pose proof (proj1 (inst_in_spec _ _ _) Hin) as [Hti Hai].
  assert (Hne : inst_ID i <> "") by (rewrite Hnew; apply Hid).
  exists ev, r, definition. split; [done|]. split; [done|].
  assert (Hcols : def_Key definition = si_DefinitionKey req /\ def_Status definition = DefinitionPublished).
  { destruct (hydrate_columns _ _ Hhyd) as (_ & -> & _ & ->). pose proof (reachable_ok _ (started_reachable _ Hs)) as Hok.
    destruct (ok_revisions _ Hok _ _ Hd) as [(Hdraft & _)|(_ & Hone & r' & Hr' & _ & _ & Hpub & _ & Hk & _)]; [by rewrite Hst in Hdraft|].
    rewrite (k_definitions _ (ok_keyed _ Hok) _ _ Hd), <- Hone, <- Hrev in Hr'. assert (r' = r) as -> by congruence. by rewrite Hk. }
  destruct Hcols as [Hcol1 Hcol2]. do 3 (split; [done|]). split; [by rewrite Hdb, Hactor|].
  split; [intros ctx wt; eapply start_event_handled; [exact Hev|done|by rewrite Hai]|].
  cbv zeta. assert (Hv : ValidateDefinition (def_Key definition) (def_Name definition)
    (in_Nodes (workflow_input i definition)) (in_Edges (workflow_input i definition)) = Ok tt) by by apply arrived_valid.
  split; [exact Hv|]. intros RT ctx A Hrel Hwk Hroom Hg.
  assert (Hs' : started w').
  { eapply started_more; [exact Hs|]. pose proof (serve_one_call Hquiet caller (RqStartInstance req) w Hs) as Hone.
    apply one_call_steps in Hone. unfold serve, answered, mbind, stE_bind in Hone. by rewrite Hstart in Hone. }
  apply (running_instance_completes ctx A Hoff Hwk _ _ (workflow_input i definition) (instance_row i) w' Hrel Hs' Hv); try done.
  - by rewrite <- Hti in Ht.
  - by rewrite <- Hai in Ha.
  - split; [rewrite Hdb; cbn; by rewrite lookup_insert_eq|]. cbn. apply inst_in_spec. done.
Qed.
End life.

(** ** The sample order, from the request to the end *)

Module Lived.
Import RepositorySpec.Sample ExecuteSpec.Sample ActivitiesSpec.Worked Commands.Sample System.Deployed.

#[export] Instance managers : AssignmentResolver (World OutboxEvent) := {|
  as_RoleIDs := fun _ _ _ w => (Ok ["manager"], w);
  as_AuthorizeExpression := fun _ _ _ _ w => (Err (Sentinel ErrForbidden), w)
|}.

#[export] Instance admitting : ServiceEnv (World OutboxEvent) := {|
  app_Verify := fun _ _ _ w => (Ok tt, w);
  sv_now := fun w => (1000%Z, w);
  sv_newID := fun w => ("fresh", w)
|}.

#[export] Instance upstream : DynamicInvoker (World OutboxEvent) := {| iv_Invoke := fun _ _ _ _ w => (Ok "{}", w) |}.

(** The identifiers of the worker are new. *)
#[export] Instance drawing : ActivityEnv (World OutboxEvent) := {|
  ac_now := fun w => (2000%Z, w);
  ac_newID := fun w => (fresh (dom (db_tasks (w_db w))), w)
|}.

Definition alice : Ctx := mkCtx (Some (mkPrincipal "alice" "acme" "member-1" TypeUser)) "req-1" "trace-1".
Definition draft : CreateDefinitionInput := mkCreateDefinitionInput "acme" "crm" "order" "Order" "" sample_nodes sample_edges.
Definition order : StartInstanceInput := mkStartInstanceInput "acme" "crm" "order" "order-78" "Order 78" "{}" "key-0002".

Definition published : World OutboxEvent := Eval vm_compute in
  (serve alice (RqPublishDefinition "acme" "crm" "fresh" 1) (serve alice (RqCreateDefinition draft) (mkWorld empty_db 0)).2).2.

Lemma published_served : rtc served (mkWorld empty_db 0) published.
Proof.
  replace published with (serve alice (RqPublishDefinition "acme" "crm" "fresh" 1)
    (serve alice (RqCreateDefinition draft) (mkWorld (Event := OutboxEvent) empty_db 0)).2).2 by (vm_compute; reflexivity).
  eapply rtc_l; [refine (sd_request (mkWorld empty_db 0) alice (RqCreateDefinition draft) _)|].
  - split; split; repeat (constructor; try done).
  - apply rtc_once. exact (sd_request _ alice (RqPublishDefinition "acme" "crm" "fresh" 1) I).
Qed.

(** The manager approves, the condition does not hold, the charge succeeds. *)
Definition approving : Answers := {|
  an_signal := fun id => if String.eqb id "approve" then Some (mkTaskSignal "task-1" "approve" DecisionApprove "") else None;
  an_service := fun _ => "{}";
  an_condition := fun _ => false
|}.

Lemma reliable_approving : reliable (RT := granting true) approving.
Proof.
  split; try done. intros h d id. unfold approving, rt_await, granting, an_signal. cbn [sig_NodeID].
  rewrite String.eqb_sym. by destruct (String.eqb id "approve").
Qed.

Lemma worker_working : working (Event := OutboxEvent) alice.
Proof.
  split; [done| |].
  - intros k []; eexists; reflexivity.
  - intros w. apply not_elem_of_dom. cbn. apply is_fresh.
Qed.

Lemma quiet_here : quiet (Event := OutboxEvent). Proof. by split. Qed.
Lemma hands_off_here : hands_off (Event := OutboxEvent). Proof. by split. Qed.

Definition started_order : res WInstance * World OutboxEvent := Eval vm_compute in StartInstance alice order published.

Definition order_run : Input := mkInput "fresh" "acme" "crm" "alice" "{}" sample_nodes sample_edges.

Lemma order_run_granted : Forall (granted (Event := OutboxEvent) alice approving) (Execute (RT := granting true) order_run).2.
Proof.
  replace (Execute (RT := granting true) order_run).2 with
    ltac:(let h := eval vm_compute in (Execute (RT := granting true) order_run).2 in exact h) by (vm_compute; reflexivity).
  repeat constructor. exists "{}", "{}". split; [vm_compute; reflexivity|done].
Qed.

Lemma started_instance_completes_witness : exists i w' input w2,
  StartInstance alice order published = (Ok i, w') /\ in_InstanceID input = inst_ID i /\
  performed alice w' (Execute (RT := granting true) input).2 w2 /\ reported_as input InstanceCompleted "{}" "" w2.
Proof.
  destruct started_order as [[i|e] w'] eqn:Hs; [|discriminate Hs].
  assert (Hstart : StartInstance alice order published = (Ok i, w')) by (rewrite <- Hs; vm_compute; reflexivity).
  destruct (started_instance_completes (TC := noted) quiet_here hands_off_here "queue" 0 alice order i published w' published_served
    ltac:(done) Hstart) as (ev & r & d & Hr & Hd & _ & _ & _ & _ & _ & Hlife).
  exists i, w', (workflow_input i d).
  assert (Hi : (inst_DefinitionID i, inst_DefinitionRevision i) = ("fresh", 1%Z)) by (vm_compute in Hs; by injection Hs as <- _).
  assert (Hvars : inst_VariablesJSON i = "{}") by (vm_compute in Hs; by injection Hs as <- _).
  assert (Hids : (inst_ID i, inst_TenantID i, inst_ApplicationID i, inst_StarterID i) = ("fresh", "acme", "crm", "alice"))
    by (vm_compute in Hs; by injection Hs as <- _).
  rewrite Hi in Hr. vm_compute in Hr. injection Hr as <-. vm_compute in Hd. injection Hd as <-.
  cbv zeta in Hlife. match type of Hlife with context [Execute ?input] => assert (Hin : input = order_run) end.
  { unfold workflow_input. injection Hids as -> -> -> ->. rewrite Hvars. vm_compute. reflexivity. }
  rewrite Hin in Hlife |- *. destruct Hlife as [_ Hlife].
  destruct (Hlife (granting true) alice approving reliable_approving worker_working ltac:(vm_compute; discriminate) order_run_granted)
    as (s & l & out & w2 & _ & _ & _ & Hdone & Hrow).
  exists w2. split; [exact Hstart|]. split; [injection Hids as -> _ _ _; reflexivity|]. split; [exact Hdone|].
  specialize (Hrow w2 (rtc_refl _ _)).
  assert (Hres : (Execute (RT := granting true) order_run).1 = Ok (mkResult InstanceCompleted "{}")) by (vm_compute; reflexivity).
  rewrite Hres in Hrow. exact Hrow.
Defined.
End Lived.
