(* ===== verification/Cleanup.v ===== *)
(** * Retention of task history (internal/workflow/cleanup.go)

    The defaults of the cleaner and the loop of [clean], one round of its background
    work; and that [clean] on the repository always ends. *)
From S2P Require Import Prelude GoStd Json Model GraphCodec Graph GraphSpec World WorldTheory.
From S2P Require Import Repository Queries Lifecycle RepositoryTheory Invariants QueriesTheory RepositorySpec.
From Stdlib Require Import Ascii String.
From stdpp Require Import relations.
Local Open Scope string_scope.
Local Open Scope list_scope.

(** [config.Retention], with [Database.Enabled]; durations are nanoseconds. *)
Record RetentionConfig : Type := mkRetentionConfig {
  TaskHistory : Z; CleanupInterval : Z; CleanupBatchSize : Z; DatabaseEnabled : bool
}.

Record RetentionCleaner : Type := mkRetentionCleaner {
  rc_retention : Z; rc_interval : Z; rc_batchSize : Z; rc_enabled : bool
}.

Definition day : Z := 24 * 3600 * 1000000000.
Definition hour : Z := 3600 * 1000000000.

(** The values [newRetentionCleaner] puts in place of unset ones. *)
Definition newRetentionCleaner (cfg : RetentionConfig) : RetentionCleaner :=
  mkRetentionCleaner
    (if (TaskHistory cfg <=? 0)%Z then (365 * day)%Z else TaskHistory cfg)
    (if (CleanupInterval cfg <=? 0)%Z then hour else CleanupInterval cfg)
    (if (CleanupBatchSize cfg <=? 0)%Z then 500%Z else CleanupBatchSize cfg)
    (DatabaseEnabled cfg).

(** [TaskHistoryRetentionStore] and the clock. *)
Class TaskHistoryRetentionStore (W : Type) := {
  rt_DeleteTaskHistoryBefore : Z -> Z -> stE W error Z;
  rt_now : W -> Z * W
}.

Section cleaner.
Context {W : Type} {RS : TaskHistoryRetentionStore W}.

(** One round of the loop. *)
Definition clean_round (c : RetentionCleaner) : stE W error Z := fun w =>
  let '(now, w1) := rt_now w in rt_DeleteTaskHistoryBefore (now - rc_retention c)%Z (rc_batchSize c) w1.

(** [clean]: [None] only when the fuel runs out. *)
Fixpoint clean (fuel : nat) (c : RetentionCleaner) (w : W) : option (res unit * W) :=
  match fuel with
  | O => None
  | S fuel =>
      match clean_round c w with
      | (Err e, w') => Some (Err e, w')
      | (Ok deleted, w') => if (deleted <? rc_batchSize c)%Z then Some (Ok tt, w') else clean fuel c w'
      end
  end.
End cleaner.

(** ** Termination *)

Section on_repository.
Context {Event : Type} {EF : EventFactory Event} {SQL : SqlText} {E : Env}.
Implicit Types w : World Event.

#[export] Instance repository_retention : TaskHistoryRetentionStore (World Event) := {|
  rt_DeleteTaskHistoryBefore := Queries.DeleteTaskHistoryBefore;
  rt_now := fun w => (env_now (w_tick w), mkWorld (w_db w) (S (w_tick w)))
|}.

Lemma size_foldr_delete {R} (t : gmap string R) ids :
  NoDup ids -> (forall id, id ∈ ids -> is_Some (t !! id)) -> size (foldr delete t ids) + List.length ids = size t.
Proof.
  induction ids as [|id ids IH]; intros Hnd Hin; simpl; [lia|].
  apply NoDup_cons in Hnd as [Hid Hnd].
  assert (IH' : size (foldr delete t ids) + List.length ids = size t) by (apply IH; [done|intros; apply Hin; by right]).
  assert (His : is_Some (foldr delete t ids !! id)).
  { destruct (Hin id ltac:(by left)) as [r Hr]. exists r. clear -Hr Hid. induction ids as [|i ids IH]; [done|].
    apply not_elem_of_cons in Hid as [? ?]. simpl. rewrite lookup_delete_ne by congruence. by apply IH. }
  destruct His as [r Hr]. pose proof (map_size_delete_Some _ _ (ex_intro _ r Hr)).
  assert (size (foldr delete t ids) <> 0). { intros Hz. apply map_size_empty_inv in Hz. by rewrite Hz in Hr. }
  lia.
Qed.

(** One round is a call of the repository; a full batch shrinks the history by the
    batch size. *)
Lemma clean_round_shrinks c w : started w -> (1 <= rc_batchSize c)%Z ->
  started (clean_round c w).2 /\
  match clean_round c w with
  | (Ok n, w') => exists before ids, step_purge before ids (w_db w) (w_db w') /\
      (Z.of_nat (size (db_history (w_db w'))) = Z.of_nat (size (db_history (w_db w))) - n)%Z /\
      ((n < rc_batchSize c)%Z -> forall id h, db_history (w_db w') !! id = Some h -> ~ expired before (w_db w') h)
  | (Err e, w') => fault_error e
  end.
Proof.
  intros Hs Hb. unfold clean_round. simpl. set (w1 := mkWorld (w_db w) (S (w_tick w))).
  assert (Hs1 : started w1) by (apply (started_more w); [done|apply rtc_once, rs_tick]).
  set (before := (env_now (w_tick w) - rc_retention c)%Z).
  pose proof (retention_batch before (rc_batchSize c) w1 Hs1 Hb) as Hbatch. split.
  - destruct (DeleteTaskHistoryBefore before (rc_batchSize c) w1) as [r w'] eqn:Hrun.
    by eapply (started_call (CallDeleteTaskHistoryBefore before (rc_batchSize c))).
  - destruct (DeleteTaskHistoryBefore before (rc_batchSize c) w1) as [[n|e] w']; [|by destruct Hbatch].
    destruct Hbatch as (ids & Hp & Hnd & Hn & _ & Hnone). exists before, ids. split; [done|]. split; [|done].
    destruct Hp as [Hin ->]. simpl.
    assert (Hsz : size (foldr delete (db_history (w_db w)) ids) + List.length ids = size (db_history (w_db w))).
    { apply size_foldr_delete; [done|]. intros id Hid. destruct (Hin id Hid) as (h & Hh & _). by exists h. }
    lia.
Qed.

Lemma clean_result fuel c w : started w -> (1 <= rc_batchSize c)%Z -> size (db_history (w_db w)) < fuel ->
  exists r w', clean fuel c w = Some (r, w') /\ started w' /\
    match r with
    | Ok _ => exists before, forall id h, db_history (w_db w') !! id = Some h -> ~ expired before (w_db w') h
    | Err e => fault_error e
    end.
Proof.
  revert w. induction fuel as [|fuel IH]; intros w Hs Hb Hf; [lia|]. cbn [clean].
  destruct (clean_round_shrinks c w Hs Hb) as [Hs' Hround].
  destruct (clean_round c w) as [[n|e] w']; simpl in *; [|by exists (Err e), w'].
  destruct Hround as (before & ids & _ & Hsz & Hnone).
  destruct (Z.ltb_spec n (rc_batchSize c)) as [Hlt|Hge].
  - exists (Ok tt), w'. split; [done|]. split; [done|]. exists before. by apply Hnone.
  - apply IH; [done..|lia].
Qed.
End on_repository.

(** ** Property *)

(** Cleaning always ends: with whatever configuration, on the tables any calls
    left behind, [clean] stops after at most one round more than there are history
    rows; when it returns no error, no history is left that expired before the last
    cutoff, and otherwise the error is that of a failing call. *)
Theorem clean_terminates {Event} {EF : EventFactory Event} {SQL : SqlText} {E : Env} cfg (w : World Event) :
  started w ->
  exists r w', clean (S (size (db_history (w_db w)))) (newRetentionCleaner cfg) w = Some (r, w') /\ started w' /\
    match r with
    | Ok _ => exists before, forall id h, db_history (w_db w') !! id = Some h -> ~ expired before (w_db w') h
    | Err e => fault_error e
    end.
Proof.
  intros Hs. apply clean_result; [done| |lia]. simpl. destruct (Z.leb_spec (CleanupBatchSize cfg) 0); lia.
Qed.

Module Witness.
Import Sample.

Lemma clean_terminates_witness :
  exists r w', clean 2 (newRetentionCleaner (mkRetentionConfig 1 0 0 true)) w2 = Some (r, w').
Proof.
  destruct (clean_terminates (mkRetentionConfig 1 0 0 true) w2 started_w2) as (r & w' & Hr & _).
  exists r, w'. exact Hr.
Defined.
End Witness.
