(* ===== verification/Background.v ===== *)
(** * Background work (the start and stop methods of internal/workflow/cleanup.go and
      internal/app/workflow_eventbus.go)

    Both runtimes start goroutines that repeat a round until their context is cancelled,
    and stop by cancelling it and waiting for them.  The goroutines, the caller of [stop]
    and the rest of the process take steps in any order; a step is one call of a
    goroutine, or one transition of its loop. *)
From S2P Require Import Prelude GoStd Model Config Cleanup.
From Stdlib Require Import Ascii String.
From stdpp Require Import relations.
Local Open Scope string_scope.
Local Open Scope list_scope.

(** A loop over a ticker, or one call that lasts until its context ends. *)
Inductive kind : Type := Periodic | Consumer.

(** Inside a round, in the [select] after it, or returned ([wg.Done]). *)
Inductive phase : Type := Working | Selecting | Exited.

(** The call of [stop]: not made, in [wg.Wait], or returned. *)
Inductive stopping : Type := NotCalled | Waiting | Returned.

#[global] Instance phase_eq_dec : EqDecision phase.
Proof. solve_decision. Defined.

(** [cancel] is nil unless [start] started goroutines. *)
Record runtime : Type := mkRuntime {
  bg_started : bool; bg_cancelled : bool; bg_workers : list (kind * phase); bg_stop : stopping
}.

(** [RetentionCleaner.start] *)
Definition cleaner_start (c : RetentionCleaner) : runtime :=
  if negb (rc_enabled c) then mkRuntime false false [] NotCalled
  else mkRuntime true false [(Periodic, Working)] NotCalled.

(** [workflowEventRuntime.start]: the dispatcher, the cleaner of the outbox and, with
    Temporal, the consumer - if its handler can be built; if not, [start] cancels and
    waits itself before it returns the error. *)
Definition events_start (cfg : config.Config) (handler : res unit) : runtime :=
  if negb (config.eb_Enabled (config.c_EventBus cfg)) then mkRuntime false false [] NotCalled
  else if config.tmp_Enabled (config.c_Temporal cfg) then
    match handler with
    | Err _ => mkRuntime true true [(Periodic, Working); (Periodic, Working)] Waiting
    | Ok _ => mkRuntime true false [(Periodic, Working); (Periodic, Working); (Consumer, Working)] NotCalled
    end
  else mkRuntime true false [(Periodic, Working); (Periodic, Working)] NotCalled.

(** [stop]: [cancel] and [wg.Wait], or nothing. *)
Definition stop (r : runtime) : runtime :=
  if bg_started r then mkRuntime (bg_started r) true (bg_workers r) Waiting
  else mkRuntime (bg_started r) (bg_cancelled r) (bg_workers r) Returned.

Definition set_worker (i : nat) (p : phase) (r : runtime) : runtime :=
  match bg_workers r !! i with
  | Some (k, _) => mkRuntime (bg_started r) (bg_cancelled r) (<[i := (k, p)]> (bg_workers r)) (bg_stop r)
  | None => r
  end.

(** Who takes a step that can change the world. *)
Inductive actor : Type := Worker (i : nat) | Other | Nobody.

Section steps.
Context {W : Type} (work : nat -> W -> W -> Prop) (other : W -> W -> Prop).

Inductive step : actor -> runtime * W -> runtime * W -> Prop :=
| works i k r w w' : bg_workers r !! i = Some (k, Working) -> work i w w' -> step (Worker i) (r, w) (r, w')
| others r w w' : other w w' -> step Other (r, w) (r, w')
(** A round ends; a ticker that fires starts the next one, even if the context has
    ended too: [select] takes either. *)
| round_ends i r w : bg_workers r !! i = Some (Periodic, Working) -> step Nobody (r, w) (set_worker i Selecting r, w)
| ticks i r w : bg_workers r !! i = Some (Periodic, Selecting) -> step Nobody (r, w) (set_worker i Working r, w)
| exits i r w : bg_workers r !! i = Some (Periodic, Selecting) -> bg_cancelled r = true ->
    step Nobody (r, w) (set_worker i Exited r, w)
(** [Consume] returns, because its context ended or the connection failed. *)
| consumer_exits i r w : bg_workers r !! i = Some (Consumer, Working) -> step Nobody (r, w) (set_worker i Exited r, w)
| stop_called r w : bg_stop r = NotCalled -> step Nobody (r, w) (stop r, w)
| stop_returns r w : bg_stop r = Waiting -> Forall (fun kp => kp.2 = Exited) (bg_workers r) ->
    step Nobody (r, w) (mkRuntime (bg_started r) (bg_cancelled r) (bg_workers r) Returned, w).

(** A history: who acted, in order. *)
Inductive history : runtime * W -> list actor -> runtime * W -> Prop :=
| h_nil s : history s [] s
| h_step s a s1 l s2 : step a s s1 -> history s1 l s2 -> history s (a :: l) s2.

Definition all_exited (r : runtime) : Prop := Forall (fun kp => kp.2 = Exited) (bg_workers r).

(** A returned [stop] leaves only exited goroutines; one that waits has cancelled. *)
Record well_formed (r : runtime) : Prop := {
  wf_returned : bg_stop r = Returned -> all_exited r;
  wf_waiting : bg_stop r = Waiting -> bg_cancelled r = true;
  wf_idle : bg_started r = false -> bg_workers r = []
}.

Lemma all_exited_at r i k p : all_exited r -> bg_workers r !! i = Some (k, p) -> p = Exited.
Proof. intros Ha Hi. by apply (Forall_lookup_1 _ _ _ _ Ha) in Hi. Qed.

Lemma set_worker_eq i k p p' r : bg_workers r !! i = Some (k, p) ->
  set_worker i p' r = mkRuntime (bg_started r) (bg_cancelled r) (<[i := (k, p')]> (bg_workers r)) (bg_stop r).
Proof. unfold set_worker. by intros ->. Qed.

Lemma set_worker_formed i k p p' r : bg_workers r !! i = Some (k, p) -> p <> Exited -> well_formed r ->
  well_formed (set_worker i p' r).
Proof.
  intros Hi Hp [Hr Hw Hs]. rewrite (set_worker_eq i k p p' r Hi). split; cbn.
  - intros H. destruct (Hp (all_exited_at r i k p (Hr H) Hi)).
  - done.
  - intros H. by rewrite (Hs H) in Hi.
Qed.

Lemma step_formed a r w r' w' : step a (r, w) (r', w') -> well_formed r -> well_formed r'.
Proof.
  intros Hs Hf. inversion Hs; subst; try done; try (by eapply set_worker_formed).
  - destruct Hf as [Hr Hw Hi]. unfold stop. destruct (bg_started r) eqn:Hst; split; cbn; try done.
    intros _. unfold all_exited. cbn. by rewrite (Hi eq_refl).
  - destruct Hf as [Hr Hw Hi]. by split.
Qed.

Lemma history_formed s l s' : history s l s' -> well_formed s.1 -> well_formed s'.1.
Proof. induction 1 as [|[r w] a [r1 w1] l s2 Hs _ IH]; [done|]. intros Hf. by eapply IH, step_formed. Qed.

(** Nothing moves once [stop] has returned, but the rest of the process. *)
Lemma step_quiet a r w r' w' : well_formed r -> bg_stop r = Returned -> step a (r, w) (r', w') ->
  r' = r /\ a = Other /\ other w w'.
Proof.
  intros [Hr _ _] Hret Hs. specialize (Hr Hret).
  inversion Hs; subst; try congruence; try done;
    match goal with H : bg_workers _ !! _ = Some _ |- _ => by apply (all_exited_at _ _ _ _ Hr) in H end.
Qed.

Lemma history_quiet s l s' : history s l s' -> well_formed s.1 -> bg_stop s.1 = Returned ->
  s'.1 = s.1 /\ Forall (fun a => a = Other) l /\ rtc other s.2 s'.2.
Proof.
  induction 1 as [[r w]|[r w] a [r1 w1] l s2 Hs _ IH]; intros Hf Hret; [by split_and!|]. cbn in *.
  destruct (step_quiet a r w r1 w1 Hf Hret Hs) as (-> & -> & Ho). destruct (IH Hf Hret) as (-> & Hl & Hr).
  split; [done|]. split; [by constructor|]. by eapply rtc_l.
Qed.

(** *** Progress *)

(** The transitions a goroutine still has to make before it has returned. *)
Definition remaining (kp : kind * phase) : nat :=
  match kp with (_, Exited) => 0 | (Periodic, Working) => 2 | _ => 1 end.
Definition work_left (r : runtime) : nat := sum_list_with remaining (bg_workers r).

Lemma sum_insert i k p p' l : l !! i = Some (k, p) ->
  sum_list_with remaining (<[i := (k, p')]> l) + remaining (k, p) = sum_list_with remaining l + remaining (k, p').
Proof.
  revert i. induction l as [|[k0 p0] l IH]; intros [|i] Hi; [done..| |].
  - injection Hi as -> ->. change (remaining (k, p') + sum_list_with remaining l + remaining (k, p)
      = remaining (k, p) + sum_list_with remaining l + remaining (k, p')). lia.
  - specialize (IH i Hi). change (remaining (k0, p0) + sum_list_with remaining (<[i := (k, p')]> l) + remaining (k, p)
      = remaining (k0, p0) + sum_list_with remaining l + remaining (k, p')). lia.
Qed.

Lemma work_left_set i k p p' r : bg_workers r !! i = Some (k, p) ->
  work_left (set_worker i p' r) + remaining (k, p) = work_left r + remaining (k, p').
Proof. intros Hi. rewrite (set_worker_eq i k p p' r Hi). by apply sum_insert. Qed.

Lemma no_work_left r : work_left r = 0 -> all_exited r.
Proof.
  unfold work_left, all_exited. induction (bg_workers r) as [|[k p] l IH]; [constructor|]. cbn [sum_list_with]. intros H.
  constructor; [by destruct k, p; cbn in H|]. apply IH. lia.
Qed.

(** Somebody who has not returned. *)
Lemma someone_left r : work_left r <> 0 -> exists i k p, bg_workers r !! i = Some (k, p) /\ p <> Exited.
Proof.
  unfold work_left. induction (bg_workers r) as [|[k p] l IH]; [done|]. cbn [sum_list_with]. intros H.
  destruct (decide (p = Exited)) as [->|Hp]; [|by exists 0, k, p].
  destruct IH as (i & k' & p' & Hi & Hp'); [destruct k; cbn in H; lia|]. by exists (S i), k', p'.
Qed.

(** Consumers never wait for a ticker. *)
Definition kinds_ok (r : runtime) : Prop := forall i, bg_workers r !! i <> Some (Consumer, Selecting).

Lemma set_worker_kinds i k p p' r : bg_workers r !! i = Some (k, p) -> (k, p') <> (Consumer, Selecting) -> kinds_ok r ->
  kinds_ok (set_worker i p' r).
Proof.
  intros Hi Hne Hk j. rewrite (set_worker_eq i k p p' r Hi). cbn. destruct (decide (j = i)) as [->|Hj].
  - rewrite list_lookup_insert_eq by (by eapply lookup_lt_Some). congruence.
  - rewrite list_lookup_insert_ne by done. apply Hk.
Qed.

Lemma one_closer r w : bg_stop r = Waiting -> bg_cancelled r = true -> kinds_ok r -> work_left r <> 0 ->
  exists r', step Nobody (r, w) (r', w) /\ work_left r = S (work_left r') /\
    bg_stop r' = Waiting /\ bg_cancelled r' = true /\ kinds_ok r'.
Proof.
  intros Hst Hc Hk (i & k & p & Hi & Hp)%someone_left.
  assert (Hgo : forall p', step Nobody (r, w) (set_worker i p' r, w) -> remaining (k, p) = S (remaining (k, p')) ->
    (k, p') <> (Consumer, Selecting) -> exists r', step Nobody (r, w) (r', w) /\ work_left r = S (work_left r') /\
      bg_stop r' = Waiting /\ bg_cancelled r' = true /\ kinds_ok r').
  { intros p' Hs Hm Hne. exists (set_worker i p' r). split; [done|]. pose proof (work_left_set i k p p' r Hi).
    split; [lia|]. split; [by rewrite (set_worker_eq i k p p' r Hi)|].
    split; [by rewrite (set_worker_eq i k p p' r Hi)|]. by eapply set_worker_kinds. }
  destruct k, p; try done.
  - apply (Hgo Selecting); [by apply round_ends|done|done].
  - apply (Hgo Exited); [by apply exits|done|done].
  - apply (Hgo Exited); [by apply consumer_exits|done|done].
  - by destruct (Hk i).
Qed.

(** A waiting [stop] can return: the rounds that run end, and the loops see the end of
    their context; nothing blocks. *)
Lemma can_stop n : forall r w, work_left r = n -> bg_stop r = Waiting -> bg_cancelled r = true -> kinds_ok r ->
  exists r', history (r, w) (replicate (S n) Nobody) (r', w) /\ bg_stop r' = Returned.
Proof.
  induction n as [|n IH]; intros r w Hn Hst Hc Hk.
  - eexists. split; [eapply h_step; [apply stop_returns; [done|by apply no_work_left]|apply h_nil]|done].
  - destruct (one_closer r w Hst Hc Hk ltac:(lia)) as (r1 & Hs & Hl & Hst1 & Hc1 & Hk1).
    destruct (IH r1 w ltac:(lia) Hst1 Hc1 Hk1) as (r' & Hh & Hr). exists r'. split; [|done]. by eapply h_step.
Qed.

Lemma history_kinds s l s' : history s l s' -> kinds_ok s.1 -> kinds_ok s'.1.
Proof.
  induction 1 as [|[r w] a [r1 w1] l s2 Hs _ IH]; [done|]. intros Hk. apply IH. cbn in *.
  inversion Hs; subst; try done; try (by eapply set_worker_kinds). unfold stop. by destruct (bg_started r).
Qed.

(** The goroutines are the ones that were started. *)
Lemma history_workers s l s' : history s l s' -> (bg_workers s'.1).*1 = (bg_workers s.1).*1.
Proof.
  induction 1 as [|[r w] a [r1 w1] l s2 Hs _ IH]; [done|]. rewrite IH. cbn.
  assert (Hset : forall i k p p', bg_workers r !! i = Some (k, p) -> (bg_workers (set_worker i p' r)).*1 = (bg_workers r).*1).
  { intros i k p p' Hi. rewrite (set_worker_eq i k p p' r Hi). cbn. rewrite list_fmap_insert. apply list_insert_id.
    by rewrite list_lookup_fmap, Hi. }
  inversion Hs; subst; try done; try (by eapply Hset). unfold stop. by destruct (bg_started r).
Qed.

Definition most (k : kind) : nat := match k with Periodic => 2 | Consumer => 1 end.
Lemma work_left_most r : work_left r <= sum_list_with most (bg_workers r).*1.
Proof.
  unfold work_left. induction (bg_workers r) as [|[k p] l IH]; [done|]. rewrite fmap_cons. cbn [sum_list_with fst].
  assert (remaining (k, p) <= most k) by (destruct k, p; cbn; lia). lia.
Qed.

(** The two runtimes after their start. *)
Inductive just_started : runtime -> Prop :=
| cleaner_started c : just_started (cleaner_start c)
| events_started cfg handler : just_started (events_start cfg handler).

Lemma started_formed r : just_started r ->
  well_formed r /\ kinds_ok r /\ sum_list_with most (bg_workers r).*1 <= 5.
Proof.
  intros [c|cfg handler]; unfold cleaner_start, events_start; repeat case_match;
    (split; [split; by cbn|]); (split; [|cbn; lia]); intros [|[|[|i]]]; done.
Qed.

(** C38. Stopping ends the background work.  However the goroutines of a runtime, the
    call of [stop] and the rest of the process interleave: once [stop] has returned,
    every goroutine has, none of them ever acts again, and whatever changes after that
    is done by others.  And [stop] does return: from every state in which it waits (as
    [start] does itself when the consumer cannot be built) there is a continuation of
    at most six transitions, in which no new round starts, after which it has. *)
Theorem stop_quiets r0 w0 l r w : just_started r0 -> history (r0, w0) l (r, w) ->
  (bg_stop r = Returned -> all_exited r /\
     forall l' r' w', history (r, w) l' (r', w') -> r' = r /\ Forall (fun a => a = Other) l' /\ rtc other w w') /\
  (bg_stop r = Waiting -> exists n r', n <= 6 /\ history (r, w) (replicate n Nobody) (r', w) /\ bg_stop r' = Returned).
Proof.
  intros H0 Hh. destruct (started_formed r0 H0) as (Hf & Hk & Hn).
  pose proof (history_formed _ _ _ Hh Hf) as Hf'. pose proof (history_kinds _ _ _ Hh Hk) as Hk'. cbn in Hf', Hk'. split.
  - intros Hr. split; [by apply Hf'|]. intros l' r' w' Hh'. by apply (history_quiet _ _ _ Hh' Hf' Hr).
  - intros Hw. destruct (can_stop (work_left r) r w eq_refl Hw (wf_waiting _ Hf' Hw) Hk') as (r' & Hr & Hret).
    exists (S (work_left r)), r'. split; [|done]. pose proof (work_left_most r) as Hl.
    pose proof (history_workers _ _ _ Hh) as Hsame. cbn [fst] in Hsame. rewrite Hsame in Hl. lia.
Qed.
End steps.

(** A cleaner that is stopped in the middle of a round, and whose ticker fires once more. *)
Module Stopped.
Definition cleaner : RetentionCleaner := newRetentionCleaner (mkRetentionConfig 0 0 0 true).
Definition deletes (_ : nat) (w w' : nat) : Prop := w' = pred w.
Definition grows (w w' : nat) : Prop := w' = S w.
Definition at_phase (c : bool) (p : phase) (s : stopping) : runtime := mkRuntime true c [(Periodic, p)] s.

Lemma late_tick : history deletes grows (cleaner_start cleaner, 5)
  [Worker 0; Nobody; Nobody; Nobody; Worker 0; Nobody; Nobody; Nobody] (at_phase true Exited Returned, 3).
Proof.
  apply (h_step _ _ _ _ (at_phase false Working NotCalled, 4)); [by eapply works|].
  apply (h_step _ _ _ _ (at_phase true Working Waiting, 4)); [by apply stop_called|].
  apply (h_step _ _ _ _ (at_phase true Selecting Waiting, 4)); [by apply (round_ends _ _ 0)|].
  apply (h_step _ _ _ _ (at_phase true Working Waiting, 4)); [by apply (ticks _ _ 0)|].
  apply (h_step _ _ _ _ (at_phase true Working Waiting, 3)); [by eapply works|].
  apply (h_step _ _ _ _ (at_phase true Selecting Waiting, 3)); [by apply (round_ends _ _ 0)|].
  apply (h_step _ _ _ _ (at_phase true Exited Waiting, 3)); [by apply (exits _ _ 0)|].
  apply (h_step _ _ _ _ (at_phase true Exited Returned, 3)); [apply stop_returns; repeat constructor|]. apply h_nil.
Qed.

Lemma stop_quiets_witness : all_exited (at_phase true Exited Returned) /\
  exists n r', n <= 6 /\ history deletes grows (at_phase true Working Waiting, 4) (replicate n Nobody) (r', 4) /\ bg_stop r' = Returned.
Proof.
  split.
  - exact (proj1 (proj1 (stop_quiets deletes grows _ 5 _ _ 3 (cleaner_started cleaner) late_tick) eq_refl)).
  - assert (Hh : history deletes grows (cleaner_start cleaner, 5) [Worker 0; Nobody] (at_phase true Working Waiting, 4)).
    { apply (h_step _ _ _ _ (at_phase false Working NotCalled, 4)); [by eapply works|].
      apply (h_step _ _ _ _ (at_phase true Working Waiting, 4)); [by apply stop_called|apply h_nil]. }
    exact (proj2 (stop_quiets deletes grows _ 5 _ _ 4 (cleaner_started cleaner) Hh) eq_refl).
Defined.
End Stopped.
