(* ===== verification/GrpcServer.v ===== *)
(** * The gRPC server of the workflow (internal/transport/grpc/workflow_server.go)

    Every method of the service: the request's fields into the service's arguments,
    the result into the response message, and the error into a status.  The node and
    edge conversions are those of [Commands] and [Events], which the source has
    twice. *)
From S2P Require Import Prelude GoStd Json Model GraphCodec Graph World.
From S2P Require Import Repository Service ServiceSpec Execute Events Commands.
From Stdlib Require Import Ascii String.
Local Open Scope string_scope.
Local Open Scope list_scope.

(** ** Statuses *)

(** [codes.Code] *)
Inductive Code : Type :=
| Canceled | Unknown | InvalidArgument | DeadlineExceeded | NotFound | PermissionDenied
| FailedPrecondition | Aborted | Internal | Unavailable | Unauthenticated.
#[global] Instance Code_eq_dec : EqDecision Code.
Proof. solve_decision. Defined.

Record Status : Type := mkStatus { st_code : Code; st_message : string }.

(** [status.FromContextError]: the code of a context error, whatever its text. *)
Class GrpcStatus := {
  FromContextError : error -> Status;
  FromContextError_code : forall e,
    (errors_Is_foreign e ContextDeadline = true -> st_code (FromContextError e) = DeadlineExceeded) /\
    (errors_Is_foreign e ContextDeadline = false -> errors_Is_foreign e ContextCanceled = true ->
       st_code (FromContextError e) = Canceled)
}.

Definition grpcError `{GrpcStatus} (err : error) : Status :=
  if errors_Is_foreign err ContextCanceled || errors_Is_foreign err ContextDeadline then FromContextError err
  else if errors_Is err ErrInvalid then mkStatus InvalidArgument "invalid workflow request"
  else if errors_Is err ErrActorRequired then mkStatus Unauthenticated "authentication required"
  else if errors_Is err ErrNotFound then mkStatus NotFound "workflow resource not found"
  else if errors_Is err ErrForbidden then mkStatus PermissionDenied "workflow operation is forbidden"
  else if errors_Is err ErrVersionConflict then mkStatus Aborted "workflow resource version conflict"
  else if errors_Is err ErrConflict then mkStatus FailedPrecondition "workflow resource state conflict"
  else if errors_Is_foreign err AppUnavailable then mkStatus Unavailable "application authorization is unavailable"
  else mkStatus Internal "internal server error".

(** ** Messages *)

(** [commonv1.PageRequest] and [PageResult] *)
Record PageRequest : Type := mkPageRequest { pq_Page : Z; pq_PageSize : Z }.
Record PageResult : Type := mkPageResult { pr_Total : Z; pr_Page : Z; pr_PageSize : Z }.

Definition pageFromProto (value : option PageRequest) : Z * Z :=
  match value with None => (1, 20)%Z | Some p => (pq_Page p, pq_PageSize p) end.
(** [uint64(total)], [uint32(page)], [uint32(size)] *)
Definition pageToProto (total page size : Z) : PageResult :=
  mkPageResult (total mod 2 ^ 64) (page mod 2 ^ 32) (size mod 2 ^ 32).

(** [timestamppb.Timestamp.AsTime] and [timestamppb.New] keep the instant. *)
Definition timeFromProto (value : option Z) : option Z := value.
Definition grpcTimestamp (value : option Z) : option Z := value.

Definition definitionToProto (value : WDefinition) : PbDefinition :=
  mkPbDefinition (def_ID value) (def_TenantID value) (def_ApplicationID value) (def_Key value)
    (def_Name value) (def_Description value) (definitionStatus (def_Status value))
    (def_PublishedRevision value) ((fun n => Some (node_message n)) <$> def_Nodes value)
    ((fun e => Some (edge_message e)) <$> def_Edges value) (def_Version value)
    (Some (def_CreatedAt value)) (Some (def_UpdatedAt value)) (def_CreatedBy value) (def_UpdatedBy value).

Definition instanceToProto (value : WInstance) : PbInstance :=
  mkPbInstance (inst_ID value) (inst_TenantID value) (inst_ApplicationID value) (inst_DefinitionID value)
    (inst_DefinitionRevision value) (inst_BusinessKey value) (inst_Title value) (inst_StarterID value)
    (instanceStatus (inst_Status value)) (inst_CurrentNodeID value) (inst_VariablesJSON value)
    (inst_ResultJSON value) (inst_ErrorCode value) (inst_ErrorMessage value) (Some (inst_StartedAt value))
    (grpcTimestamp (inst_FinishedAt value)) (inst_Version value) (Some (inst_CreatedAt value))
    (Some (inst_UpdatedAt value)) (inst_CreatedBy value) (inst_UpdatedBy value).

Definition taskToProto (value : Task) : PbTask :=
  mkPbTask (task_ID value) (task_TenantID value) (task_ApplicationID value) (task_InstanceID value)
    (task_NodeID value) (task_Name value) (assigneeType (task_AssigneeType value)) (task_Assignee value)
    (task_ClaimedBy value) (taskStatus (task_Status value)) (taskDecision (task_Decision value))
    (task_Comment value) (task_InputJSON value) (task_OutputJSON value) (grpcTimestamp (task_DueAt value))
    (grpcTimestamp (task_CompletedAt value)) (task_Version value) (Some (task_CreatedAt value))
    (Some (task_UpdatedAt value)) (task_CreatedBy value) (task_UpdatedBy value).

Record PbTaskHistory : Type := mkPbTaskHistory {
  pbh_Id : string; pbh_TenantId : string; pbh_ApplicationId : string; pbh_TaskId : string;
  pbh_InstanceId : string; pbh_Action : string; pbh_ActorId : string; pbh_FromStatus : string;
  pbh_ToStatus : string; pbh_DetailJson : string; pbh_Version : Z; pbh_CreatedAt : option Z;
  pbh_UpdatedAt : option Z; pbh_CreatedBy : string; pbh_UpdatedBy : string
}.

Definition taskHistoryToProto (value : TaskHistory) : PbTaskHistory :=
  mkPbTaskHistory (hist_ID value) (hist_TenantID value) (hist_ApplicationID value) (hist_TaskID value)
    (hist_InstanceID value) (hist_Action value) (hist_ActorID value) (hist_FromStatus value)
    (hist_ToStatus value) (hist_DetailJSON value) (hist_Version value) (Some (hist_CreatedAt value))
    (Some (hist_UpdatedAt value)) (hist_CreatedBy value) (hist_UpdatedBy value).

Definition definitionStatusFromProto (value : PbDefinitionStatus) : string :=
  match value with
  | DEFINITION_STATUS_DRAFT => DefinitionDraft | DEFINITION_STATUS_PUBLISHED => DefinitionPublished
  | DEFINITION_STATUS_DISABLED => DefinitionDisabled | DEFINITION_STATUS_UNSPECIFIED => ""
  end.

Definition instanceStatusFromProto (value : PbInstanceStatus) : string :=
  match value with
  | INSTANCE_STATUS_RUNNING => InstanceRunning | INSTANCE_STATUS_COMPLETED => InstanceCompleted
  | INSTANCE_STATUS_REJECTED => InstanceRejected | INSTANCE_STATUS_CANCELLED => InstanceCancelled
  | INSTANCE_STATUS_FAILED => InstanceFailed | INSTANCE_STATUS_UNSPECIFIED => ""
  end.

Definition taskStatusFromProto (value : PbTaskStatus) : string :=
  match value with
  | TASK_STATUS_PENDING => TaskPending | TASK_STATUS_CLAIMED => TaskClaimed
  | TASK_STATUS_APPROVED => TaskApproved | TASK_STATUS_REJECTED => TaskRejected
  | TASK_STATUS_CANCELLED => TaskCancelled | TASK_STATUS_EXPIRED => TaskExpired
  | TASK_STATUS_UNSPECIFIED => ""
  end.

(** ** Requests: the fields the getters read *)

Inductive GrpcRequest : Type :=
| GCreateDefinition (tenant_id application_id key name description : string)
    (nodes : list (option PbNode)) (edges : list (option PbEdge))
| GUpdateDefinition (id tenant_id application_id name description : string)
    (nodes : list (option PbNode)) (edges : list (option PbEdge)) (expected_version : Z)
| GPublishDefinition (tenant_id application_id id : string) (expected_version : Z)
| GDisableDefinition (tenant_id application_id id : string) (expected_version : Z)
| GGetDefinition (tenant_id application_id id : string) (revision : Z)
| GListDefinitions (tenant_id application_id : string) (status : PbDefinitionStatus) (search : string)
    (page : option PageRequest)
| GStartInstance (tenant_id application_id definition_key business_key title variables_json
    idempotency_key : string)
| GCancelInstance (tenant_id application_id id reason : string) (expected_version : Z)
| GGetInstance (tenant_id application_id id : string)
| GListInstances (tenant_id application_id definition_id : string) (status : PbInstanceStatus)
    (starter_id search : string) (started_from started_until : option Z) (page : option PageRequest)
| GClaimTask (tenant_id application_id id : string) (expected_version : Z)
| GCompleteTask (tenant_id application_id id : string) (decision : PbTaskDecision)
    (comment output_json : string) (expected_version : Z)
| GDelegateTask (tenant_id application_id id delegate_to reason : string) (expected_version : Z)
| GGetTask (tenant_id application_id id : string)
| GListTasks (tenant_id application_id instance_id : string) (status : PbTaskStatus) (search : string)
    (page : option PageRequest)
| GListTaskHistory (tenant_id application_id task_id : string) (page : option PageRequest)
| GListInstanceTaskHistory (tenant_id application_id instance_id : string) (page : option PageRequest).

Inductive GrpcResponse : Type :=
| RDefinition (definition : PbDefinition)
| RDefinitions (definitions : list PbDefinition) (page : PageResult)
| RInstance (instance : PbInstance)
| RInstances (instances : list PbInstance) (page : PageResult)
| RTask (task : PbTask)
| RCompleted (task : PbTask) (instance : PbInstance)
| RTasks (tasks : list PbTask) (page : PageResult)
| RTaskHistory (items : list PbTaskHistory) (page : PageResult).

(** ** The methods *)

Section server.
Context {W : Type} {ST : Store W} {AR : AssignmentResolver W} {SE : ServiceEnv W} {MR : MapRange}
  {GS : GrpcStatus}.

(** [if err != nil { return nil, grpcError(err) }], else the response. *)
Definition grpc {A} (response : A -> GrpcResponse) (m : stE W error A) : stE W Status GrpcResponse := fun w =>
  match m w with
  | (Ok a, w') => (Ok (response a), w')
  | (Err e, w') => (Err (grpcError e), w')
  end.

Definition paged {T} (values : Page T) : PageResult :=
  pageToProto (page_Total values) (page_Page values) (page_PageSize values).

Definition rpc_CreateDefinition ctx tenant_id application_id key name description nodes edges :=
  grpc (fun value => RDefinition (definitionToProto value))
    (Service.CreateDefinition ctx (mkCreateDefinitionInput tenant_id application_id key name description
       (nodesFromProto nodes) (edgesFromProto edges))).

Definition rpc_UpdateDefinition ctx id tenant_id application_id name description nodes edges expected_version :=
  grpc (fun value => RDefinition (definitionToProto value))
    (Service.UpdateDefinition ctx (mkUpdateDefinitionInput id tenant_id application_id name description
       (nodesFromProto nodes) (edgesFromProto edges) expected_version)).

Definition rpc_PublishDefinition ctx tenant_id application_id id expected_version :=
  grpc (fun value => RDefinition (definitionToProto value))
    (Service.PublishDefinition ctx tenant_id application_id id expected_version).

Definition rpc_DisableDefinition ctx tenant_id application_id id expected_version :=
  grpc (fun value => RDefinition (definitionToProto value))
    (Service.DisableDefinition ctx tenant_id application_id id expected_version).

Definition rpc_GetDefinition ctx tenant_id application_id id revision :=
  grpc (fun value => RDefinition (definitionToProto value))
    (Service.GetDefinition ctx tenant_id application_id id revision).

Definition rpc_ListDefinitions ctx tenant_id application_id status search page :=
  let '(page, size) := pageFromProto page in
  grpc (fun values => RDefinitions (definitionToProto <$> page_Items values) (paged values))
    (Service.ListDefinitions ctx
       (mkDefinitionFilter tenant_id application_id (definitionStatusFromProto status) search page size)).

Definition rpc_StartInstance ctx tenant_id application_id definition_key business_key title variables_json
    idempotency_key :=
  grpc (fun value => RInstance (instanceToProto value))
    (Service.StartInstance ctx (mkStartInstanceInput tenant_id application_id definition_key business_key title
       variables_json idempotency_key)).

Definition rpc_CancelInstance ctx tenant_id application_id id reason expected_version :=
  grpc (fun value => RInstance (instanceToProto value))
    (Service.CancelInstance ctx tenant_id application_id id reason expected_version).

Definition rpc_GetInstance ctx tenant_id application_id id :=
  grpc (fun value => RInstance (instanceToProto value)) (Service.GetInstance ctx tenant_id application_id id).

Definition rpc_ListInstances ctx tenant_id application_id definition_id status starter_id search
    started_from started_until page :=
  let '(page, size) := pageFromProto page in
  grpc (fun values => RInstances (instanceToProto <$> page_Items values) (paged values))
    (Service.ListInstances ctx
       (mkInstanceFilter tenant_id application_id definition_id (instanceStatusFromProto status) starter_id
          search (timeFromProto started_from) (timeFromProto started_until) page size)).

Definition rpc_ClaimTask ctx tenant_id application_id id expected_version :=
  grpc (fun value => RTask (taskToProto value))
    (Service.ClaimTask ctx tenant_id application_id id expected_version).

Definition rpc_CompleteTask ctx tenant_id application_id id decision comment output_json expected_version :=
  grpc (fun '(task, instance) => RCompleted (taskToProto task) (instanceToProto instance))
    (Service.CompleteTask ctx tenant_id application_id id (decisionFromProto decision) comment output_json
       expected_version).

Definition rpc_DelegateTask ctx tenant_id application_id id delegate_to reason expected_version :=
  grpc (fun value => RTask (taskToProto value))
    (Service.DelegateTask ctx tenant_id application_id id delegate_to reason expected_version).

Definition rpc_GetTask ctx tenant_id application_id id :=
  grpc (fun value => RTask (taskToProto value)) (Service.GetTask ctx tenant_id application_id id).

Definition rpc_ListTasks ctx tenant_id application_id instance_id status search page :=
  let '(page, size) := pageFromProto page in
  grpc (fun values => RTasks (taskToProto <$> page_Items values) (paged values))
    (Service.ListMyTasks ctx
       (mkTaskFilter tenant_id application_id instance_id (taskStatusFromProto status) "" search [] false
          page size)).

Definition rpc_ListTaskHistory ctx tenant_id application_id task_id page :=
  let '(page, size) := pageFromProto page in
  grpc (fun values => RTaskHistory (taskHistoryToProto <$> page_Items values) (paged values))
    (Service.ListTaskHistory ctx (mkTaskHistoryFilter tenant_id application_id task_id "" page size)).

Definition rpc_ListInstanceTaskHistory ctx tenant_id application_id instance_id page :=
  let '(page, size) := pageFromProto page in
  grpc (fun values => RTaskHistory (taskHistoryToProto <$> page_Items values) (paged values))
    (Service.ListTaskHistory ctx (mkTaskHistoryFilter tenant_id application_id "" instance_id page size)).

(** The registered service. *)
Definition rpc (ctx : Ctx) (q : GrpcRequest) : stE W Status GrpcResponse :=
  match q with
  | GCreateDefinition t a k n d nodes edges => rpc_CreateDefinition ctx t a k n d nodes edges
  | GUpdateDefinition id t a n d nodes edges ev => rpc_UpdateDefinition ctx id t a n d nodes edges ev
  | GPublishDefinition t a id ev => rpc_PublishDefinition ctx t a id ev
  | GDisableDefinition t a id ev => rpc_DisableDefinition ctx t a id ev
  | GGetDefinition t a id r => rpc_GetDefinition ctx t a id r
  | GListDefinitions t a s search p => rpc_ListDefinitions ctx t a s search p
  | GStartInstance t a k b title v i => rpc_StartInstance ctx t a k b title v i
  | GCancelInstance t a id reason ev => rpc_CancelInstance ctx t a id reason ev
  | GGetInstance t a id => rpc_GetInstance ctx t a id
  | GListInstances t a d s starter search from until p =>
      rpc_ListInstances ctx t a d s starter search from until p
  | GClaimTask t a id ev => rpc_ClaimTask ctx t a id ev
  | GCompleteTask t a id d c o ev => rpc_CompleteTask ctx t a id d c o ev
  | GDelegateTask t a id to reason ev => rpc_DelegateTask ctx t a id to reason ev
  | GGetTask t a id => rpc_GetTask ctx t a id
  | GListTasks t a i s search p => rpc_ListTasks ctx t a i s search p
  | GListTaskHistory t a id p => rpc_ListTaskHistory ctx t a id p
  | GListInstanceTaskHistory t a id p => rpc_ListInstanceTaskHistory ctx t a id p
  end.
End server.

(** ** Properties *)

(** The service request behind a call. *)
Definition service_request (q : GrpcRequest) : request :=
  match q with
  | GCreateDefinition t a k n d nodes edges =>
      RqCreateDefinition (mkCreateDefinitionInput t a k n d (nodesFromProto nodes) (edgesFromProto edges))
  | GUpdateDefinition id t a n d nodes edges ev =>
      RqUpdateDefinition (mkUpdateDefinitionInput id t a n d (nodesFromProto nodes) (edgesFromProto edges) ev)
  | GPublishDefinition t a id ev => RqPublishDefinition t a id ev
  | GDisableDefinition t a id ev => RqDisableDefinition t a id ev
  | GGetDefinition t a id r => RqGetDefinition t a id r
  | GListDefinitions t a s search p => RqListDefinitions
      (mkDefinitionFilter t a (definitionStatusFromProto s) search (pageFromProto p).1 (pageFromProto p).2)
  | GStartInstance t a k b title v i => RqStartInstance (mkStartInstanceInput t a k b title v i)
  | GCancelInstance t a id reason ev => RqCancelInstance t a id reason ev
  | GGetInstance t a id => RqGetInstance t a id
  | GListInstances t a d s starter search from until p => RqListInstances
      (mkInstanceFilter t a d (instanceStatusFromProto s) starter search (timeFromProto from)
         (timeFromProto until) (pageFromProto p).1 (pageFromProto p).2)
  | GClaimTask t a id ev => RqClaimTask t a id ev
  | GCompleteTask t a id d c o ev => RqCompleteTask t a id (decisionFromProto d) c o ev
  | GDelegateTask t a id to reason ev => RqDelegateTask t a id to reason ev
  | GGetTask t a id => RqGetTask t a id
  | GListTasks t a i s search p => RqListMyTasks
      (mkTaskFilter t a i (taskStatusFromProto s) "" search [] false (pageFromProto p).1 (pageFromProto p).2)
  | GListTaskHistory t a id p => RqListTaskHistory
      (mkTaskHistoryFilter t a id "" (pageFromProto p).1 (pageFromProto p).2)
  | GListInstanceTaskHistory t a id p => RqListTaskHistory
      (mkTaskHistoryFilter t a "" id (pageFromProto p).1 (pageFromProto p).2)
  end.

Section properties.
Context {W : Type} {ST : Store W} {AR : AssignmentResolver W} {SE : ServiceEnv W} {MR : MapRange}
  {GS : GrpcStatus}.

(** What the server answers, given what the service answers. *)
Definition answers (service : res unit * W) (server : result Status GrpcResponse * W) : Prop :=
  server.2 = service.2 /\
  match service.1, server.1 with
  | Ok _, Ok _ => True
  | Err e, Err s => s = grpcError e
  | _, _ => False
  end.

Lemma grpc_answers {A} (response : A -> GrpcResponse) (m : stE W error A) w :
  answers (answered m w) (grpc response m w).
Proof. unfold answers, answered, grpc, mbind, stE_bind. by destruct (m w) as [[a|e] w']. Qed.

Lemma rpc_answers ctx q (w : W) : answers (serve ctx (service_request q) w) (rpc ctx q w).
Proof.
  destruct q; cbn [service_request serve rpc];
    unfold rpc_ListDefinitions, rpc_ListInstances, rpc_ListTasks, rpc_ListTaskHistory, rpc_ListInstanceTaskHistory;
    try (destruct (pageFromProto _) as [page0 size0]; cbn [fst snd]); apply grpc_answers.
Qed.

End properties.

(** The codes of the domain's errors. *)
Definition sentinel_code (s : sentinel) : Code :=
  match s with
  | ErrInvalid => InvalidArgument | ErrActorRequired => Unauthenticated | ErrNotFound => NotFound
  | ErrForbidden => PermissionDenied | ErrVersionConflict => Aborted | ErrConflict => FailedPrecondition
  end.

Definition context_error (e : error) : bool :=
  errors_Is_foreign e ContextCanceled || errors_Is_foreign e ContextDeadline.

(** The texts a status can have: none of them comes from the error. *)
Definition status_texts : list string := [
  "invalid workflow request"; "authentication required"; "workflow resource not found";
  "workflow operation is forbidden"; "workflow resource version conflict"; "workflow resource state conflict";
  "application authorization is unavailable"; "internal server error" ].

(** Statuses tell the domain's errors apart and leak nothing: an error of the
    domain, however wrapped, has its own code, different for different errors; a
    cancelled or expired context has its code; an unavailable authorization is
    unavailable and everything else internal; and apart from context errors the text
    is one of eight fixed ones, never the error's. *)
Theorem grpcError_codes `{GrpcStatus} (e : error) :
  (context_error e = true -> st_code (grpcError e) ∈ [Canceled; DeadlineExceeded]) /\
  (context_error e = false -> st_message (grpcError e) ∈ status_texts /\
     (forall s, errors_Is e s = true <-> st_code (grpcError e) = sentinel_code s) /\
     ((forall s, errors_Is e s = false) ->
        st_code (grpcError e) = if errors_Is_foreign e AppUnavailable then Unavailable else Internal)).
Proof.
  unfold context_error, grpcError. destruct (FromContextError_code e) as [Hd Hc].
  destruct (errors_Is_foreign e ContextCanceled) eqn:H1; simpl.
  { split; [|done]. intros _. destruct (errors_Is_foreign e ContextDeadline).
    - rewrite Hd by done. by right; left.
    - rewrite Hc by done. by left. }
  destruct (errors_Is_foreign e ContextDeadline) eqn:H2; simpl.
  { split; [|done]. intros _. rewrite Hd by done. by right; left. }
  split; [done|]. intros _. pose proof (errors_Is_unique e) as Hu.
  assert (Hin : forall t, List.In t status_texts -> t ∈ status_texts) by (intros t; apply list_elem_of_In).
  assert (Hone : forall s0, errors_Is e s0 = true -> forall s, errors_Is e s = true <-> sentinel_code s0 = sentinel_code s).
  { intros s0 Hs0 s. split; [intros Hs; by rewrite (Hu s s0 Hs Hs0)|].
    intros Heq. assert (s = s0) as -> by (by destruct s, s0). done. }
  repeat match goal with
  | |- context [if errors_Is e ?s then _ else _] =>
      let Hs := fresh "Hs" in destruct (errors_Is e s) eqn:Hs;
      [split; [apply Hin; simpl; tauto|]; split; [exact (Hone s Hs)|intros Hno; by rewrite Hno in Hs]|]
  end.
  assert (Hnone : forall s, errors_Is e s = true -> False) by (intros [] Hs'; congruence).
  destruct (errors_Is_foreign e AppUnavailable); (split; [apply Hin; simpl; tauto|]);
    (split; [|done]); intros s; (split; [intros Hs'; by apply Hnone in Hs'|by destruct s]).
Qed.
