(* ===== verification/HttpDto.v ===== *)
(** * The JSON bodies of the HTTP API (internal/transport/http/workflow_handler.go)

    The request and response structs, the fields gin requires of a request, and the
    conversions between them and the domain.  A [json.RawMessage] is its text, the
    empty one being [nil]; a slice of a request is an option, [None] for [nil]. *)
From S2P Require Import Prelude GoStd Json Model.
From Stdlib Require Import Ascii String.
Local Open Scope string_scope.
Local Open Scope list_scope.

(** [binding:"required"]: the validator gin runs after decoding refuses a zero
    value, and does not look inside the elements of a slice (no [dive]). *)
Class Binding (T : Type) := required : T -> bool.
Definition given (s : string) : bool := negb (str_empty s).
Definition nonzero (n : Z) : bool := negb (n =? 0)%Z.
Definition non_nil {A} (l : option (list A)) : bool := match l with Some _ => true | None => false end.

(** ** Structs *)

Record WorkflowNodeDTO : Type := mkWorkflowNodeDTO {
  nd_ID : string; nd_Name : string; nd_Type : string; nd_AssigneeType : string; nd_Assignee : string;
  nd_TimeoutSeconds : Z; nd_TargetService : string; nd_FullMethod : string;
  nd_RequestTemplateJSON : string; nd_CompensationMethod : string; nd_TimerSeconds : Z;
  nd_ConfigJSON : string
}.
Record WorkflowEdgeDTO : Type := mkWorkflowEdgeDTO {
  ed_FromNodeID : string; ed_ToNodeID : string; ed_ConditionExpression : string; ed_Priority : Z
}.
Record DefinitionDTO : Type := mkDefinitionDTO {
  dd_ID : string; dd_TenantID : string; dd_ApplicationID : string; dd_Key : string; dd_Name : string;
  dd_Description : string; dd_Status : string; dd_PublishedRevision : Z;
  dd_Nodes : list WorkflowNodeDTO; dd_Edges : list WorkflowEdgeDTO; dd_Version : Z; dd_CreatedAt : Z;
  dd_UpdatedAt : Z; dd_CreatedBy : string; dd_UpdatedBy : string
}.
Record InstanceDTO : Type := mkInstanceDTO {
  idto_ID : string; idto_TenantID : string; idto_ApplicationID : string; idto_DefinitionID : string;
  idto_DefinitionRevision : Z; idto_BusinessKey : string; idto_Title : string; idto_StarterID : string;
  idto_Status : string; idto_CurrentNodeID : string; idto_VariablesJSON : string;
  idto_ResultJSON : string; idto_ErrorCode : string; idto_ErrorMessage : string; idto_StartedAt : Z;
  idto_FinishedAt : option Z; idto_Version : Z; idto_CreatedAt : Z; idto_UpdatedAt : Z;
  idto_CreatedBy : string; idto_UpdatedBy : string
}.
Record TaskDTO : Type := mkTaskDTO {
  td_ID : string; td_TenantID : string; td_ApplicationID : string; td_InstanceID : string;
  td_NodeID : string; td_Name : string; td_AssigneeType : string; td_Assignee : string;
  td_ClaimedBy : string; td_Status : string; td_Decision : string; td_Comment : string;
  td_InputJSON : string; td_OutputJSON : string; td_DueAt : option Z; td_CompletedAt : option Z;
  td_Version : Z; td_CreatedAt : Z; td_UpdatedAt : Z; td_CreatedBy : string; td_UpdatedBy : string
}.
Record TaskHistoryDTO : Type := mkTaskHistoryDTO {
  thd_ID : string; thd_TenantID : string; thd_ApplicationID : string; thd_TaskID : string;
  thd_InstanceID : string; thd_Action : string; thd_ActorID : string; thd_FromStatus : string;
  thd_ToStatus : string; thd_DetailJSON : string; thd_Version : Z; thd_CreatedAt : Z;
  thd_UpdatedAt : Z; thd_CreatedBy : string; thd_UpdatedBy : string
}.
Record PageDTO (T : Type) : Type := mkPageDTO {
  pd_Items : list T; pd_Total : Z; pd_Page : Z; pd_PageSize : Z
}.
Arguments mkPageDTO {T} _ _ _ _.
Arguments pd_Items {T} _.
Arguments pd_Total {T} _.
Arguments pd_Page {T} _.
Arguments pd_PageSize {T} _.
Record DefinitionCandidateDTO : Type := mkDefinitionCandidateDTO {
  dcd_ID : string; dcd_Key : string; dcd_Name : string; dcd_Status : string; dcd_PublishedRevision : Z
}.
Record TaskInstanceCandidateDTO : Type := mkTaskInstanceCandidateDTO {
  ticd_ID : string; ticd_Title : string; ticd_BusinessKey : string; ticd_Status : string
}.
Record CompleteTaskResponseBody : Type := mkCompleteTaskResponseBody {
  ctb_Task : TaskDTO; ctb_Instance : InstanceDTO
}.
Record CreateDefinitionRequest : Type := mkCreateDefinitionRequest {
  qcd_TenantID : string; qcd_ApplicationID : string; qcd_Key : string; qcd_Name : string;
  qcd_Description : string; qcd_Nodes : option (list WorkflowNodeDTO);
  qcd_Edges : option (list WorkflowEdgeDTO)
}.
#[export] Instance CreateDefinitionRequest_binding : Binding CreateDefinitionRequest := fun r =>
  given (qcd_TenantID r) && given (qcd_ApplicationID r) && given (qcd_Key r) && given (qcd_Name r)
  && non_nil (qcd_Nodes r) && non_nil (qcd_Edges r).

Record UpdateDefinitionRequest : Type := mkUpdateDefinitionRequest {
  qud_ID : string; qud_TenantID : string; qud_ApplicationID : string; qud_Name : string;
  qud_Description : string; qud_Nodes : option (list WorkflowNodeDTO);
  qud_Edges : option (list WorkflowEdgeDTO); qud_ExpectedVersion : Z
}.
#[export] Instance UpdateDefinitionRequest_binding : Binding UpdateDefinitionRequest := fun r =>
  given (qud_ID r) && given (qud_TenantID r) && given (qud_ApplicationID r) && given (qud_Name r)
  && non_nil (qud_Nodes r) && non_nil (qud_Edges r) && nonzero (qud_ExpectedVersion r).

Record VersionedDefinitionRequest : Type := mkVersionedDefinitionRequest {
  qvd_ID : string; qvd_TenantID : string; qvd_ApplicationID : string; qvd_ExpectedVersion : Z
}.
#[export] Instance VersionedDefinitionRequest_binding : Binding VersionedDefinitionRequest := fun r =>
  given (qvd_ID r) && given (qvd_TenantID r) && given (qvd_ApplicationID r)
  && nonzero (qvd_ExpectedVersion r).

Record GetDefinitionRequest : Type := mkGetDefinitionRequest {
  qgd_ID : string; qgd_TenantID : string; qgd_ApplicationID : string; qgd_Revision : Z
}.
#[export] Instance GetDefinitionRequest_binding : Binding GetDefinitionRequest := fun r =>
  given (qgd_ID r) && given (qgd_TenantID r) && given (qgd_ApplicationID r).

Record ListDefinitionsRequest : Type := mkListDefinitionsRequest {
  qld_TenantID : string; qld_ApplicationID : string; qld_Status : string; qld_Search : string;
  qld_Page : Z; qld_PageSize : Z
}.
#[export] Instance ListDefinitionsRequest_binding : Binding ListDefinitionsRequest := fun r =>
  given (qld_TenantID r).

Record ListDefinitionCandidatesRequest : Type := mkListDefinitionCandidatesRequest {
  qldc_TenantID : string; qldc_ApplicationID : string; qldc_Search : string; qldc_Page : Z;
  qldc_PageSize : Z
}.
#[export] Instance ListDefinitionCandidatesRequest_binding : Binding ListDefinitionCandidatesRequest := fun r =>
  given (qldc_TenantID r) && given (qldc_ApplicationID r).

Record StartInstanceRequest : Type := mkStartInstanceRequest {
  qsi_TenantID : string; qsi_ApplicationID : string; qsi_DefinitionKey : string;
  qsi_BusinessKey : string; qsi_Title : string; qsi_VariablesJSON : string;
  qsi_IdempotencyKey : string
}.
#[export] Instance StartInstanceRequest_binding : Binding StartInstanceRequest := fun r =>
  given (qsi_TenantID r) && given (qsi_ApplicationID r) && given (qsi_DefinitionKey r)
  && given (qsi_BusinessKey r) && given (qsi_Title r) && given (qsi_IdempotencyKey r).

Record CancelInstanceRequest : Type := mkCancelInstanceRequest {
  qci_ID : string; qci_TenantID : string; qci_ApplicationID : string; qci_Reason : string;
  qci_ExpectedVersion : Z
}.
#[export] Instance CancelInstanceRequest_binding : Binding CancelInstanceRequest := fun r =>
  given (qci_ID r) && given (qci_TenantID r) && given (qci_ApplicationID r) && given (qci_Reason r)
  && nonzero (qci_ExpectedVersion r).

Record GetInstanceRequest : Type := mkGetInstanceRequest {
  qgi_ID : string; qgi_TenantID : string; qgi_ApplicationID : string
}.
#[export] Instance GetInstanceRequest_binding : Binding GetInstanceRequest := fun r =>
  given (qgi_ID r) && given (qgi_TenantID r) && given (qgi_ApplicationID r).

Record ListInstancesRequest : Type := mkListInstancesRequest {
  qli_TenantID : string; qli_ApplicationID : string; qli_DefinitionID : string; qli_Status : string;
  qli_StarterID : string; qli_Search : string; qli_StartedFrom : option Z; qli_StartedUntil : option Z;
  qli_Page : Z; qli_PageSize : Z
}.
#[export] Instance ListInstancesRequest_binding : Binding ListInstancesRequest := fun r =>
  given (qli_TenantID r) && given (qli_ApplicationID r).

Record TaskVersionRequest : Type := mkTaskVersionRequest {
  qtv_ID : string; qtv_TenantID : string; qtv_ApplicationID : string; qtv_ExpectedVersion : Z
}.
#[export] Instance TaskVersionRequest_binding : Binding TaskVersionRequest := fun r =>
  given (qtv_ID r) && given (qtv_TenantID r) && given (qtv_ApplicationID r)
  && nonzero (qtv_ExpectedVersion r).

Record CompleteTaskRequest : Type := mkCompleteTaskRequest {
  qct_ID : string; qct_TenantID : string; qct_ApplicationID : string; qct_Decision : string;
  qct_Comment : string; qct_OutputJSON : string; qct_ExpectedVersion : Z
}.
#[export] Instance CompleteTaskRequest_binding : Binding CompleteTaskRequest := fun r =>
  given (qct_ID r) && given (qct_TenantID r) && given (qct_ApplicationID r) && given (qct_Decision r)
  && nonzero (qct_ExpectedVersion r).

Record DelegateTaskRequest : Type := mkDelegateTaskRequest {
  qdt_ID : string; qdt_TenantID : string; qdt_ApplicationID : string; qdt_DelegateTo : string;
  qdt_Reason : string; qdt_ExpectedVersion : Z
}.
#[export] Instance DelegateTaskRequest_binding : Binding DelegateTaskRequest := fun r =>
  given (qdt_ID r) && given (qdt_TenantID r) && given (qdt_ApplicationID r)
  && given (qdt_DelegateTo r) && given (qdt_Reason r) && nonzero (qdt_ExpectedVersion r).

Record GetTaskRequest : Type := mkGetTaskRequest {
  qgt_ID : string; qgt_TenantID : string; qgt_ApplicationID : string
}.
#[export] Instance GetTaskRequest_binding : Binding GetTaskRequest := fun r =>
  given (qgt_ID r) && given (qgt_TenantID r) && given (qgt_ApplicationID r).

Record ListTasksRequest : Type := mkListTasksRequest {
  qlt_TenantID : string; qlt_ApplicationID : string; qlt_InstanceID : string; qlt_Status : string;
  qlt_Search : string; qlt_Page : Z; qlt_PageSize : Z
}.
#[export] Instance ListTasksRequest_binding : Binding ListTasksRequest := fun r =>
  given (qlt_TenantID r) && given (qlt_ApplicationID r).

Record ListTaskInstanceCandidatesRequest : Type := mkListTaskInstanceCandidatesRequest {
  qlti_TenantID : string; qlti_ApplicationID : string; qlti_Search : string; qlti_Page : Z;
  qlti_PageSize : Z
}.
#[export] Instance ListTaskInstanceCandidatesRequest_binding : Binding ListTaskInstanceCandidatesRequest := fun r =>
  given (qlti_TenantID r) && given (qlti_ApplicationID r).

Record ListTaskHistoryRequest : Type := mkListTaskHistoryRequest {
  qlth_TenantID : string; qlth_ApplicationID : string; qlth_TaskID : string; qlth_Page : Z;
  qlth_PageSize : Z
}.
#[export] Instance ListTaskHistoryRequest_binding : Binding ListTaskHistoryRequest := fun r =>
  given (qlth_TenantID r) && given (qlth_ApplicationID r) && given (qlth_TaskID r).

Record ListInstanceTaskHistoryRequest : Type := mkListInstanceTaskHistoryRequest {
  qlith_TenantID : string; qlith_ApplicationID : string; qlith_InstanceID : string; qlith_Page : Z;
  qlith_PageSize : Z
}.
#[export] Instance ListInstanceTaskHistoryRequest_binding : Binding ListInstanceTaskHistoryRequest := fun r =>
  given (qlith_TenantID r) && given (qlith_ApplicationID r) && given (qlith_InstanceID r).

(** ** Conversions *)

(** The first byte is a double quote. *)
Definition quoted (value : string) : bool :=
  match value with String c _ => Ascii.eqb c quote_char | EmptyString => false end.

(** [json.Unmarshal] of a document into a [string]: null is no error and leaves it. *)
Definition unmarshal_string (value : string) : option string :=
  match parse value with Some (JStr s) => Some s | Some JNull => Some "" | _ => None end.

Definition rawObject (value : string) : string :=
  if negb (str_empty value) && Valid value then
    if quoted value then
      match unmarshal_string value with
      | Some legacy => if Valid legacy then legacy else value
      | None => value
      end
    else value
  else "{}".

(** The elements of a slice, [nil] having none. *)
Definition elements {A} (l : option (list A)) : list A := default [] l.

Definition nodeFromDTO (value : WorkflowNodeDTO) : Node :=
  mkNode (nd_ID value) (nd_Name value) (nd_Type value) (nd_AssigneeType value) (nd_Assignee value)
    (nd_TimeoutSeconds value) (nd_TargetService value) (nd_FullMethod value)
    (rawObject (nd_RequestTemplateJSON value)) (nd_CompensationMethod value) (nd_TimerSeconds value)
    (rawObject (nd_ConfigJSON value)).
Definition nodesFromDTO (values : option (list WorkflowNodeDTO)) : list Node := nodeFromDTO <$> elements values.

Definition edgeFromDTO (value : WorkflowEdgeDTO) : Edge :=
  mkEdge (ed_FromNodeID value) (ed_ToNodeID value) (ed_ConditionExpression value) (ed_Priority value).
Definition edgesFromDTO (values : option (list WorkflowEdgeDTO)) : list Edge := edgeFromDTO <$> elements values.

Definition nodeDTO (node : Node) : WorkflowNodeDTO :=
  mkWorkflowNodeDTO (node_ID node) (node_Name node) (node_Type node) (node_AssigneeType node)
    (node_Assignee node) (node_TimeoutSeconds node) (node_TargetService node) (node_FullMethod node)
    (rawObject (node_RequestTemplateJSON node)) (node_CompensationMethod node) (node_TimerSeconds node)
    (rawObject (node_ConfigJSON node)).
Definition edgeDTO (edge : Edge) : WorkflowEdgeDTO :=
  mkWorkflowEdgeDTO (edge_FromNodeID edge) (edge_ToNodeID edge) (edge_ConditionExpression edge) (edge_Priority edge).

Definition definitionDTO (value : WDefinition) : DefinitionDTO :=
  mkDefinitionDTO (def_ID value) (def_TenantID value) (def_ApplicationID value) (def_Key value)
    (def_Name value) (def_Description value) (def_Status value) (def_PublishedRevision value)
    (nodeDTO <$> def_Nodes value) (edgeDTO <$> def_Edges value) (def_Version value) (def_CreatedAt value)
    (def_UpdatedAt value) (def_CreatedBy value) (def_UpdatedBy value).

Definition instanceDTO (value : WInstance) : InstanceDTO :=
  mkInstanceDTO (inst_ID value) (inst_TenantID value) (inst_ApplicationID value) (inst_DefinitionID value)
    (inst_DefinitionRevision value) (inst_BusinessKey value) (inst_Title value) (inst_StarterID value)
    (inst_Status value) (inst_CurrentNodeID value) (rawObject (inst_VariablesJSON value))
    (rawObject (inst_ResultJSON value)) (inst_ErrorCode value) (inst_ErrorMessage value)
    (inst_StartedAt value) (inst_FinishedAt value) (inst_Version value) (inst_CreatedAt value)
    (inst_UpdatedAt value) (inst_CreatedBy value) (inst_UpdatedBy value).

Definition taskDTO (value : Task) : TaskDTO :=
  mkTaskDTO (task_ID value) (task_TenantID value) (task_ApplicationID value) (task_InstanceID value)
    (task_NodeID value) (task_Name value) (task_AssigneeType value) (task_Assignee value)
    (task_ClaimedBy value) (task_Status value) (task_Decision value) (task_Comment value)
    (rawObject (task_InputJSON value)) (rawObject (task_OutputJSON value)) (task_DueAt value)
    (task_CompletedAt value) (task_Version value) (task_CreatedAt value) (task_UpdatedAt value)
    (task_CreatedBy value) (task_UpdatedBy value).

Definition taskHistoryDTO (value : TaskHistory) : TaskHistoryDTO :=
  mkTaskHistoryDTO (hist_ID value) (hist_TenantID value) (hist_ApplicationID value) (hist_TaskID value)
    (hist_InstanceID value) (hist_Action value) (hist_ActorID value) (hist_FromStatus value)
    (hist_ToStatus value) (rawObject (hist_DetailJSON value)) (hist_Version value) (hist_CreatedAt value)
    (hist_UpdatedAt value) (hist_CreatedBy value) (hist_UpdatedBy value).

Definition definitionCandidateDTO (item : DefinitionCandidate) : DefinitionCandidateDTO :=
  mkDefinitionCandidateDTO (dc_ID item) (dc_Key item) (dc_Name item) (dc_Status item) (dc_PublishedRevision item).
Definition taskInstanceCandidateDTO (item : TaskInstanceCandidate) : TaskInstanceCandidateDTO :=
  mkTaskInstanceCandidateDTO (tic_ID item) (tic_Title item) (tic_BusinessKey item) (tic_Status item).

Definition pageDTO {A B} (item : A -> B) (value : Page A) : PageDTO B :=
  mkPageDTO (item <$> page_Items value) (page_Total value) (page_Page value) (page_PageSize value).

(** ** Raw documents *)

Example raw_empty : rawObject "" = "{}". Proof. reflexivity. Qed.
Example raw_null : rawObject "null" = "null". Proof. vm_compute. reflexivity. Qed.

(** A document of the API is always one that [json.Marshal] can render. *)
Lemma rawObject_Valid value : Valid (rawObject value) = true.
Proof.
  unfold rawObject. destruct (negb (str_empty value) && Valid value) eqn:H; [|by vm_compute].
  apply andb_prop in H as [_ H]. destruct (quoted value); [|done].
  destruct (unmarshal_string value) as [legacy|]; [|done]. by destruct (Valid legacy) eqn:E.
Qed.
#[export] Hint Resolve rawObject_Valid : core.

(** A valid document that is not a quoted one is passed on as it is. *)
Lemma rawObject_id value : Valid value = true -> quoted value = false -> rawObject value = value.
Proof.
  unfold rawObject. intros Hv Hq. rewrite Hv, Hq.
  destruct value as [|c s]; [|done]. by vm_compute in Hv.
Qed.
