(* ===== verification/AppError.v ===== *)
(** * The errors and answers of the HTTP API

    [internal/apperror]: an error with its business code, its public message and its
    HTTP status; and [internal/transport/http/response.go]: the envelope of every
    answer.  The business codes are constants of another module, hence a class. *)
From S2P Require Import Prelude Model.
From Stdlib Require Import Ascii String.
Local Open Scope string_scope.
Local Open Scope list_scope.
Local Open Scope Z_scope.

(** [errorcode]: the names this service gives its constants. *)
Class ErrorCodes := {
  CodeOK : Z; CodeInvalidArgument : Z; CodeNotFound : Z; CodeRequestTimeout : Z; CodeTooManyRequests : Z;
  CodeUnauthorized : Z; CodeForbidden : Z; CodeConflict : Z; CodeRequestInProgress : Z;
  CodeStaleVersion : Z; CodeInternal : Z; CodeDependencyUnavailable : Z
}.

(** [net/http] *)
Definition StatusOK : Z := 200.
Definition StatusNoContent : Z := 204.
Definition StatusBadRequest : Z := 400.
Definition StatusUnauthorized : Z := 401.
Definition StatusForbidden : Z := 403.
Definition StatusNotFound : Z := 404.
Definition StatusConflict : Z := 409.
Definition StatusUnsupportedMediaType : Z := 415.
Definition StatusTooManyRequests : Z := 429.
Definition StatusInternalServerError : Z := 500.
Definition StatusServiceUnavailable : Z := 503.
Definition StatusGatewayTimeout : Z := 504.

Record AppError : Type := mkAppError {
  ae_Code : Z; ae_Message : string; ae_HTTPStatus : Z; ae_Err : option error
}.

Section constructors.
Context {EC : ErrorCodes}.

Definition New (code : Z) (message : string) (status : Z) (err : option error) : AppError :=
  mkAppError code message status err.
Definition Invalid (message : string) (err : option error) : AppError :=
  New CodeInvalidArgument message StatusBadRequest err.
Definition NotFound (message : string) : AppError := New CodeNotFound message StatusNotFound None.
Definition Conflict (message : string) (err : option error) : AppError :=
  New CodeConflict message StatusConflict err.
Definition StaleVersion (err : option error) : AppError :=
  New CodeStaleVersion "resource version is stale" StatusConflict err.
Definition RequestInProgress : AppError :=
  New CodeRequestInProgress "request is already processing" StatusConflict None.
Definition Unauthorized (message : string) : AppError :=
  New CodeUnauthorized message StatusUnauthorized None.
Definition Forbidden (message : string) : AppError := New CodeForbidden message StatusForbidden None.
Definition TooManyRequests : AppError :=
  New CodeTooManyRequests "too many requests" StatusTooManyRequests None.
Definition RequestTimeout : AppError :=
  New CodeRequestTimeout "request timeout" StatusGatewayTimeout None.
Definition Unavailable (message : string) (err : option error) : AppError :=
  New CodeDependencyUnavailable message StatusServiceUnavailable err.
Definition InternalError (err : error) : AppError :=
  New CodeInternal "internal server error" StatusInternalServerError (Some err).
End constructors.

(** ** Answers *)

(** The envelope; [resp_Body] is [None] for a null body. *)
Record Response (B : Type) : Type := mkResponse {
  resp_Code : Z; resp_Message : string; resp_Body : option B; resp_RequestID : string
}.
Arguments mkResponse {B} _ _ _ _.
Arguments resp_Code {B} _.
Arguments resp_Message {B} _.
Arguments resp_Body {B} _.
Arguments resp_RequestID {B} _.

(** What a handler does to the connection: the status, the envelope, and the error
    it logs, if it logs one. *)
Record Reply (B : Type) : Type := mkReply {
  rp_Status : Z; rp_Response : Response B; rp_Logged : option (option error)
}.
Arguments mkReply {B} _ _ _.
Arguments rp_Status {B} _.
Arguments rp_Response {B} _.
Arguments rp_Logged {B} _.

Definition OK `{ErrorCodes} {B} (requestID : string) (body : B) : Reply B :=
  mkReply StatusOK (mkResponse CodeOK "success" (Some body) requestID) None.

(** [errors.As(err, &appErr)] finds an [*apperror.Error] or not. *)
Definition Fail `{ErrorCodes} {B} (requestID : string) (err : AppError + error) : Reply B :=
  let appErr := match err with inl a => a | inr e => InternalError e end in
  mkReply (ae_HTTPStatus appErr) (mkResponse (ae_Code appErr) (ae_Message appErr) None requestID)
    (if StatusInternalServerError <=? ae_HTTPStatus appErr then Some (ae_Err appErr) else None).
