(* ===== verification/Health.v ===== *)
(** * Health (internal/health, the operational handlers of internal/transport)

    [Ready] starts one goroutine per dependency and collects two results from a
    channel: a small transition system, whose every run ends with the same answer.
    The HTTP and the gRPC endpoint report it. *)
From S2P Require Import Prelude GoStd Model Config AppError.
From Stdlib Require Import Ascii String.
From stdpp Require Import relations.
Local Open Scope string_scope.
Local Open Scope list_scope.

Record Dependency : Type := mkDependency { dep_Status : string; dep_Latency : string }.
Record Status : Type := mkHealthStatus { hs_Status : string; hs_Dependencies : gmap string Dependency }.

(** What a goroutine sends. *)
Record checked : Type := mkChecked { ck_name : string; ck_dependency : Dependency; ck_ready : bool }.

(** How long a ping within the timeout took, as text, and how it ended. *)
Class Pings := {
  ping_database : Z -> string * option error;
  ping_redis : Z -> string * option error
}.

Section health.
Context {PG : Pings}.

(** The clients are nil when they are disabled. *)
Record Service : Type := mkService { sv_db : bool; sv_redis : bool; sv_cfg : config.Health }.

Definition New (db redis : bool) (cfg : config.Config) : Service := mkService db redis (config.c_Health cfg).

Definition Live : Status := mkHealthStatus "up" ∅.

Definition checkResult (name : string) (ping : string * option error) : checked :=
  match ping.2 with
  | Some _ => mkChecked name (mkDependency "down" ping.1) false
  | None => mkChecked name (mkDependency "up" ping.1) true
  end.

Definition checkDatabase (s : Service) : checked :=
  if negb (sv_db s) then mkChecked "database" (mkDependency "disabled" "") true
  else checkResult "database" (ping_database (config.health_DatabaseTimeout (sv_cfg s))).
Definition checkRedis (s : Service) : checked :=
  if negb (sv_redis s) then mkChecked "redis" (mkDependency "disabled" "") true
  else checkResult "redis" (ping_redis (config.health_RedisTimeout (sv_cfg s))).

(** [for range 2 { item := <-results; ... }] over the items in the order received. *)
Definition collect (items : list checked) : Status * bool :=
  let '(dependencies, ready) :=
    foldl (fun '(m, ready) item => (<[ck_name item := ck_dependency item]> m, ready && ck_ready item)) (∅, true) items in
  (mkHealthStatus (if ready then "ready" else "not_ready") dependencies, ready).

(** ** The goroutines *)

(** Who has not sent yet, the channel (oldest first) and what was received. *)
Record machine : Type := mkMachine {
  mc_database : bool; mc_redis : bool; mc_results : list checked; mc_received : list checked
}.
Definition started : machine := mkMachine true true [] [].

(** A send blocks while the channel holds two results, the receiver waits for an item
    until it has two. *)
Inductive step (s : Service) : machine -> machine -> Prop :=
| database_sends redis results received : List.length results < 2 ->
    step s (mkMachine true redis results received) (mkMachine false redis (results ++ [checkDatabase s]) received)
| redis_sends database results received : List.length results < 2 ->
    step s (mkMachine database true results received) (mkMachine database false (results ++ [checkRedis s]) received)
| receives database redis item results received : List.length received < 2 ->
    step s (mkMachine database redis (item :: results) received) (mkMachine database redis results (received ++ [item])).

(** What the receiver returns once it has two results. *)
Definition Ready (m : machine) : Status * bool := collect (mc_received m).

(** The schedule in which the database answers first. *)
Definition ready_of (s : Service) : Status * bool := collect [checkDatabase s; checkRedis s].

(** ** The endpoints *)

Section http.
Context {EC : ErrorCodes}.

Definition http_Live (requestID : string) : Reply Status := OK requestID Live.

Definition http_Ready (requestID : string) (ready : Status * bool) : Reply Status :=
  let '(status, ready) := ready in
  if negb ready then mkReply StatusServiceUnavailable (mkResponse CodeDependencyUnavailable "service is not ready" (Some status) requestID) None
  else OK requestID status.

(** The subject of the gin context is null without one. *)
Definition http_Me (requestID : string) (subject : option string) : Reply (gmap string (option string)) :=
  OK requestID {[ "subject" := subject ]}.
End http.

(** [HealthCheckResponse_ServingStatus] *)
Inductive ServingStatus : Type := NOT_SERVING | SERVING.
Definition grpc_Check (ready : Status * bool) : ServingStatus := if ready.2 then SERVING else NOT_SERVING.
(** [List] reports the process itself and asks no dependency. *)
Definition grpc_List : gmap string ServingStatus := {[ "" := SERVING ]}.

(** ** Every schedule *)

Lemma collect_swap a b : ck_name a <> ck_name b -> collect [a; b] = collect [b; a].
Proof. intros Hne. unfold collect. cbn [foldl]. rewrite insert_insert_ne by done. by destruct (ck_ready a), (ck_ready b). Qed.

Lemma check_names s : ck_name (checkDatabase s) = "database" /\ ck_name (checkRedis s) = "redis".
Proof.
  unfold checkDatabase, checkRedis, checkResult.
  destruct (sv_db s), (sv_redis s), (snd (ping_database _)), (snd (ping_redis _)); done.
Qed.

(** The steps left: a send and a receive for each dependency. *)
Definition left (m : machine) : nat :=
  (if mc_database m then 2 else 0) + (if mc_redis m then 2 else 0) + List.length (mc_results m).

(** Each result is in exactly one place. *)
Record sound (s : Service) (m : machine) : Prop := {
  so_items : (if mc_database m then [checkDatabase s] else []) ++ (if mc_redis m then [checkRedis s] else [])
      ++ mc_results m ++ mc_received m ≡ₚ [checkDatabase s; checkRedis s]
}.

Lemma sound_length s m : sound s m ->
  (if mc_database m then 1 else 0) + (if mc_redis m then 1 else 0) + List.length (mc_results m) + List.length (mc_received m) = 2.
Proof.
  intros [Hp%Permutation_length]. rewrite !length_app in Hp. simpl in Hp. by destruct (mc_database m), (mc_redis m); simpl in *; lia.
Qed.

Lemma step_sound s m m' : sound s m -> step s m m' -> sound s m' /\ S (left m') = left m.
Proof.
  intros [Hp] Hs. split.
  - split. rewrite <- Hp. destruct Hs; cbn [mc_database mc_redis mc_results mc_received];
      repeat match goal with |- context [if ?b then _ else _] => destruct b end; simpl; solve_Permutation.
  - destruct Hs; unfold left; cbn [mc_database mc_redis mc_results]; rewrite ?length_app; simpl; lia.
Qed.

Lemma reachable_sound s n m : nsteps (step s) n started m -> sound s m /\ n + left m = 4.
Proof.
  assert (Hgen : forall m0, sound s m0 -> forall k m1, nsteps (step s) k m0 m1 -> sound s m1 /\ k + left m1 = left m0).
  { intros m0 Hm0 k m1 Hk. induction Hk as [m0|k m0 m2 m1 Hs _ IH]; [done|].
    destruct (step_sound s m0 m2 Hm0 Hs) as [Hm2 Hl]. destruct (IH Hm2) as [Hm1 Hl1]. split; [done|]. lia. }
  intros H. assert (H0 : sound s started) by (split; simpl; done). by apply Hgen in H.
Qed.

Lemma not_stuck s m : sound s m -> List.length (mc_received m) < 2 -> exists m', step s m m'.
Proof.
  intros Hm Hr. pose proof (sound_length s m Hm) as Hl. destruct m as [db redis results received]. simpl in *.
  destruct results as [|item results]; [|eexists; by apply receives]. destruct db; [eexists; by apply (database_sends s redis []); simpl; lia|].
  destruct redis; [eexists; by apply (redis_sends s false []); simpl; lia|]. simpl in Hl. lia.
Qed.

Lemma settled s m : sound s m -> List.length (mc_received m) = 2 -> Ready m = ready_of s.
Proof.
  intros Hm Hr. pose proof (sound_length s m Hm) as Hl. destruct Hm as [Hp]. destruct m as [db redis results received]. simpl in *.
  destruct db, redis, results; simpl in Hl; try lia. simpl in Hp. unfold Ready, ready_of. cbn [mc_received].
  destruct received as [|a [|b [|? ?]]]; try done.
  destruct (check_names s) as [Hd Hc]. apply Permutation_length_2_inv in Hp as [[= <- <-]|[= <- <-]]; [done|].
  apply collect_swap. congruence.
Qed.

(** What is wrong with an enabled dependency. *)
Definition fails_ping (s : Service) : Prop :=
  (sv_db s = true /\ is_Some (ping_database (config.health_DatabaseTimeout (sv_cfg s))).2) \/
  (sv_redis s = true /\ is_Some (ping_redis (config.health_RedisTimeout (sv_cfg s))).2).

Lemma ready_spec s :
  ((ready_of s).2 = true <-> ~ fails_ping s) /\
  hs_Status (ready_of s).1 = (if (ready_of s).2 then "ready" else "not_ready") /\
  dom (hs_Dependencies (ready_of s).1) = {["database"; "redis"]}.
Proof.
  destruct (check_names s) as [Hd Hr]. unfold ready_of, collect. cbn [foldl fst snd hs_Status hs_Dependencies].
  split; [|split; [done|by rewrite Hd, Hr, !dom_insert_L, dom_empty_L; set_solver]].
  unfold fails_ping, checkDatabase, checkRedis, checkResult.
  destruct (sv_db s), (sv_redis s), (snd (ping_database _)), (snd (ping_redis _)); simpl;
    (split; [intros Hb|intros Hn]; try done; try (intros [[? [? ?]]|[? [? ?]]]; done); exfalso; apply Hn; eauto).
Qed.

(** Readiness does not depend on the schedule of the checks: the two goroutines and
    the collecting loop never block for good and end after four steps in every
    interleaving, with one and the same answer; it is "ready" exactly when every
    enabled dependency answered its ping in time, names both dependencies, and both
    endpoints report it: 200 and SERVING, or 503 and NOT_SERVING. *)
Theorem Ready_settles {EC : ErrorCodes} s n m requestID : nsteps (step s) n started m ->
  n <= 4 /\
  (List.length (mc_received m) < 2 -> exists m', step s m m') /\
  (List.length (mc_received m) = 2 -> n = 4 /\ Ready m = ready_of s /\
     ((Ready m).2 = true <-> ~ fails_ping s) /\
     dom (hs_Dependencies (Ready m).1) = {["database"; "redis"]} /\
     rp_Status (http_Ready requestID (Ready m)) = (if (Ready m).2 then StatusOK else StatusServiceUnavailable) /\
     grpc_Check (Ready m) = (if (Ready m).2 then SERVING else NOT_SERVING)).
Proof.
  intros Hn. destruct (reachable_sound s n m Hn) as [Hm Hl]. split; [lia|]. split; [by apply not_stuck|]. intros Hr.
  pose proof (sound_length s m Hm) as Hlen. split.
  { unfold left in Hl. destruct (mc_database m), (mc_redis m); lia. }
  rewrite (settled s m Hm Hr). destruct (ready_spec s) as (H1 & _ & H2). split; [done|]. split; [done|]. split; [done|].
  split; [|done]. unfold http_Ready. by destruct (ready_of s) as [st []].
Qed.
End health.

(** Redis is down, and answers first. *)
Module Down.
#[export] Instance pings : Pings := {|
  ping_database := fun _ => ("1ms", None); ping_redis := fun _ => ("2s", Some (ErrorNew "connection refused"))
|}.
#[export] Instance codes : ErrorCodes := {|
  CodeOK := 0; CodeInvalidArgument := 10001; CodeNotFound := 10004; CodeRequestTimeout := 10008; CodeTooManyRequests := 10029;
  CodeUnauthorized := 20001; CodeForbidden := 20003; CodeConflict := 30001; CodeRequestInProgress := 30002;
  CodeStaleVersion := 30009; CodeInternal := 50000; CodeDependencyUnavailable := 50003 |}%Z.
Definition both : Service := mkService true true (config.mkHealth 2000000000 2000000000).

Definition redis_first : machine := mkMachine false false [] [checkRedis both; checkDatabase both].
Lemma redis_first_run : nsteps (step both) 4 started redis_first.
Proof.
  eapply nsteps_l; [apply (redis_sends both true []); simpl; lia|].
  eapply nsteps_l; [apply receives; simpl; lia|].
  eapply nsteps_l; [apply (database_sends both false []); simpl; lia|].
  eapply nsteps_l; [apply receives; simpl; lia|]. constructor.
Qed.

Lemma Ready_settles_witness : (Ready redis_first).2 = false /\ rp_Status (http_Ready "r" (Ready redis_first)) = 503%Z.
Proof.
  destruct (Ready_settles both 4 redis_first "r" redis_first_run) as (_ & _ & H).
  destruct (H eq_refl) as (_ & _ & _ & _ & Hst & _). split; [reflexivity|]. rewrite Hst. reflexivity.
Defined.
End Down.
