(* ===== verification/BuildInfo.v ===== *)
(** * Build information (internal/buildinfo, the Version handler of
      transport/http/handler.go)

    The link-time constants and the uptime, whose text is that of a [time.Duration]
    rounded to seconds. *)
From S2P Require Import Prelude GoStd Json Model GraphCodec PathMatch Config AppError Health CodecSpec Defaults.
From Stdlib Require Import Ascii String.
Local Open Scope string_scope.
Local Open Scope list_scope.

(** ** [time.Duration] *)

Definition Second : Z := 1000000000.
Definition minDuration : Z := - 2 ^ 63.
Definition maxDuration : Z := 2 ^ 63 - 1.

(** [d.Round(m)]: to the nearest multiple, halves away from zero, within the range. *)
Definition Round (d m : Z) : Z :=
  if (m <=? 0)%Z then d
  else
    let r := Z.rem d m in
    if (d <? 0)%Z then
      let r := (- r)%Z in
      if (2 * r <? m)%Z then d + r
      else if (d - m + r <? minDuration)%Z then minDuration else d - m + r
    else if (2 * r <? m)%Z then d - r
    else if (maxDuration <? d + m - r)%Z then maxDuration else d + m - r.

(** [fmtInt]'s digits of hours, minutes and seconds: the text of a duration that is a
    whole number of seconds, as every duration is that was rounded to seconds short of
    the ends of the range. *)
Definition String_seconds (d : Z) : string :=
  if (d =? 0)%Z then "0s"
  else
    let u := (Z.abs d / Second)%Z in
    let m := (u / 60)%Z in
    let h := (m / 60)%Z in
    (if (d <? 0)%Z then "-" else "") +:+
    (if (0 <? m)%Z then (if (0 <? h)%Z then print_Z h +:+ "h" else "") +:+ print_Z (m mod 60) +:+ "m" else "") +:+
    print_Z (u mod 60) +:+ "s".

(** ** The information *)

Record Info : Type := mkInfo {
  bi_Version : string; bi_Commit : string; bi_BuildTime : string; bi_StartedAt : Z; bi_Uptime : string
}.

(** [Version], [Commit] and [BuildTime], which the linker may set, and [startedAt]. *)
Record Build : Type := mkBuild { bd_Version : string; bd_Commit : string; bd_BuildTime : string; bd_startedAt : Z }.
Definition unset (startedAt : Z) : Build := mkBuild "dev" "unknown" "unknown" startedAt.

(** [time.Since] subtracts readings of a monotonic clock, within the range of a duration. *)
Definition Since (now start : Z) : Z := Z.max minDuration (Z.min maxDuration (now - start)).

Definition Current (b : Build) (now : Z) : Info :=
  mkInfo (bd_Version b) (bd_Commit b) (bd_BuildTime b) (bd_startedAt b) (String_seconds (Round (Since now (bd_startedAt b)) Second)).

Definition http_Version `{ErrorCodes} (requestID : string) (b : Build) (now : Z) : Reply Info := OK requestID (Current b now).

(** ** What the uptime says *)

(** Rounding stays within half a second, and gives whole seconds. *)
Lemma Round_second d : (0 <= d <= 2 ^ 62)%Z ->
  (Round d Second mod Second = 0)%Z /\ (d - Second / 2 <= Round d Second <= d + Second / 2)%Z /\ (0 <= Round d Second)%Z.
Proof.
  intros Hd. unfold Round, Second, maxDuration. change (1000000000 <=? 0)%Z with false. cbv iota zeta.
  rewrite (proj2 (Z.ltb_ge d 0)) by lia. rewrite Z.rem_mod_nonneg by lia. change (1000000000 / 2)%Z with 500000000%Z.
  pose proof (Z.mod_pos_bound d 1000000000 ltac:(lia)) as Hr. pose proof (Z.div_mod d 1000000000 ltac:(lia)) as Hq.
  assert (Hmul : forall k, ((k * 1000000000) mod 1000000000 = 0)%Z) by (intros; apply Z.mod_mul; lia).
  destruct (Z.ltb_spec (2 * (d mod 1000000000)) 1000000000).
  - split; [|lia]. replace (d - d mod 1000000000)%Z with (d / 1000000000 * 1000000000)%Z by lia. apply Hmul.
  - rewrite (proj2 (Z.ltb_ge _ _)) by lia. split; [|lia].
    replace (d + 1000000000 - d mod 1000000000)%Z with ((d / 1000000000 + 1) * 1000000000)%Z by lia. apply Hmul.
Qed.

(** *** The text is read back by [time.ParseDuration] *)

Definition not_letter (s : string) : Prop := match s with String c _ => is_letter c = false | EmptyString => True end.

Lemma span_letters_one c rest : is_letter c = true -> not_letter rest -> span_letters (String c rest) = (String c "", rest).
Proof.
  intros Hc Hr. assert (Hs : span_letters rest = ("", rest)).
  { destruct rest as [|c' rest]; [reflexivity|]. cbn in Hr. cbn [span_letters]. by rewrite Hr. }
  cbn [span_letters]. by rewrite Hc, Hs.
Qed.

Lemma digit_not_letter c : is_digit c = true -> is_letter c = false.
Proof.
  unfold is_digit, is_letter, is_lower, is_upper, in_range. rewrite andb_true_iff, !N.leb_le. intros [H1 H2].
  by rewrite (proj2 (N.leb_gt 97 _)), (proj2 (N.leb_gt 65 _)) by lia.
Qed.

Lemma print_Z_decimal z : (0 <= z)%Z -> decimal (print_Z z) (Z.to_N z).
Proof. intros Hz. unfold print_Z. rewrite (proj2 (Z.ltb_ge z 0)) by lia. apply print_N_decimal. Qed.

Lemma not_letter_number z rest : (0 <= z)%Z -> not_letter (print_Z z +:+ rest).
Proof.
  intros Hz. destruct (decimal_head _ _ (print_Z_decimal z Hz)) as (c & t & -> & Hc & _). by apply digit_not_letter.
Qed.

(** One number with its unit. *)
Lemma duration_part fuel z c u rest d : (0 <= z)%Z -> is_letter c = true -> number_end (String c "") ->
  unit_of (String c "") = Some u -> not_letter rest -> duration_parts fuel rest = Some d -> (z * u + d < 2 ^ 63)%Z ->
  duration_parts (S fuel) (print_Z z +:+ String c rest) = Some (z * u + d)%Z.
Proof.
  intros Hz Hc Hend Hu Hrest Hd Hmax. pose proof (print_Z_decimal z Hz) as Hdec. pose proof Hdec as (Hdig & _).
  assert (Hne : str_empty (print_Z z +:+ String c rest) = false)
    by (destruct (decimal_head _ _ Hdec) as (c0 & t & -> & _); done).
  cbn [duration_parts]. rewrite Hne, (span_digits_app _ _ Hdig) by exact Hend.
  rewrite (span_letters_one c rest Hc Hrest), (parse_digits_decimal _ _ Hdec). cbn [mbind option_bind].
  rewrite Hu. cbn [mbind option_bind]. rewrite Hd. cbn [mbind option_bind]. rewrite Z2N.id by done.
  by rewrite (proj2 (Z.ltb_lt _ _)).
Qed.

Lemma ParseDuration_parts fuel z c rest d : (0 <= z)%Z ->
  fuel <= String.length (print_Z z +:+ String c rest) ->
  (forall k, fuel <= k -> duration_parts k (print_Z z +:+ String c rest) = Some d) ->
  ParseDuration (print_Z z +:+ String c rest) = Some d.
Proof.
  intros Hz Hf Hd. destruct (decimal_head _ _ (print_Z_decimal z Hz)) as (c0 & t & Hp & _). unfold ParseDuration.
  rewrite Hp in *. change (String c0 t +:+ String c rest) with (String c0 (t +:+ String c rest)) in *.
  destruct (String.eqb_spec (String c0 (t +:+ String c rest)) "0") as [Heq|_]; [by destruct t|].
  change (str_empty (String c0 (t +:+ String c rest))) with false. cbv iota. apply Hd. lia.
Qed.

Ltac lengths := repeat first [rewrite length_append | progress (cbn [String.length])].

Lemma print_Z_length z : (0 <= z)%Z -> 1 <= String.length (print_Z z).
Proof. intros Hz. destruct (decimal_head _ _ (print_Z_decimal z Hz)) as (c & t & -> & _). cbn [String.length]. lia. Qed.

(** The text of a whole number of seconds reads back as that number. *)
Theorem String_seconds_roundtrip d : (0 <= d < 2 ^ 63)%Z -> (d mod Second = 0)%Z -> ParseDuration (String_seconds d) = Some d.
Proof.
  intros Hd Hmod. unfold String_seconds. destruct (Z.eqb_spec d 0) as [->|Hne]; [reflexivity|].
  rewrite (proj2 (Z.ltb_ge d 0)), Z.abs_eq by lia. cbv zeta. change ("" +:+ ?s) with s.
  set (u := (d / Second)%Z). assert (Hu : d = (u * Second)%Z) by (unfold u, Second in *; pose proof (Z.div_mod d 1000000000 ltac:(lia)); lia).
  assert (Hu0 : (0 < u)%Z) by (unfold Second in *; lia).
  pose proof (Z.div_mod u 60 ltac:(lia)) as Hs. pose proof (Z.mod_pos_bound u 60 ltac:(lia)) as Hsb.
  set (m := (u / 60)%Z) in *. set (sec := (u mod 60)%Z) in *.
  pose proof (Z.div_mod m 60 ltac:(lia)) as Hm. pose proof (Z.mod_pos_bound m 60 ltac:(lia)) as Hmb.
  set (h := (m / 60)%Z) in *. set (mn := (m mod 60)%Z) in *. unfold Second in Hu.
  assert (Hsec : forall k, 2 <= k -> duration_parts k (print_Z sec +:+ "s") = Some (sec * 1000000000 + 0)%Z).
  { intros [|[|k]] Hk; [lia..|]. apply duration_part; try done; lia. }
  assert (Hmin : forall k, 3 <= k -> duration_parts k (print_Z mn +:+ String "m" (print_Z sec +:+ "s")) =
    Some (mn * 60000000000 + (sec * 1000000000 + 0))%Z).
  { intros [|k] Hk; [lia|]. apply duration_part; try done; [lia|apply not_letter_number; lia|apply Hsec; lia|lia]. }
  assert (Hhour : forall k, 4 <= k -> duration_parts k (print_Z h +:+ String "h" (print_Z mn +:+ String "m" (print_Z sec +:+ "s"))) =
    Some (h * 3600000000000 + (mn * 60000000000 + (sec * 1000000000 + 0)))%Z).
  { intros [|k] Hk; [lia|]. apply duration_part; try done; [lia|apply not_letter_number; lia|apply Hmin; lia|lia]. }
  pose proof (print_Z_length sec ltac:(lia)) as Ls. pose proof (print_Z_length mn ltac:(lia)) as Lm.
  destruct (Z.ltb_spec 0 m) as [Hmp|Hmp].
  - destruct (Z.ltb_spec 0 h) as [Hhp|Hhp].
    + rewrite !append_assoc. change (ParseDuration (print_Z h +:+ String "h" (print_Z mn +:+ String "m" (print_Z sec +:+ "s"))) = Some d).
      apply (ParseDuration_parts 4); [lia|lengths; lia|].
      intros k Hk. rewrite (Hhour k Hk). f_equal. lia.
    + change ("" +:+ ?s) with s. rewrite !append_assoc.
      change (ParseDuration (print_Z mn +:+ String "m" (print_Z sec +:+ "s")) = Some d).
      apply (ParseDuration_parts 3); [lia|lengths; lia|].
      intros k Hk. rewrite (Hmin k Hk). f_equal. lia.
  - change ("" +:+ ?s) with s. apply (ParseDuration_parts 2 sec "s" ""); [lia|lengths; lia|].
    intros k Hk. rewrite (Hsec k Hk). f_equal. lia.
Qed.

(** The uptime that is shown is the time the process has run, to the nearest second,
    and anyone can read it back; the rest are the constants of the build. *)
Theorem Current_uptime b now : (0 <= now - bd_startedAt b <= 2 ^ 62)%Z ->
  exists d, ParseDuration (bi_Uptime (Current b now)) = Some d /\
    (now - bd_startedAt b - Second / 2 <= d <= now - bd_startedAt b + Second / 2)%Z.
Proof.
  intros Hd. exists (Round (now - bd_startedAt b) Second). destruct (Round_second _ Hd) as (Hmod & Hb & H0). split; [|done].
  unfold Current, Since, minDuration, maxDuration. cbn [bi_Uptime]. rewrite Z.min_r, Z.max_r by lia.
  apply String_seconds_roundtrip; [|done]. change (Second / 2)%Z with 500000000%Z in Hb. lia.
Qed.

Example uptime_text : bi_Uptime (Current (unset 0) 3725600000000) = "1h2m6s". Proof. reflexivity. Qed.
Example uptime_young : bi_Uptime (Current (unset 0) 400000000) = "0s". Proof. reflexivity. Qed.
