(* ===== verification/HttpServer.v ===== *)
(** * The HTTP handlers of the workflow (internal/transport/http/workflow_handler.go)

    Every handler: the bound request into the service's arguments, the result into
    the response's body, the error into a status.  [gin]'s decoding of the request's
    body is the argument [decoded] of a handler: the struct, or the error. *)
From S2P Require Import Prelude GoStd Json Model GraphCodec Graph World.
From S2P Require Import Repository Service ServiceSpec HttpDto AppError.
From Stdlib Require Import Ascii String.
Local Open Scope string_scope.
Local Open Scope list_scope.

(** The bodies of the answers. *)
Inductive Body : Type :=
| BDefinition (value : DefinitionDTO)
| BDefinitions (value : PageDTO DefinitionDTO)
| BDefinitionCandidates (value : PageDTO DefinitionCandidateDTO)
| BInstance (value : InstanceDTO)
| BInstances (value : PageDTO InstanceDTO)
| BTask (value : TaskDTO)
| BCompleted (value : CompleteTaskResponseBody)
| BTasks (value : PageDTO TaskDTO)
| BTaskInstances (value : PageDTO TaskInstanceCandidateDTO)
| BTaskHistory (value : PageDTO TaskHistoryDTO).

Section handlers.
Context {W : Type} {ST : Store W} {AR : AssignmentResolver W} {SE : ServiceEnv W} {MR : MapRange}
  {EC : ErrorCodes}.

Definition workflowHTTPError (err : error) : AppError :=
  if errors_Is err ErrInvalid then Invalid "invalid workflow request" (Some err)
  else if errors_Is err ErrActorRequired then Unauthorized "authentication required"
  else if errors_Is err ErrNotFound then NotFound "workflow resource not found"
  else if errors_Is err ErrForbidden then
    New CodeForbidden "workflow operation is forbidden" StatusForbidden (Some err)
  else if errors_Is err ErrVersionConflict then StaleVersion (Some err)
  else if errors_Is err ErrConflict then Conflict "workflow resource conflict" (Some err)
  else if errors_Is_foreign err AppUnavailable then
    Unavailable "application authorization is unavailable" (Some err)
  else InternalError err.

(** The handler's own state: [enabled] is [h.workflow != nil]. *)
Record Handler : Type := mkHandler { h_enabled : bool }.

(** [c.ShouldBindJSON]: decoding, then validation. *)
Definition ShouldBindJSON {T} `{Binding T} (decoded : res T) : res T :=
  r ← decoded; if required r then Ok r else Err (Foreign (OtherError "validation")).

Definition bind {T} `{Binding T} (h : Handler) (decoded : res T) : result AppError T :=
  if negb (h_enabled h) then Err (Unavailable "workflow database is disabled" None)
  else match ShouldBindJSON decoded with
       | Err err => Err (Invalid "invalid request body" (Some err))
       | Ok request => Ok request
       end.

Definition respond {A} (requestID : string) (body : A -> Body) (m : stE W error A) (w : W) : Reply Body * W :=
  match m w with
  | (Err err, w') => (Fail requestID (inl (workflowHTTPError err)), w')
  | (Ok value, w') => (OK requestID (body value), w')
  end.

(** [if !bind(c, h, &request) { return }], then the rest. *)
Definition handler {T} `{Binding T} (h : Handler) (requestID : string) (decoded : res T)
    (k : T -> W -> Reply Body * W) (w : W) : Reply Body * W :=
  match bind h decoded with
  | Err err => (Fail requestID (inl err), w)
  | Ok request => k request w
  end.

Section operations.
Context (h : Handler) (requestID : string) (ctx : Ctx).
Abbreviation serving := (handler h requestID).
Abbreviation responding := (respond requestID).

Definition http_CreateDefinition (decoded : res CreateDefinitionRequest) :=
  serving decoded (fun r => responding (fun value => BDefinition (definitionDTO value))
    (Service.CreateDefinition ctx (mkCreateDefinitionInput (qcd_TenantID r) (qcd_ApplicationID r) (qcd_Key r)
       (qcd_Name r) (qcd_Description r) (nodesFromDTO (qcd_Nodes r)) (edgesFromDTO (qcd_Edges r))))).

Definition http_UpdateDefinition (decoded : res UpdateDefinitionRequest) :=
  serving decoded (fun r => responding (fun value => BDefinition (definitionDTO value))
    (Service.UpdateDefinition ctx (mkUpdateDefinitionInput (qud_ID r) (qud_TenantID r) (qud_ApplicationID r)
       (qud_Name r) (qud_Description r) (nodesFromDTO (qud_Nodes r)) (edgesFromDTO (qud_Edges r))
       (qud_ExpectedVersion r)))).

Definition http_PublishDefinition (decoded : res VersionedDefinitionRequest) :=
  serving decoded (fun r => responding (fun value => BDefinition (definitionDTO value))
    (Service.PublishDefinition ctx (qvd_TenantID r) (qvd_ApplicationID r) (qvd_ID r) (qvd_ExpectedVersion r))).

Definition http_DisableDefinition (decoded : res VersionedDefinitionRequest) :=
  serving decoded (fun r => responding (fun value => BDefinition (definitionDTO value))
    (Service.DisableDefinition ctx (qvd_TenantID r) (qvd_ApplicationID r) (qvd_ID r) (qvd_ExpectedVersion r))).

Definition http_GetDefinition (decoded : res GetDefinitionRequest) :=
  serving decoded (fun r => responding (fun value => BDefinition (definitionDTO value))
    (Service.GetDefinition ctx (qgd_TenantID r) (qgd_ApplicationID r) (qgd_ID r) (qgd_Revision r))).

Definition http_ListDefinitions (decoded : res ListDefinitionsRequest) :=
  serving decoded (fun r => responding (fun value => BDefinitions (pageDTO definitionDTO value))
    (Service.ListDefinitions ctx (mkDefinitionFilter (qld_TenantID r) (qld_ApplicationID r) (qld_Status r)
       (qld_Search r) (qld_Page r) (qld_PageSize r)))).

Definition listDefinitionCandidates (decoded : res ListDefinitionCandidatesRequest)
    (list_ : DefinitionFilter -> stE W error (Page DefinitionCandidate)) :=
  serving decoded (fun r => responding (fun value => BDefinitionCandidates (pageDTO definitionCandidateDTO value))
    (list_ (mkDefinitionFilter (qldc_TenantID r) (qldc_ApplicationID r) "" (qldc_Search r) (qldc_Page r)
       (qldc_PageSize r)))).

Definition http_ListStartDefinitionCandidates (decoded : res ListDefinitionCandidatesRequest) :=
  listDefinitionCandidates decoded (Service.ListStartDefinitionCandidates ctx).
Definition http_ListInstanceDefinitionCandidates (decoded : res ListDefinitionCandidatesRequest) :=
  listDefinitionCandidates decoded (Service.ListInstanceDefinitionCandidates ctx).

Definition http_StartInstance (decoded : res StartInstanceRequest) :=
  serving decoded (fun r => responding (fun value => BInstance (instanceDTO value))
    (Service.StartInstance ctx (mkStartInstanceInput (qsi_TenantID r) (qsi_ApplicationID r)
       (qsi_DefinitionKey r) (qsi_BusinessKey r) (qsi_Title r) (rawObject (qsi_VariablesJSON r))
       (qsi_IdempotencyKey r)))).

Definition http_CancelInstance (decoded : res CancelInstanceRequest) :=
  serving decoded (fun r => responding (fun value => BInstance (instanceDTO value))
    (Service.CancelInstance ctx (qci_TenantID r) (qci_ApplicationID r) (qci_ID r) (qci_Reason r)
       (qci_ExpectedVersion r))).

Definition http_GetInstance (decoded : res GetInstanceRequest) :=
  serving decoded (fun r => responding (fun value => BInstance (instanceDTO value))
    (Service.GetInstance ctx (qgi_TenantID r) (qgi_ApplicationID r) (qgi_ID r))).

Definition http_ListInstances (decoded : res ListInstancesRequest) :=
  serving decoded (fun r => responding (fun value => BInstances (pageDTO instanceDTO value))
    (Service.ListInstances ctx (mkInstanceFilter (qli_TenantID r) (qli_ApplicationID r) (qli_DefinitionID r)
       (qli_Status r) (qli_StarterID r) (qli_Search r) (qli_StartedFrom r) (qli_StartedUntil r) (qli_Page r)
       (qli_PageSize r)))).

Definition http_ClaimTask (decoded : res TaskVersionRequest) :=
  serving decoded (fun r => responding (fun value => BTask (taskDTO value))
    (Service.ClaimTask ctx (qtv_TenantID r) (qtv_ApplicationID r) (qtv_ID r) (qtv_ExpectedVersion r))).

Definition http_CompleteTask (decoded : res CompleteTaskRequest) :=
  serving decoded (fun r => responding
    (fun '(task, instance) => BCompleted (mkCompleteTaskResponseBody (taskDTO task) (instanceDTO instance)))
    (Service.CompleteTask ctx (qct_TenantID r) (qct_ApplicationID r) (qct_ID r) (qct_Decision r)
       (qct_Comment r) (rawObject (qct_OutputJSON r)) (qct_ExpectedVersion r))).

Definition http_DelegateTask (decoded : res DelegateTaskRequest) :=
  serving decoded (fun r => responding (fun value => BTask (taskDTO value))
    (Service.DelegateTask ctx (qdt_TenantID r) (qdt_ApplicationID r) (qdt_ID r) (qdt_DelegateTo r)
       (qdt_Reason r) (qdt_ExpectedVersion r))).

Definition http_GetTask (decoded : res GetTaskRequest) :=
  serving decoded (fun r => responding (fun value => BTask (taskDTO value))
    (Service.GetTask ctx (qgt_TenantID r) (qgt_ApplicationID r) (qgt_ID r))).

Definition http_ListTasks (decoded : res ListTasksRequest) :=
  serving decoded (fun r => responding (fun value => BTasks (pageDTO taskDTO value))
    (Service.ListMyTasks ctx (mkTaskFilter (qlt_TenantID r) (qlt_ApplicationID r) (qlt_InstanceID r)
       (qlt_Status r) "" (qlt_Search r) [] false (qlt_Page r) (qlt_PageSize r)))).

Definition http_ListTaskInstanceCandidates (decoded : res ListTaskInstanceCandidatesRequest) :=
  serving decoded (fun r => responding (fun value => BTaskInstances (pageDTO taskInstanceCandidateDTO value))
    (Service.ListMyTaskInstanceCandidates ctx (mkTaskInstanceCandidateFilter (qlti_TenantID r)
       (qlti_ApplicationID r) (qlti_Search r) "" [] false (qlti_Page r) (qlti_PageSize r)))).

Definition respondTaskHistory (m : stE W error (Page TaskHistory)) :=
  responding (fun value => BTaskHistory (pageDTO taskHistoryDTO value)) m.

Definition http_ListTaskHistory (decoded : res ListTaskHistoryRequest) :=
  serving decoded (fun r => respondTaskHistory
    (Service.ListTaskHistory ctx (mkTaskHistoryFilter (qlth_TenantID r) (qlth_ApplicationID r) (qlth_TaskID r)
       "" (qlth_Page r) (qlth_PageSize r)))).

Definition http_ListInstanceTaskHistory (decoded : res ListInstanceTaskHistoryRequest) :=
  serving decoded (fun r => respondTaskHistory
    (Service.ListTaskHistory ctx (mkTaskHistoryFilter (qlith_TenantID r) (qlith_ApplicationID r) ""
       (qlith_InstanceID r) (qlith_Page r) (qlith_PageSize r)))).
End operations.

(** ** Routes *)

(** The POST routes of [NewServer] under [/api/v1/workflow], with what the body of a
    request decodes to. *)
Inductive HttpRequest : Type :=
| PostDefinitionsCreate (decoded : res CreateDefinitionRequest)
| PostDefinitionsUpdate (decoded : res UpdateDefinitionRequest)
| PostDefinitionsPublish (decoded : res VersionedDefinitionRequest)
| PostDefinitionsDisable (decoded : res VersionedDefinitionRequest)
| PostDefinitionsGet (decoded : res GetDefinitionRequest)
| PostDefinitionsList (decoded : res ListDefinitionsRequest)
| PostInstancesStart (decoded : res StartInstanceRequest)
| PostInstancesCancel (decoded : res CancelInstanceRequest)
| PostInstancesGet (decoded : res GetInstanceRequest)
| PostInstancesList (decoded : res ListInstancesRequest)
| PostInstancesStartDefinitionsList (decoded : res ListDefinitionCandidatesRequest)
| PostInstancesDefinitionsList (decoded : res ListDefinitionCandidatesRequest)
| PostTasksClaim (decoded : res TaskVersionRequest)
| PostTasksComplete (decoded : res CompleteTaskRequest)
| PostTasksDelegate (decoded : res DelegateTaskRequest)
| PostTasksGet (decoded : res GetTaskRequest)
| PostTasksList (decoded : res ListTasksRequest)
| PostTasksInstancesList (decoded : res ListTaskInstanceCandidatesRequest)
| PostTasksHistoryList (decoded : res ListTaskHistoryRequest)
| PostInstancesTaskHistoryList (decoded : res ListInstanceTaskHistoryRequest).

Definition route (h : Handler) (requestID : string) (ctx : Ctx) (q : HttpRequest) : W -> Reply Body * W :=
  match q with
  | PostDefinitionsCreate d => http_CreateDefinition h requestID ctx d
  | PostDefinitionsUpdate d => http_UpdateDefinition h requestID ctx d
  | PostDefinitionsPublish d => http_PublishDefinition h requestID ctx d
  | PostDefinitionsDisable d => http_DisableDefinition h requestID ctx d
  | PostDefinitionsGet d => http_GetDefinition h requestID ctx d
  | PostDefinitionsList d => http_ListDefinitions h requestID ctx d
  | PostInstancesStart d => http_StartInstance h requestID ctx d
  | PostInstancesCancel d => http_CancelInstance h requestID ctx d
  | PostInstancesGet d => http_GetInstance h requestID ctx d
  | PostInstancesList d => http_ListInstances h requestID ctx d
  | PostInstancesStartDefinitionsList d => http_ListStartDefinitionCandidates h requestID ctx d
  | PostInstancesDefinitionsList d => http_ListInstanceDefinitionCandidates h requestID ctx d
  | PostTasksClaim d => http_ClaimTask h requestID ctx d
  | PostTasksComplete d => http_CompleteTask h requestID ctx d
  | PostTasksDelegate d => http_DelegateTask h requestID ctx d
  | PostTasksGet d => http_GetTask h requestID ctx d
  | PostTasksList d => http_ListTasks h requestID ctx d
  | PostTasksInstancesList d => http_ListTaskInstanceCandidates h requestID ctx d
  | PostTasksHistoryList d => http_ListTaskHistory h requestID ctx d
  | PostInstancesTaskHistoryList d => http_ListInstanceTaskHistory h requestID ctx d
  end.
End handlers.
