(* ===== verification/HttpSpec.v ===== *)
(** * The contract of the HTTP handlers

    A handler answers 400 or 503 without touching the service, or makes exactly one
    service request and answers with its outcome; its bodies can always be rendered;
    and the two transports tell the same errors apart. *)
From S2P Require Import Prelude GoStd Json Model GraphCodec Graph World.
From S2P Require Import Repository Service ServiceSpec GrpcServer HttpDto AppError HttpServer.
From Stdlib Require Import Ascii String.
Local Open Scope string_scope.
Local Open Scope list_scope.

Lemma given_spec s : given s = true <-> s <> "".
Proof. unfold given, str_empty. rewrite negb_true_iff. apply String.eqb_neq. Qed.

Lemma bind_spec {T} `{Binding T} {EC : ErrorCodes} h (decoded : res T) :
  match bind h decoded with
  | Ok r => decoded = Ok r /\ required r = true /\ h_enabled h = true
  | Err a => ae_HTTPStatus a ∈ [StatusBadRequest; StatusServiceUnavailable]
  end.
Proof.
  unfold bind, ShouldBindJSON. destruct (h_enabled h); simpl; [|by right; left].
  destruct decoded as [r|e]; simpl; [|by left]. destruct (required r) eqn:Hr; simpl; [done|by left].
Qed.

Section requests.
Context {EC : ErrorCodes}.

(** The service request a handler makes of a bound body. *)
Definition bound (h : Handler) (q : HttpRequest) : result AppError request :=
  match q with
  | PostDefinitionsCreate d => r ← bind h d; mret (RqCreateDefinition
      (mkCreateDefinitionInput (qcd_TenantID r) (qcd_ApplicationID r) (qcd_Key r) (qcd_Name r)
         (qcd_Description r) (nodesFromDTO (qcd_Nodes r)) (edgesFromDTO (qcd_Edges r))))
  | PostDefinitionsUpdate d => r ← bind h d; mret (RqUpdateDefinition
      (mkUpdateDefinitionInput (qud_ID r) (qud_TenantID r) (qud_ApplicationID r) (qud_Name r)
         (qud_Description r) (nodesFromDTO (qud_Nodes r)) (edgesFromDTO (qud_Edges r)) (qud_ExpectedVersion r)))
  | PostDefinitionsPublish d => r ← bind h d; mret (RqPublishDefinition
      (qvd_TenantID r) (qvd_ApplicationID r) (qvd_ID r) (qvd_ExpectedVersion r))
  | PostDefinitionsDisable d => r ← bind h d; mret (RqDisableDefinition
      (qvd_TenantID r) (qvd_ApplicationID r) (qvd_ID r) (qvd_ExpectedVersion r))
  | PostDefinitionsGet d => r ← bind h d; mret (RqGetDefinition
      (qgd_TenantID r) (qgd_ApplicationID r) (qgd_ID r) (qgd_Revision r))
  | PostDefinitionsList d => r ← bind h d; mret (RqListDefinitions
      (mkDefinitionFilter (qld_TenantID r) (qld_ApplicationID r) (qld_Status r) (qld_Search r) (qld_Page r)
         (qld_PageSize r)))
  | PostInstancesStart d => r ← bind h d; mret (RqStartInstance
      (mkStartInstanceInput (qsi_TenantID r) (qsi_ApplicationID r) (qsi_DefinitionKey r) (qsi_BusinessKey r)
         (qsi_Title r) (rawObject (qsi_VariablesJSON r)) (qsi_IdempotencyKey r)))
  | PostInstancesCancel d => r ← bind h d; mret (RqCancelInstance
      (qci_TenantID r) (qci_ApplicationID r) (qci_ID r) (qci_Reason r) (qci_ExpectedVersion r))
  | PostInstancesGet d => r ← bind h d; mret (RqGetInstance
      (qgi_TenantID r) (qgi_ApplicationID r) (qgi_ID r))
  | PostInstancesList d => r ← bind h d; mret (RqListInstances
      (mkInstanceFilter (qli_TenantID r) (qli_ApplicationID r) (qli_DefinitionID r) (qli_Status r)
         (qli_StarterID r) (qli_Search r) (qli_StartedFrom r) (qli_StartedUntil r) (qli_Page r) (qli_PageSize r)))
  | PostInstancesStartDefinitionsList d => r ← bind h d; mret (RqListStartDefinitionCandidates
      (mkDefinitionFilter (qldc_TenantID r) (qldc_ApplicationID r) "" (qldc_Search r) (qldc_Page r)
         (qldc_PageSize r)))
  | PostInstancesDefinitionsList d => r ← bind h d; mret (RqListInstanceDefinitionCandidates
      (mkDefinitionFilter (qldc_TenantID r) (qldc_ApplicationID r) "" (qldc_Search r) (qldc_Page r)
         (qldc_PageSize r)))
  | PostTasksClaim d => r ← bind h d; mret (RqClaimTask
      (qtv_TenantID r) (qtv_ApplicationID r) (qtv_ID r) (qtv_ExpectedVersion r))
  | PostTasksComplete d => r ← bind h d; mret (RqCompleteTask
      (qct_TenantID r) (qct_ApplicationID r) (qct_ID r) (qct_Decision r) (qct_Comment r)
      (rawObject (qct_OutputJSON r)) (qct_ExpectedVersion r))
  | PostTasksDelegate d => r ← bind h d; mret (RqDelegateTask
      (qdt_TenantID r) (qdt_ApplicationID r) (qdt_ID r) (qdt_DelegateTo r) (qdt_Reason r) (qdt_ExpectedVersion r))
  | PostTasksGet d => r ← bind h d; mret (RqGetTask (qgt_TenantID r) (qgt_ApplicationID r) (qgt_ID r))
  | PostTasksList d => r ← bind h d; mret (RqListMyTasks
      (mkTaskFilter (qlt_TenantID r) (qlt_ApplicationID r) (qlt_InstanceID r) (qlt_Status r) "" (qlt_Search r)
         [] false (qlt_Page r) (qlt_PageSize r)))
  | PostTasksInstancesList d => r ← bind h d; mret (RqListMyTaskInstanceCandidates
      (mkTaskInstanceCandidateFilter (qlti_TenantID r) (qlti_ApplicationID r) (qlti_Search r) "" [] false
         (qlti_Page r) (qlti_PageSize r)))
  | PostTasksHistoryList d => r ← bind h d; mret (RqListTaskHistory
      (mkTaskHistoryFilter (qlth_TenantID r) (qlth_ApplicationID r) (qlth_TaskID r) "" (qlth_Page r)
         (qlth_PageSize r)))
  | PostInstancesTaskHistoryList d => r ← bind h d; mret (RqListTaskHistory
      (mkTaskHistoryFilter (qlith_TenantID r) (qlith_ApplicationID r) "" (qlith_InstanceID r) (qlith_Page r)
         (qlith_PageSize r)))
  end.

(** The raw documents of a body. *)
Definition node_documents (n : WorkflowNodeDTO) : list string := [nd_RequestTemplateJSON n; nd_ConfigJSON n].
Definition definition_documents (d : DefinitionDTO) : list string := dd_Nodes d ≫= node_documents.
Definition instance_documents (i : InstanceDTO) : list string := [idto_VariablesJSON i; idto_ResultJSON i].
Definition task_documents (t : TaskDTO) : list string := [td_InputJSON t; td_OutputJSON t].
Definition raw_documents (b : Body) : list string :=
  match b with
  | BDefinition d => definition_documents d
  | BDefinitions p => pd_Items p ≫= definition_documents
  | BInstance i => instance_documents i
  | BInstances p => pd_Items p ≫= instance_documents
  | BTask t => task_documents t
  | BCompleted c => task_documents (ctb_Task c) ++ instance_documents (ctb_Instance c)
  | BTasks p => pd_Items p ≫= task_documents
  | BTaskHistory p => thd_DetailJSON <$> pd_Items p
  | BDefinitionCandidates _ | BTaskInstances _ => []
  end.
Definition renders (b : Body) : Prop := Forall (fun d => Valid d = true) (raw_documents b).

Lemma Forall_documents {A B} (P : string -> Prop) (f : A -> B) (docs : B -> list string) (l : list A) :
  (forall a, Forall P (docs (f a))) -> Forall P ((f <$> l) ≫= docs).
Proof. intros Hf. induction l as [|a l IH]; csimpl; [constructor|]. by apply Forall_app_2. Qed.

Lemma renders_definition d : Forall (fun d => Valid d = true) (definition_documents (definitionDTO d)).
Proof. apply Forall_documents. intros n. repeat constructor; apply rawObject_Valid. Qed.
Lemma renders_instance i : Forall (fun d => Valid d = true) (instance_documents (instanceDTO i)).
Proof. repeat constructor; apply rawObject_Valid. Qed.
Lemma renders_task t : Forall (fun d => Valid d = true) (task_documents (taskDTO t)).
Proof. repeat constructor; apply rawObject_Valid. Qed.
Lemma renders_history l : Forall (fun d => Valid d = true) (thd_DetailJSON <$> (taskHistoryDTO <$> l)).
Proof. induction l; csimpl; constructor; [apply rawObject_Valid|done]. Qed.
End requests.

Create HintDb renders.
#[export] Hint Resolve renders_definition renders_instance renders_task renders_history Forall_documents
  Forall_app_2 Forall_nil_2 : renders.

Section properties.
Context {W : Type} {ST : Store W} {AR : AssignmentResolver W} {SE : ServiceEnv W} {MR : MapRange}
  {EC : ErrorCodes}.

(** What a handler answers, given what the service answers. *)
Definition replies (requestID : string) (service : res unit * W) (server : Reply Body * W) : Prop :=
  server.2 = service.2 /\
  match service.1 with
  | Ok _ => exists body, renders body /\ server.1 = OK requestID body
  | Err e => server.1 = Fail requestID (inl (workflowHTTPError e))
  end.

Lemma respond_replies {A} requestID (body : A -> Body) (m : stE W error A) w :
  (forall a, renders (body a)) -> replies requestID (answered m w) (respond requestID body m w).
Proof.
  unfold replies, answered, respond, mbind, stE_bind. intros Hb.
  destruct (m w) as [[a|e] w']; simpl; [|done]. split; [done|]. by exists (body a).
Qed.

(** One handler: the bound request is the service's. *)
Lemma handler_refines {T A} `{Binding T} h requestID (decoded : res T) (rq : T -> request)
    (body : A -> Body) (op : T -> stE W error A) ctx w :
  (forall r, required r = true -> (scope (rq r)).1 <> "") ->
  (forall r, serve ctx (rq r) = answered (op r)) ->
  (forall a, renders (body a)) ->
  match (r ← bind h decoded; mret (rq r)) with
  | Err a => ae_HTTPStatus a ∈ [StatusBadRequest; StatusServiceUnavailable] /\
             handler h requestID decoded (fun r => respond requestID body (op r)) w = (Fail requestID (inl a), w)
  | Ok q => (scope q).1 <> "" /\
            replies requestID (serve ctx q w) (handler h requestID decoded (fun r => respond requestID body (op r)) w)
  end.
Proof.
  intros Hs Hop Hb. unfold handler. pose proof (bind_spec h decoded) as Hbind.
  destruct (bind h decoded) as [r|a]; simpl; [|done].
  destruct Hbind as (_ & Hr & _). split; [by apply Hs|]. rewrite Hop. by apply respond_replies.
Qed.

Lemma route_refines h requestID ctx q (w : W) :
  match bound h q with
  | Err a => ae_HTTPStatus a ∈ [StatusBadRequest; StatusServiceUnavailable] /\
             route h requestID ctx q w = (Fail requestID (inl a), w)
  | Ok rq => (scope rq).1 <> "" /\ replies requestID (serve ctx rq w) (route h requestID ctx q w)
  end.
Proof.
  destruct q; cbn [bound route];
    unfold http_ListStartDefinitionCandidates, http_ListInstanceDefinitionCandidates, listDefinitionCandidates,
      http_ListTaskHistory, http_ListInstanceTaskHistory, respondTaskHistory;
    (eapply handler_refines; [|reflexivity|]);
    try (intros r Hr; cbn [scope fst]; apply given_spec; unfold required in Hr;
         match type of Hr with ?b _ = true => unfold b in Hr end; by repeat (apply andb_prop in Hr as [Hr ?]));
    try (intros a; unfold renders; cbn [raw_documents pageDTO pd_Items]; by eauto with renders).
  intros [t i]. unfold renders. cbn [raw_documents ctb_Task ctb_Instance]. auto with renders.
Qed.

End properties.

(** ** Errors across the transports *)

(** The HTTP status that goes with a gRPC code. *)
Definition http_status (c : GrpcServer.Code) : Z :=
  match c with
  | GrpcServer.InvalidArgument => 400 | GrpcServer.Unauthenticated => 401
  | GrpcServer.PermissionDenied => 403 | GrpcServer.NotFound => 404
  | GrpcServer.Aborted | GrpcServer.FailedPrecondition => 409
  | GrpcServer.Unavailable => 503
  | _ => 500
  end%Z.

(** The business code of a domain error: it also tells the two 409 apart. *)
Definition sentinel_business `{ErrorCodes} (s : sentinel) : Z :=
  match s with
  | ErrInvalid => CodeInvalidArgument | ErrActorRequired => CodeUnauthorized | ErrNotFound => CodeNotFound
  | ErrForbidden => CodeForbidden | ErrVersionConflict => CodeStaleVersion | ErrConflict => CodeConflict
  end.

Definition public_texts : list string := [
  "invalid workflow request"; "authentication required"; "workflow resource not found";
  "workflow operation is forbidden"; "resource version is stale"; "workflow resource conflict";
  "application authorization is unavailable"; "internal server error" ].

(** What an error wraps is one thing: a sentinel, or an error of a library. *)
Lemma errors_Is_one_leaf e f : errors_Is_foreign e f = true ->
  (forall s, errors_Is e s = false) /\ (forall f', errors_Is_foreign e f' = bool_decide (f = f')).
Proof. induction e; simpl; try done. intros H%bool_decide_eq_true_1. by subst. Qed.

(** C29. The two transports tell the same errors apart.  The HTTP status is the one of
    the gRPC code of the error, a cancelled or expired context included, which HTTP
    answers with 500; a domain error has its own business code, which also tells the
    two kinds of conflict apart; the message is one of eight fixed texts and the body
    null, and the error itself goes to the log exactly when it is internal. *)
Theorem transports_agree `{GrpcStatus} {EC : ErrorCodes} (requestID : string) (e : error) :
  let reply := Fail (B := Body) requestID (inl (workflowHTTPError e)) in
  rp_Status reply = http_status (st_code (grpcError e)) /\
  (forall s, errors_Is e s = true -> resp_Code (rp_Response reply) = sentinel_business s) /\
  resp_Message (rp_Response reply) ∈ public_texts /\
  resp_Body (rp_Response reply) = None /\
  rp_Logged reply = (if (500 <=? rp_Status reply)%Z then Some (Some e) else None).
Proof.
  cbv zeta. destruct (FromContextError_code e) as [Hd Hc]. pose proof (errors_Is_unique e) as Hu.
  assert (Hin : forall t, List.In t public_texts -> t ∈ public_texts) by (intros t; apply list_elem_of_In).
  assert (Hctx : context_error e = true -> (forall s, errors_Is e s = false) /\
            errors_Is_foreign e AppUnavailable = false /\ http_status (st_code (FromContextError e)) = 500%Z).
  { unfold context_error. intros Hx. destruct (errors_Is_foreign e ContextDeadline) eqn:H2.
    - destruct (errors_Is_one_leaf e _ H2) as [Hs Hf]. split; [done|]. rewrite Hf, Hd by done. done.
    - rewrite orb_false_r in Hx. destruct (errors_Is_one_leaf e _ Hx) as [Hs Hf]. split; [done|].
      rewrite Hf, Hc by done. done. }
  unfold workflowHTTPError, grpcError. fold (context_error e). destruct (context_error e).
  { destruct Hctx as (Hs & Hf & Hst); [done|]. rewrite !Hs, Hf, Hst. simpl.
    split; [done|]. split; [intros s Hs'; by rewrite Hs in Hs'|]. split; [apply Hin; simpl; tauto|done]. }
  repeat match goal with
  | |- context [if errors_Is e ?s then _ else _] =>
      let Hs := fresh "Hs" in destruct (errors_Is e s) eqn:Hs;
      [split; [done|]; split; [intros s' Hs'; by rewrite (Hu _ _ Hs' Hs)|]; split; [apply Hin; simpl; tauto|done]|]
  end.
  assert (Hnone : forall s, errors_Is e s = true -> False) by (intros [] Hs'; congruence).
  destruct (errors_Is_foreign e AppUnavailable);
    (split; [done|]; split; [intros s Hs'; by apply Hnone in Hs'|]; split; [apply Hin; simpl; tauto|done]).
Qed.
