(* ===== verification/Middleware.v ===== *)
(** * The HTTP middlewares (internal/transport/http/middleware.go, server.go)

    A gin handler transforms the request's context and the state of the service; a
    middleware takes the rest of the chain ([c.Next]).  A middleware that answers
    aborts the chain, so not calling the rest is not to return.  Logging, metrics,
    tracing and the recovery from panics do not change the answer and are left out. *)
From S2P Require Import Prelude GoStd Json Model GraphCodec World PathMatch Config Auth AppError.
From Stdlib Require Import Ascii String.
From stdpp Require Import pretty.
Local Open Scope string_scope.
Local Open Scope list_scope.

Section middleware.
Context {W B : Type} {EC : ErrorCodes}.

(** ** gin.Context *)

(** What has been written: an envelope, or a status alone. *)
Inductive Written : Type :=
| WroteJSON (reply : Reply B)
| WroteStatus (status : Z).

Definition written_status (x : Written) : Z :=
  match x with WroteJSON r => rp_Status r | WroteStatus s => s end.

Record Gin : Type := mkGin {
  g_Method : string; g_FullPath : string; g_GetHeader : string -> string; g_ContentLength : Z;
  g_ClientIP : string; g_TLS : bool;
  g_Body : res string;                   (** what reading the body gives *)
  g_RequestID : option string; g_Subject : option string; g_Environment : option string;
  g_IdempotencyKey : option string; g_Principal : option Principal; g_Credential : option string;
  g_Headers : gmap string string;        (** of the answer *)
  g_Written : option Written
}.

Definition set_body body (g : Gin) : Gin :=
  mkGin (g_Method g) (g_FullPath g) (g_GetHeader g) (g_ContentLength g) (g_ClientIP g) (g_TLS g) body
    (g_RequestID g) (g_Subject g) (g_Environment g) (g_IdempotencyKey g) (g_Principal g) (g_Credential g)
    (g_Headers g) (g_Written g).
Definition set_request_id id (g : Gin) : Gin :=
  mkGin (g_Method g) (g_FullPath g) (g_GetHeader g) (g_ContentLength g) (g_ClientIP g) (g_TLS g) (g_Body g)
    (Some id) (g_Subject g) (g_Environment g) (g_IdempotencyKey g) (g_Principal g) (g_Credential g)
    (g_Headers g) (g_Written g).
Definition set_environment e (g : Gin) : Gin :=
  mkGin (g_Method g) (g_FullPath g) (g_GetHeader g) (g_ContentLength g) (g_ClientIP g) (g_TLS g) (g_Body g)
    (g_RequestID g) (g_Subject g) (Some e) (g_IdempotencyKey g) (g_Principal g) (g_Credential g)
    (g_Headers g) (g_Written g).
Definition set_key key (g : Gin) : Gin :=
  mkGin (g_Method g) (g_FullPath g) (g_GetHeader g) (g_ContentLength g) (g_ClientIP g) (g_TLS g) (g_Body g)
    (g_RequestID g) (g_Subject g) (g_Environment g) (Some key) (g_Principal g) (g_Credential g)
    (g_Headers g) (g_Written g).
Definition set_identity subject principal credential (g : Gin) : Gin :=
  mkGin (g_Method g) (g_FullPath g) (g_GetHeader g) (g_ContentLength g) (g_ClientIP g) (g_TLS g) (g_Body g)
    (g_RequestID g) (Some subject) (g_Environment g) (g_IdempotencyKey g) (Some principal) (Some credential)
    (g_Headers g) (g_Written g).
(** [c.Header] *)
Definition header (key value : string) (g : Gin) : Gin :=
  mkGin (g_Method g) (g_FullPath g) (g_GetHeader g) (g_ContentLength g) (g_ClientIP g) (g_TLS g) (g_Body g)
    (g_RequestID g) (g_Subject g) (g_Environment g) (g_IdempotencyKey g) (g_Principal g) (g_Credential g)
    (<[key := value]> (g_Headers g)) (g_Written g).
(** An answer; no request is answered twice. *)
Definition answer (x : Written) (g : Gin) : Gin :=
  mkGin (g_Method g) (g_FullPath g) (g_GetHeader g) (g_ContentLength g) (g_ClientIP g) (g_TLS g) (g_Body g)
    (g_RequestID g) (g_Subject g) (g_Environment g) (g_IdempotencyKey g) (g_Principal g) (g_Credential g)
    (g_Headers g) (Some x).

Definition requestID (g : Gin) : string := default "" (g_RequestID g).

Definition abort_json (status code : Z) (message : string) (g : Gin) : Gin :=
  answer (WroteJSON (mkReply status (mkResponse code message None (requestID g)) None)) g.
Definition fail (err : AppError) (g : Gin) : Gin := answer (WroteJSON (Fail (requestID g) (inl err))) g.

Definition HandlerFunc : Type := Gin -> W -> Gin * W.
Definition MiddlewareFunc : Type := HandlerFunc -> HandlerFunc.

(** What the middlewares use of other packages: random bytes, the clock, the clock
    behind a context's deadline, [mime.ParseMediaType] (the media type, or an
    error), [sha256] in hexadecimal, and the platform's check of idempotency keys. *)
Class HttpEnv := {
  rand_Read : W -> option string * W;      (** 16 random bytes *)
  UnixNano : W -> Z;
  deadline_exceeded : W -> bool;
  ParseMediaType : string -> option string;
  sha256_hex : string -> string;
  idempotency_Valid : string -> bool
}.

Section with_env.
Context {HE : HttpEnv}.

(** [requestid.Generate]: the bytes in hexadecimal. *)
Fixpoint hex_encode (s : string) : string :=
  match s with
  | EmptyString => EmptyString
  | String c s' => String (hex_digit (N_of_ascii c / 16)) (String (hex_digit (N_of_ascii c mod 16)) (hex_encode s'))
  end.
Definition requestid_Generate (w : W) : string * W :=
  match rand_Read w with
  | (Some value, w') => (hex_encode value, w')
  | (None, w') => ("fallback-" +:+ print_Z (UnixNano w'), w')
  end.

(** ** The global chain *)

Definition RequestID : MiddlewareFunc := fun next g w =>
  let given := g_GetHeader g "X-Request-ID" in
  let '(id, w') := if requestid_Valid given then (given, w) else requestid_Generate w in
  next (header "X-Request-ID" id (set_request_id id g)) w'.

Definition Environment (profile : string) : MiddlewareFunc := fun next g w => next (set_environment profile g) w.

Definition IdempotencyKey : MiddlewareFunc := fun next g w =>
  let key := g_GetHeader g "Idempotency-Key" in
  if str_empty key then next g w
  else if negb (idempotency_Valid key) then (fail (Invalid "invalid Idempotency-Key" None) g, w)
  else next (set_key key (header "Idempotency-Key" key g)) w.

Definition SecurityHeaders : MiddlewareFunc := fun next g w =>
  let g1 := header "Cache-Control" "no-store"
    (header "Content-Security-Policy" "default-src 'none'; frame-ancestors 'none'"
    (header "Referrer-Policy" "no-referrer"
    (header "X-Frame-Options" "DENY" (header "X-Content-Type-Options" "nosniff" g)))) in
  let g2 := if g_TLS g then header "Strict-Transport-Security" "max-age=31536000; includeSubDomains" g1 else g1 in
  next g2 w.

Definition second : Z := 1000000000.

Definition CORS (cfg : config.CORS) : MiddlewareFunc := fun next g w =>
  if negb (config.cors_Enabled cfg) then next g w else
  let origin := g_GetHeader g "Origin" in
  if str_empty origin then next g w else
  if negb (existsb (String.eqb origin) (config.cors_AllowedOrigins cfg))
  then (abort_json StatusForbidden CodeForbidden "origin is not allowed" g, w)
  else
    let g' := header "Access-Control-Max-Age" (pretty (Z.quot (config.cors_MaxAge cfg) second))
      (header "Access-Control-Expose-Headers" (String.concat ", " (config.cors_ExposedHeaders cfg))
      (header "Access-Control-Allow-Headers" (String.concat ", " (config.cors_AllowedHeaders cfg))
      (header "Access-Control-Allow-Methods" "POST, GET, OPTIONS"
      (header "Vary" "Origin" (header "Access-Control-Allow-Origin" origin g))))) in
    if String.eqb (g_Method g) "OPTIONS" then (answer (WroteStatus StatusNoContent) g', w) else next g' w.

(** [http.MaxBytesReader]: reading more than the limit is an error. *)
Definition MaxBody (limit : Z) : MiddlewareFunc := fun next g w =>
  next (set_body (match g_Body g with
                  | Ok body => if (limit <? Z.of_nat (String.length body))%Z
                               then Err (Foreign (OtherError "http: request body too large")) else Ok body
                  | Err e => Err e
                  end) g) w.

Definition Timeout : MiddlewareFunc := fun next g w =>
  let '(g', w') := next g w in
  match g_Written g' with
  | None => if deadline_exceeded w' then (fail RequestTimeout g', w') else (g', w')
  | Some _ => (g', w')
  end.

Definition RequireJSON : MiddlewareFunc := fun next g w =>
  if String.eqb (g_Method g) "POST" && negb (g_ContentLength g =? 0)%Z
     && negb (bool_decide (ParseMediaType (g_GetHeader g "Content-Type") = Some "application/json"))
  then (abort_json StatusUnsupportedMediaType CodeInvalidArgument "content type must be application/json" g, w)
  else next g w.

(** ** Rate limits *)

(** [d.Round(time.Second) / time.Second] for a duration away from the bounds of int64. *)
Definition round_seconds (d : Z) : Z :=
  let r := Z.rem d second in
  if (0 <=? d)%Z then (if (r + r <? second)%Z then d - r else d + second - r) / second
  else Z.quot (if (- r + - r <? second)%Z then d - r else d - second - r) second.

Definition RateLimit (limiter : Limiter W) (rule : config.RateLimitRule) (dimension : string)
    (keyFunc : Gin -> string) : MiddlewareFunc := fun next g w =>
  if negb (lm_enabled limiter) then next g w else
  let key := keyFunc g in
  if str_empty key then next g w else
  match Allow limiter ("rate:" +:+ dimension +:+ ":" +:+ key) rule w with
  | (Err err, w') => if lm_failOpen limiter then next g w'
                     else (fail (Unavailable "rate limiter unavailable" (Some err)) g, w')
  | (Ok result, w') =>
      let g' := header "X-RateLimit-Remaining" (pretty (rr_Remaining result))
        (header "X-RateLimit-Limit" (pretty (rr_Limit result)) g) in
      if negb (rr_Allowed result) then
        let retry := Z.max 1 (round_seconds (rr_RetryAfter result)) in
        (fail TooManyRequests (header "Retry-After" (pretty retry) g'), w')
      else next g' w'
  end.

(** ** Authentication and authorization *)

(** [auth.Service]: the verifier of the identity provider, if one is configured, and
    the parser of the service's own tokens. *)
Record AuthService : Type := mkAuthService {
  sv_verifier : option (string -> stE W error Principal);
  sv_Parse : W -> string -> res string
}.

Definition Verify (s : AuthService) (raw : string) : stE W error Principal := fun w =>
  match sv_verifier s with
  | Some verify => verify raw w
  | None => match sv_Parse s w raw with
            | Err err => (Err err, w)
            | Ok subject => (Ok (mkPrincipal subject "" "" TypeUser), w)
            end
  end.

Definition JWT (service : AuthService) : MiddlewareFunc := fun next g w =>
  let authorization := g_GetHeader g "Authorization" in
  match bearer authorization with
  | None => (fail (Unauthorized "missing bearer token") g, w)
  | Some raw =>
      match Verify service raw w with
      | (Err _, w') => (fail (Unauthorized "invalid or expired token") g, w')
      | (Ok who, w') => next (set_identity (pr_ID who) who authorization g) w'
      end
  end.

Definition psk_principal : Principal := mkPrincipal "workflow-service:psk" "" "" TypeServiceAccount.

Definition Authentication (service : AuthService) (cfg : config.Auth) : MiddlewareFunc := fun next g w =>
  let psk := config.auth_PSK cfg in
  let authorization := g_GetHeader g "Authorization" in
  if config.psk_Enabled psk && MatchesAny (g_FullPath g) (config.psk_HTTPPaths psk) then
    if negb (VerifyPSK authorization (config.psk_Key psk))
    then (fail (Unauthorized "missing or invalid PSK") g, w)
    else next (set_identity "psk" psk_principal authorization g) w
  else if MatchesAny (g_FullPath g) (config.auth_SkipHTTPPaths cfg) then next g w
  else JWT service next g w.

(** [platformauthz]: a requirement on the principal, and who decides on it. *)
Record Requirement : Type := mkRequirement { rq_Resource : string; rq_Action : string }.

Record Authorizer : Type := mkAuthorizer {
  Enforce : option Principal -> option string -> Requirement -> stE W error unit;
  is_ErrDecisionUnavailable : error -> bool
}.

Definition workflowHTTPRequirement (route : string) : option Requirement :=
  let requirements : gmap string Requirement := list_to_map [
    ("/api/v1/workflow/definitions/create", mkRequirement "workflow.definition" "create");
    ("/api/v1/workflow/definitions/update", mkRequirement "workflow.definition" "update");
    ("/api/v1/workflow/definitions/publish", mkRequirement "workflow.definition" "publish");
    ("/api/v1/workflow/definitions/disable", mkRequirement "workflow.definition" "disable");
    ("/api/v1/workflow/definitions/get", mkRequirement "workflow.definition" "read");
    ("/api/v1/workflow/definitions/list", mkRequirement "workflow.definition" "list");
    ("/api/v1/workflow/instances/start", mkRequirement "workflow.instance" "start");
    ("/api/v1/workflow/instances/cancel", mkRequirement "workflow.instance" "cancel");
    ("/api/v1/workflow/instances/get", mkRequirement "workflow.instance" "read");
    ("/api/v1/workflow/instances/list", mkRequirement "workflow.instance" "list");
    ("/api/v1/workflow/instances/start-definitions/list", mkRequirement "workflow.instance" "start");
    ("/api/v1/workflow/instances/definitions/list", mkRequirement "workflow.instance" "list");
    ("/api/v1/workflow/tasks/claim", mkRequirement "workflow.task" "claim");
    ("/api/v1/workflow/tasks/complete", mkRequirement "workflow.task" "complete");
    ("/api/v1/workflow/tasks/delegate", mkRequirement "workflow.task" "delegate");
    ("/api/v1/workflow/tasks/get", mkRequirement "workflow.task" "read");
    ("/api/v1/workflow/tasks/list", mkRequirement "workflow.task" "list");
    ("/api/v1/workflow/tasks/instances/list", mkRequirement "workflow.task" "list");
    ("/api/v1/workflow/tasks/history/list", mkRequirement "workflow.task" "read");
    ("/api/v1/workflow/instances/task-history/list", mkRequirement "workflow.instance" "read") ] in
  requirements !! route.

Definition Authorization (enabled : bool) (authorizer : Authorizer) : MiddlewareFunc := fun next g w =>
  match workflowHTTPRequirement (g_FullPath g) with
  | Some requirement =>
      if negb enabled then next g w else
      match Enforce authorizer (g_Principal g) (g_Credential g) requirement w with
      | (Err err, w') =>
          if is_ErrDecisionUnavailable authorizer err
          then (fail (Unavailable "authorization decision is unavailable" (Some err)) g, w')
          else (fail (Forbidden "permission denied") g, w')
      | (Ok _, w') => next g w'
      end
  | None => next g w
  end.

(** ** Idempotent execution *)

Inductive IdempotencyState : Type :=
| StateAcquired | StateProcessing | StateCompleted | StateFailed | StateConflict | StateUnknown.

Record Failure : Type := mkFailure { fl_Code : Z; fl_Message : string; fl_HTTPStatus : Z }.

Section idempotency.
(** The encoding of an envelope: [json.Marshal], and [json.Unmarshal] of it. *)
Context {Raw : Type} (unmarshal : Raw -> option (Response B)) (marshal : Response B -> Raw).

Record Decision : Type := mkDecision {
  dn_State : IdempotencyState; dn_Owner : string; dn_Response : Raw; dn_Failure : Failure
}.

Record IdempotencyManager : Type := mkIdempotencyManager {
  im_Enabled : bool;
  im_Begin : string -> string -> stE W error Decision;
  im_Complete : string -> string -> Response B -> stE W error unit;
  im_Fail : string -> string -> Failure -> stE W error unit
}.

Definition unmarshal_error : error := Foreign (OtherError "json").
Definition nul : string := String "000" "".

(** The body is read and put back; an anonymous subject prints as [<nil>]. *)
Definition idempotencyFingerprint (g : Gin) : res string :=
  body ← g_Body g;
  mret (sha256_hex (default "<nil>" (g_Subject g) +:+ nul +:+ g_Method g +:+ nul +:+ g_FullPath g +:+ nul +:+ body)).

(** Whether the middleware has anything to do. *)
Definition idempotent_route (manager : option IdempotencyManager) (paths : list string) (g : Gin) :
  option (string * IdempotencyManager) :=
  match g_IdempotencyKey g, manager with
  | Some key, Some m =>
      if im_Enabled m && String.eqb (g_Method g) "POST" && MatchesAny (g_FullPath g) paths then Some (key, m) else None
  | _, _ => None
  end.

Definition with_id {A} (id : string) (r : Response A) : Response A :=
  mkResponse (resp_Code r) (resp_Message r) (resp_Body r) id.

(** What the capture of the written bytes unmarshals to. *)
Definition captured (g : Gin) : option (Response B) :=
  match g_Written g with Some (WroteJSON r) => unmarshal (marshal (rp_Response r)) | _ => None end.

(** [c.Writer.Status()]: 200 until something is written. *)
Definition writer_status (g : Gin) : Z := match g_Written g with Some x => written_status x | None => StatusOK end.

(** After the chain: the result or the failure is recorded; an error is only logged. *)
Definition persist (m : IdempotencyManager) (key owner : string) (g : Gin) (w : W) : W :=
  match captured g with
  | None => w
  | Some response =>
      (if (StatusBadRequest <=? writer_status g)%Z
       then im_Fail m key owner (mkFailure (resp_Code response) (resp_Message response) (writer_status g)) w
       else im_Complete m key owner (with_id "" response) w).2
  end.

Definition IdempotencyExecution (manager : option IdempotencyManager) (paths : list string) : MiddlewareFunc :=
  fun next g w =>
  match idempotent_route manager paths g with
  | None => next g w
  | Some (key, m) =>
      match idempotencyFingerprint g with
      | Err err => (fail (Invalid "read idempotent request" (Some err)) g, w)
      | Ok fingerprint =>
          match im_Begin m key fingerprint w with
          | (Err err, w1) => (fail (Unavailable "idempotency is unavailable" (Some err)) g, w1)
          | (Ok decision, w1) =>
              match dn_State decision with
              | StateCompleted =>
                  match unmarshal (dn_Response decision) with
                  | None => (fail (Unavailable "idempotency response is unavailable" (Some unmarshal_error)) g, w1)
                  | Some response =>
                      (answer (WroteJSON (mkReply StatusOK (with_id (requestID g) response) None)) g, w1)
                  end
              | StateFailed =>
                  let f := dn_Failure decision in
                  (abort_json (fl_HTTPStatus f) (fl_Code f) (fl_Message f) g, w1)
              | StateProcessing => (fail RequestInProgress g, w1)
              | StateConflict => (fail (Conflict "idempotency key belongs to a different request" None) g, w1)
              | StateUnknown => (fail (Unavailable "idempotency state is invalid" None) g, w1)
              | StateAcquired =>
                  let '(g', w2) := next g w1 in (g', persist m key (dn_Owner decision) g' w2)
              end
          end
      end
  end.

(** ** The chain of the API *)

(** [router.Use] and [router.Group("/api/v1", ...)] of [NewServer]. *)
Definition api (cfg : config.Config) (limiter : Limiter W) (service : AuthService) (authorizer : Authorizer)
    (manager : option IdempotencyManager) : MiddlewareFunc := fun handler =>
  let limits := config.c_RateLimit cfg in
  RequestID
  (IdempotencyKey
  (Environment (config.run_ActiveProfile (config.c_Runtime cfg))
  (SecurityHeaders
  (CORS (config.http_CORS (config.c_HTTP cfg))
  (MaxBody (config.http_MaxBodyBytes (config.c_HTTP cfg))
  (Timeout
  (RequireJSON
  (RateLimit limiter (config.rl_IP limits) "ip" g_ClientIP
  (RateLimit limiter (config.rl_API limits) "api" g_FullPath
  (Authentication service (config.c_Auth cfg)
  (Authorization (config.az_Enabled (config.c_Authorization cfg)) authorizer
  (RateLimit limiter (config.rl_User limits) "user" (fun g => default "" (g_Subject g))
  (IdempotencyExecution manager (config.idem_HTTPPaths (config.c_Idempotency cfg))
   handler))))))))))))).
End idempotency.
End with_env.
End middleware.
