(* ===== verification/Contexts.v ===== *)
(** * Values in contexts (internal/requestid, internal/environment)

    The keys under which the request identifier and the profile travel, and that the
    identifiers the service makes itself are ones it accepts. *)
From S2P Require Import Prelude GoStd Json Model GraphCodec Graph World PathMatch Config Auth AppError.
From S2P Require Import Repository Service Middleware CodecSpec.
From Stdlib Require Import Ascii String.
Local Open Scope string_scope.
Local Open Scope list_scope.

(** ** [context.Context] *)

(** Each package has a [contextKey] of its own, so that no two packages share a key. *)
Inductive context_key : Type := requestid_contextKey | environment_contextKey.
#[export] Instance context_key_eq : EqDecision context_key.
Proof. solve_decision. Defined.

(** The values of a context, innermost first; all of them are strings. *)
Definition Context : Type := list (context_key * string).
Definition Background : Context := [].
Definition WithValue (ctx : Context) (key : context_key) (value : string) : Context := (key, value) :: ctx.
Fixpoint Value (ctx : Context) (key : context_key) : option string :=
  match ctx with
  | [] => None
  | (k, value) :: parent => if decide (k = key) then Some value else Value parent key
  end.

(** [v, ok := ctx.Value(key).(string)] *)
Definition string_value (ctx : Context) (key : context_key) : string * bool :=
  match Value ctx key with Some v => (v, true) | None => ("", false) end.

(** *** internal/requestid *)

Definition requestid_WithContext (ctx : Context) (id : string) : Context := WithValue ctx requestid_contextKey id.
Definition requestid_FromContext (ctx : Context) : string * bool :=
  let '(id, ok) := string_value ctx requestid_contextKey in (id, ok && negb (str_empty id)).

(** *** internal/environment *)

Definition environment_WithContext (ctx : Context) (profile : string) : Context := WithValue ctx environment_contextKey profile.
Definition environment_FromContext (ctx : Context) : string * bool := string_value ctx environment_contextKey.

(** What was put last is what is found, whatever the other package put meanwhile; an
    empty identifier counts as none, an empty profile does not. *)
Theorem context_values ctx id profile :
  requestid_FromContext (environment_WithContext (requestid_WithContext ctx id) profile) = (id, negb (str_empty id)) /\
  environment_FromContext (requestid_WithContext (environment_WithContext ctx profile) id) = (profile, true) /\
  requestid_FromContext (environment_WithContext ctx profile) = requestid_FromContext ctx /\
  environment_FromContext (requestid_WithContext ctx id) = environment_FromContext ctx /\
  requestid_FromContext Background = ("", false) /\ environment_FromContext Background = ("", false).
Proof. by repeat split. Qed.

(** ** Identifiers the service makes *)

Lemma byte_fits c : (N_of_ascii c < 256)%N.
Proof. pose proof (nat_ascii_bounded c) as H. unfold nat_of_ascii in H. lia. Qed.

Lemma hex_digit_allowed n : (n < 16)%N -> allowedCharacter (hex_digit n) = true.
Proof.
  intros Hn. assert (Hk : exists k, n = N.of_nat k /\ k < 16) by (exists (N.to_nat n); lia).
  destruct Hk as (k & -> & Hk). do 16 (destruct k as [|k]; [reflexivity|]). lia.
Qed.

Lemma hex_encode_spec s : String.length (hex_encode s) = 2 * String.length s /\ str_forall allowedCharacter (hex_encode s) = true.
Proof.
  induction s as [|c s [IH1 IH2]]; [done|]. cbn [hex_encode String.length str_forall]. split; [lia|].
  pose proof (byte_fits c). rewrite IH2, !hex_digit_allowed; [done|by apply N.mod_lt|apply N.Div0.div_lt_upper_bound; lia].
Qed.

Lemma print_N_aux_length fuel n acc : String.length (print_N_aux fuel n acc) <= fuel + String.length acc.
Proof.
  revert n acc. induction fuel as [|fuel IH]; intros n acc; cbn [print_N_aux]; [lia|].
  destruct (n <? 10)%N; [cbn; lia|]. specialize (IH (n / 10)%N (String (byte (48 + n mod 10)) acc)). cbn in IH. lia.
Qed.

Lemma size_nat_bound n k : (n < 2 ^ N.of_nat k)%N -> N.size_nat n <= k.
Proof.
  intros Hn. destruct n as [|p]; [simpl; lia|]. cbn [N.size_nat]. revert k Hn. induction p as [p IH|p IH|]; intros k Hn;
    (destruct k as [|k]; [change (2 ^ N.of_nat 0)%N with 1%N in Hn; lia|]); cbn [Pos.size_nat].
  1,2: rewrite Nat2N.inj_succ, N.pow_succ_r' in Hn; specialize (IH k ltac:(lia)); lia.
  lia.
Qed.

Lemma str_forall_impl (f g : ascii -> bool) s : (forall c, f c = true -> g c = true) -> str_forall f s = true -> str_forall g s = true.
Proof.
  intros Hfg. induction s as [|c s IH]; [done|]. cbn [str_forall]. rewrite !andb_true_iff. intros [? ?]. auto.
Qed.

Section generated.
Context {W : Type} {HE : HttpEnv (W := W)}.

(** An identifier the service makes is one it would accept: 16 random bytes give 32
    hexadecimal digits, and without them the clock - any time since 1970 that fits
    [int64] - gives a text of allowed characters, so a generated identifier survives
    the hop to a service with the same rules. *)
Theorem Generate_valid w : 
  match rand_Read w with
  | (Some value, _) => String.length value = 16
  | (None, w') => (0 <= UnixNano w' < 2 ^ 63)%Z
  end -> requestid_Valid (requestid_Generate w).1 = true.
Proof.
  unfold requestid_Generate, requestid_Valid. destruct (rand_Read w) as [[value|] w']; cbn [fst]; intros Hw.
  - destruct (hex_encode_spec value) as [Hl Hv]. rewrite Hv, Hl, Hw. destruct (hex_encode value); [simpl in Hl; lia|reflexivity].
  - set (n := Z.to_N (UnixNano w')).
    assert (Hp : print_Z (UnixNano w') = print_N n) by (unfold print_Z; by rewrite (proj2 (Z.ltb_ge _ _)) by lia).
    rewrite Hp. destruct (print_N_decimal n) as (Hd & _). change (str_empty ("fallback-" +:+ print_N n)) with false.
    rewrite length_append, str_forall_app.
    assert (Hlen : String.length (print_N n) <= 64).
    { unfold print_N. pose proof (print_N_aux_length (S (N.size_nat n)) n "") as Ha. cbn [String.length] in Ha.
      pose proof (size_nat_bound n 63) as Hs. unfold n in Hs at 1. change (N.of_nat 63) with 63%N in Hs.
      assert (Z.to_N (UnixNano w') < 2 ^ 63)%N by (change (2 ^ 63)%N with (Z.to_N (2 ^ 63)); apply Z2N.inj_lt; lia). lia. }
    rewrite (proj2 (Nat.ltb_ge _ _)) by (cbn [String.length]; lia). cbn [orb].
    assert (Ha : str_forall allowedCharacter (print_N n) = true).
    { refine (str_forall_impl is_digit _ _ _ Hd). intros c Hc. unfold allowedCharacter. rewrite Hc. by rewrite orb_true_r. }
    rewrite Ha. reflexivity.
Qed.
End generated.
