(* ===== verification/Tokens.v ===== *)
(** * The service's own tokens (internal/auth/jwt.go)

    Issuing and parsing of the tokens the service signs itself, over golang-jwt, and
    the client credentials they are issued for.  Times count nanoseconds. *)
From S2P Require Import Prelude GoStd Json Model World PathMatch Config Database Auth Middleware.
From Stdlib Require Import Ascii String.
Local Open Scope string_scope.
Local Open Scope list_scope.

(** ** golang-jwt *)

Inductive SigningMethod : Type := SigningMethodHS256 | OtherMethod (alg : string).
#[global] Instance method_eq_dec : EqDecision SigningMethod.
Proof. solve_decision. Defined.

(** [jwt.RegisteredClaims]; an audience is never set. *)
Record RegisteredClaims : Type := mkClaims {
  cl_Issuer : string; cl_Subject : string; cl_ID : string;
  cl_IssuedAt : option Z; cl_NotBefore : option Z; cl_ExpiresAt : option Z
}.
#[global] Instance claims_eq_dec : EqDecision RegisteredClaims.
Proof. solve_decision. Defined.

Record ParserOptions : Type := mkParserOptions {
  po_Issuer : string; po_ExpirationRequired : bool; po_IssuedAt : bool
}.

Record Token : Type := mkToken { tk_Method : SigningMethod; tk_Claims : RegisteredClaims; tk_Valid : bool }.

(** What golang-jwt documents.  A token carries its method and its claims and is signed
    with a key; [ParseWithClaims] asks for the key by the method, checks the signature
    and the claims against the clock: not expired (a token without an expiry only if
    none is required), not before its time, on demand not issued in the future, and of
    the issuer that is asked for, if one is.  A [NumericDate] is a time cut to whole
    seconds. *)
Class JwtLibrary := {
  NewNumericDate : Z -> Z;
  SignedString : SigningMethod -> RegisteredClaims -> string -> res string;
  ParseWithClaims : Z -> string -> (SigningMethod -> res string) -> ParserOptions -> res Token;
  decode_token : string -> option (SigningMethod * RegisteredClaims);
  verifies : string -> SigningMethod -> string -> bool;
  claims_valid : ParserOptions -> Z -> RegisteredClaims -> bool;
  numeric_date t : (NewNumericDate t <= t < NewNumericDate t + 1000000000)%Z;
  signed_token m c key raw : SignedString m c key = Ok raw -> decode_token raw = Some (m, c) /\ verifies raw m key = true;
  claims_valid_spec o now c : claims_valid o now c = true <->
    match cl_ExpiresAt c with Some e => (now < e)%Z | None => po_ExpirationRequired o = false end /\
    match cl_NotBefore c with Some n => (n <= now)%Z | None => True end /\
    match cl_IssuedAt c with Some i => po_IssuedAt o = true -> (i <= now)%Z | None => True end /\
    (po_Issuer o = "" \/ cl_Issuer c = po_Issuer o);
  parse_spec now raw keyfunc o token : ParseWithClaims now raw keyfunc o = Ok token <->
    decode_token raw = Some (tk_Method token, tk_Claims token) /\ tk_Valid token = true /\
    (exists key, keyfunc (tk_Method token) = Ok key /\ verifies raw (tk_Method token) key = true) /\
    claims_valid o now (tk_Claims token) = true
}.

(** ** Random identifiers *)

Definition url_alphabet : string := "ABCDEFGHIJKLMNOPQRSTUVWXYZabcdefghijklmnopqrstuvwxyz0123456789-_".
Definition url_char (n : N) : ascii := default "A"%char (String.get (N.to_nat n) url_alphabet).

(** [base64.RawURLEncoding.EncodeToString]: three bytes are four characters of six bits;
    one or two bytes that remain are two or three. *)
Fixpoint RawURLEncoding (s : string) : string :=
  match s with
  | String a (String b (String c s')) =>
      let '(a, b, c) := (N_of_ascii a, N_of_ascii b, N_of_ascii c) in
      String (url_char (a / 4)) (String (url_char ((a mod 4) * 16 + b / 16))
        (String (url_char ((b mod 16) * 4 + c / 64)) (String (url_char (c mod 64)) (RawURLEncoding s'))))
  | String a (String b EmptyString) =>
      let '(a, b) := (N_of_ascii a, N_of_ascii b) in
      String (url_char (a / 4)) (String (url_char ((a mod 4) * 16 + b / 16)) (String (url_char ((b mod 16) * 4)) EmptyString))
  | String a EmptyString =>
      let a := N_of_ascii a in String (url_char (a / 4)) (String (url_char ((a mod 4) * 16)) EmptyString)
  | EmptyString => EmptyString
  end%N.

(** [rand.Read] of 16 bytes, or its error. *)
Definition randomID (random : res string) : res string :=
  b ← random; Ok (RawURLEncoding b).

(** ** The service *)

Record Service : Type := mkService {
  sv_issuer : string; sv_secret : string; sv_ttl : Z; sv_clientID : string; sv_clientSecret : string
}.

Definition New (cfg : config.Config) : Service :=
  mkService (config.jwt_Issuer (config.c_JWT cfg)) (config.jwt_Secret (config.c_JWT cfg)) (config.jwt_TTL (config.c_JWT cfg))
    (config.auth_ClientID (config.c_Auth cfg)) (config.auth_ClientSecret (config.c_Auth cfg)).

Definition Enabled (s : Service) : bool :=
  (32 <=? String.length (sv_secret s))%nat && negb (str_empty (sv_clientID s)) && negb (str_empty (sv_clientSecret s)).

Definition Authenticate (s : Service) (clientID clientSecret : string) : bool :=
  if negb (Enabled s) then false
  else ConstantTimeEqual clientID (sv_clientID s) && ConstantTimeEqual clientSecret (sv_clientSecret s).

Section tokens.
Context {JL : JwtLibrary}.

Definition claims_of (s : Service) (now : Z) (subject jti : string) : RegisteredClaims :=
  mkClaims (sv_issuer s) subject jti (Some (NewNumericDate now)) (Some (NewNumericDate now))
    (Some (NewNumericDate (now + sv_ttl s))).

Definition Issue (s : Service) (random : res string) (now : Z) (subject : string) : res string :=
  if negb (Enabled s) then Err (ErrorNew "authentication is not configured")
  else
    jti ← wrap_res "create token id: %w" (randomID random);
    SignedString SigningMethodHS256 (claims_of s now subject jti) (sv_secret s).

Definition keyfunc (s : Service) (m : SigningMethod) : res string :=
  match m with
  | SigningMethodHS256 => Ok (sv_secret s)
  | OtherMethod alg => Err (Errorf "unexpected signing method %s" [alg])
  end.

Definition parser_options (s : Service) : ParserOptions := mkParserOptions (sv_issuer s) true true.

Definition Parse (s : Service) (now : Z) (raw : string) : res RegisteredClaims :=
  if negb (Enabled s) then Err (ErrorNew "authentication is not configured")
  else
    token ← wrap_res "parse jwt: %w" (ParseWithClaims now raw (keyfunc s) (parser_options s));
    if negb (tk_Valid token) then Err (ErrorNew "invalid jwt claims") else Ok (tk_Claims token).

(** The [auth.Service] of the middlewares, on a world with a clock. *)
Definition token_service {W} (s : Service) (clock : W -> Z) : AuthService (W := W) := {|
  sv_verifier := None;
  sv_Parse := fun w raw => claims ← Parse s (clock w) raw; Ok (cl_Subject claims)
|}.
End tokens.

(** ** Identifiers are as random as their bytes *)

Lemma url_char_inj n m : (n < 64)%N -> (m < 64)%N -> url_char n = url_char m -> n = m.
Proof.
  assert (H : forallb (fun i => forallb (fun j => implb (Ascii.eqb (url_char (N.of_nat i)) (url_char (N.of_nat j))) (i =? j)%nat)
    (seq 0 64)) (seq 0 64) = true) by (vm_compute; reflexivity).
  intros Hn Hm He. rewrite forallb_forall in H. specialize (H (N.to_nat n) ltac:(apply in_seq; lia)).
  rewrite forallb_forall in H. specialize (H (N.to_nat m) ltac:(apply in_seq; lia)).
  rewrite !N2Nat.id, He, Ascii.eqb_refl in H. apply Nat.eqb_eq in H. lia.
Qed.

Lemma byte_eq a b : N_of_ascii a = N_of_ascii b -> a = b.
Proof. intros H. by rewrite <- (ascii_N_embedding a), H, ascii_N_embedding. Qed.

(** Two parts of a byte determine it, and what the second part is joined with. *)
Lemma sextet (m k a a' q q' : N) : (0 < m)%N -> (q < k)%N -> (q' < k)%N -> (a / m = a' / m)%N ->
  ((a mod m) * k + q = (a' mod m) * k + q')%N -> a = a' /\ q = q'.
Proof.
  intros Hm Hq Hq' Hd Hr. assert (Hmod : (a mod m = a' mod m)%N) by nia. split; [|nia].
  rewrite (N.div_mod a m), (N.div_mod a' m) by lia. congruence.
Qed.

Lemma byte_div c d k : (0 < d)%N -> (256 <= d * k)%N -> (N_of_ascii c / d < k)%N.
Proof. intros. pose proof (N_ascii_bounded c). apply N.Div0.div_lt_upper_bound. lia. Qed.
Lemma join_bound x m k q : (0 < m)%N -> (q < k)%N -> (m * k <= 64)%N -> ((x mod m) * k + q < 64)%N.
Proof. intros. pose proof (N.mod_lt x m ltac:(lia)). nia. Qed.

Lemma last_sextet (m k a a' : N) : (0 < m)%N -> (0 < k)%N -> (a / m = a' / m)%N ->
  ((a mod m) * k = (a' mod m) * k)%N -> a = a'.
Proof. intros Hm Hk Hd Hr. apply (sextet m k a a' 0 0); [done..|lia]. Qed.
Lemma last_bound x m k : (0 < m)%N -> (m * k <= 64)%N -> (0 < k)%N -> ((x mod m) * k < 64)%N.
Proof. intros. pose proof (N.mod_lt x m ltac:(lia)). nia. Qed.

#[local] Ltac url_side :=
  repeat match goal with
  | |- (_ mod _ * _ + _ < 64)%N => apply join_bound
  | |- (_ mod _ * _ < 64)%N => apply last_bound
  | |- (N_of_ascii _ / _ < _)%N => apply byte_div
  | |- (_ mod 64 < 64)%N => apply N.mod_lt
  end; try lia.
#[local] Ltac url_chars := repeat match goal with H : url_char _ = url_char _ |- _ => apply url_char_inj in H; [|by url_side..] end.

Lemma RawURLEncoding_inj s : forall s', String.length s = String.length s' -> RawURLEncoding s = RawURLEncoding s' -> s = s'.
Proof.
  induction s as [s IH] using (induction_ltof1 _ String.length). unfold ltof in IH.
  destruct s as [|a [|b [|c s]]]; intros [|a' [|b' [|c' s']]]; try done; cbn [RawURLEncoding String.length]; intros Hlen Heq.
  - injection Heq as H1 H2. url_chars. f_equal. apply byte_eq. by apply (last_sextet 4 16).
  - injection Heq as H1 H2 H3. url_chars.
    apply (sextet 4 16) in H2 as [Ha H2]; [|by url_side..]. apply (last_sextet 16 4) in H3; [|by url_side..].
    f_equal; [|f_equal]; by apply byte_eq.
  - injection Heq as H1 H2 H3 H4 Hs. url_chars.
    apply (sextet 4 16) in H2 as [Ha H2]; [|by url_side..]. apply (sextet 16 4) in H3 as [Hb H3]; [|by url_side..].
    f_equal; [|f_equal; [|f_equal]]; [by apply byte_eq..| |apply IH; [cbn; lia|lia|exact Hs]].
    apply byte_eq. rewrite (N.div_mod (N_of_ascii c) 64), (N.div_mod (N_of_ascii c') 64) by done. congruence.
Qed.

Lemma randomID_inj b b' id : String.length b = 16 -> String.length b' = 16 ->
  randomID (Ok b) = Ok id -> randomID (Ok b') = Ok id -> b = b'.
Proof. intros Hb Hb' [= <-] [= He]. apply RawURLEncoding_inj; congruence. Qed.

(** ** What a token is worth *)

Section properties.
Context {JL : JwtLibrary}.

Lemma wrap_res_inv {A} format (r : res A) a : wrap_res format r = Ok a <-> r = Ok a.
Proof. destruct r; simpl; split; congruence. Qed.

(** A token is accepted exactly if the service signed it - or somebody with its secret -
    with HS256, and its claims hold now. *)
Lemma Parse_spec s now raw claims : Parse s now raw = Ok claims <->
  Enabled s = true /\ decode_token raw = Some (SigningMethodHS256, claims) /\
  verifies raw SigningMethodHS256 (sv_secret s) = true /\ claims_valid (parser_options s) now claims = true.
Proof.
  unfold Parse. destruct (Enabled s); simpl; [|split; [done|by intros []]]. split.
  - intros (token & Ht%wrap_res_inv & Hc)%res_bind_Ok. apply parse_spec in Ht as (Hd & Hv & (key & Hk & Hver) & Hval).
    rewrite Hv in Hc. injection Hc as <-. split; [done|]. destruct (tk_Method token); [|done]. by injection Hk as <-.
  - intros (_ & Hd & Hver & Hval).
    assert (Ht : ParseWithClaims now raw (keyfunc s) (parser_options s) = Ok (mkToken SigningMethodHS256 claims true)).
    { apply parse_spec. simpl. split_and!; [done..| |done]. by exists (sv_secret s). }
    by rewrite Ht.
Qed.

Lemma issued_parses s random t subject raw : Issue s random t subject = Ok raw ->
  exists claims, (decode_token raw = Some (SigningMethodHS256, claims) /\ cl_Issuer claims = sv_issuer s) /\
    cl_Subject claims = subject /\ forall t' claims', Parse s t' raw = Ok claims' <->
      claims' = claims /\ (NewNumericDate t <= t' < NewNumericDate (t + sv_ttl s))%Z.
Proof.
  unfold Issue. intros Hi. destruct (Enabled s) eqn:Hen; [|done]. cbn [negb] in Hi.
  apply res_bind_Ok in Hi as (jti & _ & Hs). apply signed_token in Hs as [Hd Hv].
  exists (claims_of s t subject jti). split; [done|]. split; [done|]. intros t' claims'. rewrite Parse_spec. split.
  - intros (_ & Hd' & _ & Hval). rewrite Hd in Hd'. injection Hd' as <-. split; [done|].
    apply claims_valid_spec in Hval as (He & Hn & _). simpl in He, Hn. lia.
  - intros [-> [Hn He]]. split; [done|]. split; [done|]. split; [done|]. apply claims_valid_spec. simpl.
    split_and!; [done..|by right].
Qed.

(** C40. Tokens: a token the service issues is parsed to its subject, by this service,
    from the second it is issued until its time to live is over (in whole seconds) and
    never after; no service with another non-empty issuer takes it; and whatever is
    taken as a token by a service was signed with its secret under HS256, carries an
    expiry that lies ahead, and is taken only while credentials are configured. *)
Theorem token_roundtrip s random t subject raw : Issue s random t subject = Ok raw ->
  (exists claims, cl_Subject claims = subject /\ forall t' claims', Parse s t' raw = Ok claims' <->
      claims' = claims /\ (NewNumericDate t <= t' < NewNumericDate (t + sv_ttl s))%Z) /\
  (forall s' t' claims', Parse s' t' raw = Ok claims' -> sv_issuer s' = "" \/ sv_issuer s' = sv_issuer s) /\
  (forall s' t' raw' claims', Parse s' t' raw' = Ok claims' -> Enabled s' = true /\
      verifies raw' SigningMethodHS256 (sv_secret s') = true /\ exists e, cl_ExpiresAt claims' = Some e /\ (t' < e)%Z).
Proof.
  intros Hi. destruct (issued_parses _ _ _ _ _ Hi) as (claims & [Hd Hiss] & Hsub & Hp). split; [by exists claims|]. split.
  - intros s' t' claims' (_ & Hd' & _ & Hval)%Parse_spec. rewrite Hd in Hd'. injection Hd' as <-.
    apply claims_valid_spec in Hval as (_ & _ & _ & [He|He]); simpl in He; [by left|right; congruence].
  - intros s' t' raw' claims' (Hen' & Hd' & Hv' & Hval)%Parse_spec. split; [done|]. split; [done|].
    apply claims_valid_spec in Hval as (He & _). destruct (cl_ExpiresAt claims') as [e|]; [by exists e|done].
Qed.

(** Client credentials are exactly those that are configured. *)
Lemma Authenticate_exact s id secret : Authenticate s id secret = true <->
  Enabled s = true /\ id = sv_clientID s /\ secret = sv_clientSecret s.
Proof.
  unfold Authenticate, ConstantTimeEqual. destruct (Enabled s); simpl; [|split; [done|by intros []]].
  rewrite andb_true_iff, !String.eqb_eq. tauto.
Qed.

(** The middlewares find the subject of an issued token. *)
Lemma issued_verifies {W} (clock : W -> Z) s random t subject raw w : Issue s random t subject = Ok raw ->
  (NewNumericDate t <= clock w < NewNumericDate (t + sv_ttl s))%Z ->
  Verify (token_service s clock) raw w = (Ok (mkPrincipal subject "" "" TypeUser), w).
Proof.
  intros Hi Ht. destruct (issued_parses s random t subject raw Hi) as (claims & _ & Hs & Hp).
  unfold Verify. simpl. destruct (Hp (clock w) claims) as [_ ->]; [|done]. simpl. by rewrite Hs.
Qed.
End properties.

(** ** A library for one token *)
Module Sample.

Definition secret : string := "0123456789abcdef0123456789abcdef".
Definition service : Service := mkService "workflow-service" secret 3600000000000 "console" "s3cret".
Definition bytes : string := "workflow service".
Definition at_time : Z := 1000000000.
Definition jti : string := "d29ya2Zsb3cgc2VydmljZQ".
Definition the_claims : RegisteredClaims :=
  mkClaims "workflow-service" "alice" jti (Some at_time) (Some at_time) (Some 3601000000000%Z).

Definition valid (o : ParserOptions) (now : Z) (c : RegisteredClaims) : bool :=
  match cl_ExpiresAt c with Some e => (now <? e)%Z | None => negb (po_ExpirationRequired o) end &&
  match cl_NotBefore c with Some n => (n <=? now)%Z | None => true end &&
  match cl_IssuedAt c with Some i => negb (po_IssuedAt o) || (i <=? now)%Z | None => true end &&
  (str_empty (po_Issuer o) || String.eqb (cl_Issuer c) (po_Issuer o)).
Definition decode (raw : string) : option (SigningMethod * RegisteredClaims) :=
  if String.eqb raw "e30.e30.c2ln" then Some (SigningMethodHS256, the_claims) else None.
Definition verify (raw : string) (m : SigningMethod) (key : string) : bool :=
  String.eqb raw "e30.e30.c2ln" && bool_decide (m = SigningMethodHS256) && String.eqb key secret.

#[export, refine] Instance one_token : JwtLibrary := {|
  NewNumericDate := fun t => (t / 1000000000 * 1000000000)%Z;
  SignedString := fun m c key =>
    if bool_decide (m = SigningMethodHS256 /\ c = the_claims) && String.eqb key secret then Ok "e30.e30.c2ln"
    else Err (ErrorNew "key");
  decode_token := decode; verifies := verify; claims_valid := valid;
  ParseWithClaims := fun now raw keyfunc o =>
    match decode raw with
    | None => Err (ErrorNew "malformed")
    | Some (m, c) => match keyfunc m with
        | Err e => Err e
        | Ok key => if verify raw m key && valid o now c then Ok (mkToken m c true) else Err (ErrorNew "invalid")
        end
    end
|}.
Proof.
  - intros t. pose proof (Z.div_mod t 1000000000). pose proof (Z.mod_pos_bound t 1000000000). lia.
  - intros m c key raw. destruct (bool_decide_reflect (m = SigningMethodHS256 /\ c = the_claims)) as [[-> ->]|]; [|done].
    cbn [andb]. destruct (String.eqb_spec key secret) as [->|]; [|done]. intros [= <-]. by vm_compute.
  - intros o now c. unfold valid. rewrite !andb_true_iff, orb_true_iff.
    rewrite String.eqb_eq. destruct (cl_ExpiresAt c), (cl_NotBefore c), (cl_IssuedAt c);
      rewrite ?Z.ltb_lt, ?Z.leb_le, ?orb_true_iff, ?negb_true_iff; destruct (po_IssuedAt o), (po_Issuer o);
      simpl; rewrite ?Z.leb_le; naive_solver.
  - intros now raw keyfunc o [m c v]. simpl. destruct (decode raw) as [[m' c']|]; [|split; [done|by intros []]].
    split.
    + destruct (keyfunc m') as [key|] eqn:Hk; [|done].
      destruct (verify raw m' key) eqn:Hv; [|done]. destruct (valid o now c') eqn:Hc; [|done]. intros [= <- <- <-].
      split_and!; try done. by exists key.
    + intros ([= -> ->] & -> & (key & -> & ->) & ->). done.
Defined.

Lemma token_roundtrip_witness : exists raw, Issue service (Ok bytes) at_time "alice" = Ok raw /\
  (exists claims, cl_Subject claims = "alice" /\ Parse service 2000000000 raw = Ok claims) /\
  forall claims, Parse service 3601000000000 raw <> Ok claims.
Proof.
  assert (Hi : Issue service (Ok bytes) at_time "alice" = Ok "e30.e30.c2ln") by (vm_compute; reflexivity).
  destruct (token_roundtrip service (Ok bytes) at_time "alice" "e30.e30.c2ln" Hi) as [(claims & Hs & Hp) _].
  exists "e30.e30.c2ln". split; [exact Hi|]. split.
  - exists claims. split; [exact Hs|]. apply Hp. split; [reflexivity|]. vm_compute. split; [discriminate|reflexivity].
  - intros claims' Hc. apply Hp in Hc as [_ [_ Hlt]]. vm_compute in Hlt. discriminate Hlt.
Defined.
End Sample.
