(* ===== verification/MiddlewareSpec.v ===== *)
(** * The contract of the HTTP chain

    What has happened when a handler of the API runs; and that a request repeated
    under its idempotency key is answered from the record. *)
From S2P Require Import Prelude GoStd Json Model World PathMatch Config Auth AppError Middleware.
From Stdlib Require Import Ascii String.
Local Open Scope string_scope.
Local Open Scope list_scope.

Section gate.
Context {W B : Type} {EC : ErrorCodes} {HE : HttpEnv (W := W)}.
Abbreviation Gin := (@Gin B).
Abbreviation MiddlewareFunc := (@MiddlewareFunc W B).
Implicit Types (g : Gin) (w : W).

(** What the middlewares may do to the state by themselves: count a request, look up a
    key, ask who may do what. *)
Context (R : relation W) {HR : PreOrder R}.

(** The middleware answers without the rest of the chain. *)
Definition refuses (m : MiddlewareFunc) g w : Prop :=
  exists g' w', (forall k, m k g w = (g', w')) /\ is_Some (g_Written g') /\ R w w'.
(** Or it runs the rest of the chain, once, in a context of which [Q] holds, and what
    that answers stands. *)
Definition keeps_answer (post : Gin * W -> Gin * W) : Prop :=
  (forall x, is_Some (g_Written x.1) -> (post x).1 = x.1) /\ (forall x, R x.2 (post x).2).
Definition admits_in (m : MiddlewareFunc) g w (Q : Gin -> Prop) : Prop :=
  exists g1 w1 post, (forall k, m k g w = post (k g1 w1)) /\ (R w w1 /\ keeps_answer post) /\ Q g1.
Definition guards (P : Gin -> Prop) (m : MiddlewareFunc) (Q : Gin -> Prop) : Prop :=
  forall g w, P g -> refuses m g w \/ admits_in m g w Q.

Lemma guards_compose P Q Z (m1 m2 : MiddlewareFunc) :
  guards P m1 Q -> guards Q m2 Z -> guards P (fun next => m1 (m2 next)) Z.
Proof.
  intros H1 H2 g w Hp. destruct (H1 g w Hp) as [(g' & w' & He & Hw)|(g1 & w1 & post & He & (Hr1 & Hpost & Hrp) & Hq)].
  { left. exists g', w'. split; [|done]. intros k. apply He. }
  destruct (H2 g1 w1 Hq) as [(g' & w' & He' & Hw & Hr')|(g2 & w2 & post' & He' & (Hr2 & Hpost' & Hrp') & Hr)].
  - left. pose proof (Hpost (g', w') Hw) as Hk. exists (post (g', w')).1, (post (g', w')).2. split; [|split].
    + intros k. rewrite He, He'. by destruct (post (g', w')).
    + rewrite Hk. exact Hw.
    + etrans; [exact Hr1|]. etrans; [exact Hr'|]. apply (Hrp (g', w')).
  - right. exists g2, w2, (fun x => post (post' x)). split; [intros k; by rewrite He, He'|].
    split; [|done]. split; [by etrans|]. split.
    + intros x Hx. pose proof (Hpost' x Hx) as Hx'. rewrite Hpost; [done|]. by rewrite Hx'.
    + intros x. etrans; [apply Hrp'|apply Hrp].
Qed.

Lemma keeps_id : keeps_answer (fun x => x).
Proof. by split. Qed.

Lemma guards_admit P (Q : Gin -> Prop) (m : MiddlewareFunc) f (fw : Gin -> W -> W) :
  (forall k g w, m k g w = k (f g) (fw g w)) -> (forall g w, R w (fw g w)) -> (forall g, P g -> Q (f g)) -> guards P m Q.
Proof.
  intros Hm Hw Hf g w Hp. right. exists (f g), (fw g w), (fun x => x). split; [intros k; apply Hm|].
  split; [split; [apply Hw|apply keeps_id]|]. by apply Hf.
Qed.

(** One run of a middleware: it refuses, or goes on as it is. *)
Ltac refuse := left; eexists _, _; split; [intros k; reflexivity|split; [by eexists|eauto; reflexivity]].
Ltac go_on := right; eexists _, _, (fun x => x); split; [intros k; reflexivity|];
  split; [split; [eauto; reflexivity|exact keeps_id]|].

(** A predicate that the headers of the answer do not matter to. *)
Definition header_stable (P : Gin -> Prop) : Prop := forall k v g, P g -> P (header k v g).

(** *** The parts *)

(** The services of the middlewares act within [R]. *)
Record limits_within (limiter : Limiter W) : Prop := {
  lw_backend backend key rule w : lm_backend limiter = Some backend -> R w (backend key rule w).2
}.
Record identity_within (service : AuthService (W := W)) : Prop := {
  iw_verifier verify raw w : sv_verifier service = Some verify -> R w (verify raw w).2
}.
Record decisions_within (authorizer : Authorizer (W := W)) : Prop := {
  dw_enforce who credential requirement w : R w (Enforce authorizer who credential requirement w).2
}.
Record keys_within {Raw} (manager : option (IdempotencyManager (W := W) (B := B) (Raw := Raw))) : Prop := {
  kw_begin m key fingerprint w : manager = Some m -> R w (im_Begin m key fingerprint w).2;
  kw_complete m key owner r w : manager = Some m -> R w (im_Complete m key owner r w).2;
  kw_fail m key owner f w : manager = Some m -> R w (im_Fail m key owner f w).2
}.

Lemma Allow_within limiter key rule w : limits_within limiter -> R w (Allow limiter key rule w).2.
Proof.
  intros [Hl]. unfold Allow. destruct (lm_enabled limiter); [|reflexivity]. cbn [negb].
  destruct (lm_backend limiter) as [backend|]; [|reflexivity]. specialize (Hl backend key rule w eq_refl).
  by destruct (backend key rule w) as [[r|e] w'].
Qed.

Lemma Verify_within service raw w : identity_within service -> R w (Verify service raw w).2.
Proof.
  intros [Hi]. unfold Verify. destruct (sv_verifier service) as [verify|]; [by apply Hi|].
  destruct (sv_Parse service w raw); reflexivity.
Qed.

Section parts.
Context (P : Gin -> Prop) (Hstable : header_stable P).

Lemma IdempotencyKey_guards : (forall key g, P g -> P (set_key key g)) -> guards P IdempotencyKey P.
Proof.
  intros Hkey g w Hp. unfold refuses, admits_in, IdempotencyKey.
  destruct (str_empty (g_GetHeader g "Idempotency-Key")); [by go_on|].
  destruct (idempotency_Valid (g_GetHeader g "Idempotency-Key")); simpl; [go_on; auto|refuse].
Qed.

Lemma SecurityHeaders_guards : guards P SecurityHeaders P.
Proof.
  intros g w Hp. unfold refuses, admits_in, SecurityHeaders. destruct (g_TLS g); go_on; auto 10.
Qed.

Lemma RequestID_guards : (forall w, R w (rand_Read w).2) -> (forall id g, P g -> P (set_request_id id g)) ->
  guards P RequestID P.
Proof.
  intros Hrand Hid g w Hp. unfold refuses, admits_in, RequestID, requestid_Generate. specialize (Hrand w).
  destruct (requestid_Valid _); [go_on; auto|]. destruct (rand_Read w) as [[v|] w']; cbn [snd] in Hrand; go_on; auto.
Qed.

Lemma CORS_guards cfg : guards P (CORS cfg) P.
Proof.
  intros g w Hp. unfold refuses, admits_in, CORS.
  destruct (config.cors_Enabled cfg); simpl; [|by go_on].
  destruct (str_empty _); [by go_on|].
  destruct (existsb _ _); simpl; [|refuse].
  destruct (String.eqb _ _); [refuse|].
  go_on. auto 10.
Qed.

Lemma Timeout_guards : guards P Timeout P.
Proof.
  intros g w Hp. right. exists g, w, (fun x => Timeout (fun _ _ => x) g w). split; [done|]. split; [|done].
  split; [reflexivity|]. split.
  - intros [g' w'] [x Hx]. unfold Timeout. simpl in *. by rewrite Hx.
  - intros [g' w']. unfold Timeout. destruct (g_Written g'); [reflexivity|]. destruct (deadline_exceeded w'); reflexivity.
Qed.

Lemma RequireJSON_guards : guards P RequireJSON P.
Proof.
  intros g w Hp. unfold refuses, admits_in, RequireJSON.
  destruct (_ && _); [refuse|by go_on].
Qed.

Lemma RateLimit_guards limiter rule dimension keyFunc : limits_within limiter ->
  guards P (RateLimit limiter rule dimension keyFunc) P.
Proof.
  intros Hl g w Hp. unfold refuses, admits_in, RateLimit.
  destruct (lm_enabled limiter); simpl; [|by go_on].
  destruct (str_empty _); [by go_on|].
  pose proof (Allow_within limiter ("rate:" +:+ dimension +:+ ":" +:+ keyFunc g) rule w Hl) as HA.
  destruct (Allow _ _ _ w) as [[result|err] w']; cbn [snd] in HA.
  - destruct (rr_Allowed result); simpl; [|refuse].
    go_on. auto.
  - destruct (lm_failOpen limiter); [|refuse].
    by go_on.
Qed.
End parts.

(** *** What a handler may rely on *)

(** The request is the one that came in, unless its body is too large to be read. *)
Definition routed (g0 g : Gin) : Prop :=
  g_Method g = g_Method g0 /\ g_FullPath g = g_FullPath g0 /\ g_GetHeader g = g_GetHeader g0 /\
  (g_Body g = g_Body g0 \/ exists e, g_Body g = Err e).

(** The caller showed the pre-shared key, or a token the service verified, unless the
    configuration leaves the route open. *)
Definition authenticated (service : AuthService (W := W)) (cfg : config.Auth) (g : Gin) : Prop :=
  let psk := config.auth_PSK cfg in
  let authorization := g_GetHeader g "Authorization" in
  if config.psk_Enabled psk && MatchesAny (g_FullPath g) (config.psk_HTTPPaths psk)
  then VerifyPSK authorization (config.psk_Key psk) = true /\ g_Principal g = Some psk_principal
  else if MatchesAny (g_FullPath g) (config.auth_SkipHTTPPaths cfg) then True
  else exists raw p w1 w2, bearer authorization = Some raw /\ Verify service raw w1 = (Ok p, w2) /\
       g_Principal g = Some p /\ g_Subject g = Some (pr_ID p).

(** The decision point allowed this caller what the route requires. *)
Definition authorized (enabled : bool) (authorizer : Authorizer (W := W)) (g : Gin) : Prop :=
  forall requirement, enabled = true -> workflowHTTPRequirement (g_FullPath g) = Some requirement ->
  exists w1 w2, Enforce authorizer (g_Principal g) (g_Credential g) requirement w1 = (Ok tt, w2).

Section auth_parts.
Context (P : Gin -> Prop).

Lemma Authentication_guards service cfg : identity_within service ->
  (forall s p c g, P g -> P (set_identity s p c g)) ->
  guards P (Authentication service cfg) (fun g => P g /\ authenticated service cfg g).
Proof.
  intros Hi Hset g w Hp. unfold refuses, admits_in, Authentication.
  destruct (config.psk_Enabled _ && MatchesAny (g_FullPath g) (config.psk_HTTPPaths (config.auth_PSK cfg))) eqn:Hpsk.
  { destruct (VerifyPSK _ _) eqn:Hv; simpl; [|refuse]. go_on. split; [auto|]. unfold authenticated. simpl.
    by rewrite Hpsk. }
  destruct (MatchesAny (g_FullPath g) (config.auth_SkipHTTPPaths cfg)) eqn:Hskip.
  { go_on. split; [done|]. unfold authenticated. by rewrite Hpsk, Hskip. }
  unfold JWT. destruct (bearer _) as [raw|] eqn:Hb; [|refuse].
  pose proof (Verify_within service raw w Hi) as HV.
  destruct (Verify service raw w) as [[p|e] w'] eqn:Hv; cbn [snd] in HV; [|refuse]. go_on. split; [auto|].
  unfold authenticated. simpl. rewrite Hpsk, Hskip. by exists raw, p, w, w'.
Qed.

Lemma Authorization_guards enabled authorizer : decisions_within authorizer ->
  guards P (Authorization enabled authorizer) (fun g => P g /\ authorized enabled authorizer g).
Proof.
  intros Hd g w Hp. unfold refuses, admits_in, Authorization, authorized.
  destruct (workflowHTTPRequirement (g_FullPath g)) as [r|] eqn:Hr; [|go_on; split; [done|intros; congruence]].
  destruct enabled; simpl; [|go_on; split; [done|intros; discriminate]].
  pose proof (dw_enforce _ Hd (g_Principal g) (g_Credential g) r w) as HN.
  destruct (Enforce authorizer _ _ r w) as [[[]|e] w'] eqn:He; cbn [snd] in HN.
  - go_on. split; [done|]. intros r' _ [= <-]%(eq_trans (eq_sym Hr)). by exists w, w'.
  - destruct (is_ErrDecisionUnavailable authorizer e); refuse.
Qed.

Context {Raw : Type} (unmarshal : Raw -> option (Response B)) (marshal : Response B -> Raw).

(** The manager let this request, and no other under its key, run. *)
Definition acquired (manager : option IdempotencyManager) (paths : list string) (g : Gin) : Prop :=
  forall key m, idempotent_route (Raw := Raw) manager paths g = Some (key, m) ->
  exists fingerprint decision w1 w2, idempotencyFingerprint g = Ok fingerprint /\
    im_Begin m key fingerprint w1 = (Ok decision, w2) /\ dn_State decision = StateAcquired.

Lemma persist_within manager m key owner g w : keys_within manager -> manager = Some m ->
  R w (persist unmarshal marshal m key owner g w).
Proof.
  intros [_ Hc Hf] Hm. unfold persist. destruct (captured _ _ g); [|reflexivity].
  destruct (_ <=? _)%Z; [by eapply Hf|by eapply Hc].
Qed.

Lemma IdempotencyExecution_guards manager paths : keys_within manager ->
  guards P (IdempotencyExecution unmarshal marshal manager paths) (fun g => P g /\ acquired manager paths g).
Proof.
  intros Hkw g w Hp. unfold refuses, admits_in, IdempotencyExecution, acquired.
  destruct (idempotent_route manager paths g) as [[key m]|] eqn:Hroute; [|go_on; split; [done|intros; congruence]].
  destruct (idempotencyFingerprint g) as [fp|e] eqn:Hf; [|refuse].
  assert (Hm : manager = Some m).
  { unfold idempotent_route in Hroute. destruct (g_IdempotencyKey g), manager as [m'|]; try done. destruct (_ && _); [|done].
    by injection Hroute as _ ->. }
  pose proof (kw_begin _ Hkw m key fp w Hm) as HB.
  destruct (im_Begin m key fp w) as [[d|e] w1] eqn:Hb; cbn [snd] in HB; [|refuse].
  destruct (dn_State d) eqn:Hd; try refuse.
  - right. exists g, w1, (fun x => (x.1, persist unmarshal marshal m key (dn_Owner d) x.1 x.2)).
    split; [intros k; by destruct (k g w1)|]. split; [split; [done|split; [done|intros x; by eapply persist_within]]|]. split; [done|].
    intros key' m' Heq. simplify_eq. by exists fp, d, w, w1.
  - destruct (unmarshal (dn_Response d)); refuse.
Qed.
End auth_parts.

(** *** The chain *)

(** Whoever reaches a handler of the API has passed every gate: a request is either
    answered by the chain, and no handler runs, or runs the handler exactly once and
    gets its answer unchanged; then the caller was authenticated and authorized, and on
    an idempotent route the key was acquired for this very request.  The chain itself
    stays within what its services do. *)
Lemma api_guards {Raw} (unmarshal : Raw -> option (Response B)) (marshal : Response B -> Raw)
    cfg limiter service authorizer manager g0 w :
  (forall w, R w (rand_Read w).2) -> limits_within limiter -> identity_within service ->
  decisions_within authorizer -> keys_within manager ->
  let m := api unmarshal marshal cfg limiter service authorizer manager in
  refuses m g0 w \/
  admits_in m g0 w (fun g => routed g0 g /\ authenticated service (config.c_Auth cfg) g /\
    authorized (config.az_Enabled (config.c_Authorization cfg)) authorizer g /\
    acquired manager (config.idem_HTTPPaths (config.c_Idempotency cfg)) g).
Proof.
  intros Hrand Hlim Hid Hdec Hkeys. cbv zeta. set (P := routed g0). set (A := authenticated service (config.c_Auth cfg)).
  set (Z := authorized (config.az_Enabled (config.c_Authorization cfg)) authorizer).
  assert (Hs : header_stable P) by (intros k v g Hg; exact Hg).
  assert (Hs2 : header_stable (fun g => (P g /\ A g) /\ Z g)) by (intros k v g Hg; exact Hg).
  assert (Hchain : guards P (api unmarshal marshal cfg limiter service authorizer manager)
    (fun g => ((P g /\ A g) /\ Z g) /\ acquired manager (config.idem_HTTPPaths (config.c_Idempotency cfg)) g)).
  { unfold api. cbv zeta.
    apply (guards_compose _ P); [|
    apply (guards_compose _ P); [apply IdempotencyKey_guards; [exact Hs|intros key g Hg; exact Hg]|
    apply (guards_compose _ P); [|
    apply (guards_compose _ P); [|
    apply (guards_compose _ P); [by apply CORS_guards|
    apply (guards_compose _ P); [|
    apply (guards_compose _ P); [by apply Timeout_guards|
    apply (guards_compose _ P); [by apply RequireJSON_guards|
    apply (guards_compose _ P); [by apply RateLimit_guards|
    apply (guards_compose _ P); [by apply RateLimit_guards|
    apply (guards_compose _ (fun g => P g /\ A g)); [apply Authentication_guards; [exact Hid|intros s p c g Hg; exact Hg]|
    apply (guards_compose _ (fun g => (P g /\ A g) /\ Z g)); [by apply Authorization_guards|
    apply (guards_compose _ (fun g => (P g /\ A g) /\ Z g)); [by apply RateLimit_guards|
    by apply IdempotencyExecution_guards]]]]]]]]]]]]].
    - by apply RequestID_guards.
    - apply (guards_admit _ _ _ (set_environment (config.run_ActiveProfile (config.c_Runtime cfg))) (fun _ w => w)); [done|reflexivity|intros g Hg; exact Hg].
    - by apply SecurityHeaders_guards.
    - intros g w' (Hm & Hf & Hh & Hb). right. eexists _, w', (fun x => x). split; [done|]. split; [by split; [|apply keeps_id]|].
      split; [exact Hm|split; [exact Hf|split; [exact Hh|]]]. simpl.
      destruct Hb as [->|[e ->]]; [|right; by exists e]. destruct (g_Body g0) as [body|e]; [|by left].
      destruct (_ <? _)%Z; [right; by eexists|by left]. }
  assert (H0 : P g0) by (split_and!; [done..|by left]).
  destruct (Hchain g0 w H0) as [H|(g1 & w1 & post & He & Hk & ((Hp & Ha) & Hz) & Hq)];
    [by left|right; by exists g1, w1, post].
Qed.
End gate.

(** ** Idempotent execution *)

Section replay.
Context {W B Raw : Type} {EC : ErrorCodes} {HE : HttpEnv (W := W)}.
Context (unmarshal : Raw -> option (Response B)) (marshal : Response B -> Raw).

(** Decoding an envelope into [any] keeps all of it but the static type of the body,
    which [generic] forgets. *)
Context (generic : option B -> option B).
Definition decoded (r : Response B) : Response B :=
  mkResponse (resp_Code r) (resp_Message r) (generic (resp_Body r)) (resp_RequestID r).

(** What is recorded of an answer, and a decision that recalls the record. *)
Definition outcome (reply : Reply B) : Response B + Failure :=
  if (StatusBadRequest <=? rp_Status reply)%Z
  then inr (mkFailure (resp_Code (rp_Response reply)) (resp_Message (rp_Response reply)) (rp_Status reply))
  else inl (with_id "" (decoded (rp_Response reply))).
Definition record (m : IdempotencyManager (Raw := Raw)) (key owner : string) (o : Response B + Failure) (w : W) : W :=
  (match o with inr f => im_Fail m key owner f | inl r => im_Complete m key owner r end w).2.
Definition recalls (d : Decision (Raw := Raw)) (o : Response B + Failure) : Prop :=
  match o with
  | inl r => dn_State d = StateCompleted /\ dn_Response d = marshal r
  | inr f => dn_State d = StateFailed /\ dn_Failure d = f
  end.

(** C33. A request repeated under its idempotency key is not executed again.  The
    first run of the handler is followed by exactly one record of its answer: the
    envelope without the request's identifier for a success, code, message and status
    for a failure.  When the manager recalls that record for a repetition, no handler
    runs, nothing but the manager's look-up touches the state, and the answer is the
    first one under the repetition's own identifier. *)
Theorem idempotent_replay m paths key fp g1 w1 d1 wa ga wb reply g2 w2 d2 wc next :
  (forall r, unmarshal (marshal r) = Some (decoded r)) ->
  (forall b, generic (generic b) = generic b) ->
  idempotent_route (Some m) paths g1 = Some (key, m) -> idempotencyFingerprint g1 = Ok fp ->
  im_Begin m key fp w1 = (Ok d1, wa) -> dn_State d1 = StateAcquired ->
  next g1 wa = (ga, wb) -> g_Written ga = Some (WroteJSON reply) ->
  idempotent_route (Some m) paths g2 = Some (key, m) -> idempotencyFingerprint g2 = Ok fp ->
  im_Begin m key fp w2 = (Ok d2, wc) -> recalls d2 (outcome reply) ->
  let execution := IdempotencyExecution unmarshal marshal (Some m) paths in
  execution next g1 w1 = (ga, record m key (dn_Owner d1) (outcome reply) wb) /\
  exists again, (forall next', execution next' g2 w2 = (answer (WroteJSON again) g2, wc)) /\
    rp_Status again = (if (StatusBadRequest <=? rp_Status reply)%Z then rp_Status reply else StatusOK) /\
    resp_Code (rp_Response again) = resp_Code (rp_Response reply) /\
    resp_Message (rp_Response again) = resp_Message (rp_Response reply) /\
    resp_Body (rp_Response again) =
      (if (StatusBadRequest <=? rp_Status reply)%Z then None else generic (resp_Body (rp_Response reply))) /\
    resp_RequestID (rp_Response again) = requestID g2.
Proof.
  intros Hjson Hgen Hr1 Hf1 Hb1 Hd1 Hn Hw Hr2 Hf2 Hb2 Hrec. cbv zeta. unfold IdempotencyExecution.
  rewrite Hr1, Hf1, Hb1, Hd1, Hn, Hr2, Hf2, Hb2. unfold outcome, record, persist, captured, writer_status in *.
  rewrite Hw, Hjson. cbn [written_status]. destruct (StatusBadRequest <=? rp_Status reply)%Z; cbn in Hrec.
  - destruct Hrec as [-> ->]. split; [done|]. by eexists.
  - destruct Hrec as [-> ->]. rewrite Hjson. split; [done|]. eexists. split; [done|]. cbn. by rewrite Hgen.
Qed.
End replay.

(** A manager in memory: one record, whose presence is the state. *)
Module Replayed.
Definition W : Type := option (Response string + Failure).
#[export] Instance codes : ErrorCodes := {|
  CodeOK := 0; CodeInvalidArgument := 1; CodeNotFound := 2; CodeRequestTimeout := 3; CodeTooManyRequests := 4;
  CodeUnauthorized := 5; CodeForbidden := 6; CodeConflict := 7; CodeRequestInProgress := 8;
  CodeStaleVersion := 9; CodeInternal := 10; CodeDependencyUnavailable := 11 |}.
#[export] Instance env : HttpEnv (W := W) := {|
  rand_Read := fun w => (Some "0123456789abcdef", w); UnixNano := fun _ => 0%Z; deadline_exceeded := fun _ => false;
  ParseMediaType := fun s => Some s; sha256_hex := fun s => s; idempotency_Valid := fun _ => true |}.

Definition no_failure : Failure := mkFailure 0 "" 0.
Definition no_response : Response string := mkResponse 0 "" None "".
Definition manager : IdempotencyManager (W := W) (B := string) (Raw := Response string) := {|
  im_Enabled := true;
  im_Begin := fun _ _ w => match w with
    | None => (Ok (mkDecision StateAcquired "owner" no_response no_failure), w)
    | Some (inl r) => (Ok (mkDecision StateCompleted "" r no_failure), w)
    | Some (inr f) => (Ok (mkDecision StateFailed "" no_response f), w)
    end;
  im_Complete := fun _ _ r _ => (Ok tt, Some (inl r));
  im_Fail := fun _ _ f _ => (Ok tt, Some (inr f)) |}.

Definition start_request : Gin (B := string) :=
  mkGin "POST" "/api/v1/workflow/instances/start" (fun _ => "") 2 "10.0.0.1" true (Ok "{}") (Some "request-1")
    (Some "user-1") None (Some "key-1") None None ∅ None.
Definition repeated_request : Gin (B := string) := set_request_id "request-2" start_request.
Definition handler : HandlerFunc (W := W) (B := string) := fun g w =>
  (answer (WroteJSON (OK (requestID g) "instance-1")) g, w).
Definition paths : list string := ["/api/v1/workflow/instances/*"].

Definition recorded : Response string := mkResponse 0 "success" (Some "instance-1") "".

Lemma idempotent_replay_witness : exists again,
  IdempotencyExecution Some (fun r => r) (Some manager) paths handler repeated_request
    (IdempotencyExecution Some (fun r => r) (Some manager) paths handler start_request None).2
  = (answer (WroteJSON again) repeated_request, Some (inl recorded)) /\
  resp_RequestID (rp_Response again) = "request-2".
Proof.
  destruct (idempotent_replay (W := W) (B := string) (Raw := Response string) Some (fun r => r) (fun b => b)
    manager paths "key-1" (sha256_hex ("user-1" +:+ nul +:+ "POST" +:+ nul +:+ "/api/v1/workflow/instances/start" +:+ nul +:+ "{}"))
    start_request None (mkDecision StateAcquired "owner" no_response no_failure) None
    (handler start_request None).1 None (OK "request-1" "instance-1") repeated_request
    (Some (inl recorded)) (mkDecision StateCompleted "" recorded no_failure) (Some (inl recorded)) handler)
    as [H1 (again & H2 & _ & _ & _ & _ & H3)]; try reflexivity; [by intros []|by split|].
  exists again. split; [exact (H2 handler)|exact H3].
Defined.
End Replayed.
