(* ===== verification/HttpSystem.v ===== *)
(** * A request through the whole HTTP server (internal/transport/http/server.go)

    The routes of the API, the chain in front of them, the handlers, the service and
    the tables together: what one request can do to the tables, and what it is
    answered. *)
From S2P Require Import Prelude GoStd Json Model GraphCodec Graph World WorldTheory PathMatch Config Defaults.
From S2P Require Import Repository Queries RepositorySpec Service ServiceSpec GrpcServer HttpDto AppError HttpServer HttpSpec Auth.
From S2P Require Import Middleware MiddlewareSpec.
From Stdlib Require Import Ascii String.
Local Open Scope string_scope.
Local Open Scope list_scope.

(** ** The routes *)

(** [encoding/json] on the body of a request, for each type a handler binds; an error
    when the body could not be read. *)
Record RequestJson : Type := mkRequestJson {
  js_CreateDefinition : res string -> res CreateDefinitionRequest;
  js_UpdateDefinition : res string -> res UpdateDefinitionRequest;
  js_VersionedDefinition : res string -> res VersionedDefinitionRequest;
  js_GetDefinition : res string -> res GetDefinitionRequest;
  js_ListDefinitions : res string -> res ListDefinitionsRequest;
  js_StartInstance : res string -> res StartInstanceRequest;
  js_CancelInstance : res string -> res CancelInstanceRequest;
  js_GetInstance : res string -> res GetInstanceRequest;
  js_ListInstances : res string -> res ListInstancesRequest;
  js_ListDefinitionCandidates : res string -> res ListDefinitionCandidatesRequest;
  js_TaskVersion : res string -> res TaskVersionRequest;
  js_CompleteTask : res string -> res CompleteTaskRequest;
  js_DelegateTask : res string -> res DelegateTaskRequest;
  js_GetTask : res string -> res GetTaskRequest;
  js_ListTasks : res string -> res ListTasksRequest;
  js_ListTaskInstanceCandidates : res string -> res ListTaskInstanceCandidatesRequest;
  js_ListTaskHistory : res string -> res ListTaskHistoryRequest;
  js_ListInstanceTaskHistory : res string -> res ListInstanceTaskHistoryRequest
}.


(** The [api.POST] lines of [NewServer]. *)
Definition routes (J : RequestJson) : list (string * (res string -> HttpRequest)) := [
  ("/api/v1/workflow/definitions/create", fun body => PostDefinitionsCreate (js_CreateDefinition J body));
  ("/api/v1/workflow/definitions/update", fun body => PostDefinitionsUpdate (js_UpdateDefinition J body));
  ("/api/v1/workflow/definitions/publish", fun body => PostDefinitionsPublish (js_VersionedDefinition J body));
  ("/api/v1/workflow/definitions/disable", fun body => PostDefinitionsDisable (js_VersionedDefinition J body));
  ("/api/v1/workflow/definitions/get", fun body => PostDefinitionsGet (js_GetDefinition J body));
  ("/api/v1/workflow/definitions/list", fun body => PostDefinitionsList (js_ListDefinitions J body));
  ("/api/v1/workflow/instances/start", fun body => PostInstancesStart (js_StartInstance J body));
  ("/api/v1/workflow/instances/cancel", fun body => PostInstancesCancel (js_CancelInstance J body));
  ("/api/v1/workflow/instances/get", fun body => PostInstancesGet (js_GetInstance J body));
  ("/api/v1/workflow/instances/list", fun body => PostInstancesList (js_ListInstances J body));
  ("/api/v1/workflow/instances/start-definitions/list", fun body => PostInstancesStartDefinitionsList (js_ListDefinitionCandidates J body));
  ("/api/v1/workflow/instances/definitions/list", fun body => PostInstancesDefinitionsList (js_ListDefinitionCandidates J body));
  ("/api/v1/workflow/tasks/claim", fun body => PostTasksClaim (js_TaskVersion J body));
  ("/api/v1/workflow/tasks/complete", fun body => PostTasksComplete (js_CompleteTask J body));
  ("/api/v1/workflow/tasks/delegate", fun body => PostTasksDelegate (js_DelegateTask J body));
  ("/api/v1/workflow/tasks/get", fun body => PostTasksGet (js_GetTask J body));
  ("/api/v1/workflow/tasks/list", fun body => PostTasksList (js_ListTasks J body));
  ("/api/v1/workflow/tasks/instances/list", fun body => PostTasksInstancesList (js_ListTaskInstanceCandidates J body));
  ("/api/v1/workflow/tasks/history/list", fun body => PostTasksHistoryList (js_ListTaskHistory J body));
  ("/api/v1/workflow/instances/task-history/list", fun body => PostInstancesTaskHistoryList (js_ListInstanceTaskHistory J body)) ].

Definition find_route (J : RequestJson) (g : Gin (B := Body)) : option (res string -> HttpRequest) :=
  if String.eqb (g_Method g) "POST"
  then snd <$> List.find (fun entry => String.eqb (g_FullPath g) entry.1) (routes J)
  else None.

(** No route of the workflow API is left without a requirement. *)
Lemma routes_guarded J g q : find_route J g = Some q -> is_Some (workflowHTTPRequirement (g_FullPath g)).
Proof.
  unfold find_route. destruct (String.eqb _ "POST"); [|done].
  destruct (List.find _ (routes J)) as [[path q']|] eqn:Hf; [|done]. intros _.
  apply find_some in Hf as [Hin Heq%String.eqb_eq]. cbn [fst] in Heq. rewrite Heq.
  assert (H : forallb (fun p => match workflowHTTPRequirement p with Some _ => true | None => false end) (routes J).*1 = true)
    by (vm_compute; reflexivity).
  rewrite forallb_forall in H. specialize (H path (List.in_map fst _ _ Hin)). by destruct (workflowHTTPRequirement path).
Qed.

(** ** One request *)

Section server.
Context {Event : Type} {EF : EventFactory Event} {SQL : SqlText} {E : Env} {MR : MapRange}.
Context {AR : AssignmentResolver (World Event)} {SE : ServiceEnv (World Event)} {EC : ErrorCodes}
  {HE : HttpEnv (W := World Event)}.
Abbreviation W := (World Event).
Context (h : Handler) (J : RequestJson) (trace : Gin (B := Body) -> string).

(** [c.Request.Context()] of a handler. *)
Definition request_ctx (g : Gin (B := Body)) : Ctx := mkCtx (g_Principal g) (requestID g) (trace g).

(** The handler of a route: what [route] answers is written. *)
Definition endpoint : HandlerFunc (W := W) (B := Body) := fun g w =>
  match find_route J g with
  | Some q => let '(reply, w') := route h (requestID g) (request_ctx g) (q (g_Body g)) w in (answer (WroteJSON reply) g, w')
  | None => (answer (WroteStatus 404) g, w)
  end.

(** The tables stay as they are. *)
Definition same_tables (w w' : W) : Prop := w_db w' = w_db w.
#[export] Instance same_tables_preorder : PreOrder same_tables.
Proof. split; [by intros w|]. unfold same_tables. intros w1 w2 w3. congruence. Qed.

Lemma same_tables_steps w w' : same_tables w w' -> rtc run_step w w'.
Proof.
  destruct w as [db n], w' as [db' n']. unfold same_tables. cbn. intros ->. apply rtc_once, rs_tick.
Qed.

Context {Raw : Type} (unmarshal : Raw -> option (Response Body)) (marshal : Response Body -> Raw).
Context (cfg : config.Config) (limiter : Limiter W) (service : AuthService (W := W)) (authorizer : Authorizer (W := W))
  (manager : option (IdempotencyManager (W := W) (B := Body) (Raw := Raw))).

(** The assignment resolver, random bytes, rate limits, the identity provider, the
    decision point and the idempotency keys live elsewhere than in the tables. *)
Record elsewhere : Prop := {
  ew_quiet : quiet (Event := Event);
  ew_random w : same_tables w (rand_Read w).2;
  ew_limits : limits_within same_tables limiter;
  ew_identity : identity_within same_tables service;
  ew_decisions : decisions_within same_tables authorizer;
  ew_keys : keys_within same_tables manager
}.

Definition serve_http : HandlerFunc (W := W) (B := Body) := api unmarshal marshal cfg limiter service authorizer manager endpoint.

(** What the caller of a handler has gone through. *)
Record passed (g0 g : Gin (B := Body)) : Prop := {
  ps_routed : routed g0 g;
  ps_authenticated : authenticated service (config.c_Auth cfg) g;
  ps_authorized : config.az_Enabled (config.c_Authorization cfg) = true -> exists requirement w1 w2,
    workflowHTTPRequirement (g_FullPath g) = Some requirement /\
    Enforce authorizer (g_Principal g) (g_Credential g) requirement w1 = (Ok tt, w2);
  ps_key : acquired manager (config.idem_HTTPPaths (config.c_Idempotency cfg)) g
}.

(** The one request of the service that a call of a handler makes, and its answer. *)
Definition handled (q : res string -> HttpRequest) (g : Gin (B := Body)) (w : W) (o : Reply Body * W) : Prop :=
  match bound h (q (g_Body g)) with
  | Err a => o.1 = Fail (requestID g) (inl a) /\ same_tables w o.2
  | Ok rq => (scope rq).1 <> "" /\ replies (requestID g) (serve (request_ctx g) rq w) o /\
             one_call (request_call rq) (serve (request_ctx g) rq) w
  end.

Lemma endpoint_handled q g w : quiet (Event := Event) -> started w -> find_route J g = Some q ->
  exists reply w', endpoint g w = (answer (WroteJSON reply) g, w') /\ handled q g w (reply, w').
Proof.
  intros Hq Hs Hr. unfold endpoint. rewrite Hr.
  pose proof (route_refines h (requestID g) (request_ctx g) (q (g_Body g)) w) as Hroute. unfold handled.
  destruct (route h (requestID g) (request_ctx g) (q (g_Body g)) w) as [reply w'] eqn:He. exists reply, w'. split; [done|].
  destruct (bound h (q (g_Body g))) as [rq|a].
  - destruct Hroute as [Hsc Hrep]. split; [done|]. split; [done|]. by apply serve_one_call.
  - destruct Hroute as [_ [= -> ->]]. by split.
Qed.

(** C30. One HTTP request, from the socket to the tables: it is always answered; and
    either the chain answers it alone and the tables stay as they are, or the handler
    of its route runs exactly once - for a caller who showed the pre-shared key or a
    token that verifies (unless the route is open), whom the decision point allowed what
    the route requires whenever authorization is on, and who holds the idempotency key
    where one is due - on the body that was sent, and the request is answered what the
    handler answers: 400 or 503 without effect, or the answer of exactly one request to
    the service, which changes the tables by at most one repository call with well-formed
    arguments. *)
Theorem http_request_effect q g0 w : elsewhere -> started w -> find_route J g0 = Some q ->
  let '(g', w') := serve_http g0 w in
  is_Some (g_Written g') /\ rtc run_step w w' /\
  (same_tables w w' \/
   exists g w1 o, passed g0 g /\ same_tables w w1 /\ endpoint g w1 = (answer (WroteJSON o.1) g, o.2) /\ handled q g w1 o /\
     g_Written g' = Some (WroteJSON o.1) /\ same_tables o.2 w').
Proof.
  intros [Hquiet Hrand Hlim Hid Hdec Hkeys] Hs Hr. pose proof same_tables_steps as Hsteps.
  unfold serve_http.
  destruct (api_guards same_tables unmarshal marshal cfg limiter service authorizer manager g0 w Hrand Hlim Hid Hdec Hkeys)
    as [(g' & w' & Hm & Hw & Hsame)|(g & w1 & post & Hm & (Hsame & Hpost & Hkeep) & Hrt & Hau & Hz & Hk)]; rewrite Hm.
  { split; [done|]. split; [by apply Hsteps|by left]. }
  assert (Hr1 : find_route J g = Some q).
  { destruct Hrt as (Hmeth & Hpath & _). unfold find_route in *. by rewrite Hmeth, Hpath. }
  assert (Hs1 : started w1) by (eapply started_more; [exact Hs|by apply Hsteps]).
  destruct (endpoint_handled q g w1 Hquiet Hs1 Hr1) as (reply & w2 & He & Hh). rewrite He.
  pose proof (Hpost (answer (WroteJSON reply) g, w2) ltac:(by eexists)) as Hp.
  pose proof (Hkeep (answer (WroteJSON reply) g, w2)) as Hk2. cbn [fst snd] in Hp, Hk2.
  destruct (post _) as [g' w'] eqn:Hpo. cbn [fst snd] in Hp, Hk2. subst g'.
  split; [by eexists|]. split.
  - etrans; [by apply Hsteps|]. etrans; [|by apply Hsteps]. unfold handled in Hh. cbn [fst snd] in Hh.
    destruct (bound h (q (g_Body g))) as [rq|a].
    + destruct Hh as (_ & [Hw2 _] & Hone). cbn [snd] in Hw2. rewrite Hw2. by eapply one_call_steps.
    + destruct Hh as [_ Hst]. by apply Hsteps.
  - right. exists g, w1, (reply, w2). split_and!; try done. split; [done|done| |done].
    intros Hen. destruct (routes_guarded J g q Hr1) as [req Hreq].
    destruct (Hz req Hen Hreq) as (wa & wb & Hen'). by exists req, wa, wb.
Qed.
End server.

(** ** Bob completes a task over HTTP *)
Module Posted.
Import RepositorySpec.Sample ServiceSpec.Served MiddlewareSpec.Replayed.

#[export] Instance http_env : HttpEnv (W := World DomainEvent) := {|
  rand_Read := fun w => (Some "0123456789abcdef", w); UnixNano := fun _ => 0%Z; deadline_exceeded := fun _ => false;
  ParseMediaType := fun s => Some s; sha256_hex := fun s => s; idempotency_Valid := fun _ => true |}.

Definition none {T} (_ : res string) : res T := Err (ErrorNew "json").
Definition json : RequestJson := mkRequestJson none none none none none none none none none none none
  (fun body => match body with
    | Ok "approve task-1" => Ok (mkCompleteTaskRequest "task-1" "acme" "crm" DecisionApprove "ok" "{}" 1)
    | _ => Err (ErrorNew "json") end)
  none none none none none none.

Definition identity : AuthService (W := World DomainEvent) := {|
  sv_verifier := Some (fun raw w => if String.eqb raw "bobs-token" then (Ok (mkPrincipal "bob" "acme" "member-2" TypeUser), w)
                                    else (Err (ErrorNew "token"), w));
  sv_Parse := fun _ _ => Err (ErrorNew "none") |}.
Definition decides : Authorizer (W := World DomainEvent) := {|
  Enforce := fun who _ _ w => (if who is Some _ then Ok tt else Err (ErrorNew "denied"), w);
  is_ErrDecisionUnavailable := fun _ => false |}.
Definition unlimited : Limiter (World DomainEvent) := mkLimiter false false None.
Definition no_keys : option (IdempotencyManager (W := World DomainEvent) (B := Body) (Raw := Response Body)) := None.

Definition posted (token : string) : Gin (B := Body) :=
  mkGin "POST" "/api/v1/workflow/tasks/complete"
    (fun k => if String.eqb k "Authorization" then "Bearer " +:+ token
              else if String.eqb k "Content-Type" then "application/json" else "")
    14 "10.0.0.1" true (Ok "approve task-1") None None None None None None ∅ None.

Lemma all_elsewhere : elsewhere unlimited identity decides no_keys.
Proof.
  split; try done; split; try done.
  intros verify raw w. simpl. intros [= <-]. unfold same_tables. by destruct (String.eqb raw "bobs-token").
Qed.

Abbreviation server := (serve_http (mkHandler true) json (fun _ => "trace-2") Some (fun r => r) (default_config "")
  unlimited identity decides no_keys).

(** With his token he completes it; with another's nothing happens. *)
Lemma http_request_effect_witness :
  (is_Some (g_Written (server (posted "bobs-token") w1).1) /\ rtc run_step w1 (server (posted "bobs-token") w1).2) /\
  (task_Status <$> db_tasks (w_db (server (posted "bobs-token") w1).2) !! "task-1") = Some TaskApproved /\
  w_db (server (posted "eves-token") w1).2 = w_db w1.
Proof.
  split.
  - pose proof (http_request_effect (mkHandler true) json (fun _ => "trace-2") Some (fun r => r) (default_config "")
      unlimited identity decides no_keys _ (posted "bobs-token") w1 all_elsewhere started_w1 eq_refl) as H.
    destruct (server (posted "bobs-token") w1) as [g' w'] eqn:Hrun. split; apply H.
  - split; vm_compute; reflexivity.
Defined.
End Posted.
