(* ===== verification/Router.v ===== *)
(** * The router (internal/transport/http/server.go)

    Every route [NewServer] registers, with what guards it, and the authentication of
    the profiler. *)
From S2P Require Import Prelude GoStd Json Model GraphCodec Graph World PathMatch Config ConfigSpec Auth AppError.
From S2P Require Import Repository Service HttpDto HttpServer Middleware HttpSystem.
From Stdlib Require Import Ascii String.
Local Open Scope string_scope.
Local Open Scope list_scope.

(** What stands between the global chain and a handler. *)
Inductive guard : Type := Open | Profiler | Documentation (authenticated : bool) | Api.
#[global] Instance guard_eq_dec : EqDecision guard.
Proof. solve_decision. Defined.

Record Route : Type := mkRoute { rt_method : string; rt_path : string; rt_guard : guard }.

(** [registerPprof] under [/debug/pprof]. *)
Definition registerPprof : list Route :=
  ((fun path => mkRoute "GET" ("/debug/pprof" +:+ path) Profiler) <$>
     ["/"; "/cmdline"; "/profile"; "/symbol"; "/trace"]) ++
  [mkRoute "POST" "/debug/pprof/symbol" Profiler] ++
  ((fun profile => mkRoute "GET" ("/debug/pprof/" +:+ profile) Profiler) <$>
     ["allocs"; "block"; "goroutine"; "heap"; "mutex"; "threadcreate"]).

(** The routes of [NewServer]; [routes] are those of the workflow handlers. *)
Definition registered (J : RequestJson) (metrics pprof swagger requireAuth : bool) : list Route :=
  (["GET"; "POST"] ≫= fun method => [mkRoute method "/live" Open; mkRoute method "/ready" Open]) ++
  (if metrics then [mkRoute "GET" "/metrics" Open] else []) ++
  (if pprof then registerPprof else []) ++
  (if swagger then [mkRoute "GET" "/swagger/*any" (Documentation requireAuth)] else []) ++
  ((fun path => mkRoute "POST" path Api) <$> ["/api/v1/version"; "/api/v1/me"] ++ (routes J).*1).

Definition registered_by (J : RequestJson) (cfg : config.Config) : list Route :=
  registered J (config.obs_MetricsEnabled (config.c_Observability cfg)) (config.obs_PprofEnabled (config.c_Observability cfg))
    (config.sw_Enabled (config.c_Swagger cfg)) (config.sw_RequireAuth (config.c_Swagger cfg)).

(** A route is guarded as its place in the tree says: under [/api/v1/] by the chain of
    the API, under [/debug/pprof] by the profiler's token. *)
Definition guarded_by_place (r : Route) : bool :=
  Bool.eqb (HasPrefix (rt_path r) "/api/v1/") (bool_decide (rt_guard r = Api)) &&
  Bool.eqb (HasPrefix (rt_path r) "/debug/pprof/") (bool_decide (rt_guard r = Profiler)).

Definition behind_api (J : RequestJson) (r : Route) : bool :=
  implb (existsb (String.eqb (rt_path r)) (routes J).*1) (String.eqb (rt_method r) "POST" && bool_decide (rt_guard r = Api)).

(** gin panics on a route that is registered twice: none is; every route is guarded by
    its place; and the handlers of the workflow API are behind the API's chain, under
    POST alone. *)
Theorem registered_sound J cfg :
  NoDup ((fun r => (rt_method r, rt_path r)) <$> registered_by J cfg) /\
  (forall r, r ∈ registered_by J cfg -> guarded_by_place r = true) /\
  (forall r, r ∈ registered_by J cfg -> rt_path r ∈ (routes J).*1 -> rt_method r = "POST" /\ rt_guard r = Api).
Proof.
  assert (H : forall m p s a, NoDup ((fun r => (rt_method r, rt_path r)) <$> registered J m p s a) /\
    forallb guarded_by_place (registered J m p s a) = true /\ forallb (behind_api J) (registered J m p s a) = true).
  { intros m p s a. destruct m, p, s, a; (split; [apply (bool_decide_eq_true_1 (NoDup _))|split]); vm_compute; reflexivity. }
  unfold registered_by. match goal with |- context [registered J ?m ?p ?s ?a] => destruct (H m p s a) as (H1 & H2 & H3) end.
  rewrite forallb_forall in H2, H3. split; [done|]. split; [intros r Hr; by apply H2, list_elem_of_In|].
  intros r Hr%list_elem_of_In Hp%list_elem_of_In. specialize (H3 r Hr). unfold behind_api in H3.
  assert (He : existsb (String.eqb (rt_path r)) (routes J).*1 = true) by (apply existsb_exists; exists (rt_path r); split; [done|apply String.eqb_refl]).
  rewrite He in H3. cbn [implb] in H3. apply andb_prop in H3 as [Hm Hg]. split; [by apply String.eqb_eq|by apply bool_decide_eq_true_1 in Hg].
Qed.

(** ** The profiler *)

Section profiler.
Context {W B : Type}.

Definition pprofAuth (expected : string) : MiddlewareFunc (W := W) (B := B) := fun next g w =>
  let '(scheme, token, ok) := cut_space (g_GetHeader g "Authorization") in
  if negb ok || negb (EqualFold scheme "Bearer") || negb (ConstantTimeEqual token expected)
  then (answer (WroteStatus 401) g, w)
  else next g w.

(** The profiler answers nobody without its token - which a valid configuration makes
    at least 32 bytes long. *)
Lemma pprofAuth_exact `{MapRange} cfg next g w : config.Validate cfg = Ok tt ->
  config.obs_PprofEnabled (config.c_Observability cfg) = true ->
  let token := config.obs_PprofToken (config.c_Observability cfg) in
  32 <= String.length token /\
  ((exists scheme, g_GetHeader g "Authorization" = scheme +:+ " " +:+ token /\ pprofAuth token next g w = next g w) \/
   pprofAuth token next g w = (answer (WroteStatus 401) g, w)).
Proof.
  intros Hv Hen. cbv zeta. split; [by apply (cf_pprof _ (Validate_configured cfg Hv))|].
  unfold pprofAuth. destruct (cut_space _) as [[scheme supplied] ok] eqn:Hc.
  destruct ok; [|by right]. cbn [negb orb]. destruct (EqualFold scheme "Bearer"); [|by right]. cbn [negb orb].
  unfold ConstantTimeEqual. destruct (String.eqb_spec supplied (config.obs_PprofToken (config.c_Observability cfg))) as [->|]; [|by right].
  left. exists scheme. split; [by apply cut_space_app|done].
Qed.
End profiler.
