(* ===== verification/GrpcInterceptors.v ===== *)
(** * The gRPC interceptors (internal/transport/grpc/server.go)

    Request identifiers, idempotency keys, authentication and the permissions of the
    methods; and that an operation needs the same permission over both transports.
    The platform's authorization and idempotency interceptors are code of another
    module and appear as arguments. *)
From S2P Require Import Prelude GoStd Json Model GraphCodec Graph World PathMatch Config Auth.
From S2P Require Import Repository Service ServiceSpec Execute Events Commands GrpcServer HttpDto AppError HttpServer HttpSpec Middleware.
From Stdlib Require Import Ascii String.
Local Open Scope string_scope.
Local Open Scope list_scope.

(** ** Permissions *)

Inductive Method : Type :=
| WorkflowService_CreateDefinition | WorkflowService_UpdateDefinition | WorkflowService_PublishDefinition
| WorkflowService_DisableDefinition | WorkflowService_GetDefinition | WorkflowService_ListDefinitions
| WorkflowService_StartInstance | WorkflowService_CancelInstance | WorkflowService_GetInstance
| WorkflowService_ListInstances | WorkflowService_ClaimTask | WorkflowService_CompleteTask
| WorkflowService_DelegateTask | WorkflowService_GetTask | WorkflowService_ListTasks
| WorkflowService_ListTaskHistory | WorkflowService_ListInstanceTaskHistory.

(** The generated constants: distinct, as the keys of a map literal must be. *)
Class MethodNames := {
  FullMethodName : Method -> string;
  FullMethodName_inj : Inj (=) (=) FullMethodName
}.

Definition method_requirements : list (Method * Requirement) := [
  (WorkflowService_CreateDefinition, mkRequirement "workflow.definition" "create");
  (WorkflowService_UpdateDefinition, mkRequirement "workflow.definition" "update");
  (WorkflowService_PublishDefinition, mkRequirement "workflow.definition" "publish");
  (WorkflowService_DisableDefinition, mkRequirement "workflow.definition" "disable");
  (WorkflowService_GetDefinition, mkRequirement "workflow.definition" "read");
  (WorkflowService_ListDefinitions, mkRequirement "workflow.definition" "list");
  (WorkflowService_StartInstance, mkRequirement "workflow.instance" "start");
  (WorkflowService_CancelInstance, mkRequirement "workflow.instance" "cancel");
  (WorkflowService_GetInstance, mkRequirement "workflow.instance" "read");
  (WorkflowService_ListInstances, mkRequirement "workflow.instance" "list");
  (WorkflowService_ClaimTask, mkRequirement "workflow.task" "claim");
  (WorkflowService_CompleteTask, mkRequirement "workflow.task" "complete");
  (WorkflowService_DelegateTask, mkRequirement "workflow.task" "delegate");
  (WorkflowService_GetTask, mkRequirement "workflow.task" "read");
  (WorkflowService_ListTasks, mkRequirement "workflow.task" "list");
  (WorkflowService_ListTaskHistory, mkRequirement "workflow.task" "read");
  (WorkflowService_ListInstanceTaskHistory, mkRequirement "workflow.instance" "read") ].

Definition workflowGRPCRequirement `{MethodNames} (enabled : bool) (method : string) : option Requirement :=
  if negb enabled then None
  else (list_to_map (prod_map FullMethodName id <$> method_requirements) : gmap string Requirement) !! method.

(** ** Interceptors *)

Section interceptors.
Context {W Resp : Type} {HE : HttpEnv (W := W)}.

(** The incoming metadata and what the interceptors put into the context. *)
Record Call : Type := mkCall {
  cl_FullMethod : string; cl_Metadata : string -> list string;
  cl_RequestID : option string; cl_Environment : option string; cl_IdempotencyKey : option string;
  cl_Principal : option Principal;
  cl_Headers : gmap string string        (** the header metadata of the answer *)
}.

Definition UnaryHandler : Type := Call -> W -> result Status Resp * W.
Definition UnaryInterceptor : Type := UnaryHandler -> UnaryHandler.

Definition requestIDInterceptor : UnaryInterceptor := fun handler c w =>
  let id := match cl_Metadata c "x-request-id" with
            | value :: _ => if requestid_Valid value then value else ""
            | [] => ""
            end in
  let '(id, w') := if str_empty id then requestid_Generate w else (id, w) in
  handler (mkCall (cl_FullMethod c) (cl_Metadata c) (Some id) (cl_Environment c) (cl_IdempotencyKey c)
             (cl_Principal c) (<["x-request-id" := id]> (cl_Headers c))) w'.

Definition idempotencyInterceptor : UnaryInterceptor := fun handler c w =>
  match cl_Metadata c "idempotency-key" with
  | [] => handler c w
  | key :: _ =>
      if negb (idempotency_Valid key) then (Err (mkStatus InvalidArgument "invalid idempotency-key"), w)
      else handler (mkCall (cl_FullMethod c) (cl_Metadata c) (cl_RequestID c) (cl_Environment c) (Some key)
                      (cl_Principal c) (cl_Headers c)) w
  end.

Definition environmentInterceptor (profile : string) : UnaryInterceptor := fun handler c w =>
  handler (mkCall (cl_FullMethod c) (cl_Metadata c) (cl_RequestID c) (Some profile) (cl_IdempotencyKey c)
             (cl_Principal c) (cl_Headers c)) w.

Definition with_principal (p : Principal) (c : Call) : Call :=
  mkCall (cl_FullMethod c) (cl_Metadata c) (cl_RequestID c) (cl_Environment c) (cl_IdempotencyKey c) (Some p)
    (cl_Headers c).

Definition authenticateGRPC (service : AuthService (W := W)) (cfg : config.Auth) (c : Call) : stE W Status Call := fun w =>
  let psk := config.auth_PSK cfg in
  let values := cl_Metadata c "authorization" in
  if config.psk_Enabled psk && MatchesAny (cl_FullMethod c) (config.psk_GRPCMethods psk) then
    match values with
    | value :: _ => if VerifyPSK value (config.psk_Key psk) then (Ok (with_principal psk_principal c), w)
                    else (Err (mkStatus Unauthenticated "missing or invalid PSK"), w)
    | [] => (Err (mkStatus Unauthenticated "missing or invalid PSK"), w)
    end
  else if MatchesAny (cl_FullMethod c) (config.auth_SkipGRPCMethods cfg) then (Ok c, w)
  else match values with
       | [] => (Err (mkStatus Unauthenticated "missing bearer token"), w)
       | value :: _ =>
           let '(scheme, raw, ok) := cut_space value in
           if negb ok || negb (EqualFold scheme "Bearer") then (Err (mkStatus Unauthenticated "invalid bearer token"), w)
           else match Verify service raw w with
                | (Err _, w') => (Err (mkStatus Unauthenticated "invalid or expired token"), w')
                | (Ok who, w') => (Ok (with_principal who c), w')
                end
       end.

Definition authInterceptor (service : AuthService (W := W)) (cfg : config.Auth) : UnaryInterceptor := fun handler c w =>
  match authenticateGRPC service cfg c w with
  | (Err s, w') => (Err s, w')
  | (Ok c', w') => handler c' w'
  end.

(** The chain of [NewServer], without the interceptors that only observe. *)
Definition chain (cfg : config.Config) (service : AuthService (W := W)) (authorization idempotency : UnaryInterceptor) :
  UnaryInterceptor := fun handler =>
  environmentInterceptor (config.run_ActiveProfile (config.c_Runtime cfg))
    (requestIDInterceptor (idempotencyInterceptor (authInterceptor service (config.c_Auth cfg)
      (authorization (idempotency handler))))).
End interceptors.

(** ** The same permission over both transports *)

(** The path [NewServer] registers a handler under. *)
Definition http_path (q : HttpRequest) : string :=
  "/api/v1" +:+ match q with
  | PostDefinitionsCreate _ => "/workflow/definitions/create"
  | PostDefinitionsUpdate _ => "/workflow/definitions/update"
  | PostDefinitionsPublish _ => "/workflow/definitions/publish"
  | PostDefinitionsDisable _ => "/workflow/definitions/disable"
  | PostDefinitionsGet _ => "/workflow/definitions/get"
  | PostDefinitionsList _ => "/workflow/definitions/list"
  | PostInstancesStart _ => "/workflow/instances/start"
  | PostInstancesCancel _ => "/workflow/instances/cancel"
  | PostInstancesGet _ => "/workflow/instances/get"
  | PostInstancesList _ => "/workflow/instances/list"
  | PostInstancesStartDefinitionsList _ => "/workflow/instances/start-definitions/list"
  | PostInstancesDefinitionsList _ => "/workflow/instances/definitions/list"
  | PostTasksClaim _ => "/workflow/tasks/claim"
  | PostTasksComplete _ => "/workflow/tasks/complete"
  | PostTasksDelegate _ => "/workflow/tasks/delegate"
  | PostTasksGet _ => "/workflow/tasks/get"
  | PostTasksList _ => "/workflow/tasks/list"
  | PostTasksInstancesList _ => "/workflow/tasks/instances/list"
  | PostTasksHistoryList _ => "/workflow/tasks/history/list"
  | PostInstancesTaskHistoryList _ => "/workflow/instances/task-history/list"
  end.

Definition method_of (q : GrpcRequest) : Method :=
  match q with
  | GCreateDefinition _ _ _ _ _ _ _ => WorkflowService_CreateDefinition
  | GUpdateDefinition _ _ _ _ _ _ _ _ => WorkflowService_UpdateDefinition
  | GPublishDefinition _ _ _ _ => WorkflowService_PublishDefinition
  | GDisableDefinition _ _ _ _ => WorkflowService_DisableDefinition
  | GGetDefinition _ _ _ _ => WorkflowService_GetDefinition
  | GListDefinitions _ _ _ _ _ => WorkflowService_ListDefinitions
  | GStartInstance _ _ _ _ _ _ _ => WorkflowService_StartInstance
  | GCancelInstance _ _ _ _ _ => WorkflowService_CancelInstance
  | GGetInstance _ _ _ => WorkflowService_GetInstance
  | GListInstances _ _ _ _ _ _ _ _ _ => WorkflowService_ListInstances
  | GClaimTask _ _ _ _ => WorkflowService_ClaimTask
  | GCompleteTask _ _ _ _ _ _ _ => WorkflowService_CompleteTask
  | GDelegateTask _ _ _ _ _ _ => WorkflowService_DelegateTask
  | GGetTask _ _ _ => WorkflowService_GetTask
  | GListTasks _ _ _ _ _ _ => WorkflowService_ListTasks
  | GListTaskHistory _ _ _ _ => WorkflowService_ListTaskHistory
  | GListInstanceTaskHistory _ _ _ _ => WorkflowService_ListInstanceTaskHistory
  end.


#[global] Instance Method_eq_dec : EqDecision Method.
Proof. solve_decision. Defined.

Fixpoint required_by (m : Method) (l : list (Method * Requirement)) : option Requirement :=
  match l with
  | [] => None
  | (m', r) :: l' => if decide (m' = m) then Some r else required_by m l'
  end.

Lemma workflowGRPCRequirement_method `{MethodNames} m :
  workflowGRPCRequirement true (FullMethodName m) = required_by m method_requirements.
Proof.
  unfold workflowGRPCRequirement. cbn [negb]. pose proof FullMethodName_inj as Hinj.
  induction method_requirements as [|[m' r] l IH]; [apply lookup_empty|].
  csimpl. destruct (decide (m' = m)) as [->|Hne]; [apply lookup_insert_eq|].
  rewrite lookup_insert_ne; [exact IH|]. intros Heq. by apply Hne, Hinj.
Qed.

(** C34. Every operation needs the same permission over HTTP and over gRPC, and none is
    reachable without one: every route and every method has a requirement, and when an
    HTTP request and a call make the same request to the service, their requirements
    are the same. *)
Theorem permissions_agree `{MethodNames} {EC : ErrorCodes} h (q : HttpRequest) (g : GrpcRequest) :
  is_Some (workflowHTTPRequirement (http_path q)) /\
  is_Some (workflowGRPCRequirement true (FullMethodName (method_of g))) /\
  (bound h q = Ok (service_request g) ->
   workflowHTTPRequirement (http_path q) = workflowGRPCRequirement true (FullMethodName (method_of g))).
Proof.
  rewrite workflowGRPCRequirement_method.
  assert (Hg : is_Some (required_by (method_of g) method_requirements)) by (destruct g; by eexists).
  assert (Hq : is_Some (workflowHTTPRequirement (http_path q))) by (destruct q; vm_compute; by eexists).
  split; [done|]. split; [done|].
  destruct q; cbn [bound]; match goal with |- context [bind h ?d] =>
      pose proof (bind_spec h d) as Hb; destruct (bind h d) as [r|e]; cbn; [|done] end;
    destruct Hb as (_ & Hr & _); unfold required in Hr;
    match type of Hr with ?b _ = true => unfold b in Hr end;
    destruct g; try discriminate; try (intros _; vm_compute; reflexivity);
    cbn [service_request]; intros [= _ _ Hid]; exfalso; subst; bool_to_prop;
    match goal with Hx : given ?x = true, Hy : ?x = "" |- _ => rewrite Hy in Hx end; done.
Qed.
