(* ===== verification/GrpcStreams.v ===== *)
(** * Streams and panics of the gRPC server (internal/transport/grpc/server.go)

    The stream interceptors, which repeat the unary ones, and the recovery; and what a
    call has passed when its handler runs. *)
From S2P Require Import Prelude GoStd Json Model GraphCodec Graph World PathMatch Config Auth.
From S2P Require Import Repository Service Execute Events Commands GrpcServer Middleware GrpcInterceptors.
From Stdlib Require Import Ascii String.
Local Open Scope string_scope.
Local Open Scope list_scope.

Section streams.
Context {W : Type} {HE : HttpEnv (W := W)}.

(** A stream's context with its handler; [stream_SetHeader] sends the header metadata. *)
Definition StreamHandler : Type := Call -> W -> result Status unit * W.
Definition StreamInterceptor : Type := StreamHandler -> StreamHandler.
Context (stream_SetHeader : Call -> string -> option error).

Definition environmentStreamInterceptor (profile : string) : StreamInterceptor := fun handler c w =>
  handler (mkCall (cl_FullMethod c) (cl_Metadata c) (cl_RequestID c) (Some profile) (cl_IdempotencyKey c)
             (cl_Principal c) (cl_Headers c)) w.

Definition requestIDStreamInterceptor : StreamInterceptor := fun handler c w =>
  let id := match cl_Metadata c "x-request-id" with
            | value :: _ => if requestid_Valid value then value else ""
            | [] => ""
            end in
  let '(id, w') := if str_empty id then requestid_Generate w else (id, w) in
  match stream_SetHeader c id with
  | Some _ => (Err (mkStatus Internal "set request metadata"), w')
  | None => handler (mkCall (cl_FullMethod c) (cl_Metadata c) (Some id) (cl_Environment c) (cl_IdempotencyKey c)
                       (cl_Principal c) (<["x-request-id" := id]> (cl_Headers c))) w'
  end.

Definition idempotencyStreamInterceptor : StreamInterceptor := fun handler c w =>
  match cl_Metadata c "idempotency-key" with
  | [] => handler c w
  | key :: _ =>
      if negb (idempotency_Valid key) then (Err (mkStatus InvalidArgument "invalid idempotency-key"), w)
      else handler (mkCall (cl_FullMethod c) (cl_Metadata c) (cl_RequestID c) (cl_Environment c) (Some key)
                      (cl_Principal c) (cl_Headers c)) w
  end.

Definition authStreamInterceptor (service : AuthService (W := W)) (cfg : config.Auth) : StreamInterceptor := fun handler c w =>
  match authenticateGRPC service cfg c w with
  | (Err s, w') => (Err s, w')
  | (Ok c', w') => handler c' w'
  end.

(** The chain of [NewServer]; the recovery and the metrics come next and after it. *)
Definition stream_chain (cfg : config.Config) (service : AuthService (W := W)) : StreamInterceptor := fun handler =>
  environmentStreamInterceptor (config.run_ActiveProfile (config.c_Runtime cfg))
    (requestIDStreamInterceptor (idempotencyStreamInterceptor (authStreamInterceptor service (config.c_Auth cfg) handler))).

(** *** Panics: a handler that panics has no result *)

Definition recoveryInterceptor {Resp} (handler : Call -> W -> option (result Status Resp) * W) : Call -> W -> result Status Resp * W :=
  fun c w => match handler c w with
             | (Some r, w') => (r, w')
             | (None, w') => (Err (mkStatus Internal "internal server error"), w')
             end.

(** ** What a call has passed *)

Section admitted.
Context (cfg : config.Config) (service : AuthService (W := W)).
Abbreviation auth := (config.c_Auth cfg).

(** The caller showed the key of the method, or a token that verifies, or the method
    is open. *)
Definition known (c c' : Call) : Prop :=
  let psk := config.auth_PSK auth in
  if config.psk_Enabled psk && MatchesAny (cl_FullMethod c) (config.psk_GRPCMethods psk) then
    exists value rest, cl_Metadata c "authorization" = value :: rest /\ VerifyPSK value (config.psk_Key psk) = true /\
      cl_Principal c' = Some psk_principal
  else if MatchesAny (cl_FullMethod c) (config.auth_SkipGRPCMethods auth) then cl_Principal c' = cl_Principal c
  else exists value rest scheme raw who w1 w2, cl_Metadata c "authorization" = value :: rest /\
    cut_space value = (scheme, raw, true) /\ EqualFold scheme "Bearer" = true /\
    Verify service raw w1 = (Ok who, w2) /\ cl_Principal c' = Some who.

Record admitted (c c' : Call) : Prop := {
  ad_call : cl_FullMethod c' = cl_FullMethod c /\ cl_Metadata c' = cl_Metadata c;
  ad_environment : cl_Environment c' = Some (config.run_ActiveProfile (config.c_Runtime cfg));
  ad_request_id : exists id, cl_RequestID c' = Some id /\ cl_Headers c' !! "x-request-id" = Some id /\
    (requestid_Valid id = true \/ exists w w1, requestid_Generate w = (id, w1));
  ad_key : match cl_Metadata c "idempotency-key" with
           | [] => cl_IdempotencyKey c' = cl_IdempotencyKey c
           | key :: _ => idempotency_Valid key = true /\ cl_IdempotencyKey c' = Some key
           end;
  ad_principal : known c c'
}.

(** The identifiers and keys of a call, before its authentication. *)
Definition prepared (id : string) (c : Call) : Call :=
  mkCall (cl_FullMethod c) (cl_Metadata c) (Some id) (Some (config.run_ActiveProfile (config.c_Runtime cfg)))
    (match cl_Metadata c "idempotency-key" with key :: _ => Some key | [] => cl_IdempotencyKey c end)
    (cl_Principal c) (<["x-request-id" := id]> (cl_Headers c)).

(** [authenticateGRPC] only adds the principal. *)
Lemma authenticate_known id c w c' w' : authenticateGRPC service auth (prepared id c) w = (Ok c', w') ->
  known c c' /\ c' = mkCall (cl_FullMethod c) (cl_Metadata c) (Some id) (cl_Environment (prepared id c))
    (cl_IdempotencyKey (prepared id c)) (cl_Principal c') (cl_Headers (prepared id c)).
Proof.
  unfold authenticateGRPC, known. cbn [cl_FullMethod cl_Metadata prepared]. destruct (_ && _).
  - destruct (cl_Metadata c "authorization") as [|value rest]; [done|]. destruct (VerifyPSK _ _) eqn:Hv; [|done].
    intros [= <- _]. split; [by exists value, rest|done].
  - destruct (MatchesAny _ _); [by intros [= <- _]|]. destruct (cl_Metadata c "authorization") as [|value rest]; [done|].
    destruct (cut_space value) as [[scheme raw] ok] eqn:Hc. destruct ok; [|done]. cbn [negb orb].
    destruct (EqualFold scheme "Bearer") eqn:Hf; [|done]. cbn [negb].
    destruct (Verify service raw w) as [[who|e] w1] eqn:Hv; [|done]. intros [= <- _].
    split; [by exists value, rest, scheme, raw, who, w, w1|done].
Qed.

(** Which identifier a call gets, and the state after drawing it. *)
Definition identified (c : Call) (w : W) : string * W :=
  let id := match cl_Metadata c "x-request-id" with
            | value :: _ => if requestid_Valid value then value else "" | [] => "" end in
  if str_empty id then requestid_Generate w else (id, w).

Lemma identified_spec c w : requestid_Valid (identified c w).1 = true \/
  exists w0 w1, requestid_Generate w0 = ((identified c w).1, w1).
Proof.
  unfold identified. destruct (cl_Metadata c "x-request-id") as [|value rest]; cbn.
  - right. exists w. destruct (requestid_Generate w) as [id w1]. by exists w1.
  - destruct (requestid_Valid value) eqn:Hv; cbn; [destruct (str_empty value)|];
      [right; exists w; destruct (requestid_Generate w) as [id w1]; by exists w1|by left
      |right; exists w; destruct (requestid_Generate w) as [id w1]; by exists w1].
Qed.

Lemma prepared_admitted id c w c' w' : (requestid_Valid id = true \/ exists w0 w1, requestid_Generate w0 = (id, w1)) ->
  match cl_Metadata c "idempotency-key" with key :: _ => idempotency_Valid key = true | [] => True end ->
  authenticateGRPC service auth (prepared id c) w = (Ok c', w') -> admitted c c'.
Proof.
  intros Hid Hkey [Hk ->]%authenticate_known. split; [done|done| | |exact Hk].
  - exists id. split; [done|]. split; [apply lookup_insert_eq|done].
  - cbn. by destruct (cl_Metadata c "idempotency-key").
Qed.

Definition refused_codes : list Code := [InvalidArgument; Unauthenticated].

Lemma authenticate_refuses c w s w' : authenticateGRPC service auth c w = (Err s, w') -> st_code s = Unauthenticated.
Proof.
  unfold authenticateGRPC. destruct (_ && _).
  - destruct (cl_Metadata c "authorization"); [by intros [= <- _]|]. destruct (VerifyPSK _ _); [done|by intros [= <- _]].
  - destruct (MatchesAny _ _); [done|]. destruct (cl_Metadata c "authorization") as [|value rest]; [by intros [= <- _]|].
    destruct (cut_space value) as [[scheme raw] ok]. destruct (_ || _); [by intros [= <- _]|].
    destruct (Verify service raw w) as [[who|e] w1]; [done|by intros [= <- _]].
Qed.

(** The common part of both chains: identify, check the key, authenticate. *)
Definition admission (c : Call) (w : W) : result Status Call * W :=
  let '(id, w1) := identified c w in
  match cl_Metadata c "idempotency-key" with
  | key :: _ => if negb (idempotency_Valid key) then (Err (mkStatus InvalidArgument "invalid idempotency-key"), w1)
                else authenticateGRPC service auth (prepared id c) w1
  | [] => authenticateGRPC service auth (prepared id c) w1
  end.

Lemma admit_spec c w : match admission c w with
  | (Err s, _) => st_code s ∈ refused_codes
  | (Ok c', _) => admitted c c'
  end.
Proof.
  unfold admission. pose proof (identified_spec c w) as Hid. destruct (identified c w) as [id w1]. cbn [fst] in Hid.
  assert (Hauth : match cl_Metadata c "idempotency-key" with key :: _ => idempotency_Valid key = true | [] => True end ->
    match authenticateGRPC service auth (prepared id c) w1 with
    | (Err s, _) => st_code s ∈ refused_codes | (Ok c', _) => admitted c c' end).
  { intros Hkey. destruct (authenticateGRPC service auth (prepared id c) w1) as [[c'|s] w2] eqn:Ha.
    - by eapply prepared_admitted.
    - apply authenticate_refuses in Ha. rewrite Ha. unfold refused_codes. set_solver. }
  destruct (cl_Metadata c "idempotency-key") as [|key rest]; [by apply Hauth|].
  destruct (idempotency_Valid key) eqn:Hk; cbn [negb]; [by apply Hauth|]. unfold refused_codes. cbn. set_solver.
Qed.

Lemma chain_admit {Resp} authorization idempotency (handler : UnaryHandler (W := W) (Resp := Resp)) c w :
  chain cfg service authorization idempotency handler c w =
  match admission c w with (Err s, w') => (Err s, w') | (Ok c', w') => authorization (idempotency handler) c' w' end.
Proof.
  unfold chain, environmentInterceptor, requestIDInterceptor, admission, identified, idempotencyInterceptor, authInterceptor.
  cbn [cl_Metadata cl_FullMethod cl_IdempotencyKey cl_Principal cl_Headers cl_RequestID cl_Environment].
  destruct (if str_empty _ then _ else _) as [id w1]. unfold prepared. cbn [cl_Metadata].
  destruct (cl_Metadata c "idempotency-key") as [|key rest]; [done|]. by destruct (idempotency_Valid key).
Qed.

Lemma stream_admit handler c w :
  (exists c0 id w', stream_SetHeader c0 id <> None /\ stream_chain cfg service handler c w = (Err (mkStatus Internal "set request metadata"), w')) \/
  stream_chain cfg service handler c w = match admission c w with (Err s, w') => (Err s, w') | (Ok c', w') => handler c' w' end.
Proof.
  unfold stream_chain, environmentStreamInterceptor, requestIDStreamInterceptor, admission, identified,
    idempotencyStreamInterceptor, authStreamInterceptor.
  cbn [cl_Metadata cl_FullMethod cl_IdempotencyKey cl_Principal cl_Headers cl_RequestID cl_Environment].
  destruct (if str_empty _ then _ else _) as [id w1].
  match goal with |- context [stream_SetHeader ?c0 id] => destruct (stream_SetHeader c0 id) eqn:Hs end.
  { left. eexists _, id, w1. split; [by rewrite Hs|done]. }
  right. unfold prepared. cbn [cl_Metadata].
  destruct (cl_Metadata c "idempotency-key") as [|key rest]; [done|]. by destruct (idempotency_Valid key).
Qed.

(** Whoever reaches a handler over gRPC was admitted: a call is refused with
    [InvalidArgument] or [Unauthenticated] (a stream also with [Internal], if its
    header cannot be sent) and no handler runs, or it runs the rest of the chain once,
    with a request identifier that is valid or fresh and is sent back, the active
    profile, a valid idempotency key or none, and the identity of the shared key or of
    a token that verified, unless the method is open; and streams let through exactly the
    calls unary methods do. *)
Theorem grpc_calls_admitted {Resp} authorization idempotency (handler : UnaryHandler (W := W) (Resp := Resp)) (stream : StreamHandler) c w :
  ((exists s w', chain cfg service authorization idempotency handler c w = (Err s, w') /\ st_code s ∈ refused_codes) \/
   (exists c' w', admitted c c' /\ chain cfg service authorization idempotency handler c w = authorization (idempotency handler) c' w')) /\
  ((exists s w', stream_chain cfg service stream c w = (Err s, w') /\ st_code s ∈ Internal :: refused_codes) \/
   (exists c' w', admitted c c' /\ stream_chain cfg service stream c w = stream c' w')) /\
  ((forall c0 id, stream_SetHeader c0 id = None) ->
   stream_chain cfg service stream c w = chain cfg service id id stream c w).
Proof.
  pose proof (admit_spec c w) as Ha. split; [|split].
  - rewrite chain_admit. destruct (admission c w) as [[c'|s] w']; [right; by exists c', w'|left; by exists s, w'].
  - destruct (stream_admit stream c w) as [(c0 & id & w' & _ & Hs)|Hs]; rewrite Hs.
    + left. eexists _, w'. split; [done|]. by left.
    + destruct (admission c w) as [[c'|s] w']; [right; by exists c', w'|left]. exists s, w'. split; [done|]. by right.
  - intros Hh. rewrite chain_admit. destruct (stream_admit stream c w) as [(c0 & id & w' & Hne & _)|Hs]; [by rewrite Hh in Hne|exact Hs].
Qed.
End admitted.

(** A panic becomes an answer, and nothing else changes. *)
Lemma recovery_total {Resp} (handler : Call -> W -> option (result Status Resp) * W) c w :
  (recoveryInterceptor handler c w).2 = (handler c w).2 /\
  match (handler c w).1 with
  | Some r => (recoveryInterceptor handler c w).1 = r
  | None => (recoveryInterceptor handler c w).1 = Err (mkStatus Internal "internal server error")
  end.
Proof. unfold recoveryInterceptor. by destruct (handler c w) as [[r|] w']. Qed.
End streams.
