(* ===== verification/GrpcSystem.v ===== *)
(** * A call through the whole gRPC server (internal/transport/grpc/server.go)

    The interceptors, the methods, the service and the tables together.  The platform's
    interceptors for authorization and idempotency are parameters that run the rest of
    the chain at most once. *)
From S2P Require Import Prelude GoStd Json Model GraphCodec Graph World WorldTheory PathMatch Config Defaults.
From S2P Require Import Repository Queries RepositorySpec Service ServiceSpec GrpcServer AppError Auth Middleware MiddlewareSpec.
From S2P Require Import Events HttpServer HttpSystem GrpcInterceptors GrpcStreams.
From Stdlib Require Import Ascii String.
Local Open Scope string_scope.
Local Open Scope list_scope.

Section server.
Context {Event : Type} {EF : EventFactory Event} {SQL : SqlText} {E : Env} {MR : MapRange} {GS : GrpcStatus} {MN : MethodNames}.
Context {AR : AssignmentResolver (World Event)} {SE : ServiceEnv (World Event)} {HE : HttpEnv (W := World Event)}.
Abbreviation W := (World Event).
Abbreviation UnaryInterceptor := (UnaryInterceptor (W := W) (Resp := GrpcResponse)).
Context (cfg : config.Config) (service : AuthService (W := W)) (authorizer : Authorizer (W := W)) (trace : Call -> string).
Context (authorization idempotency : UnaryInterceptor).

(** The context of a method. *)
Definition call_ctx (c : Call) : Ctx := mkCtx (cl_Principal c) (default "" (cl_RequestID c)) (trace c).

Definition serve_grpc (q : GrpcRequest) : Call -> W -> result Status GrpcResponse * W :=
  chain cfg service authorization idempotency (fun c w => rpc (call_ctx c) q w).

(** An interceptor answers by itself, or runs the rest once - if [Q] holds of the call -
    and passes its answer on; it does not touch the tables. *)
Definition gate (i : UnaryInterceptor) (Q : Call -> Prop) : Prop := forall c w,
  (exists r w', (forall handler, i handler c w = (r, w')) /\ same_tables w w') \/
  (Q c /\ exists w1 post, (forall handler, i handler c w = post (handler c w1)) /\ same_tables w w1 /\
     forall o, (post o).1 = o.1 /\ same_tables o.2 (post o).2).

(** The decision point allowed the caller what the method requires. *)
Definition permitted (c : Call) : Prop :=
  forall requirement, workflowGRPCRequirement (config.az_Enabled (config.c_Authorization cfg)) (cl_FullMethod c) = Some requirement ->
  exists credential w1 w2, Enforce authorizer (cl_Principal c) credential requirement w1 = (Ok tt, w2).

Record grpc_elsewhere : Prop := {
  ge_quiet : quiet (Event := Event);
  ge_random w : same_tables w (rand_Read w).2;
  ge_identity : identity_within same_tables service;
  ge_authorization : gate authorization permitted;
  ge_idempotency : gate idempotency (fun _ => True)
}.

Lemma admission_within c w : grpc_elsewhere -> same_tables w (admission cfg service c w).2.
Proof.
  intros [_ Hrand Hid _ _]. unfold admission, identified. set (id := match cl_Metadata c "x-request-id" with _ :: _ => _ | [] => _ end).
  assert (Hgen : same_tables w (if str_empty id then requestid_Generate w else (id, w)).2).
  { destruct (str_empty id); [|reflexivity]. unfold requestid_Generate. specialize (Hrand w). by destruct (rand_Read w) as [[v|] w']. }
  destruct (if str_empty id then _ else _) as [id' w1]. cbn [snd] in Hgen.
  assert (Hauth : forall c', same_tables w (authenticateGRPC service (config.c_Auth cfg) c' w1).2).
  { intros c'. unfold authenticateGRPC. destruct (_ && _).
    - destruct (cl_Metadata c' "authorization"); [done|]. by destruct (VerifyPSK _ _).
    - destruct (MatchesAny _ _); [done|]. destruct (cl_Metadata c' "authorization") as [|value rest]; [done|].
      destruct (cut_space value) as [[scheme raw] ok]. destruct (_ || _); [done|].
      pose proof (Verify_within same_tables service raw w1 Hid) as Hv. destruct (Verify service raw w1) as [[who|e] w2];
        cbn [snd] in *; by etrans. }
  destruct (cl_Metadata c "idempotency-key") as [|key rest]; [apply Hauth|]. destruct (negb _); [exact Hgen|apply Hauth].
Qed.

(** What a call that reaches its method gets: the answer of one request to the service. *)
Definition called (q : GrpcRequest) (c : Call) (w : W) (o : result Status GrpcResponse * W) : Prop :=
  answers (serve (call_ctx c) (service_request q) w) o /\
  one_call (request_call (service_request q)) (serve (call_ctx c) (service_request q)) w.

(** C31. One gRPC call, from the wire to the tables: either it is answered on the way
    and the tables stay as they are, or its method runs exactly once - for a caller who
    was admitted (under the shared key or a verified token, unless the method is open)
    and whom the decision point allowed what the method requires whenever authorization
    is on - and its answer, passed on unchanged, is that of exactly one request to the
    service, which changes the tables by at most one repository call with well-formed
    arguments. *)
Theorem grpc_call_effect q c0 w : grpc_elsewhere -> started w -> cl_FullMethod c0 = FullMethodName (method_of q) ->
  let '(r, w') := serve_grpc q c0 w in
  rtc run_step w w' /\
  (same_tables w w' \/
   exists c w1 o, admitted cfg service c0 c /\
     (config.az_Enabled (config.c_Authorization cfg) = true -> exists requirement credential wa wb,
        workflowGRPCRequirement true (cl_FullMethod c) = Some requirement /\
        Enforce authorizer (cl_Principal c) credential requirement wa = (Ok tt, wb)) /\
     same_tables w w1 /\ rpc (call_ctx c) q w1 = o /\ called q c w1 o /\ r = o.1 /\ same_tables o.2 w').
Proof.
  intros Hel Hs Hm. pose proof (admission_within c0 w Hel) as Hadm. pose proof (admit_spec (fun _ _ => None) cfg service c0 w) as Hspec.
  unfold serve_grpc. rewrite chain_admit. destruct (admission cfg service c0 w) as [[c|s] wa]; cbn [snd] in Hadm.
  2: { split; [by apply same_tables_steps|by left]. }
  destruct (ge_authorization Hel c wa) as [(r & wb & -> & Hb)|(Hperm & wb & posta & -> & Hb & Ha)].
  { split; [apply same_tables_steps|left]; by etrans. }
  destruct (ge_idempotency Hel c wb) as [(r & wc & -> & Hc)|(_ & wc & posti & -> & Hc & Hi)].
  { destruct (Ha (r, wc)) as [_ Hpost]. destruct (posta (r, wc)) as [r' w']. cbn [snd] in Hpost.
    split; [apply same_tables_steps|left]; by repeat (etrans; [eassumption|]). }
  assert (Hsame : same_tables w wc) by (by repeat (etrans; [eassumption|])).
  assert (Hsc : started wc) by (eapply started_more; [exact Hs|by apply same_tables_steps]).
  pose proof (rpc_answers (call_ctx c) q wc) as Hans.
  pose proof (serve_one_call (ge_quiet Hel) (call_ctx c) (service_request q) wc Hsc) as Hone.
  destruct (rpc (call_ctx c) q wc) as [r1 w1] eqn:Hrpc. destruct (Hi (r1, w1)) as [Hi1 Hi2].
  destruct (posti (r1, w1)) as [r2 w2]. cbn [fst snd] in Hi1, Hi2. destruct (Ha (r2, w2)) as [Ha1 Ha2].
  destruct (posta (r2, w2)) as [r3 w3]. cbn [fst snd] in Ha1, Ha2. subst r2 r3. split.
  - transitivity wc; [by apply same_tables_steps|]. transitivity w1; [|apply same_tables_steps; by transitivity w2].
    destruct Hans as [Hw _]. cbn [snd] in Hw. rewrite Hw. by eapply one_call_steps.
  - right. exists c, wc, (r1, w1). split; [done|]. split.
    + intros Hen. unfold permitted in Hperm. rewrite Hen in Hperm. destruct Hspec as [[Hfm _] _ _ _ _]. rewrite Hfm, Hm in *.
      rewrite workflowGRPCRequirement_method in *.
      destruct (required_by (method_of q) method_requirements) as [req|] eqn:Hreq; [|by destruct q].
      destruct (Hperm req eq_refl) as (credential & w4 & w5 & Hen'). by exists req, credential, w4, w5.
    + split_and!; try done. by etrans.
Qed.
End server.

(** ** Bob completes a task over gRPC *)
Module Called.
Import RepositorySpec.Sample ServiceSpec.Served HttpSystem.Posted.

#[export, refine] Instance names : MethodNames := {|
  FullMethodName := fun m => "/platform.workflow.v1.WorkflowService/" +:+ match m with
    | WorkflowService_CreateDefinition => "CreateDefinition" | WorkflowService_UpdateDefinition => "UpdateDefinition"
    | WorkflowService_PublishDefinition => "PublishDefinition" | WorkflowService_DisableDefinition => "DisableDefinition"
    | WorkflowService_GetDefinition => "GetDefinition" | WorkflowService_ListDefinitions => "ListDefinitions"
    | WorkflowService_StartInstance => "StartInstance" | WorkflowService_CancelInstance => "CancelInstance"
    | WorkflowService_GetInstance => "GetInstance" | WorkflowService_ListInstances => "ListInstances"
    | WorkflowService_ClaimTask => "ClaimTask" | WorkflowService_CompleteTask => "CompleteTask"
    | WorkflowService_DelegateTask => "DelegateTask" | WorkflowService_GetTask => "GetTask"
    | WorkflowService_ListTasks => "ListTasks" | WorkflowService_ListTaskHistory => "ListTaskHistory"
    | WorkflowService_ListInstanceTaskHistory => "ListInstanceTaskHistory" end |}.
Proof. intros m m'. by destruct m, m'. Defined.

#[export, refine] Instance context_statuses : GrpcStatus := {|
  FromContextError := fun e => mkStatus (if errors_Is_foreign e ContextDeadline then DeadlineExceeded else Canceled) "context" |}.
Proof. intros e. simpl. split; [by intros ->|by intros -> _]. Defined.

(** The platform's authorization, and no idempotent methods. *)
Definition enforcing (enabled : bool) : UnaryInterceptor (W := World DomainEvent) (Resp := GrpcResponse) := fun handler c w =>
  match workflowGRPCRequirement enabled (cl_FullMethod c) with
  | None => handler c w
  | Some requirement =>
      match Enforce decides (cl_Principal c) None requirement w with
      | (Ok _, w') => handler c w'
      | (Err _, w') => (Err (mkStatus PermissionDenied "permission denied"), w')
      end
  end.

Lemma all_grpc_elsewhere cfg :
  grpc_elsewhere cfg identity decides (enforcing (config.az_Enabled (config.c_Authorization cfg))) (fun handler => handler).
Proof.
  split; try done.
  - split. intros verify raw w. simpl. intros [= <-]. unfold same_tables. by destruct (String.eqb raw "bobs-token").
  - intros c w. unfold enforcing, permitted. destruct (workflowGRPCRequirement _ (cl_FullMethod c)) as [req|].
    + destruct (cl_Principal c) as [who|]; cbn.
      * right. split; [intros r _; by exists None, w, w|]. by exists w, (fun o => o).
      * left. by eexists _, w.
    + right. split; [done|]. by exists w, (fun o => o).
  - intros c w. right. split; [done|]. by exists w, (fun o => o).
Qed.

Definition complete : GrpcRequest := GCompleteTask "acme" "crm" "task-1" TASK_DECISION_APPROVE "ok" "{}" 1.
Definition call (token : string) : Call :=
  mkCall (FullMethodName WorkflowService_CompleteTask)
    (fun k => if String.eqb k "authorization" then ["Bearer " +:+ token] else []) None None None None ∅.
Abbreviation server := (serve_grpc (default_config "") identity (fun _ => "trace-2") (enforcing false) (fun handler => handler)).

Lemma grpc_call_effect_witness :
  rtc run_step w1 (server complete (call "bobs-token") w1).2 /\
  (task_Status <$> db_tasks (w_db (server complete (call "bobs-token") w1).2) !! "task-1") = Some TaskApproved /\
  w_db (server complete (call "eves-token") w1).2 = w_db w1.
Proof.
  split; [|split; vm_compute; reflexivity].
  pose proof (grpc_call_effect (default_config "") identity decides (fun _ => "trace-2") (enforcing false) (fun handler => handler)
    complete (call "bobs-token") w1 (all_grpc_elsewhere (default_config "")) started_w1 eq_refl) as H.
  destruct (server complete (call "bobs-token") w1) as [r w']. apply H.
Defined.
End Called.
