(* ===== verification/Observed.v ===== *)
(** * Logs and metrics (internal/observability/metrics.go, the observers of
      transport/http/middleware.go and transport/grpc/server.go)

    The metrics that are registered, and the middlewares that log, count and recover:
    what they add to an answer, and which requests are counted. *)
From S2P Require Import Prelude GoStd Json Model GraphCodec Graph World PathMatch Config Auth AppError.
From S2P Require Import Repository Service Execute Events Commands GrpcServer Middleware GrpcInterceptors.
From Stdlib Require Import Ascii String.
From stdpp Require Import pretty.
Local Open Scope string_scope.
Local Open Scope list_scope.

(** ** The registry *)

Inductive metric_kind : Type := CounterVec | HistogramVec | GaugeFunc.
Record Metric : Type := mkMetric { mt_kind : metric_kind; mt_name : string; mt_labels : list string }.

(** The metrics [NewMetrics] always registers. *)
Definition service_metrics : list Metric := [
  mkMetric CounterVec "http_requests_total" ["method"; "route"; "status"];
  mkMetric HistogramVec "http_request_duration_seconds" ["method"; "route"];
  mkMetric CounterVec "cron_runs_total" ["job"; "status"];
  mkMetric HistogramVec "cron_run_duration_seconds" ["job"];
  mkMetric CounterVec "grpc_server_requests_total" ["method"; "code"];
  mkMetric HistogramVec "grpc_server_duration_seconds" ["method"];
  mkMetric CounterVec "outbound_requests_total" ["protocol"; "client"; "status"];
  mkMetric HistogramVec "outbound_request_duration_seconds" ["protocol"; "client"] ].

(** [registerRedisMetrics] *)
Definition redis_metrics : list Metric := (fun name => mkMetric GaugeFunc name []) <$> [
  "redis_pool_hits_total"; "redis_pool_misses_total"; "redis_pool_timeouts_total"; "redis_pool_connections";
  "redis_pool_idle_connections" ].

(** What is registered besides the collectors of the Prometheus library. *)
Definition NewMetrics_registers (redis : bool) : list Metric :=
  service_metrics ++ if redis then redis_metrics else [].

(** [MustRegister] panics on a name that is taken: none is. *)
Lemma NewMetrics_registers_once redis : NoDup (mt_name <$> NewMetrics_registers redis).
Proof. destruct redis; apply (bool_decide_eq_true_1 (NoDup _)); vm_compute; reflexivity. Qed.

(** ** Observations *)

Inductive observation : Type :=
| Counted (metric : string) (labels : list string)      (** [WithLabelValues(...).Inc()] *)
| Timed (metric : string) (labels : list string)        (** [WithLabelValues(...).Observe(...)] *)
| Logged (level message : string) (fields : list (string * string)).

(** Every observation names a registered metric with as many values as it has labels,
    without which [WithLabelValues] panics. *)
Definition observable (o : observation) : bool :=
  match o with
  | Counted m l | Timed m l =>
      existsb (fun mt => String.eqb (mt_name mt) m && (List.length (mt_labels mt) =? List.length l)%nat) service_metrics
  | Logged _ _ _ => true
  end.

(** [ObserveCron] *)
Definition ObserveCron (enabled : bool) (job status : string) : list observation :=
  if negb enabled then [] else [Counted "cron_runs_total" [job; status]; Timed "cron_run_duration_seconds" [job]].

(** ** The HTTP observers *)

Section http.
Context {W B : Type} {EC : ErrorCodes}.
Abbreviation Gin := (@Gin B).

(** A handler returns or panics; what it wrote before is written. *)
Inductive ended : Type := Returned (g : Gin) | Panicked (g : Gin) (recovered : string).
Definition Handler : Type := Gin -> W -> (ended * list observation) * W.

Definition route_label (g : Gin) : string := if str_empty (g_FullPath g) then "unmatched" else g_FullPath g.

Definition HTTPMetrics (enabled : bool) (next : Handler) : Handler := fun g w =>
  match next g w with
  | ((Panicked g' p, obs), w') => ((Panicked g' p, obs), w')
  | ((Returned g', obs), w') =>
      if negb enabled then ((Returned g', obs), w')
      else
        let route := route_label g' in
        ((Returned g', obs ++ [Counted "http_requests_total" [g_Method g'; route; pretty (writer_status g')];
                               Timed "http_request_duration_seconds" [g_Method g'; route]]), w')
  end.

(** [AbortWithStatusJSON]: what has been written stays. *)
Definition abort_internal (g : Gin) : Gin :=
  match g_Written g with
  | Some _ => g
  | None => answer (WroteJSON (mkReply StatusInternalServerError
              (mkResponse CodeInternal "internal server error" None (requestID g)) None)) g
  end.

Definition Recovery (next : Handler) : Handler := fun g w =>
  match next g w with
  | ((Panicked g' p, obs), w') =>
      ((Returned (abort_internal g'), obs ++ [Logged "error" "http panic recovered" [("request_id", requestID g'); ("panic", p)]]), w')
  | o => o
  end.

Definition RequestLogger (next : Handler) : Handler := fun g w =>
  match next g w with
  | ((Returned g', obs), w') =>
      ((Returned g', obs ++ [Logged "info" "http request" [("request_id", requestID g'); ("method", g_Method g');
          ("path", g_FullPath g'); ("status", pretty (writer_status g')); ("client_ip", g_ClientIP g')]]), w')
  | o => o
  end.

(** In the order of [router.Use]. *)
Definition observers (enabled : bool) (next : Handler) : Handler := RequestLogger (Recovery (HTTPMetrics enabled next)).

Definition counts_request (g : Gin) : list observation :=
  [Counted "http_requests_total" [g_Method g; route_label g; pretty (writer_status g)];
   Timed "http_request_duration_seconds" [g_Method g; route_label g]].
Definition logs_request (g : Gin) : observation :=
  Logged "info" "http request" [("request_id", requestID g); ("method", g_Method g); ("path", g_FullPath g);
    ("status", pretty (writer_status g)); ("client_ip", g_ClientIP g)].

(** Observers change no answer and touch nothing else.  A request whose handler returns
    is logged once and, with metrics, counted once under the status it is answered; one
    whose handler panics is answered 500 - unless an answer was under way - and logged
    twice, but is not counted, although the metric is the total of all requests. *)
Theorem observers_exact enabled (next : Handler) g w :
  match next g w with
  | ((Returned g', obs), w') =>
      observers enabled next g w =
        ((Returned g', obs ++ (if enabled then counts_request g' else []) ++ [logs_request g']), w')
  | ((Panicked g' p, obs), w') =>
      observers enabled next g w =
        ((Returned (abort_internal g'), obs ++
          [Logged "error" "http panic recovered" [("request_id", requestID g'); ("panic", p)]; logs_request (abort_internal g')]), w') /\
      (g_Written g' = None -> written_status <$> g_Written (abort_internal g') = Some StatusInternalServerError)
  end.
Proof.
  unfold observers, RequestLogger, Recovery, HTTPMetrics. destruct (next g w) as [[[g'|g' p] obs] w'].
  - destruct enabled; cbn [negb]; unfold counts_request, logs_request; by rewrite <- ?app_assoc.
  - rewrite <- app_assoc. split; [done|]. unfold abort_internal. by intros ->.
Qed.

Lemma counts_observable g : forallb observable (counts_request g) = true.
Proof. reflexivity. Qed.
End http.

(** ** The gRPC observers *)

Section grpc.
Context {W Resp : Type}.

Definition Unary : Type := Call -> W -> (option (result Status Resp) * list observation) * W.
Context (code_text : option Status -> string).

(** Of a unary call or a stream, by its log message: [status.Code] of no error is [OK];
    a panic passes by. *)
Definition observe_call (message : string) (enabled : bool) (handler : Unary) : Unary := fun c w =>
  match handler c w with
  | ((None, obs), w') => ((None, obs), w')
  | ((Some r, obs), w') =>
      let code := code_text (match r with Ok _ => None | Err s => Some s end) in
      ((Some r, obs ++ (if enabled then [Counted "grpc_server_requests_total" [cl_FullMethod c; code];
                                         Timed "grpc_server_duration_seconds" [cl_FullMethod c]] else []) ++
        [Logged "info" message [("request_id", default "" (cl_RequestID c)); ("method", cl_FullMethod c); ("code", code)]]), w')
  end.
Definition metricsInterceptor : bool -> Unary -> Unary := observe_call "grpc request".
Definition metricsStreamInterceptor : bool -> Unary -> Unary := observe_call "grpc stream".

(** Neither changes an answer, and what they add is observable. *)
Lemma observe_call_transparent message enabled handler c w :
  (observe_call message enabled handler c w).1.1 = (handler c w).1.1 /\
  (observe_call message enabled handler c w).2 = (handler c w).2 /\
  exists obs, (observe_call message enabled handler c w).1.2 = (handler c w).1.2 ++ obs /\ forallb observable obs = true.
Proof.
  unfold observe_call. destruct (handler c w) as [[[r|] obs] w']; (split; [done|]; split; [done|]).
  - eexists. split; [reflexivity|]. by destruct enabled.
  - exists []. by rewrite app_nil_r.
Qed.

(** *** Outbound calls *)

(** What a client records of a call: [HTTPClient.Do] under the status code or ["error"],
    the gRPC client's interceptor under the code. *)
Definition observe_outbound (enabled : bool) (protocol client status : string) : list observation :=
  if negb enabled then []
  else [Counted "outbound_requests_total" [protocol; client; status]; Timed "outbound_request_duration_seconds" [protocol; client]].
Definition http_status_label (response : option Z) : string :=
  match response with Some status => pretty status | None => "error" end.

Lemma observe_outbound_observable enabled protocol client status :
  forallb observable (observe_outbound enabled protocol client status) = true.
Proof. by destruct enabled. Qed.
End grpc.
