(* ===== verification/Wiring.v ===== *)
(** * The assembly of the service (internal/app, internal/workflowruntime/temporal.go,
      internal/eventbus, internal/cache)

    The constructors of the dependency graph in the order the graph is built, with
    what they make of missing parts, and the start of the background work.  What a
    constructor needs from outside - a server that answers, a certificate that loads -
    is the class [Platform]. *)
From S2P Require Import Prelude GoStd Model Graph World PathMatch Config ConfigSpec Database Load Logging Auth AppError Health.
From S2P Require Import BuildInfo Tls Outbound OutboundSpec.
From Stdlib Require Import Ascii String.
Local Open Scope string_scope.
Local Open Scope list_scope.

(** A pointer: nil, or to something. *)
Abbreviation ptr := option.
(** An interface value: nil, or one that holds a pointer - which may itself be nil. *)
Definition iface (A : Type) : Type := option (ptr A).
Definition of_pointer {A} (p : ptr A) : iface A := Some p.
Definition is_nil {A} (i : option A) : bool := match i with None => true | Some _ => false end.

(** *** What the libraries are given *)

(** [platformeventbus.Config] *)
Record BusConfig : Type := mkBusConfig {
  bc_URLs : list string; bc_ClientName : string; bc_StreamName : string; bc_Subjects : list string; bc_Storage : string;
  bc_MaxAge : Z; bc_DuplicateWindow : Z; bc_ConnectTimeout : Z; bc_ReconnectWait : Z; bc_PublishTimeout : Z;
  bc_ConsumerAckWait : Z; bc_ConsumerAckTimeout : Z; bc_ConsumerHandlerTimeout : Z; bc_ConsumerRetryDelay : Z;
  bc_ConsumerMaxRetryDelay : Z; bc_ConsumerMaxDeliver : Z; bc_ConsumerMaxAckPending : Z; bc_DeadLetterSubject : string
}.

(** [platformidempotency.Config], and the manager over a client that may be nil. *)
Record IdempotencyConfig : Type := mkIdempotencyConfig {
  ic_Enabled : bool; ic_Service : string; ic_ProcessingTTL : Z; ic_ResultTTL : Z; ic_FailureTTL : Z
}.
Record IdempotencyManager : Type := mkIdempotencyManager { im_client : ptr unit; im_config : IdempotencyConfig }.

(** [client.Options] of Temporal. *)
Record TemporalOptions {CT : Certificates} : Type := mkTemporalOptions {
  to_HostPort : string; to_Namespace : string; to_Identity : string; to_TLS : option TlsConfig
}.
Arguments mkTemporalOptions {CT}.

(** The tracer provider: where the traces go, whose they are, and the ratio of those
    that start here which are sampled. *)
Record TracerProvider : Type := mkTracerProvider {
  tp_endpoint : string; tp_service_name : string; tp_service_version : string; tp_ratio : SpecFloat.spec_float
}.
Record Tracing : Type := mkTracing { tr_enabled : bool; tr_provider : ptr TracerProvider }.

Class Platform `{Certificates} := {
  linked : Build;
  otlp_New : string -> res unit;
  migration_Run : config.Migration -> list error;
  redis_Ping : config.Redis -> res unit;
  InstrumentTracing : res unit;
  platformeventbus_New : BusConfig -> res unit;
  outbox_NewSQLStore : string -> res unit;
  dynamicgrpc_New : res unit;
  temporal_Dial : TemporalOptions -> res unit;
  NewJWKSVerifier : string -> string -> string -> res unit;
  SetTrustedProxies : list string -> res unit;
  outbox_New : forall batchSize lease retryDelay : Z, res unit;
  outbox_NewRetentionCleaner : forall retention batchSize : Z, res unit;
  worker_Start : res unit;
  net_Listen : string -> res unit
}.

Section wiring.
Context {MR : MapRange} {DR : Drivers} {UL : UrlLibrary} {LF : LogFiles} {CT : Certificates} {PF : Platform} {Brk : Type}.
Context (newBreaker : string -> config.Breaker -> Brk) (newClient : string -> res unit).

(** The parts, as far as their construction depends on each other. *)
Record Repository : Type := mkRepository { }.
Record Resolver : Type := mkResolver { rs_target : GrpcClientConfig }.
Record Verifier : Type := mkVerifier { vf_target : GrpcClientConfig }.
Record WorkflowService : Type := mkWorkflowService { }.
Record SQLStore : Type := mkSQLStore { ss_table : string }.
Record Bus : Type := mkBus { }.
Record Invoker : Type := mkInvoker { }.
Record Activities : Type := mkActivities { }.
Record TemporalRuntime : Type := mkTemporalRuntime { rt_Client : bool }.
Record CommandHandler : Type := mkCommandHandler { ch_taskQueue : string }.

(** *** internal/app/app.go *)

Definition runStartupMigration (cfg : config.Config) : res unit :=
  if negb (config.mig_AutoUp (config.c_Migration cfg)) then Ok tt
  else match migration_Run (config.c_Migration cfg) with
       | [] => Ok tt
       | err :: _ => Err (Wrap "startup database migration: %w" [] err)
       end.

Definition newDatabase (cfg : config.Config) : res (ptr Pool) :=
  if negb (config.db_Enabled (config.c_Database cfg)) then Ok None
  else db ← Open (config.c_Database cfg); Ok (Some db).

(** [cache.Open] *)
Definition cache_Open (cfg : config.Redis) : res unit := wrap_res "ping redis: %w" (redis_Ping cfg).

Definition newRedis (cfg : config.Config) (tracing : bool) : res (ptr unit) :=
  if negb (config.redis_Enabled (config.c_Redis cfg)) then Ok None
  else
    _ ← cache_Open (config.c_Redis cfg);
    _ ← (if tracing then wrap_res "instrument redis tracing: %w" InstrumentTracing else Ok tt);
    Ok (Some tt).

(** [observability.NewTracing] *)
Definition NewTracing (cfg : config.Config) : res Tracing :=
  let o := config.c_Observability cfg in
  if negb (config.obs_TracingEnabled o) then Ok (mkTracing false None)
  else
    _ ← wrap_res "create OTLP trace exporter: %w" (otlp_New (config.obs_TracingEndpoint o));
    Ok (mkTracing true (Some (mkTracerProvider (config.obs_TracingEndpoint o) (config.app_Name (config.c_App cfg))
                                (bd_Version linked) (config.obs_TracingSampleRatio o)))).

(** *** internal/eventbus *)

Definition bus_config (cfg : config.Config) : BusConfig :=
  let e := config.c_EventBus cfg in
  mkBusConfig (config.eb_URLs e) (config.app_Name (config.c_App cfg)) (config.eb_StreamName e) (config.eb_Subjects e)
    (config.eb_Storage e) (config.eb_MaxAge e) (config.eb_DuplicateWindow e) (config.eb_ConnectTimeout e)
    (config.eb_ReconnectWait e) (config.eb_PublishTimeout e) (config.eb_ConsumerAckWait e) (config.eb_ConsumerAckTimeout e)
    (config.eb_ConsumerHandlerTimeout e) (config.eb_ConsumerRetryDelay e) (config.eb_ConsumerMaxRetryDelay e)
    (config.eb_ConsumerMaxDeliver e) (config.eb_ConsumerMaxAckPending e) (config.eb_DeadLetterSubject e).

Definition eventbus_New (cfg : config.Config) : res (ptr Bus) :=
  if negb (config.eb_Enabled (config.c_EventBus cfg)) then Ok None
  else _ ← platformeventbus_New (bus_config cfg); Ok (Some mkBus).
Definition newBus (cfg : config.Config) : res (ptr Bus) := bus ← eventbus_New cfg; Ok bus.

Definition eventbus_Publish (bus : ptr Bus) (publish : res unit) : res unit :=
  match bus with None => Err (ErrorNew "event bus is disabled") | Some _ => publish end.
Definition eventbus_Close (bus : ptr Bus) (close : res unit) : res unit :=
  match bus with None => Ok tt | Some _ => close end.

(** *** The constructors the workflow's parts check their arguments in *)

Definition NewRepository (db : ptr Pool) (outbox : iface SQLStore) (events : iface unit) : res Repository :=
  if is_nil db || is_nil outbox || is_nil events
  then Err (ErrorNew "workflow database, transactional outbox, and event factory are required") else Ok mkRepository.
Definition NewService (store : iface Repository) (assignments : iface Resolver) (applications : option Verifier) : res WorkflowService :=
  if is_nil store || is_nil assignments || is_nil applications
  then Err (ErrorNew "workflow store, assignment resolver, and application verifier are required") else Ok mkWorkflowService.
Definition NewActivities (store : iface Repository) (invoker : iface Invoker) : res Activities :=
  if is_nil store || is_nil invoker
  then Err (ErrorNew "workflow runtime store and dynamic gRPC invoker are required") else Ok mkActivities.
Definition NewCommandHandler (runtime : ptr TemporalRuntime) (taskQueue : string) : res CommandHandler :=
  if match runtime with None => true | Some r => negb (rt_Client r) end || str_empty taskQueue
  then Err (ErrorNew "enabled Temporal runtime and task queue are required") else Ok (mkCommandHandler taskQueue).

(** *** internal/app/workflow.go *)

Definition newWorkflowOutboxStore (db : ptr Pool) : res (ptr SQLStore) :=
  match db with
  | None => Ok None
  | Some _ => _ ← outbox_NewSQLStore "workflow_outbox_events"; Ok (Some (mkSQLStore "workflow_outbox_events"))
  end.

Definition newWorkflowRepository (db : ptr Pool) (outboxStore : ptr SQLStore) (events : ptr unit) : res (ptr Repository) :=
  if is_nil db then Ok None
  else r ← NewRepository db (of_pointer outboxStore) (of_pointer events); Ok (Some r).

Definition newDynamicGRPCInvoker (cfg : config.Config) (registry : ptr (Registry (Brk := Brk))) : res (ptr Invoker) :=
  if negb (config.tmp_Enabled (config.c_Temporal cfg)) then Ok None
  else if is_nil registry then Err (ErrorNew "enabled Temporal service tasks require outbound registry")
  else _ ← dynamicgrpc_New; Ok (Some mkInvoker).

Definition newWorkflowActivities (cfg : config.Config) (repository : ptr Repository) (invoker : ptr Invoker) : res (ptr Activities) :=
  if negb (config.tmp_Enabled (config.c_Temporal cfg)) then Ok None
  else a ← NewActivities (of_pointer repository) (of_pointer invoker); Ok (Some a).

Definition registry_GRPC (registry : Registry (Brk := Brk)) (name : string) : option GrpcClientConfig := rg_grpc registry !! name.

Definition newWorkflowAssignmentResolver (repository : ptr Repository) (registry : Registry (Brk := Brk)) : res (ptr Resolver) :=
  match repository with
  | None => Ok None
  | Some _ => match registry_GRPC registry "authorization" with
              | None => Err (ErrorNew "workflow service requires outbound.grpc.authorization")
              | Some connection => Ok (Some (mkResolver connection))
              end
  end.

Definition newApplicationVerifier (repository : ptr Repository) (registry : ptr (Registry (Brk := Brk))) : res (option Verifier) :=
  match repository with
  | None => Ok None
  | Some _ =>
      match registry with
      | None => Err (ErrorNew "workflow service requires outbound registry")
      | Some registry =>
          match registry_GRPC registry "application" with
          | None => Err (ErrorNew "workflow service requires outbound.grpc.application")
          | Some connection => Ok (Some (mkVerifier connection))
          end
      end
  end.

Definition newWorkflowService (repository : ptr Repository) (resolver : ptr Resolver) (applications : option Verifier) : res (ptr WorkflowService) :=
  if is_nil repository then Ok None
  else s ← NewService (of_pointer repository) (of_pointer resolver) applications; Ok (Some s).

(** *** internal/workflowruntime/temporal.go *)

Definition NewRuntime (cfg : config.Config) (activities : ptr Activities) : res TemporalRuntime :=
  if negb (config.tmp_Enabled (config.c_Temporal cfg)) then Ok (mkTemporalRuntime false)
  else
    tlsConfig ← temporalTLS (config.tmp_TLS (config.c_Temporal cfg));
    _ ← wrap_res "connect Temporal: %w"
          (temporal_Dial (mkTemporalOptions (config.tmp_HostPort (config.c_Temporal cfg)) (config.tmp_Namespace (config.c_Temporal cfg))
             (config.app_Name (config.c_App cfg)) tlsConfig));
    Ok (mkTemporalRuntime true).

(** *** internal/auth, internal/authorization and the servers *)

(** [auth.NewRuntime]: whether tokens are verified against an identity provider. *)
Definition auth_NewRuntime (cfg : config.Config) : res bool :=
  let a := config.c_Auth cfg in
  if str_empty (config.auth_JWKSURL a) then Ok false
  else _ ← wrap_res "configure identity token verifier: %w"
             (NewJWKSVerifier (config.auth_JWKSURL a) (config.auth_Issuer a) (config.auth_Audience a)); Ok true.

(** [authorization.New]: the client of the decision point, if there is one. *)
Definition authorization_New (registry : Registry (Brk := Brk)) : option GrpcClientConfig := registry_GRPC registry "authorization".

(** The transport credentials of the gRPC server; without TLS it has none. *)
Definition grpc_NewServer (cfg : config.Config) : res (option TlsConfig) :=
  if config.gtls_Enabled (config.grpc_TLS (config.c_GRPC cfg))
  then transport ← serverCredentials (config.grpc_TLS (config.c_GRPC cfg)); Ok (Some transport)
  else Ok None.
Definition http_NewServer (cfg : config.Config) : res unit :=
  wrap_res "configure trusted proxies: %w" (SetTrustedProxies (config.http_TrustedProxies (config.c_HTTP cfg))).

(** *** internal/idempotency *)

Definition idempotency_New (client : ptr unit) (cfg : config.Config) : IdempotencyManager :=
  let i := config.c_Idempotency cfg in
  mkIdempotencyManager client
    (mkIdempotencyConfig (config.idem_Enabled i) (config.app_Name (config.c_App cfg)) (config.idem_ProcessingTTL i)
       (config.idem_ResultTTL i) (config.idem_FailureTTL i)).

(** ** The graph *)

Record App : Type := mkApp {
  ap_logger : Logger; ap_tracing : Tracing; ap_idempotency : IdempotencyManager; ap_credentials : option TlsConfig;
  ap_db : ptr Pool; ap_redis : ptr unit; ap_store : ptr SQLStore; ap_repository : ptr Repository;
  ap_bus : ptr Bus; ap_registry : Registry (Brk := Brk); ap_runtime : TemporalRuntime;
  ap_service : ptr WorkflowService; ap_authorizer : option GrpcClientConfig; ap_identity : bool
}.

(** [New]: the invocations of the modules in order - migration, database, cache, event
    bus, workflow, outbound, gRPC, HTTP - each with the constructors it needs and that
    have not run yet. *)
Definition New (cfg : config.Config) : res App :=
  logger ← newLogger cfg;
  _ ← runStartupMigration cfg;
  db ← newDatabase cfg;
  tracing ← NewTracing cfg;
  redis ← newRedis cfg (tr_enabled tracing);
  bus ← newBus cfg;
  store ← newWorkflowOutboxStore db;
  repository ← newWorkflowRepository db store (Some tt);
  registry ← NewRegistry newBreaker newClient cfg;
  invoker ← newDynamicGRPCInvoker cfg (Some registry);
  activities ← newWorkflowActivities cfg repository invoker;
  runtime ← NewRuntime cfg activities;
  identity ← auth_NewRuntime cfg;
  resolver ← newWorkflowAssignmentResolver repository registry;
  applications ← newApplicationVerifier repository (Some registry);
  service ← newWorkflowService repository resolver applications;
  credentials ← grpc_NewServer cfg;
  _ ← http_NewServer cfg;
  Ok (mkApp logger tracing (idempotency_New redis cfg) credentials db redis store repository bus registry runtime service (authorization_New registry) identity).

(** ** Starting *)

(** [workflowEventRuntime.start]: the dispatcher and the cleaner of the outbox, and the
    consumer of the commands. *)
Definition start_events (cfg : config.Config) (app : App) : res (option CommandHandler) :=
  let e := config.c_EventBus cfg in
  if negb (config.eb_Enabled e) then Ok None
  else if is_nil (ap_store app) || is_nil (ap_bus app)
  then Err (ErrorNew "enabled workflow event bus requires database outbox and JetStream")
  else
    _ ← outbox_New (config.eb_DispatchBatchSize e) (config.eb_DispatchLease e) (config.eb_DispatchRetryDelay e);
    _ ← outbox_NewRetentionCleaner (config.eb_PublishedRetention e) (config.eb_CleanupBatchSize e);
    if config.tmp_Enabled (config.c_Temporal cfg) then
      handler ← NewCommandHandler (Some (ap_runtime app)) (config.tmp_TaskQueue (config.c_Temporal cfg));
      Ok (Some handler)
    else Ok None.

Definition start_worker (app : App) : res unit :=
  if rt_Client (ap_runtime app) then wrap_res "start Temporal worker: %w" worker_Start else Ok tt.
Definition start_grpc (cfg : config.Config) : res unit :=
  if negb (config.grpc_Enabled (config.c_GRPC cfg)) then Ok tt
  else wrap_res "listen grpc: %w" (net_Listen (config.grpc_Address (config.c_GRPC cfg))).
Definition start_http (cfg : config.Config) : res unit :=
  wrap_res "listen http: %w" (net_Listen (config.http_Address (config.c_HTTP cfg))).

(** The hooks in the order they were appended. *)
Definition start (cfg : config.Config) (app : App) : res (option CommandHandler) :=
  _ ← start_worker app;
  handler ← start_events cfg app;
  _ ← start_grpc cfg;
  _ ← start_http cfg;
  Ok handler.

Definition main (cfg : config.Config) : res (App * option CommandHandler) :=
  app ← New cfg; handler ← start cfg app; Ok (app, handler).

(** ** Which configurations start *)

(** An environment in which everything outside answers what this configuration asks of
    it: the directory of the log can be made, the servers that are switched on are there,
    the files that are named can be read, the libraries accept their settings. *)
Record cooperative (cfg : config.Config) : Prop := {
  co_logs : is_ok (make_directory_of (config.log_File (config.c_Log cfg))) = true;
  co_otlp : config.obs_TracingEnabled (config.c_Observability cfg) = true ->
    otlp_New (config.obs_TracingEndpoint (config.c_Observability cfg)) = Ok tt;
  co_migration : config.mig_AutoUp (config.c_Migration cfg) = true -> migration_Run (config.c_Migration cfg) = [];
  co_open : config.isDBType (config.db_Type (config.c_Database cfg)) = true -> is_ok (Open (config.c_Database cfg)) = true;
  co_redis : config.redis_Enabled (config.c_Redis cfg) = true -> redis_Ping (config.c_Redis cfg) = Ok tt;
  co_instrument : InstrumentTracing = Ok tt;
  co_bus : config.eb_Enabled (config.c_EventBus cfg) = true -> platformeventbus_New (bus_config cfg) = Ok tt;
  co_store : outbox_NewSQLStore "workflow_outbox_events" = Ok tt;
  co_invoker : dynamicgrpc_New = Ok tt;
  co_temporal_files : client_files (config.tmp_TLS (config.c_Temporal cfg));
  co_temporal tlsConfig : config.tmp_Enabled (config.c_Temporal cfg) = true ->
    temporal_Dial (mkTemporalOptions (config.tmp_HostPort (config.c_Temporal cfg)) (config.tmp_Namespace (config.c_Temporal cfg))
      (config.app_Name (config.c_App cfg)) tlsConfig) = Ok tt;
  co_jwks : NewJWKSVerifier (config.auth_JWKSURL (config.c_Auth cfg)) (config.auth_Issuer (config.c_Auth cfg))
    (config.auth_Audience (config.c_Auth cfg)) = Ok tt;
  co_proxies : SetTrustedProxies (config.http_TrustedProxies (config.c_HTTP cfg)) = Ok tt;
  co_server_files : files_load (config.gtls_ClientCAFile (config.grpc_TLS (config.c_GRPC cfg)))
    (config.gtls_CertFile (config.grpc_TLS (config.c_GRPC cfg))) (config.gtls_KeyFile (config.grpc_TLS (config.c_GRPC cfg)));
  co_outbox : outbox_New (config.eb_DispatchBatchSize (config.c_EventBus cfg)) (config.eb_DispatchLease (config.c_EventBus cfg))
    (config.eb_DispatchRetryDelay (config.c_EventBus cfg)) = Ok tt;
  co_cleaner : outbox_NewRetentionCleaner (config.eb_PublishedRetention (config.c_EventBus cfg))
    (config.eb_CleanupBatchSize (config.c_EventBus cfg)) = Ok tt;
  co_worker : worker_Start = Ok tt;
  co_listen_grpc : net_Listen (config.grpc_Address (config.c_GRPC cfg)) = Ok tt;
  co_listen_http : net_Listen (config.http_Address (config.c_HTTP cfg)) = Ok tt;
  co_upstream_files : upstream_files cfg;
  co_key : key_needed;
  co_client target : newClient target = Ok tt
}.

(** What [Validate] does not ask for and the assembly needs. *)
Definition startable (cfg : config.Config) : Prop :=
  level_known (config.log_Level (config.c_Log cfg)) /\
  (forall name u, config.out_HTTP (config.c_Outbound cfg) !! name = Some u -> http_startable u) /\
  (config.db_Enabled (config.c_Database cfg) = true -> is_Some (config.out_GRPC (config.c_Outbound cfg) !! "authorization")) /\
  (config.eb_Enabled (config.c_EventBus cfg) = true -> config.db_Enabled (config.c_Database cfg) = true).

(** What a service that started has. *)
Record running (cfg : config.Config) (app : App) (handler : option CommandHandler) : Prop := {
  rn_logger : parse_level (ToLower (config.log_Level (config.c_Log cfg))) = Some (lg_level (ap_logger app));
  rn_tracing : is_Some (tr_provider (ap_tracing app)) <-> config.obs_TracingEnabled (config.c_Observability cfg) = true;
  rn_database : is_Some (ap_db app) <-> config.db_Enabled (config.c_Database cfg) = true;
  rn_service : is_Some (ap_service app) <-> config.db_Enabled (config.c_Database cfg) = true;
  rn_redis : is_Some (ap_redis app) <-> config.redis_Enabled (config.c_Redis cfg) = true;
  rn_idempotency : ic_Enabled (im_config (ap_idempotency app)) = true -> is_Some (im_client (ap_idempotency app));
  rn_bus : is_Some (ap_bus app) <-> config.eb_Enabled (config.c_EventBus cfg) = true;
  rn_commands : is_Some handler <-> config.tmp_Enabled (config.c_Temporal cfg) = true;
  rn_authorizer : config.az_Enabled (config.c_Authorization cfg) = true -> is_Some (ap_authorizer app);
  rn_identity : ap_identity app = negb (str_empty (config.auth_JWKSURL (config.c_Auth cfg)));
  rn_credentials : is_Some (ap_credentials app) <-> config.gtls_Enabled (config.grpc_TLS (config.c_GRPC cfg)) = true
}.

Section starts.
Context (cfg : config.Config) (Hv : config.Validate cfg = Ok tt) (Hco : cooperative cfg).

(** A part that is there exactly if it is switched on. *)
Definition switched {A} (on : bool) (r : res (option A)) : Prop := exists o, r = Ok o /\ (is_Some o <-> on = true).

Lemma switched_on {A} (x : A) : switched true (Ok (Some x)).
Proof. exists (Some x). split; [done|]. split; [done|by eexists]. Qed.
Lemma switched_off {A} : switched (A := A) false (Ok None).
Proof. exists None. split; [done|]. split; [by intros []|done]. Qed.
Hint Resolve switched_on switched_off : core.

Lemma newDatabase_switched : switched (config.db_Enabled (config.c_Database cfg)) (newDatabase cfg).
Proof.
  unfold newDatabase. destruct (config.db_Enabled (config.c_Database cfg)) eqn:Hon; cbn [negb]; [|auto].
  destruct (cf_application _ (Validate_configured cfg Hv) Hon) as (_ & _ & Hty). pose proof (co_open _ Hco Hty) as Hop.
  destruct (Open (config.c_Database cfg)) as [p|]; [cbn; auto|done].
Qed.

Lemma newRedis_switched t : switched (config.redis_Enabled (config.c_Redis cfg)) (newRedis cfg t).
Proof.
  unfold newRedis, cache_Open. destruct (config.redis_Enabled _) eqn:Hon; cbn [negb]; [|auto]. rewrite (co_redis _ Hco Hon).
  destruct t; [rewrite (co_instrument _ Hco)|]; cbn; auto.
Qed.

Lemma newBus_switched : switched (config.eb_Enabled (config.c_EventBus cfg)) (newBus cfg).
Proof.
  unfold newBus, eventbus_New. destruct (config.eb_Enabled _) eqn:Hon; cbn [negb]; [|cbn; auto]. rewrite (co_bus _ Hco Hon). cbn. auto.
Qed.

Lemma NewTracing_switched : exists t, NewTracing cfg = Ok t /\
  (is_Some (tr_provider t) <-> config.obs_TracingEnabled (config.c_Observability cfg) = true).
Proof.
  unfold NewTracing. destruct (config.obs_TracingEnabled _) eqn:Hon; cbn [negb].
  - rewrite (co_otlp _ Hco Hon). cbn. eexists. split; [done|]. split; [done|by eexists].
  - eexists. split; [done|]. split; [by intros []|done].
Qed.

Lemma grpc_NewServer_switched : switched (config.gtls_Enabled (config.grpc_TLS (config.c_GRPC cfg))) (grpc_NewServer cfg).
Proof.
  unfold grpc_NewServer. destruct (config.gtls_Enabled _) eqn:Hon; [|auto].
  destruct (cf_grpc_tls _ (Validate_configured cfg Hv) Hon) as [Hc Hk].
  pose proof (serverCredentials_loads _ (co_server_files _ Hco) Hc Hk) as Hs. destruct (serverCredentials _); [cbn; auto|done].
Qed.

Lemma migration_done : runStartupMigration cfg = Ok tt.
Proof. unfold runStartupMigration. destruct (config.mig_AutoUp _) eqn:Hon; [|done]. by rewrite (co_migration _ Hco Hon). Qed.
Lemma identity_done : auth_NewRuntime cfg = Ok (negb (str_empty (config.auth_JWKSURL (config.c_Auth cfg)))).
Proof. unfold auth_NewRuntime. destruct (str_empty _); [done|]. by rewrite (co_jwks _ Hco). Qed.
Lemma http_done : http_NewServer cfg = Ok tt.
Proof. unfold http_NewServer. by rewrite (co_proxies _ Hco). Qed.
Lemma listening : start_grpc cfg = Ok tt /\ start_http cfg = Ok tt.
Proof.
  unfold start_grpc, start_http. rewrite (co_listen_grpc _ Hco), (co_listen_http _ Hco). by destruct (negb _).
Qed.

(** What [New] makes of a registry: the order of the parts, the platform's done. *)
Lemma New_parts logger registry : newLogger cfg = Ok logger -> NewRegistry newBreaker newClient cfg = Ok registry ->
  exists tracing db redis bus credentials,
    (is_Some (tr_provider tracing) <-> config.obs_TracingEnabled (config.c_Observability cfg) = true) /\
    (is_Some db <-> config.db_Enabled (config.c_Database cfg) = true) /\
    (is_Some redis <-> config.redis_Enabled (config.c_Redis cfg) = true) /\
    (is_Some bus <-> config.eb_Enabled (config.c_EventBus cfg) = true) /\
    (is_Some credentials <-> config.gtls_Enabled (config.grpc_TLS (config.c_GRPC cfg)) = true) /\
    New cfg = (
      store ← newWorkflowOutboxStore db;
      repository ← newWorkflowRepository db store (Some tt);
      invoker ← newDynamicGRPCInvoker cfg (Some registry);
      activities ← newWorkflowActivities cfg repository invoker;
      runtime ← NewRuntime cfg activities;
      resolver ← newWorkflowAssignmentResolver repository registry;
      applications ← newApplicationVerifier repository (Some registry);
      service ← newWorkflowService repository resolver applications;
      Ok (mkApp logger tracing (idempotency_New redis cfg) credentials db redis store repository bus registry runtime service
            (authorization_New registry) (negb (str_empty (config.auth_JWKSURL (config.c_Auth cfg)))))).
Proof.
  intros Hlog Hreg. destruct NewTracing_switched as (tracing & Ht & Hte), newDatabase_switched as (db & Hdb & Hdbe).
  destruct (newRedis_switched (tr_enabled tracing)) as (redis & Hr & Hre), newBus_switched as (bus & Hbus & Hbuse).
  destruct grpc_NewServer_switched as (credentials & Hg & Hge). exists tracing, db, redis, bus, credentials. do 5 (split; [done|]).
  unfold New. rewrite Hlog, migration_done, Hdb, Ht. cbn [mbind result_bind].
  rewrite Hr, Hbus, Hreg, identity_done, Hg, http_done. cbn [mbind result_bind].
  destruct (newWorkflowOutboxStore db) as [store|]; cbn [mbind result_bind]; [|done].
  destruct (newWorkflowRepository db store (Some tt)) as [repository|]; cbn [mbind result_bind]; [|done].
  destruct (newDynamicGRPCInvoker _ _) as [invoker|]; cbn [mbind result_bind]; [|done].
  destruct (newWorkflowActivities _ _ _) as [activities|]; cbn [mbind result_bind]; [|done].
  destruct (NewRuntime _ _) as [runtime|]; cbn [mbind result_bind]; [|done].
  destruct (newWorkflowAssignmentResolver _ _) as [resolver|]; cbn [mbind result_bind]; [|done].
  destruct (newApplicationVerifier _ _) as [applications|]; cbn [mbind result_bind]; [|done].
  by destruct (newWorkflowService _ _ _).
Qed.

(** The commands a service that started consumes. *)
Definition consumer : option CommandHandler :=
  if config.tmp_Enabled (config.c_Temporal cfg) then Some (mkCommandHandler (config.tmp_TaskQueue (config.c_Temporal cfg))) else None.

Lemma Temporal_parts registry repository : 
  (invoker ← newDynamicGRPCInvoker cfg (Some registry);
   activities ← newWorkflowActivities cfg repository invoker;
   NewRuntime cfg activities) = Ok (mkTemporalRuntime (config.tmp_Enabled (config.c_Temporal cfg))).
Proof.
  unfold newDynamicGRPCInvoker, newWorkflowActivities, NewRuntime. rewrite (co_invoker _ Hco).
  destruct (config.tmp_Enabled (config.c_Temporal cfg)) eqn:Hon; [|done]. cbn.
  pose proof (temporalTLS_loads _ (co_temporal_files _ Hco) (cf_temporal_tls _ (Validate_configured cfg Hv))) as Htls.
  destruct (temporalTLS _) as [o|]; [|done]. cbn. by rewrite (co_temporal _ Hco o Hon).
Qed.

(** Without the client of the decision point there is no service on a database. *)
Lemma New_exact logger registry : newLogger cfg = Ok logger -> NewRegistry newBreaker newClient cfg = Ok registry ->
  (forall name, is_Some (rg_grpc registry !! name) <-> is_Some (config.out_GRPC (config.c_Outbound cfg) !! name)) ->
  match New cfg with
  | Ok app => (config.db_Enabled (config.c_Database cfg) = true -> is_Some (config.out_GRPC (config.c_Outbound cfg) !! "authorization")) /\
      running cfg app consumer /\
      (is_Some (ap_store app) <-> config.db_Enabled (config.c_Database cfg) = true) /\
      rt_Client (ap_runtime app) = config.tmp_Enabled (config.c_Temporal cfg)
  | Err _ => config.db_Enabled (config.c_Database cfg) = true /\ config.out_GRPC (config.c_Outbound cfg) !! "authorization" = None
  end.
Proof.
  intros Hlog Hreg Hdom. pose proof (Validate_configured cfg Hv) as Hc.
  destruct (New_parts logger registry Hlog Hreg) as (tracing & db & redis & bus & credentials & Htr & Hdb & Hre & Hbus & Hcr & ->).
  pose proof (newLogger_level cfg logger Hlog) as Hlev.
  assert (Hidem : config.idem_Enabled (config.c_Idempotency cfg) = true -> is_Some redis)
    by (intros H; by apply Hre, (cf_idempotency _ Hc)).
  assert (Haz : config.az_Enabled (config.c_Authorization cfg) = true -> is_Some (authorization_New registry))
    by (intros H; by apply Hdom, (cf_authorization _ Hc)).
  assert (Hcons : is_Some consumer <-> config.tmp_Enabled (config.c_Temporal cfg) = true)
    by (unfold consumer; destruct (config.tmp_Enabled _); [split; [done|by eexists]|split; [by intros []|done]]).
  destruct db as [pool|].
  - assert (Hon : config.db_Enabled (config.c_Database cfg) = true) by (apply Hdb; by eexists).
    unfold newWorkflowOutboxStore. rewrite (co_store _ Hco). cbn [mbind result_bind newWorkflowRepository is_nil NewRepository of_pointer orb].
    pose proof (Temporal_parts registry (Some mkRepository)) as Htp.
    apply res_bind_Ok in Htp as (invoker & -> & Htp). cbn [mbind result_bind]. apply res_bind_Ok in Htp as (activities & -> & Htp).
    cbn [mbind result_bind]. rewrite Htp.
    cbn [mbind result_bind newWorkflowAssignmentResolver newApplicationVerifier]. unfold registry_GRPC.
    destruct (proj1 (cf_application _ Hc Hon)) as [app Happ].
    destruct (proj2 (Hdom "application") (ex_intro _ app Happ)) as [capp Hcapp]. rewrite Hcapp.
    destruct (rg_grpc registry !! "authorization") as [cauth|] eqn:Hauth; cbn.
    + split; [intros _; apply Hdom; by rewrite Hauth|].
      split; [split; try done|]; cbn; rewrite ?Hon; (split; [split; [done|by eexists]|done] || (split; [done|by eexists])).
    + split; [done|]. destruct (config.out_GRPC (config.c_Outbound cfg) !! "authorization") eqn:Ho; [|done].
      destruct (proj2 (Hdom "authorization")) as [? Hx]; [by rewrite Ho|congruence].
  - assert (Hoff : config.db_Enabled (config.c_Database cfg) = false) by (apply not_true_iff_false; intros H; by destruct (proj2 Hdb H)).
    cbn [mbind result_bind newWorkflowOutboxStore newWorkflowRepository is_nil].
    pose proof (Temporal_parts registry None) as Htp.
    apply res_bind_Ok in Htp as (invoker & -> & Htp). cbn [mbind result_bind]. apply res_bind_Ok in Htp as (activities & -> & Htp).
    cbn [mbind result_bind]. rewrite Htp.
    cbn. rewrite Hoff. split; [done|].
    split; [split; try done|]; cbn; rewrite ?Hoff; (split; [split; [by intros []|done]|done] || (split; [by intros []|done])).
Qed.

(** Without a logger or a registry there is no service. *)
Lemma New_without : is_ok (newLogger cfg) = false \/ is_ok (NewRegistry newBreaker newClient cfg) = false -> is_ok (New cfg) = false.
Proof.
  unfold New. destruct (newLogger cfg) as [logger|]; [|done]. intros [?|Hr]; [done|]. cbn [mbind result_bind].
  rewrite migration_done. destruct newDatabase_switched as (db & -> & _), NewTracing_switched as (t & -> & _). cbn [mbind result_bind].
  destruct (newRedis_switched (tr_enabled t)) as (redis & -> & _), newBus_switched as (bus & -> & _). cbn [mbind result_bind].
  destruct (newWorkflowOutboxStore db) as [store|]; [|done]. cbn [mbind result_bind].
  destruct (newWorkflowRepository db store (Some tt)); [|done]. cbn [mbind result_bind]. by destruct (NewRegistry _ _ _).
Qed.

(** The background work of a service that was built. *)
Lemma start_exact app : running cfg app consumer -> rt_Client (ap_runtime app) = config.tmp_Enabled (config.c_Temporal cfg) ->
  match start cfg app with
  | Ok handler => handler = consumer /\ (config.eb_Enabled (config.c_EventBus cfg) = true -> is_Some (ap_store app))
  | Err _ => config.eb_Enabled (config.c_EventBus cfg) = true /\ ap_store app = None
  end.
Proof.
  intros Hrun Hrt. destruct listening as [Hg Hh]. unfold start, start_worker. rewrite Hrt, (co_worker _ Hco).
  assert (Hw : (if config.tmp_Enabled (config.c_Temporal cfg) then wrap_res "start Temporal worker: %w" (Ok tt) else Ok tt) = Ok tt)
    by (by destruct (config.tmp_Enabled _)).
  rewrite Hw. cbn [mbind result_bind]. unfold start_events. pose proof (rn_bus _ _ _ Hrun) as Hbus.
  pose proof (cf_temporal _ (Validate_configured cfg Hv)) as Htc.
  destruct (config.eb_Enabled (config.c_EventBus cfg)) eqn:Heb; cbn [negb].
  - destruct (ap_bus app) as [bus|]; [|by destruct (proj2 Hbus eq_refl)].
    destruct (ap_store app) as [store|]; cbn [is_nil orb]; [|done].
    rewrite (co_outbox _ Hco), (co_cleaner _ Hco). cbn [mbind result_bind]. unfold consumer, NewCommandHandler in *. rewrite Hrt.
    destruct (config.tmp_Enabled (config.c_Temporal cfg)) eqn:Htm; cbn [negb orb].
    + destruct (Htc eq_refl) as (_ & _ & Hq). apply str_empty_false in Hq. rewrite Hq.
      cbn [mbind result_bind]. rewrite Hg, Hh. cbn. split; [done|by eexists].
    + cbn [mbind result_bind]. rewrite Hg, Hh. cbn. split; [done|by eexists].
  - cbn [mbind result_bind]. rewrite Hg, Hh. cbn [mbind result_bind]. split; [|done].
    unfold consumer. destruct (config.tmp_Enabled (config.c_Temporal cfg)); [|done]. by destruct (Htc eq_refl) as (_ & He & _).
Qed.

(** C37. Which accepted configurations start: in an environment where everything the
    configuration names is there and answers, a configuration that [Validate] accepts
    starts exactly when, in addition, the level of the log is known, every HTTP
    upstream has a base URL with scheme and host, TLS for its credentials and a key for
    its certificate, a service with a database has the upstream of the decision point, and an event bus comes with a database -
    conditions the assembly imposes and [Validate] does not check.  A service that
    started has exactly the parts its configuration switches on: the workflow with the
    database, the consumer of commands with Temporal, the credentials of the gRPC server
    with TLS, the traces; a logger of the level that was asked for; a client for the
    idempotency keys and an authorizer whenever these are on. *)
Theorem startup_exact :
  match main cfg with
  | Ok (app, handler) => startable cfg /\ running cfg app handler
  | Err _ => ~ startable cfg
  end.
Proof.
  unfold main. pose proof (newLogger_exact cfg) as Hlog.
  pose proof (NewRegistry_exact newBreaker newClient (co_client _ Hco) (co_key _ Hco) cfg Hv (co_upstream_files _ Hco)) as Hreg.
  pose proof New_without as Hno. pose proof (co_logs _ Hco) as Hdir.
  destruct (newLogger cfg) as [logger|e] eqn:Hl.
  2: { specialize (Hno (or_introl eq_refl)). destruct (New cfg); [done|]. intros (Hk & _). discriminate (proj2 Hlog (conj Hdir Hk)). }
  destruct (NewRegistry newBreaker newClient cfg) as [registry|e] eqn:Hr.
  2: { specialize (Hno (or_intror eq_refl)). destruct (New cfg); [done|]. destruct Hreg as (name & u & Hu & Hx).
       intros (_ & Hs & _). by apply Hx, (Hs name u). }
  destruct Hreg as [Hsafe Hdom]. pose proof (New_exact logger registry Hl Hr Hdom) as Hnew. destruct (New cfg) as [app|e]; cbn [mbind result_bind].
  2: { destruct Hnew as [Hon Hna]. intros (_ & _ & Ha & _). specialize (Ha Hon). rewrite Hna in Ha. by destruct Ha. }
  destruct Hnew as (Hauth & Hrun & Hstore & Hrt). pose proof (start_exact app Hrun Hrt) as Hst.
  destruct (start cfg app) as [handler|e]; cbn [mbind result_bind].
  - destruct Hst as [-> Heb]. split; [|done]. split; [by apply (proj1 Hlog)|]. split; [done|]. split; [done|]. intros H. by apply Hstore, Heb.
  - destruct Hst as [Heb Hns]. intros (_ & _ & _ & Hdb). apply Hstore in Hdb; [|done]. rewrite Hns in Hdb. by destruct Hdb.
Qed.
End starts.
End wiring.

Module Started.
Import ConfigSpec.Production.

#[export] Instance drivers : Drivers := {|
  PgxRest := unit; MysqlRest := unit;
  pgx_ParseConfig := fun _ => Ok (mkPgxConfig "" ∅ tt); mysql_ParseDSN := fun _ => Ok (mkMysqlConfig "" false "" tt);
  LoadLocation := fun l => Ok l; mysql_open := fun _ => Ok tt; ping_pgx := fun _ _ => Ok tt; ping_mysql := fun _ _ => Ok tt
|}.
#[export] Instance urls : UrlLibrary :=
  {| url_base := fun _ => true; url_resolve := fun base path => Some (base +:+ path); http_method_valid := fun _ => true |}.
#[export] Instance log_files : LogFiles := {| make_directory_of := fun _ => Ok tt |}.
#[export] Instance certificates : Certificates := {|
  Cert := unit; KeyPair := unit; ReadFile := fun _ => Ok "PEM"; pem_certificates := fun _ => [tt];
  LoadX509KeyPair := fun _ key => if str_empty key then Err (ErrorNew "no such file") else Ok tt; SystemCertPool := Ok []
|}.
#[export] Instance platform : Platform := {|
  linked := unset 0; otlp_New := fun _ => Ok tt; migration_Run := fun _ => []; redis_Ping := fun _ => Ok tt;
  InstrumentTracing := Ok tt; platformeventbus_New := fun _ => Ok tt; outbox_NewSQLStore := fun _ => Ok tt; dynamicgrpc_New := Ok tt;
  temporal_Dial := fun _ => Ok tt; NewJWKSVerifier := fun _ _ _ => Ok tt;
  SetTrustedProxies := fun _ => Ok tt; outbox_New := fun _ _ _ => Ok tt;
  outbox_NewRetentionCleaner := fun _ _ => Ok tt; worker_Start := Ok tt; net_Listen := fun _ => Ok tt
|}.
Definition client (_ : string) : res unit := Ok tt.
Definition breaker (_ : string) (_ : config.Breaker) : unit := tt.

Lemma files_there ca cert key : files_load ca cert key.
Proof.
  split; [by exists [tt], "PEM"|]. intros _ Hk. apply str_empty_false in Hk. cbn. by rewrite Hk.
Qed.

Lemma everything_answers cfg : cooperative client cfg.
Proof.
  split; try (intros; reflexivity); try apply files_there; [|by split; intros; apply files_there|by intros c].
  intros Hd. unfold config.isDBType in Hd. unfold Open, driverName, connect, ping.
  repeat (apply orb_prop in Hd as [Hd|Hd]); apply String.eqb_eq in Hd; rewrite Hd; reflexivity.
Qed.

(** The sample outside production and without authorization. *)
Definition staging (log : config.Log) (outbound : config.Outbound) : config.Config :=
  config.mkConfig (config.mkRuntime "staging" []) (config.mkApp "workflow-service" "" "staging" 10000000000) (config.c_HTTP sample)
    (config.c_GRPC sample) log (config.c_Database sample) (config.c_Redis sample) (config.c_Health sample) (config.c_RateLimit sample)
    (config.c_Observability sample) (config.c_Swagger sample) (config.c_JWT sample) (config.c_Auth sample)
    (config.mkAuthorization false) (config.c_Migration sample) (config.c_Idempotency sample) outbound (config.c_EventBus sample)
    (config.c_Temporal sample) (config.c_Retention sample).

(** Without the upstream of the decision point. *)
Definition without_authorization : config.Config :=
  staging (config.c_Log sample) (config.mkOutbound ∅ (<["application" := upstream "psk" key32]> ∅)).
Example accepted_not_started : config.Validate without_authorization = Ok tt /\
  main breaker client without_authorization = Err (ErrorNew "workflow service requires outbound.grpc.authorization").
Proof. split; vm_compute; reflexivity. Qed.

(** With a level that [log/slog] does not know. *)
Definition level_warning : config.Config :=
  staging (config.mkLog "warning" "json" "" 100 10 30 true) (config.c_Outbound sample).
Example warning_not_started : config.Validate level_warning = Ok tt /\ is_ok (main breaker client level_warning) = false.
Proof. split; vm_compute; reflexivity. Qed.

(** With a client certificate and no key on an HTTP upstream without TLS. *)
Definition half_pair : config.Config :=
  staging (config.c_Log sample)
    (config.mkOutbound
       (<["files" := config.mkHTTPUpstream "http://files" 2000000000 (config.mkClientAuth "" "")
                       (config.mkRetry 3 50000000 1000000000 []) (config.mkBreaker true 5 10000000000)
                       (config.mkClientTLS false false "" "" "/etc/client.pem" "")]> ∅)
       (config.out_GRPC (config.c_Outbound sample))).
Example half_pair_not_started : config.Validate half_pair = Ok tt /\ is_ok (main breaker client half_pair) = false.
Proof. split; vm_compute; reflexivity. Qed.

(** What they lack is all they lack. *)
Definition complete : config.Config := staging (config.c_Log sample) (config.c_Outbound sample).
Example complete_started : config.Validate complete = Ok tt /\ is_ok (main breaker client complete) = true.
Proof. split; vm_compute; reflexivity. Qed.

Lemma startup_exact_witness : ~ startable without_authorization.
Proof.
  pose proof (startup_exact breaker client without_authorization (proj1 accepted_not_started) (everything_answers _)) as H.
  rewrite (proj2 accepted_not_started) in H. exact H.
Defined.
End Started.
