(* ===== verification/Shutdown.v ===== *)
(** * Stopping the service (internal/app, internal/outbound/registry.go,
      internal/transport)

    The dependency graph with the parameters of every constructor and the hooks the
    constructors append; fx builds in dependency order and stops the hooks that
    started in reverse.  The file says that nothing is closed under a part that is
    still at work - also when the start fails half way - and what the hooks of the
    gRPC server and of the registry of clients do. *)
From S2P Require Import Prelude GoStd Model Graph PathMatch Config ConfigSpec Outbound.
From Stdlib Require Import Ascii String.
From stdpp Require Import relations.
Local Open Scope string_scope.
Local Open Scope list_scope.

(** ** The dependency graph *)

(** What the modules provide, by the type of the result. *)
Inductive Comp : Type :=
| Logger | Tracing | Metrics | DB | Redis | Bus | OutboxStore | EventFactory | Repository | AssignmentResolver
| ApplicationVerifier | WorkflowService | Invoker | Activities | TemporalRuntime | EventRuntime | RetentionCleaner
| IdempotencyManager | Registry | Authorizer | AuthService | Health | Limiter | Handler | GrpcServer | HttpServer.

#[global] Instance comp_eq_dec : EqDecision Comp.
Proof. solve_decision. Defined.

Definition all_comps : list Comp :=
  [Logger; Tracing; Metrics; DB; Redis; Bus; OutboxStore; EventFactory; Repository; AssignmentResolver;
   ApplicationVerifier; WorkflowService; Invoker; Activities; TemporalRuntime; EventRuntime; RetentionCleaner;
   IdempotencyManager; Registry; Authorizer; AuthService; Health; Limiter; Handler; GrpcServer; HttpServer].

(** The parameters of the constructors, other than the lifecycle and the
    configuration: those of app.go and of the packages it provides directly ... *)
Definition app_params (c : Comp) : list Comp :=
  match c with
  | Redis => [Tracing]
  | Metrics => [DB; Redis]
  | IdempotencyManager => [Redis]
  | Authorizer => [Registry]
  | Registry => [Metrics]
  | _ => []
  end.

(** ... of the workflow module ... *)
Definition workflow_params (c : Comp) : list Comp :=
  match c with
  | OutboxStore => [DB]
  | Repository => [DB; OutboxStore; EventFactory]
  | AssignmentResolver | ApplicationVerifier => [Repository; Registry]
  | WorkflowService => [Repository; AssignmentResolver; ApplicationVerifier]
  | Invoker => [Registry]
  | Activities => [Repository; Invoker]
  | TemporalRuntime => [Activities]
  | EventRuntime => [OutboxStore; Bus; TemporalRuntime; Logger]
  | RetentionCleaner => [Repository; Logger]
  | _ => []
  end.

(** ... and of the transports. *)
Definition http_params (c : Comp) : list Comp :=
  match c with
  | Health => [DB; Redis]
  | Limiter => [Redis]
  | Handler => [Health; WorkflowService; Logger]
  | HttpServer => [Handler; AuthService; Authorizer; Limiter; IdempotencyManager; Metrics; Tracing; Logger]
  | _ => []
  end.
Definition grpc_params (c : Comp) : list Comp :=
  match c with
  | GrpcServer => [AuthService; Authorizer; WorkflowService; Health; IdempotencyManager; Metrics; Logger]
  | _ => []
  end.

Definition params (c : Comp) : list Comp := app_params c ++ workflow_params c ++ http_params c ++ grpc_params c.

(** The invocations of the modules, in their order. *)
Definition invocations : list (list Comp) :=
  [[Logger]; [DB; Logger]; [Redis; Logger]; [Bus]; [EventRuntime; TemporalRuntime; RetentionCleaner]; [Registry];
   [GrpcServer]; [HttpServer]].

(** The constructors that append a hook. *)
Definition hooks (cfg : config.Config) (c : Comp) : bool :=
  match c with
  | Logger | Bus | EventRuntime | RetentionCleaner | Registry | GrpcServer | HttpServer => true
  | DB => config.db_Enabled (config.c_Database cfg)
  | Redis => config.redis_Enabled (config.c_Redis cfg)
  | Tracing => config.obs_TracingEnabled (config.c_Observability cfg)
  | TemporalRuntime => config.tmp_Enabled (config.c_Temporal cfg)
  | AuthService => negb (str_empty (config.auth_JWKSURL (config.c_Auth cfg)))
  | _ => false
  end.

(** fx, as documented: a constructor runs at most once, after those of its
    parameters, for what is invoked; hooks are stopped in the reverse of the order
    they were appended in, and only those that started. *)
Class Fx := {
  fx_built : list Comp;
  fx_once : NoDup fx_built;
  fx_params : forall i c p, fx_built !! i = Some c -> p ∈ params c -> exists j, j < i /\ fx_built !! j = Some p;
  fx_invoked : forall c, c ∈ concat invocations -> c ∈ fx_built;
  fx_stop : list Comp -> list Comp;
  fx_stop_reverse : forall l, fx_stop l = reverse l
}.

(** [uses c r]: [c] holds, directly or through others, what [r] provides. *)
Definition uses : relation Comp := tc (fun c p => p ∈ params c).

(** What works on its own: requests, deliveries, activities, ticks. *)
Definition workers : list Comp := [HttpServer; GrpcServer; EventRuntime; TemporalRuntime; RetentionCleaner].

(** What their work touches. *)
Definition works_with (c : Comp) : list Comp :=
  match c with
  | HttpServer => [DB; Redis; Registry; AuthService; Tracing; Logger]
  | GrpcServer => [DB; Redis; Registry; AuthService; Logger]
  | EventRuntime => [DB; Bus; TemporalRuntime; Logger]
  | TemporalRuntime => [DB; Registry]
  | RetentionCleaner => [DB; Logger]
  | _ => []
  end.

Fixpoint closure (depth : nat) (c : Comp) : list Comp :=
  match depth with O => [] | S depth => params c ++ (params c ≫= closure depth) end.

Lemma closure_uses n c r : r ∈ closure n c -> uses c r.
Proof.
  revert c. induction n as [|n IH]; intros c; simpl; [by intros ?%not_elem_of_nil|].
  intros [Hr|(p & Hr & Hp)%list_elem_of_bind]%elem_of_app; [by apply tc_once|].
  eapply tc_l; [exact Hp|by apply IH].
Qed.

Lemma works_with_uses c r : r ∈ works_with c -> uses c r.
Proof.
  intros Hr. apply (closure_uses 10).
  assert (H : forallb (fun c => forallb (fun r => bool_decide (r ∈ closure 10 c)) (works_with c)) all_comps = true)
    by (vm_compute; reflexivity).
  rewrite forallb_forall in H. specialize (H c ltac:(destruct c; simpl; auto 40)).
  rewrite forallb_forall in H. by apply list_elem_of_In, H, bool_decide_eq_true_1 in Hr.
Qed.

(** ** The order *)

Section before.
Context {A : Type}.

Definition before (l : list A) (a b : A) : Prop := exists l1 l2 l3, l = l1 ++ a :: l2 ++ b :: l3.

Lemma before_lookup l a b i j : l !! i = Some a -> l !! j = Some b -> i < j -> before l a b.
Proof.
  intros Ha Hb Hij. exists (take i l), (take (j - S i) (drop (S i) l)), (drop (S j) l).
  rewrite <- (take_drop_middle l i a Ha) at 1. do 2 f_equal.
  rewrite <- (take_drop_middle (drop (S i) l) (j - S i) b) at 1; [|rewrite lookup_drop; by replace (S i + (j - S i)) with j by lia].
  do 2 f_equal. rewrite drop_drop. f_equal. lia.
Qed.

Lemma before_filter f l a b : before l a b -> f a = true -> f b = true -> before (List.filter f l) a b.
Proof.
  intros (l1 & l2 & l3 & ->) Ha Hb. exists (List.filter f l1), (List.filter f l2), (List.filter f l3).
  by rewrite List.filter_app; simpl; rewrite Ha, List.filter_app; simpl; rewrite Hb.
Qed.

Lemma before_indices l a b : before l a b -> exists i j, l !! i = Some a /\ l !! j = Some b /\ i < j.
Proof.
  intros (l1 & l2 & l3 & ->). exists (List.length l1), (List.length l1 + S (List.length l2)).
  split; [by apply list_lookup_middle|]. split; [|lia]. rewrite lookup_app_r by lia.
  replace (List.length l1 + S (List.length l2) - List.length l1) with (S (List.length l2)) by lia. simpl. by apply list_lookup_middle.
Qed.

(** Stopping in reverse: what comes before in the list is stopped after. *)
Lemma before_stopped l a b k n : NoDup l -> before l a b -> b ∈ take k l ->
  a ∈ take n (reverse (take k l)) -> b ∈ take n (reverse (take k l)).
Proof.
  intros Hnd (i & j & Ha & Hb & Hij)%before_indices [j' [Hj' Hjk]]%elem_of_take.
  pose proof (NoDup_lookup _ _ _ _ Hnd Hb Hj') as <-. rewrite take_reverse, !elem_of_reverse.
  set (m := List.length (take k l) - n). intros [i' Hi']%list_elem_of_lookup_1. rewrite lookup_drop, lookup_take_Some in Hi'.
  destruct Hi' as [Hi' _]. pose proof (NoDup_lookup _ _ _ _ Hnd Ha Hi') as ->.
  apply (list_elem_of_lookup_2 _ (j - m)). rewrite lookup_drop. replace (m + (j - m)) with j by lia.
  by apply lookup_take_Some.
Qed.
End before.

Section lifecycle.
Context {FX : Fx} (cfg : config.Config).

(** The hooks in the order of their constructors. *)
Definition appended : list Comp := List.filter (hooks cfg) fx_built.
(** The stop of a service whose first [k] hooks started. *)
Definition stopped (k : nat) : list Comp := fx_stop (take k appended).

Lemma params_before c p : c ∈ fx_built -> p ∈ params c -> before fx_built p c.
Proof.
  intros [i Hi]%list_elem_of_lookup_1 Hp. destruct (fx_params i c p Hi Hp) as (j & Hji & Hj). by eapply before_lookup.
Qed.

Lemma uses_before c r : uses c r -> c ∈ fx_built -> before fx_built r c.
Proof.
  induction 1 as [c r Hr|c p r Hp _ IH]; intros Hc; [by apply params_before|].
  destruct (before_indices _ _ _ (params_before c p Hc Hp)) as (i & j & Hi & Hj & Hij).
  destruct (before_indices _ _ _ (IH ltac:(by eapply list_elem_of_lookup_2))) as (i' & j' & Hi' & Hj' & Hij').
  pose proof (NoDup_lookup _ _ _ _ fx_once Hi Hj') as ->. eapply before_lookup; [exact Hi'|exact Hj|lia].
Qed.

Lemma appended_spec c : c ∈ appended <-> c ∈ fx_built /\ hooks cfg c = true.
Proof. unfold appended. by rewrite !list_elem_of_In, List.filter_In. Qed.

Lemma appended_once : NoDup appended.
Proof. apply NoDup_ListNoDup, List.NoDup_filter, NoDup_ListNoDup, fx_once. Qed.
End lifecycle.

(** C39. Nothing is closed under a part that works: whatever order fx builds in, if it
    builds parameters first and stops hooks in reverse, then at every moment of a stop
    - of the whole service or of one whose start failed half way - a server, the event
    workers, the Temporal worker or the cleaner that was started and is not stopped yet
    finds everything its work touches (tables, Redis, event bus, outbound connections,
    token keys, spans, logs) still open; and the whole stop closes exactly what started,
    once, every worker included. *)
Theorem stop_order_safe `{FX : Fx} cfg k n :
  let closed := take n (stopped cfg k) in
  (forall c r, r ∈ works_with c -> c ∈ take k (appended cfg) -> c ∉ closed -> r ∉ closed) /\
  (stopped cfg k ≡ₚ take k (appended cfg) /\ NoDup (stopped cfg k)) /\
  (forall c, c ∈ workers -> hooks cfg c = true -> c ∈ appended cfg).
Proof.
  cbv zeta. unfold stopped. rewrite fx_stop_reverse. split; [|split; [split|]].
  - intros c r Hr%works_with_uses Hc Hn Hrn. apply Hn.
    assert (Hca : c ∈ appended cfg) by (apply elem_of_take in Hc as (i & Hi & _); by eapply list_elem_of_lookup_2).
    assert (Hra : r ∈ appended cfg).
    { apply elem_of_take in Hrn as (i & Hi & _). apply list_elem_of_lookup_2, elem_of_reverse, elem_of_take in Hi as (j & Hj & _).
      by eapply list_elem_of_lookup_2. }
    apply appended_spec in Hca as [Hcb Hch]. apply appended_spec in Hra as [_ Hrh].
    eapply before_stopped; [apply appended_once| |exact Hc|exact Hrn].
    apply before_filter; [by apply uses_before|done|done].
  - apply reverse_Permutation.
  - rewrite reverse_Permutation. eapply sublist_NoDup; [apply appended_once|apply sublist_take].
  - intros c Hc Hh. apply appended_spec. split; [|done]. apply fx_invoked.
    apply list_elem_of_In in Hc. simpl in Hc. apply list_elem_of_In. simpl.
    destruct Hc as [<-|[<-|[<-|[<-|[<-|[]]]]]]; auto 20.
Qed.

(** ** What the hooks do *)

Section hooks.
Context {MR : MapRange} {Brk : Type}.

(** [connection.Close] of each outbound connection. *)
Context (close : string -> res unit).

(** The loop over [r.grpc]: the names closed so far and [closeErr]. *)
Definition close_connection (st : list string * option error) (connection : string * GrpcClientConfig) :
  list string * option error :=
  let '(closed, closeErr) := st in
  let '(name, _) := connection in
  match close name with
  | Ok _ => (closed ++ [name], closeErr)
  | Err err => (closed ++ [name], match closeErr with
      | None => Some (Wrap "close outbound gRPC client %q: %w" [name] err) | Some _ => closeErr end)
  end.

(** [Registry.close]: the HTTP clients whose idle connections were closed, the gRPC
    connections that were closed, and the error. *)
Definition registry_close (r : Outbound.Registry (Brk := Brk)) : (list string * list string) * option error :=
  let '(closed, closeErr) := foldl close_connection ([], None) (range (rg_grpc r)) in
  (((range (rg_http r)).*1, closed), closeErr).

Lemma close_connections l closed e :
  (foldl close_connection (closed, e) l).1 = closed ++ l.*1 /\
  ((foldl close_connection (closed, e) l).2 = None <-> e = None /\ Forall (fun name => is_ok (close name) = true) l.*1).
Proof.
  revert closed e. induction l as [|[name c] l IH]; intros closed e; simpl.
  { rewrite app_nil_r. split; [done|]. by split; [intros ->; split; [|constructor]|intros []]. }
  destruct (close name) as [[]|err] eqn:Hc; match goal with |- context [foldl _ (_, ?e') _] =>
    destruct (IH (closed ++ [name]) e') as [H1 H2] end; rewrite H1, H2, <- app_assoc, Forall_cons, Hc; simpl.
  - naive_solver.
  - destruct e; naive_solver.
Qed.

(** Every connection is closed, whichever close fails; an error is returned exactly if
    one did. *)
Lemma registry_close_complete r :
  (registry_close r).1.2 ≡ₚ (map_to_list (rg_grpc r)).*1 /\
  (registry_close r).1.1 ≡ₚ (map_to_list (rg_http r)).*1 /\
  ((registry_close r).2 = None <-> forall name, is_Some (rg_grpc r !! name) -> is_ok (close name) = true).
Proof.
  unfold registry_close. pose proof (close_connections (range (rg_grpc r)) [] None) as [H1 H2].
  destruct (foldl _ _ _) as [closed e]. cbn [fst snd app] in *. subst closed. rewrite !range_perm. split; [done|]. split; [done|].
  rewrite H2, range_perm, Forall_forall. split.
  - intros [_ H] name [c Hc]. apply H, list_elem_of_fmap. exists (name, c). split; [done|]. by apply elem_of_map_to_list.
  - intros H. split; [done|]. intros name ([n c] & -> & Hn)%list_elem_of_fmap. apply H. exists c. by apply elem_of_map_to_list.
Qed.

(** [Server.stop] of the gRPC server: what it calls and answers, by which of the two
    channels the [select] takes. *)
Inductive grpc_call : Type := GracefulStop | Stop.
Definition grpc_stop (finished_first : bool) (ctx_err : error) : list grpc_call * res unit :=
  if finished_first then ([GracefulStop], Ok tt) else ([GracefulStop; Stop], Err ctx_err).

(** [OnStop] of the Temporal runtime. *)
Inductive temporal_call : Type := WorkerStop | ClientClose.
Definition temporal_stop : list temporal_call := [WorkerStop; ClientClose].
End hooks.

(** ** The graph that fx builds

    Depth first, in the order of the invocations and of the parameters. *)
Module Built.

Fixpoint build (depth : nat) (c : Comp) (built : list Comp) : list Comp :=
  match depth with
  | O => built
  | S depth =>
      if bool_decide (c ∈ built) then built
      else foldl (fun built p => build depth p built) built (params c) ++ [c]
  end.
Definition order : list Comp := foldl (fun built c => build 12 c built) [] (concat invocations).

Definition well_ordered (l : list Comp) : bool :=
  forallb (fun i => match l !! i with
    | None => true
    | Some c => forallb (fun p => bool_decide (p ∈ take i l)) (params c)
    end) (seq 0 (List.length l)).

Lemma well_ordered_spec l i c p : well_ordered l = true -> l !! i = Some c -> p ∈ params c ->
  exists j, j < i /\ l !! j = Some p.
Proof.
  unfold well_ordered. rewrite forallb_forall. intros H Hi Hp.
  assert (Hlt : i < List.length l) by by eapply lookup_lt_Some.
  specialize (H i ltac:(apply in_seq; lia)). cbv beta in H. rewrite Hi, forallb_forall in H.
  apply list_elem_of_In, H, bool_decide_eq_true_1, elem_of_take in Hp as (j & ? & ?). by exists j.
Qed.

#[export, refine] Instance depth_first : Fx := {| fx_built := order; fx_stop := reverse |}.
Proof.
  - apply (bool_decide_eq_true_1 (NoDup order)). vm_compute. reflexivity.
  - intros i c p. apply well_ordered_spec. vm_compute. reflexivity.
  - apply Forall_forall, (bool_decide_eq_true_1 (Forall (fun c => c ∈ order) (concat invocations))). vm_compute. reflexivity.
  - reflexivity.
Defined.

(** It is the order of [Wiring.New]. *)
Example wiring_order : List.filter (fun c => bool_decide (c ∉ [Metrics; EventFactory; EventRuntime; RetentionCleaner;
    Health; IdempotencyManager; Limiter; Handler; Authorizer])) order =
  [Logger; DB; Tracing; Redis; Bus; OutboxStore; Repository; Registry; Invoker; Activities; TemporalRuntime; AuthService;
   AssignmentResolver; ApplicationVerifier; WorkflowService; GrpcServer; HttpServer].
Proof. vm_compute. reflexivity. Qed.

(** With a database, an event bus and Temporal, as the service is deployed. *)
Definition deployed (c : Comp) : bool :=
  match c with
  | AuthService => false | Tracing => false
  | c => bool_decide (c ∈ workers ++ [Logger; DB; Redis; Bus; Registry])
  end.

Example stop_sequence : reverse (List.filter deployed order) =
  [HttpServer; GrpcServer; RetentionCleaner; EventRuntime; TemporalRuntime; Registry; Bus; Redis; DB; Logger].
Proof. vm_compute. reflexivity. Qed.

(** In production, after the first two stops, and the whole sequence. *)
Lemma stop_order_safe_witness :
  DB ∉ take 2 (stopped ConfigSpec.Production.sample 100) /\ Bus ∉ take 2 (stopped ConfigSpec.Production.sample 100) /\
  NoDup (stopped ConfigSpec.Production.sample 100).
Proof.
  destruct (stop_order_safe ConfigSpec.Production.sample 100 2) as (H & [_ Hnd] & _).
  assert (Hk : EventRuntime ∈ take 100 (appended ConfigSpec.Production.sample)).
  { apply (bool_decide_eq_true_1 (EventRuntime ∈ take 100 (appended ConfigSpec.Production.sample))). vm_compute. reflexivity. }
  assert (Hn : EventRuntime ∉ take 2 (stopped ConfigSpec.Production.sample 100)).
  { apply (bool_decide_eq_true_1 (EventRuntime ∉ take 2 (stopped ConfigSpec.Production.sample 100))). vm_compute. reflexivity. }
  split; [|split; [|exact Hnd]]; apply (H EventRuntime); try assumption; apply list_elem_of_In; simpl; auto.
Defined.
End Built.
