(* ===== verification/Mains.v ===== *)
(** * The commands (cmd/api/main.go, cmd/migrate/main.go)

    What the two programs do with their flags: the service runs only on a
    configuration that was validated, and the migration tool reports by its exit
    status. *)
From S2P Require Import Prelude GoStd Model Graph PathMatch Config ConfigSpec Database Load Logging Tls Outbound Wiring.
From Stdlib Require Import Ascii String.
Local Open Scope string_scope.
Local Open Scope list_scope.

Section mains.
Context {VP : Viper} {MR : MapRange} {DR : Drivers} {UL : UrlLibrary} {LF : LogFiles} {CT : Certificates} {PF : Platform} {Brk : Type}.
Context (newBreaker : string -> config.Breaker -> Brk) (newClient : string -> res unit).

(** The flags, as the flag package parsed them. *)
Record ApiFlags : Type := mkApiFlags { af_config : string; af_env : string; af_version : bool }.

(** How a program ends: at once with an exit status, or by running the service. *)
Inductive program : Type := Exit (status : Z) | Serve (cfg : config.Config) (started : res (App (Brk := Brk) * option CommandHandler)).

Definition api_main (flags : ApiFlags) : program :=
  if af_version flags then Exit 0
  else match LoadWithProfile (af_config flags) (af_env flags) with
       | Err _ => Exit 1
       | Ok cfg => Serve cfg (Wiring.main newBreaker newClient cfg)
       end.

(** The service runs on validated configurations only, under the profile that was asked
    for; and nothing is opened to print the version or for a configuration that is
    refused. *)
Theorem api_main_validated flags cfg started : api_main flags = Serve cfg started ->
  af_version flags = false /\ config.Validate cfg = Ok tt /\
  LoadWithProfile (af_config flags) (af_env flags) = Ok cfg /\
  (ToLower (TrimSpace (af_env flags)) = "production" -> production_safe cfg).
Proof.
  unfold api_main. destruct (af_version flags); [done|].
  destruct (LoadWithProfile _ _) as [c|e] eqn:Hl; [|done]. intros [= -> _].
  destruct (Load_validated _ _ _ Hl) as (Hv & _ & _ & _ & _ & _ & Hp). by split_and!.
Qed.
End mains.

Section migrate.
Context {VP : Viper} {MR : MapRange} {UP : UrlParser} {SS : SqlServer} {ML : MigrateLibrary}.
Abbreviation W := (list (Statement * bool)).

Record MigrateFlags : Type := mkMigrateFlags { mf_config : string; mf_env : string; mf_direction : string; mf_steps : Z }.

Definition migrate_main (flags : MigrateFlags) (w : W) : Z * W :=
  if negb (String.eqb (mf_direction flags) "up") && negb (String.eqb (mf_direction flags) "down") then (2%Z, w)
  else match LoadWithProfile (mf_config flags) (mf_env flags) with
       | Err _ => (1%Z, w)
       | Ok cfg =>
           let '(errs, w') := Database.Run (config.c_Migration cfg) (mf_direction flags) (mf_steps flags) w in
           ((match errs with [] => 0 | _ => 1 end)%Z, w')
       end.

(** The exit status is the outcome: 0 exactly if the migrations of a loaded
    configuration ran without an error; a wrong direction or configuration leaves the
    database alone. *)
Theorem migrate_main_status flags w :
  ((migrate_main flags w).1 = 0%Z <->
     mf_direction flags ∈ ["up"; "down"] /\ exists cfg, LoadWithProfile (mf_config flags) (mf_env flags) = Ok cfg /\
       (Database.Run (config.c_Migration cfg) (mf_direction flags) (mf_steps flags) w).1 = []) /\
  ((migrate_main flags w).1 = 2%Z -> mf_direction flags ∉ ["up"; "down"]) /\
  (mf_direction flags ∉ ["up"; "down"] \/ (forall cfg, LoadWithProfile (mf_config flags) (mf_env flags) <> Ok cfg) ->
     (migrate_main flags w).2 = w).
Proof.
  assert (Hdir : negb (String.eqb (mf_direction flags) "up") && negb (String.eqb (mf_direction flags) "down") = true <->
    mf_direction flags ∉ ["up"; "down"]).
  { rewrite andb_true_iff, !negb_true_iff, !String.eqb_neq. set_solver. }
  unfold migrate_main. destruct (negb _ && negb _).
  { pose proof (proj1 Hdir eq_refl) as Hn. split; [|done]. split; [done|]. by intros [? _]. }
  assert (Hin : mf_direction flags ∈ ["up"; "down"]) by (destruct (decide (mf_direction flags ∈ ["up"; "down"])) as [?|Hn]; [done|by apply Hdir in Hn]).
  destruct (LoadWithProfile _ _) as [cfg|e].
  - destruct (Database.Run _ _ _ w) as [errs w'] eqn:Hrun. split; [|split].
    + split; [|by intros (_ & c & [= <-] & He); rewrite Hrun in He; cbn in He; subst errs].
      destruct errs; [|done]. intros _. split; [done|]. exists cfg. by rewrite Hrun.
    + by destruct errs.
    + intros [Hn|Hn]; [done|by destruct (Hn cfg)].
  - split; [|done]. split; [done|]. by intros (_ & c & ? & _).
Qed.
End migrate.
